(* ===== verification/_CoqProject ===== *)
-Q . S2P
Prelude.v
Naming.v
Api.v
Kube.v
Machinery.v
MemServer.v
Frames.v
Leads.v
Release.v
StorageDiscovery.v
Backend.v
EngineStorage.v
StorageRefinement.v
StorageProvider.v
Jobs.v
RepoStatus.v
RepoController.v
RepoProgress.v
RepoDeletion.v
RepoSafety.v
RepoConvergence.v
DownloadRefinement.v
GoStd.v
ReferenceJson.v
EngineConfig.v
VllmConfig.v
EngineAdapters.v
Workload.v
EngineStatus.v
EngineController.v
EngineLife.v
EngineProgress.v
EngineConvergence.v
EngineSafety.v
EngineDeletion.v
Teardown.v
EngineFrame.v
OperatorConvergence.v
GoMemory.v
DeepCopy.v
StatusSync.v
E2eUtils.v
WellFormed.v
System.v
LongNames.v
DeletionCheck.v
Termination.v
