(* ===== verification/Prelude.v ===== *)
(** * AITrigram: verification of the operator

    AITrigram is a Kubernetes operator with two controllers.  The ModelRepository
    controller gives a repository a PersistentVolumeClaim, runs one download job
    per desired revision in it, and reports in the status which revisions are
    ready and which backend the volume has.  The LLMEngine controller waits for
    the repositories an engine references, mirrors each one's backend as a
    read-only volume and claim in the engine's namespace, and applies a deployment,
    a service and (for vLLM) a config map per repository.  They meet in the API
    server only: the engine controller reads the status of repositories and writes
    referencedEngines into it; the repository controller lists engines before it
    gives storage up.

    ** How the program is modelled

    A handler is a program over the API, [prog] (Kube.v): a tree with one [Call]
    per client call, written in the order of the Go code, with its early returns.
    The API server, controller-runtime's client and whoever else acts on the
    cluster are a parameter: [run] plays a program against any [server], a
    function from a request and a state of any type to an answer and a state, so
    an answer may be an error, stale, or changed behind the operator's back.  The
    theorems about what a controller may do quantify over every server and speak of
    the trace of requests and answers; [wp] is their proof logic: [wp G p h Q] says every request of [p] has
    the guard [G] in its history, and every end, panics included, has [Q].

    The functions of k8s.io/apimachinery, client-go and controller-runtime the code
    calls are the fields of the class [Machinery], and their documented behaviour
    those of [MachineryLaws] (Machinery.v), with the instance [Reference].  The order
    in which Go ranges over a map is the class [GoRange], any permutation
    (Jobs.v); the texts of the embedded Python and shell scripts are the class
    [Scripts] (Jobs.v); sigs.k8s.io/yaml is the class [Yaml] (VllmConfig.v).
    A panic is an outcome, [Panicked], of pure code and an end, [Crash], of a
    program.  int32 and int fields are [Z]; FNV-1a wraps at 32 bits and
    strconv.Atoi fails outside 64 bits.  A float64 is carried as its literal.
    A resource.Quantity is carried as its string.

    ** The files, and what they model

    - Prelude.v (this file): outcomes, results, errors, strings as Go has them
      (len, slices, %x, %d, %v of slices), [sort_strings], tactics and hints.
    - Naming.v: TruncatedName, the PV and PVC names (storage/llmengine_storage.go),
      ComponentName and GetVLLMConfigMapName (adapters/llmengine_utils.go),
      generateJobName (modelrepository_controller.go).
    - Api.v: api/v1/*_types.go and the Kubernetes objects, as records.
    - Kube.v, Machinery.v: above.  MemServer.v: an API server in memory, for
      witnesses and for the theorems that follow an object through many passes:
      whole lives, refinement, convergence, deletion, and what stays so in every
      interleaving ([referenced_repository_survives], [long_names_never_ready]).  The
      guards of the controllers do not assume it.  Frames.v: invariants of its maps that every request keeps.
      Leads.v: [leads], total correctness on a given server.  Release.v: what giving
      objects up does to a store.
    - StorageDiscovery.v: storage/discovery.go, common.go and storage_utils.go.
    - Backend.v: extractBackendFromPV and extractNodeNameFromPV of
      storage/storage_sc.go, buildReadOnlyPVSpec of storage/llmengine_storage.go.
    - EngineStorage.v: EnsureLLMEngineStorage and CleanupLLMEngineStorage.
      StorageRefinement.v: the abstract machine they implement.
    - StorageProvider.v: storage/provider.go and the operations of storage_sc.go.
    - Jobs.v: assets/ and component/job_adapters.go for the jobs.
    - RepoStatus.v, RepoController.v: modelrepository_controller.go, the status
      helpers and then Reconcile with all it calls.  RepoSafety.v: its theorems.
      RepoProgress.v, RepoConvergence.v: what a pass achieves on the server in
      memory, and that repeated passes make the repository Ready.  RepoDeletion.v:
      what a pass achieves when the repository is being deleted.
      DownloadRefinement.v: the abstract machine reconcileRevisions implements.
    - GoStd.v: what the code uses of strings, strconv, encoding/json.
      ReferenceJson.v: UnmarshalJSON of ModelReference (api/v1/llmengine_types.go).
    - EngineConfig.v, VllmConfig.v: adapters/llmengine_utils.go.
    - EngineAdapters.v: assets/llmengine/ and the adapters of deployments, services
      and config maps.  Workload.v: component/builder.go and workload.go,
      adapters/llmengine_component.go.
    - EngineStatus.v, EngineController.v: llmengine_controller.go, the status helpers
      and then Reconcile with all it calls.  EngineLife.v, EngineSafety.v: its
      theorems.  EngineProgress.v, EngineConvergence.v, EngineDeletion.v: as for
      repositories.  Teardown.v: engines and then their repository are deleted.
      EngineFrame.v, OperatorConvergence.v: both controllers together, each part of
      the rest of the cluster for the other.
    - GoMemory.v: a memory with pointers, slices and maps, and what a deep copy is
      in it.  DeepCopy.v: api/v1/zz_generated.deepcopy.go.  StatusSync.v: syncStatus
      of both controllers on that memory.
    - E2eUtils.v: test/utils/utils.go, which the end-to-end tests use.
    - WellFormed.v: the types of the objects, which both controllers preserve.
    - System.v: cmd/main.go and both SetupWithManager (Module [Main]), and the
      operator at work, a step relation over any number of interleaved passes.
      LongNames.v, DeletionCheck.v: what goes wrong there.
    - Termination.v: bounds on the requests of every function and of a pass.

    A definition has the name of the Go function it translates; a long function
    is cut where it has a loop body or a closure, under a lower-case name
    ([reconcile_model], [sync_attempt]), and what a Go closure captures is an
    argument.  The pointer to a repository that a handler changes in memory is a
    value that it returns; pointers into the list of revision statuses are kept
    as positions ([rev_ptr], RepoStatus.v), since the code writes through them.
    Names that both controllers have, such as Reconcile and handleDeletion,
    are qualified by their file.

    ** What is shown

    - Safety of the controllers on every server.  One guard per controller
      ([repo_guard], [engine_guard]) says what each request needs in its past, and
      one lemma each that Reconcile keeps it; read off it: what is deleted or
      stripped only belongs to a deleted, unreferenced object, but for cleanup jobs
      in the way of a download
      ([Reconcile_deletes_only_unused], [engine_deletes_only_when_deleted]); jobs and
      workloads are made only when their preconditions were observed
      ([Reconcile_creates_jobs_once], [engine_deploys_only_ready]); statuses say
      only what was observed of the object they are written to ([Reconcile_status_honest], [engine_status_honest]); the
      only panics come from names and capacities.  The same for the storage
      components and the component framework by themselves.
    - The system: a pass of either controller may start at any time on any object,
      beside others, and be cut off by a restart; between two of its requests
      others make theirs and the cluster changes.  In every interleaving the
      guards hold ([interleavings_safe]), well-formed clusters stay well-formed
      ([passes_well_typed], [system_well_formed]: from the contract [Serves] of
      Kube.v, which the server in memory keeps by [mem_well_typed]), a repository
      that an engine references is not removed ([referenced_repository_survives], by
      the instance [mem_holds]), and a pass ends after a number of requests linear
      in its object ([passes_terminate]).  What the check before a deletion does not
      do is shown of every cluster: engines that appear after it are not seen
      ([deletion_race]), and engines that it protects are taken out of service
      ([blocked_deletion_demotes_engine]).  An event of a repository asks for the
      passes of its engines ([repository_events_reach_engines]).
    - Refinement: the two functions that make and remove an engine's storage
      implement a machine of two objects, from every cluster and over every
      sequence of calls ([storage_refines_machine]); reconcileRevisions implements a
      machine of the phases and jobs of the revisions, over every sequence of passes
      and of jobs ending, failing, being deleted or in the way ([downloads_refine]).
      On the machine it is plain what the function guarantees ([abs_ready_earned],
      [abs_ready_stays]) and what it does not ([abs_failure_blocks]).
    - Round trips: references in JSON ([ModelReference_roundtrip]), backends.
    - Contracts of the pure parts: the backend round trip ([backend_roundtrip]),
      the jobs and pods that the adapters make from the templates, that an
      engine's objects fit together, the configuration file (arguments over
      defaults, the last one deciding), GPU validation, conditions and phases,
      revision lists, environments, storage class selection, node affinity.
    - Convergence, on the in-memory server: from every cluster in which it can be
      served, a repository whose claim gets bound and whose jobs get done becomes
      Ready in four passes ([repository_converges]), and an engine whose claims
      get bound and whose pods start becomes Running in as many passes as it has
      references and two more ([engine_converges]), whatever else the cluster does
      in between; no pass fails, and both stay so.  Together, in any fair order of
      passes of both controllers: an engine and its repositories that can be served
      come up together, the repositories become Ready and then the engine Running
      ([operator_converges]).  What "can be served" asks for
      (the fields of [downloadable_spec], [deployable_spec] and the two [live])
      names what the code does not handle by itself.
    - Deletion, on the same server: one pass over an engine that is being deleted
      gives up all that the engine holds, and exactly that, whatever the cluster
      ([deleted_engine_leaves]); one pass over each engine of a repository and then
      one over the repository leave none of them ([teardown_completes]).
    - Lives: on the in-memory server a repository and an engine come up, settle,
      and go again ([repository_life], [engine_life], [engine_storage_lifecycle]).
    - Deep copies: the copy of any value of the API reads as the value and shares
      nothing with it ([deep_copies_are_snapshots]); so syncStatus of both
      controllers, which changes a status in place and compares it with the copy
      made before, makes the requests that RepoStatus.v and EngineStatus.v, whose
      statuses are values, say it makes ([syncStatus_refined]).
    - Bounds: the length and alphabet of every name, and what the names do
      not give: they can collide and their computation can panic.
    - What goes wrong: an engine with long names is never ready, in any
      interleaving ([long_names_never_ready]); and theorems that exhibit a case
      ([failed_cleanup_is_forgotten], [Cleanup_crosses_namespaces],
      [EnsureLLMEngineStorage_needs_capacity], [cephfs_csi_never_mounts],
      [node_selector_needs_gpu], [trust_remote_code_overridable]).

    ** Fuel

    [hex_digits] has 8 digits of fuel, enough for 32 bits, and [dec_digits] 20,
    enough for an int ([hex_digits_length] gives the exact count).  The decoder
    of JSON has [json_fuel] of its text and [json_fuel_enough] shows that more
    changes nothing; like encoding/json it also fails below depth 10000.
    [retry_loop] has the number of retries of retry.DefaultRetry as its argument:
    the laws say there is one, the theorems hold for every number.  Programs are
    finite trees, so [run] always ends; Termination.v says how soon.

    ** What is not modelled

    groupversion_info.go and the init functions register Go types with k8s.io's
    scheme; logging and the signal handler are left out; the deep copies of k8s.io's
    own types are parameters of DeepCopy.v ([ExternalTypes]).  How
    controller-runtime turns events into passes is not code of the operator:
    System.v lets a pass start at any time, which covers every way, and Main
    records what the code asks for.  The conversion of objects to unstructured
    ones before a server-side apply is the identity.  Of the templates, fields
    that the API records lack (probes, for one) are left out.  Of the custom
    resources' JSON only ModelReference has a method written by hand; the rest
    is encoding/json by tags, in the client.

    ** Plan

    Next: a refinement of the repository's claim as for the engine's storage; the
    end of the joined convergence from both sides, engines and repositories that
    are deleted while others come up. *)

From stdpp Require Export prelude base gmap strings list list_numbers sorting.
From Stdlib Require Export ZArith Lia.
From Stdlib Require Import Ascii String.

Declare Scope go_scope.
Delimit Scope go_scope with go.

(** ** Outcomes of Go code

    A Go function either returns or panics.  Pure code whose only failure is
    a panic (a slice out of range, an index out of range, MustParse) lives in
    [outcome]; code that returns an [error] lives in [result]. *)
Inductive outcome (A : Type) : Type :=
| Done (a : A)
| Panicked (why : string).
Arguments Done {A} a.
Arguments Panicked {A} why.

#[export] Instance outcome_ret : MRet outcome := fun A a => Done a.
#[export] Instance outcome_bind : MBind outcome := fun A B f m =>
  match m with Done a => f a | Panicked w => Panicked w end.

(** The kind of an API error, as far as the code tells errors apart
    (errors.IsNotFound, errors.IsAlreadyExists, errors.IsConflict). *)
Inductive errkind : Type := NotFound | AlreadyExists | Conflict | Other.
#[export] Instance errkind_eq_dec : EqDecision errkind.
Proof. solve_decision. Defined.

(** A Go [error]: its text, and the API reason the predicates of
    k8s.io/apimachinery/pkg/api/errors find by unwrapping it. *)
Record gerror := mkErr { ekind : errkind; emsg : string }.
#[export] Instance gerror_eq_dec : EqDecision gerror.
Proof. solve_decision. Defined.

(** fmt.Errorf without %w makes a plain error; with %w it keeps the reason. *)
Definition errorf (msg : string) : gerror := mkErr Other msg.
Definition errorw (pre : string) (e : gerror) : gerror :=
  mkErr (ekind e) (pre +:+ emsg e).

Definition IsNotFound (e : gerror) : bool := bool_decide (ekind e = NotFound).
Definition IsAlreadyExists (e : gerror) : bool := bool_decide (ekind e = AlreadyExists).
Definition IsConflict (e : gerror) : bool := bool_decide (ekind e = Conflict).

(** A Go pair (value, error) of which exactly one is meaningful. *)
Inductive result (A : Type) : Type :=
| Ok (a : A)
| Err (e : gerror).
Arguments Ok {A} a.
Arguments Err {A} e.

#[export] Instance result_ret : MRet result := fun A a => Ok a.
#[export] Instance result_bind : MBind result := fun A B f m =>
  match m with Ok a => f a | Err e => Err e end.

(** A lone [error] return value: [None] is nil. *)
Abbreviation err_opt := (option gerror).

(** ** Go strings

    A Go string is a byte string; [string] is one too. *)

(** len(s) *)
Definition len (s : string) : Z := Z.of_nat (String.length s).

Fixpoint str_take (n : nat) (s : string) : string :=
  match n, s with
  | S n, String c s => String c (str_take n s)
  | _, _ => EmptyString
  end.

(** s[:n], which panics when n is outside 0..len(s) *)
Definition slice_to (s : string) (n : Z) : outcome string :=
  if bool_decide (0 <= n <= len s)%Z then Done (str_take (Z.to_nat n) s)
  else Panicked "slice bounds out of range".

(** strings.HasPrefix, strings.HasSuffix, strings.TrimPrefix, strings.Contains *)
Fixpoint has_prefix (p s : string) : bool :=
  match p, s with
  | EmptyString, _ => true
  | String a p, String b s => bool_decide (a = b) && has_prefix p s
  | String _ _, EmptyString => false
  end.

Fixpoint str_drop (n : nat) (s : string) : string :=
  match n, s with
  | S n, String _ s => str_drop n s
  | _, _ => s
  end.

Definition trim_prefix (p s : string) : string :=
  if has_prefix p s then str_drop (String.length p) s else s.

Fixpoint str_contains (sub s : string) : bool :=
  has_prefix sub s ||
  match s with
  | EmptyString => false
  | String _ s => str_contains sub s
  end.

(** strings.ToLower, on the ASCII letters: the other bytes stay as they are. *)
Definition ascii_lower (c : ascii) : ascii :=
  let n := N_of_ascii c in
  if bool_decide (65 <= n <= 90)%N then ascii_of_N (n + 32) else c.

Fixpoint to_lower (s : string) : string :=
  match s with
  | EmptyString => EmptyString
  | String c s => String (ascii_lower c) (to_lower s)
  end.

(** strings.Join *)
Fixpoint str_join (sep : string) (l : list string) : string :=
  match l with
  | [] => EmptyString
  | [x] => x
  | x :: l => x +:+ sep +:+ str_join sep l
  end.

Fixpoint str_forall (P : ascii -> bool) (s : string) : bool :=
  match s with
  | EmptyString => true
  | String c s => P c && str_forall P s
  end.

(** sort.Strings: byte-wise order *)
Definition sort_strings (l : list string) : list string := merge_sort String.le l.

(** ** Number formatting *)

(** fmt.Sprintf("%x", n) for an unsigned n below 16^fuel: lower case, no
    padding. *)
Definition hex_digit (d : Z) : ascii :=
  ascii_of_N (Z.to_N (if (d <? 10)%Z then 48 + d else 87 + d)).

Fixpoint hex_digits (fuel : nat) (n : Z) (acc : string) : string :=
  match fuel with
  | O => acc
  | S f =>
      let acc := String (hex_digit (n mod 16)) acc in
      if (n / 16 =? 0)%Z then acc else hex_digits f (n / 16) acc
  end.

(** fmt.Sprintf("%d", n) of an int: decimal, with a minus sign when negative.
    [fuel] is a bound on the digits; an int has at most 19. *)
Fixpoint dec_digits (fuel : nat) (n : Z) (acc : string) : string :=
  match fuel with
  | O => acc
  | S f =>
      let acc := String (hex_digit (n mod 10)) acc in
      if (n / 10 =? 0)%Z then acc else dec_digits f (n / 10) acc
  end.

Definition fmt_d (n : Z) : string :=
  if (n <? 0)%Z then "-" +:+ dec_digits 20 (- n) EmptyString
  else dec_digits 20 n EmptyString.

(** %q on printable ASCII: quotes and backslashes are escaped. *)
Definition dquote : ascii := "034"%char.
Definition backslash : ascii := "092"%char.
Fixpoint quote_body (s : string) : string :=
  match s with
  | EmptyString => EmptyString
  | String c s =>
      if bool_decide (c = dquote ∨ c = backslash)
      then String backslash (String c (quote_body s))
      else String c (quote_body s)
  end.
Definition fmt_q (s : string) : string :=
  String dquote (quote_body s) +:+ String dquote EmptyString.

(** %v of a slice of strings *)
Definition fmt_v_list (l : list string) : string := "[" +:+ str_join " " l +:+ "]".

(** ** Lemmas on strings *)

Lemma str_app_cons c s t : String c s +:+ t = String c (s +:+ t).
Proof. reflexivity. Qed.

Lemma str_app_nil_l t : EmptyString +:+ t = t.
Proof. reflexivity. Qed.

Lemma str_app_nil_r s : s +:+ EmptyString = s.
Proof. induction s as [|c s IH]; [done|]. by rewrite str_app_cons, IH. Qed.

Lemma length_str_app s t : String.length (s +:+ t) = String.length s + String.length t.
Proof.
  induction s as [|c s IH]; [done|].
  rewrite str_app_cons. simpl. by rewrite IH.
Qed.

Lemma len_app s t : len (s +:+ t) = (len s + len t)%Z.
Proof. unfold len. rewrite length_str_app. lia. Qed.

Lemma len_nonneg s : (0 <= len s)%Z.
Proof. unfold len. lia. Qed.

Lemma str_app_assoc r s t : (r +:+ s) +:+ t = r +:+ s +:+ t.
Proof.
  induction r as [|c r IH]; [done|].
  by rewrite !str_app_cons, IH.
Qed.

Lemma str_app_inj_l s t u : s +:+ t = s +:+ u -> t = u.
Proof.
  induction s as [|c s IH]; [done|].
  rewrite !str_app_cons. intros [=]. auto.
Qed.

Lemma length_str_take n s : String.length (str_take n s) = n `min` String.length s.
Proof. revert s; induction n as [|n IH]; intros [|c s]; simpl; [done..|]. by rewrite IH. Qed.

Lemma has_prefix_app p s : has_prefix p (p +:+ s) = true.
Proof.
  induction p as [|c p IH]; [done|].
  rewrite str_app_cons. simpl. rewrite bool_decide_true by done. done.
Qed.

Lemma str_drop_app p s : str_drop (String.length p) (p +:+ s) = s.
Proof. induction p as [|c p IH]; [done|]. rewrite str_app_cons. done. Qed.

Lemma trim_prefix_app p s : trim_prefix p (p +:+ s) = s.
Proof. unfold trim_prefix. rewrite has_prefix_app. apply str_drop_app. Qed.

Lemma has_prefix_spec p s : has_prefix p s = true <-> exists t, s = p +:+ t.
Proof.
  split; [|intros [t ->]; apply has_prefix_app].
  revert s; induction p as [|c p IH]; intros s; [by exists s|].
  destruct s as [|d s]; simpl; [done|].
  intros [->%bool_decide_eq_true Hp]%andb_prop.
  destruct (IH s Hp) as [t ->]. by exists t.
Qed.

Lemma slice_to_ok s n :
  (0 <= n <= len s)%Z -> slice_to s n = Done (str_take (Z.to_nat n) s).
Proof. intros H. unfold slice_to. by rewrite bool_decide_true. Qed.

Lemma slice_to_panics s n :
  (n < 0 \/ len s < n)%Z -> exists w, slice_to s n = Panicked w.
Proof. intros H. unfold slice_to. rewrite bool_decide_false by lia. eauto. Qed.

Lemma len_str_take n s : (0 <= n <= len s)%Z -> len (str_take (Z.to_nat n) s) = n.
Proof. unfold len. rewrite length_str_take. lia. Qed.

Lemma str_forall_app P s t : str_forall P (s +:+ t) = str_forall P s && str_forall P t.
Proof.
  induction s as [|c s IH]; [done|].
  rewrite str_app_cons. simpl. by rewrite IH, andb_assoc.
Qed.

Lemma str_forall_take P n s : str_forall P s = true -> str_forall P (str_take n s) = true.
Proof.
  revert s; induction n as [|n IH]; intros [|c s]; simpl; [done..|].
  intros [-> Hs]%andb_prop. simpl. auto.
Qed.

(** The number of digits [hex_digits] writes is the number of base-16 digits
    of its argument. *)
Lemma hex_digits_length fuel n acc :
  (0 <= n < 16 ^ Z.of_nat fuel)%Z ->
  exists d, len (hex_digits fuel n acc) = (len acc + d)%Z /\
    (d <= Z.of_nat fuel)%Z /\ (n < 16 ^ d)%Z /\
    (fuel <> O -> 1 <= d)%Z /\ (1 <= n -> 16 ^ (d - 1) <= n)%Z.
Proof.
  revert n acc; induction fuel as [|f IH]; intros n acc Hn.
  - exists 0%Z. simpl in *. rewrite Z.pow_0_r in Hn. repeat split; lia.
  - simpl. destruct (Z.eqb_spec (n / 16) 0) as [Hz|Hz].
    + exists 1%Z. unfold len. simpl. rewrite Z.div_small_iff in Hz by lia.
      rewrite Z.pow_1_r. repeat split; try lia.
    + assert (0 <= n / 16)%Z by (apply Z.div_pos; lia).
      destruct (IH (n / 16)%Z (String (hex_digit (n mod 16)) acc)) as (d & Hl & Hd & Hlt & Hd1 & Hge).
      { split; [done|]. apply Z.div_lt_upper_bound; [lia|].
        rewrite <- Z.pow_succ_r by lia. rewrite <- Nat2Z.inj_succ. lia. }
      assert (Hd1' : (1 <= d)%Z).
      { apply Hd1. intros ->. simpl in Hlt. change (16 ^ Z.of_nat 1)%Z with 16%Z in Hn.
        rewrite Z.div_small in Hz by lia. done. }
      exists (d + 1)%Z. repeat split; try lia.
      * rewrite Hl. unfold len. simpl. lia.
      * rewrite Z.pow_add_r by lia. pose proof (Z.div_mod n 16 ltac:(lia)).
        pose proof (Z.mod_pos_bound n 16 ltac:(lia)). nia.
      * intros _. replace (d + 1 - 1)%Z with (d - 1 + 1)%Z by lia.
        rewrite Z.pow_add_r, Z.pow_1_r by lia.
        pose proof (Hge ltac:(lia)). pose proof (Z.div_mod n 16 ltac:(lia)).
        pose proof (Z.mod_pos_bound n 16 ltac:(lia)). lia.
Qed.

Lemma str_forall_hex P fuel n acc :
  (forall d, (0 <= d < 16)%Z -> P (hex_digit d) = true) ->
  str_forall P acc = true ->
  str_forall P (hex_digits fuel n acc) = true.
Proof.
  intros HP. revert n acc; induction fuel as [|f IH]; intros n acc Hacc; simpl; [done|].
  assert (str_forall P (String (hex_digit (n mod 16)) acc) = true).
  { simpl. rewrite Hacc, HP; [done|]. apply Z.mod_pos_bound. lia. }
  destruct (_ =? _)%Z; auto.
Qed.

(** ** Lemmas on sorting *)
Lemma sort_strings_perm l : sort_strings l ≡ₚ l.
Proof. apply merge_sort_Permutation. Qed.

Lemma sort_strings_sorted l : StronglySorted String.le (sort_strings l).
Proof. apply StronglySorted_merge_sort; apply _. Qed.

(** The sorted list depends only on the multiset of its elements: the order in
    which Go ranges over a map does not matter once the keys are sorted. *)
Lemma sort_strings_unique l1 l2 : l1 ≡ₚ l2 -> sort_strings l1 = sort_strings l2.
Proof.
  intros H. apply (StronglySorted_unique String.le); [apply sort_strings_sorted..|].
  by rewrite !sort_strings_perm.
Qed.

(** ** Automation *)
Create HintDb go.
Create Rewrite HintDb go.
#[export] Hint Resolve len_nonneg trim_prefix_app has_prefix_app : go.
#[export] Hint Rewrite len_app length_str_app length_str_take str_forall_app : go.

(** Case split on the innermost test of a match in the goal. *)
Ltac split_match :=
  match goal with
  | |- context [match ?x with _ => _ end] =>
      lazymatch x with
      | context [match _ with _ => _ end] => fail
      | _ => destruct x eqn:?
      end
  end.

Ltac split_match_in H :=
  match type of H with
  | context [match ?x with _ => _ end] =>
      lazymatch x with
      | context [match _ with _ => _ end] => fail
      | _ => destruct x eqn:?
      end
  end.

(** Turn the boolean tests among the hypotheses into propositions. *)
Ltac bool_hyps :=
  repeat match goal with
  | H : negb _ = false |- _ => apply negb_false_iff in H
  | H : negb _ = true |- _ => apply negb_true_iff in H
  | H : _ && _ = true |- _ => apply andb_true_iff in H; destruct H
  | H : _ || _ = false |- _ => apply orb_false_iff in H; destruct H
  | H : bool_decide _ = true |- _ => apply bool_decide_eq_true in H
  | H : bool_decide (_ <> _) = false |- _ => apply bool_decide_eq_false in H; apply dec_stable in H
  | H : bool_decide _ = false |- _ => apply bool_decide_eq_false in H
  end.

(** A closed string is not in a closed list; a closed list has no duplicates. *)
Ltac not_in_tac :=
  rewrite ?not_elem_of_cons; repeat split; (discriminate || apply not_elem_of_nil).
Ltac nodup_tac :=
  repeat (apply NoDup_cons; split; [not_in_tac|]); apply NoDup_nil; exact I.
