(* ===== verification/Naming.v ===== *)
(** * Resource names

    The names the operator gives the objects it creates: storage.TruncatedName
    and the PV and PVC names of storage/llmengine_storage.go, ComponentName and
    GetVLLMConfigMapName of adapters/llmengine_utils.go, and generateJobName
    and hashString of modelrepository_controller.go.  hash/fnv's 32-bit FNV-1a
    is computed at its machine width. *)

From S2P Require Import Prelude.
From Stdlib Require Import Ascii String.

Local Open Scope Z_scope.

(** ** hash/fnv: 32-bit FNV-1a *)
Module Fnv.

Definition offset32 : Z := 2166136261.
Definition prime32 : Z := 16777619.

(** One byte: xor, then a multiplication that wraps at 2^32. *)
Definition step (h : Z) (c : ascii) : Z :=
  (Z.lxor h (Z.of_N (N_of_ascii c)) * prime32) mod 2 ^ 32.

Fixpoint write (h : Z) (s : string) : Z :=
  match s with
  | EmptyString => h
  | String c s => write (step h c) s
  end.

(** h := fnv.New32a(); h.Write([]byte(s)); h.Sum32() *)
Definition sum32 (s : string) : Z := write offset32 s.

Lemma write_range h s : 0 <= h < 2 ^ 32 -> 0 <= write h s < 2 ^ 32.
Proof.
  revert h; induction s as [|c s IH]; intros h Hh; [done|].
  apply IH. apply Z.mod_pos_bound. lia.
Qed.

Lemma sum32_range s : 0 <= sum32 s < 2 ^ 32.
Proof. apply write_range. unfold offset32. lia. Qed.

End Fnv.

(** fmt.Sprintf("%x", h.Sum32()): an uint32 has at most 8 hexadecimal digits. *)
Definition hashString (s : string) : string := hex_digits 8 (Fnv.sum32 s) EmptyString.

(** The expression hash[:6], which panics when the hash has fewer digits. *)
Definition hash6 (s : string) : outcome string := slice_to (hashString s) 6.

Definition TruncatedName (maxLen : Z) (prefix a b : string) : outcome string :=
  let full :=
    if bool_decide (prefix = EmptyString) then a +:+ "-" +:+ b
    else prefix +:+ "-" +:+ a +:+ "-" +:+ b in
  if len full <=? maxLen then Done full
  else
    hash ← hash6 full;
    let separators := if bool_decide (prefix = EmptyString) then 2 else 3 in
    let available := maxLen - len prefix - separators - len hash in
    let halfLen := Z.quot available 2 in
    truncA ← (if halfLen <? len a then slice_to a halfLen else Done a);
    let remaining := available - len truncA in
    truncB ← (if remaining <? len b then slice_to b remaining else Done b);
    Done (if bool_decide (prefix = EmptyString)
          then truncA +:+ "-" +:+ truncB +:+ "-" +:+ hash
          else prefix +:+ "-" +:+ truncA +:+ "-" +:+ truncB +:+ "-" +:+ hash).

Definition llmEnginePVName (engineName modelRepoName : string) : outcome string :=
  TruncatedName 63 "le" engineName modelRepoName.

Definition llmEnginePVCName (engineName modelRepoName : string) : outcome string :=
  TruncatedName 63 "le" engineName modelRepoName.

Definition ComponentName (engineName modelName : string) : outcome string :=
  TruncatedName 52 EmptyString engineName modelName.

Definition GetVLLMConfigMapName (engineName modelName : string) : string :=
  "vllm-" +:+ engineName +:+ "-" +:+ modelName +:+ "-config".

Definition generateJobName (jobType modelRepoName revisionName : string) : outcome string :=
  let maxLen := 63 in
  if bool_decide (revisionName = EmptyString) then
    let prefix := jobType +:+ "-" in
    let available := maxLen - len prefix in
    if len modelRepoName <=? available then Done (prefix +:+ modelRepoName)
    else
      truncated ← slice_to modelRepoName (available - 7);
      hash ← hash6 modelRepoName;
      Done (prefix +:+ truncated +:+ "-" +:+ hash)
  else
    let prefix := jobType +:+ "-" in
    let separator := "-" in
    let available := maxLen - len prefix - len separator in
    let combined := modelRepoName +:+ separator +:+ revisionName in
    if len combined <=? available then Done (prefix +:+ combined)
    else
      let hashSuffixLen := 7 in
      let availableForNames := available - hashSuffixLen in
      let modelRepoMaxLen := Z.quot (availableForNames * 3) 5 in
      let revisionMaxLen := availableForNames - modelRepoMaxLen - 1 in
      let '(modelRepoMaxLen, revisionMaxLen) :=
        if modelRepoMaxLen <? 8 then (8, availableForNames - 8 - 1)
        else (modelRepoMaxLen, revisionMaxLen) in
      let '(modelRepoMaxLen, revisionMaxLen) :=
        if revisionMaxLen <? 6 then (availableForNames - 6 - 1, 6)
        else (modelRepoMaxLen, revisionMaxLen) in
      truncatedModel ←
        (if modelRepoMaxLen <? len modelRepoName
         then slice_to modelRepoName modelRepoMaxLen else Done modelRepoName);
      truncatedRevision ←
        (if revisionMaxLen <? len revisionName
         then slice_to revisionName revisionMaxLen else Done revisionName);
      let fullName := modelRepoName +:+ "-" +:+ revisionName in
      hash ← hash6 fullName;
      Done (prefix +:+ truncatedModel +:+ "-" +:+ truncatedRevision +:+ "-" +:+ hash).

Example fnv_a : Fnv.sum32 "a" = 0xe40c292c.
Proof. reflexivity. Qed.
Example fnv_foobar : hashString "foobar" = "bf9cf968".
Proof. reflexivity. Qed.
Example job_name_short : generateJobName "download" "llama" "main" = Done "download-llama-main".
Proof. reflexivity. Qed.

(** ** The six-digit hash suffix *)

Lemma hashString_length s :
  exists d, len (hashString s) = d /\ 1 <= d <= 8 /\ Fnv.sum32 s < 16 ^ d /\
    (1 <= Fnv.sum32 s -> 16 ^ (d - 1) <= Fnv.sum32 s).
Proof.
  pose proof (Fnv.sum32_range s).
  destruct (hex_digits_length 8 (Fnv.sum32 s) EmptyString) as (d & Hl & Hd & Hlt & H1 & Hge);
    [simpl; lia|].
  exists d. change (len EmptyString) with 0 in Hl. unfold hashString.
  repeat split; auto with lia.
Qed.

(** [hash[:6]] is defined exactly when the FNV hash has six digits. *)
Lemma hash6_spec s :
  (Fnv.sum32 s < 2 ^ 20 /\ exists w, hash6 s = Panicked w) \/
  (2 ^ 20 <= Fnv.sum32 s /\ hash6 s = Done (str_take 6 (hashString s)) /\
   len (str_take 6 (hashString s)) = 6).
Proof.
  destruct (hashString_length s) as (d & Hl & Hd & Hlt & Hge).
  destruct (Z.lt_ge_cases (Fnv.sum32 s) (2 ^ 20)) as [Hs|Hs].
  - left. split; [done|]. apply slice_to_panics. right. rewrite Hl.
    destruct (Z.lt_ge_cases d 6); [done|].
    assert (16 ^ 5 <= 16 ^ (d - 1)) by (apply Z.pow_le_mono_r; lia).
    destruct (Z.lt_ge_cases (Fnv.sum32 s) 1); [|change (2 ^ 20) with (16 ^ 5) in Hs; lia].
    assert (Hz : Fnv.sum32 s = 0) by (pose proof (Fnv.sum32_range s); lia).
    exfalso. assert (d = 1); [|lia].
    revert Hl. unfold hashString. rewrite Hz. vm_compute. congruence.
  - right. split; [done|]. assert (6 <= d).
    { destruct (Z.lt_ge_cases d 6); [|done].
      assert (16 ^ d <= 16 ^ 5) by (apply Z.pow_le_mono_r; lia).
      change (2 ^ 20) with (16 ^ 5) in Hs. lia. }
    unfold hash6. rewrite slice_to_ok by lia. split; [done|].
    apply (len_str_take 6). lia.
Qed.

(** A name cut to at most [n] bytes, as the code cuts it. *)
Lemma cut_spec s n :
  0 <= n ->
  (if n <? len s then slice_to s n else Done s) = Done (str_take (Z.to_nat n) s) /\
  len (str_take (Z.to_nat n) s) = Z.min n (len s).
Proof.
  intros Hn. unfold len at 2. rewrite length_str_take. split; [|unfold len; lia].
  destruct (Z.ltb_spec n (len s)); [apply slice_to_ok; lia|].
  f_equal. assert (Hle : (String.length s <= Z.to_nat n)%nat) by (unfold len in *; lia).
  revert Hle. clear. generalize (Z.to_nat n). intros k. revert s.
  induction k as [|k IH]; intros [|c s]; simpl; intros; try done; [lia|].
  f_equal. apply IH. lia.
Qed.

(** ** TruncatedName *)

(** The untruncated name. *)
Definition full_name (prefix a b : string) : string :=
  if bool_decide (prefix = EmptyString) then a +:+ "-" +:+ b
  else prefix +:+ "-" +:+ a +:+ "-" +:+ b.

(** All branches at once: the name in full when it fits; otherwise a panic
    when the FNV hash is below 2^20, and else a cut name within the limit. *)
Lemma TruncatedName_cases maxLen prefix a b :
  len prefix + 9 <= maxLen ->
  let full := full_name prefix a b in
  (len full <= maxLen /\ TruncatedName maxLen prefix a b = Done full) \/
  (maxLen < len full /\ Fnv.sum32 full < 2 ^ 20 /\
   exists w, TruncatedName maxLen prefix a b = Panicked w) \/
  (maxLen < len full /\ 2 ^ 20 <= Fnv.sum32 full /\ exists ka kb : nat,
   let name := full_name prefix (str_take ka a)
                 (str_take kb b +:+ "-" +:+ str_take 6 (hashString full)) in
   Z.of_nat ka = Z.quot (maxLen - len prefix -
     (if bool_decide (prefix = EmptyString) then 2 else 3) - 6) 2 /\
   TruncatedName maxLen prefix a b = Done name /\ len name <= maxLen).
Proof.
  intros Hmax full. unfold TruncatedName. fold (full_name prefix a b). fold full.
  pose proof (len_nonneg prefix) as Hp.
  destruct (Z.leb_spec (len full) maxLen) as [Hfit|Hlong]; [by left|right].
  set (seps := if bool_decide (prefix = EmptyString) then 2 else 3).
  assert (Hseps : 2 <= seps <= 3 /\ (seps = 3 \/ len prefix = 0)).
  { unfold seps. case_bool_decide as Hpre; [rewrite Hpre; change (len EmptyString) with 0|]; lia. }
  destruct (hash6_spec full) as [(Hs & w & Hw)|(Hs & Hh & Hh6)]; [left|right].
  { repeat split; try done. exists w. by rewrite Hw. }
  rewrite Hh. split; [done|]. split; [done|]. cbn [mbind outcome_bind]. rewrite Hh6.
  set (avail := maxLen - len prefix - seps - 6).
  assert (Hq : 0 <= Z.quot avail 2 <= avail).
  { rewrite Z.quot_div_nonneg by lia. pose proof (Z.div_mod avail 2 ltac:(lia)).
    pose proof (Z.mod_pos_bound avail 2 ltac:(lia)). lia. }
  destruct (cut_spec a (Z.quot avail 2)) as [-> Hla]; [lia|]. cbn [mbind outcome_bind].
  destruct (cut_spec b (avail - len (str_take (Z.to_nat (Z.quot avail 2)) a))) as [-> Hlb]; [lia|].
  cbn [mbind outcome_bind].
  eexists _, _. split; [|split]; [|reflexivity|].
  - apply Z2Nat.id. lia.
  - clear Hlong Hs. unfold full_name. subst avail seps.
    case_bool_decide; rewrite !len_app, Hlb, Hh6; change (len "-") with 1; lia.
Qed.

Lemma full_name_inj_r prefix a b1 b2 :
  full_name prefix a b1 = full_name prefix a b2 -> b1 = b2.
Proof.
  unfold full_name. case_bool_decide; intros H1;
    repeat match goal with H : _ +:+ _ = _ +:+ _ |- _ => apply str_app_inj_l in H end; done.
Qed.

(** ** DNS labels

    Kubernetes accepts these names only when they are RFC 1123 labels: lower
    case letters, digits and dashes, starting and ending with a letter or a
    digit. *)
Definition is_alnum (c : ascii) : bool :=
  let n := N_of_ascii c in
  bool_decide (97 <= n <= 122)%N || bool_decide (48 <= n <= 57)%N.

Arguments is_alnum : simpl never.

Definition label_char (c : ascii) : bool := is_alnum c || bool_decide (c = "-"%char).

Arguments label_char : simpl never.

Definition label_chars (s : string) : bool := str_forall label_char s.

Definition starts_ok (s : string) : bool :=
  match s with EmptyString => false | String c _ => is_alnum c end.

Fixpoint ends_ok (s : string) : bool :=
  match s with
  | EmptyString => false
  | String c EmptyString => is_alnum c
  | String _ s => ends_ok s
  end.

Definition dns_label (s : string) : bool := label_chars s && starts_ok s && ends_ok s.

Lemma ends_ok_app s t : ends_ok t = true -> ends_ok (s +:+ t) = true.
Proof.
  intros Ht. induction s as [|c s IH]; [done|].
  rewrite str_app_cons. simpl. destruct (s +:+ t) eqn:E; [|done]. done.
Qed.

Lemma starts_ok_app s t : starts_ok s = true -> starts_ok (s +:+ t) = true.
Proof. destruct s; [done|]. by rewrite str_app_cons. Qed.

Lemma starts_ok_take k s : (0 < k)%nat -> starts_ok s = true -> starts_ok (str_take k s) = true.
Proof. destruct k, s; simpl; try done; lia. Qed.

Lemma hex_digit_alnum d : 0 <= d < 16 -> is_alnum (hex_digit d) = true.
Proof.
  intros H. assert (Hd : d = 0 \/ d = 1 \/ d = 2 \/ d = 3 \/ d = 4 \/ d = 5 \/ d = 6 \/ d = 7 \/
    d = 8 \/ d = 9 \/ d = 10 \/ d = 11 \/ d = 12 \/ d = 13 \/ d = 14 \/ d = 15) by lia.
  repeat destruct Hd as [->|Hd]; [reflexivity..|]. by subst.
Qed.

Lemma hash_suffix_label s :
  label_chars (str_take 6 (hashString s)) = true /\
  (len (str_take 6 (hashString s)) = 6 -> ends_ok (str_take 6 (hashString s)) = true).
Proof.
  assert (Hall : str_forall is_alnum (str_take 6 (hashString s)) = true).
  { apply str_forall_take, str_forall_hex; [apply hex_digit_alnum|done]. }
  generalize dependent (str_take 6 (hashString s)). intros t Hall. split.
  - induction t as [|c t IH]; [done|]. simpl in *.
    apply andb_prop in Hall as [Hc Ht]. apply andb_true_intro. split; [|auto].
    unfold label_char. by rewrite Hc.
  - intros Hl. assert (Hn : t <> EmptyString) by (intros ->; done). clear Hl.
    induction t as [|c t IH]; [done|]. simpl in *. apply andb_prop in Hall as [Hc Ht].
    destruct t; auto.
Qed.

Lemma label_parts s :
  dns_label s = true <-> label_chars s = true /\ starts_ok s = true /\ ends_ok s = true.
Proof. unfold dns_label. rewrite !andb_true_iff. tauto. Qed.

Lemma label_chars_app s t : label_chars (s +:+ t) = label_chars s && label_chars t.
Proof. apply str_forall_app. Qed.

Lemma label_chars_take k s : label_chars s = true -> label_chars (str_take k s) = true.
Proof. apply str_forall_take. Qed.

#[export] Hint Resolve ends_ok_app starts_ok_app label_chars_take : go.
#[export] Hint Rewrite label_chars_app : go.

(** Two pieces joined by a dash make a label as soon as the first one starts
    and the second one ends well. *)
Lemma dash_label s t :
  label_chars s = true -> label_chars t = true -> starts_ok s = true -> ends_ok t = true ->
  dns_label (s +:+ "-" +:+ t) = true.
Proof.
  intros Hs Ht H1 H2. apply label_parts. autorewrite with go. rewrite Hs, Ht.
  split; [done|]. split; auto with go.
Qed.

Lemma full_name_label prefix a b :
  (prefix = EmptyString \/ dns_label prefix = true) ->
  label_chars a = true -> (prefix = EmptyString -> starts_ok a = true) ->
  label_chars b = true -> ends_ok b = true ->
  dns_label (full_name prefix a b) = true.
Proof.
  intros Hp Ha Ha' Hb Hb'. unfold full_name. case_bool_decide as Hpre.
  - apply dash_label; auto.
  - destruct Hp as [|(Hp1 & Hp2 & _)%label_parts]; [done|].
    apply dash_label; auto with go.
    rewrite !label_chars_app, Ha, Hb. done.
Qed.

(** ** TruncatedName makes labels within its limit *)
Lemma TruncatedName_label maxLen prefix a b :
  len prefix + 11 <= maxLen ->
  (prefix = EmptyString \/ dns_label prefix = true) ->
  dns_label a = true -> dns_label b = true ->
  match TruncatedName maxLen prefix a b with
  | Done s => dns_label s = true /\ len s <= maxLen
  | Panicked _ =>
      maxLen < len (full_name prefix a b) /\ Fnv.sum32 (full_name prefix a b) < 2 ^ 20
  end.
Proof.
  intros Hmax Hp (Ha & Hsa & Hea)%label_parts (Hb & Hsb & Heb)%label_parts.
  destruct (TruncatedName_cases maxLen prefix a b) as [(Hf & ->)|[(Hl & Hs & w & ->)|
    (Hl & Hs & ka & kb & Hka & -> & Hlen)]]; [lia| | |].
  - split; [|done]. by apply full_name_label.
  - done.
  - split; [|done]. destruct (hash_suffix_label (full_name prefix a b)) as [Hh1 Hh2].
    destruct (hash6_spec (full_name prefix a b)) as [[Hc _]|(_ & _ & H6)]; [lia|].
    apply full_name_label; auto with go.
    + intros Hpre. apply starts_ok_take; [|done].
      assert (1 <= Z.of_nat ka); [|lia]. rewrite Hka, bool_decide_true by done.
      rewrite Z.quot_div_nonneg by lia. apply Z.div_le_lower_bound; lia.
    + rewrite !label_chars_app, Hh1. rewrite label_chars_take by done. done.
Qed.

(** The persistent volume of an engine and model (and, the two functions
    being the same, its claim). *)
(** Property C38: for an engine and a model named by RFC 1123 labels,
    llmEnginePVName returns an RFC 1123 label of at most 63 bytes; it panics
    exactly on the names that are too long and whose FNV-1a hash, printed
    without padding, has fewer than six digits. *)
Theorem llmEnginePVName_wellformed engine model :
  dns_label engine = true -> dns_label model = true ->
  let full := "le-" +:+ engine +:+ "-" +:+ model in
  (exists s, llmEnginePVName engine model = Done s /\ dns_label s = true /\ len s <= 63 /\
     (len full <= 63 -> s = full)) \/
  (63 < len full /\ Fnv.sum32 full < 2 ^ 20 /\
   exists w, llmEnginePVName engine model = Panicked w).
Proof.
  intros He Hm full. unfold llmEnginePVName.
  pose proof (TruncatedName_label 63 "le" engine model ltac:(done) (or_intror eq_refl) He Hm) as Hw.
  destruct (TruncatedName_cases 63 "le" engine model) as [(Hf & Heq)|[(Hl & Hs & w & Heq)|
    (Hl & Hs & ka & kb & Hka & Heq & Hlen)]]; [done|rewrite Heq in *..].
  - left. eexists. split; [done|]. destruct Hw. auto.
  - right. split; [done|]. split; [done|]. eauto.
  - left. eexists. split; [done|]. destruct Hw as [Hw1 Hw2].
    split; [done|]. split; [done|]. change full with (full_name "le" engine model). lia.
Qed.

Lemma llmEnginePVName_wellformed_witness :
  exists s, llmEnginePVName "chat" "llama" = Done s /\ len s <= 63.
Proof.
  destruct (llmEnginePVName_wellformed "chat" "llama" eq_refl eq_refl)
    as [(s & H & _ & Hl & _)|(H & _)]; [by exists s|].
  vm_compute in H. discriminate H.
Defined.

(** ComponentName, the name of a Deployment and its Service, is an
    RFC 1123 label of at most 52 bytes for label arguments whenever it returns,
    which leaves the 11 bytes Kubernetes appends for ReplicaSets and pods. *)
Theorem ComponentName_wellformed engine model :
  dns_label engine = true -> dns_label model = true ->
  match ComponentName engine model with
  | Done s => dns_label s = true /\ len s <= 52 /\
      (len engine + len model <= 51 -> s = engine +:+ "-" +:+ model)
  | Panicked _ =>
      51 < len engine + len model /\ Fnv.sum32 (engine +:+ "-" +:+ model) < 2 ^ 20
  end.
Proof.
  intros He Hm. unfold ComponentName.
  pose proof (TruncatedName_label 52 EmptyString engine model ltac:(done) (or_introl eq_refl) He Hm) as Hw.
  assert (Hfull : len (full_name EmptyString engine model) = len engine + 1 + len model).
  { unfold full_name. rewrite bool_decide_true, !len_app by done. change (len "-") with 1. lia. }
  destruct (TruncatedName_cases 52 EmptyString engine model) as [(Hf & Heq)|[(Hl & Hs & w & Heq)|
    (Hl & Hs & ka & kb & Hka & Heq & Hlen)]]; [done|rewrite Heq in *..].
  - destruct Hw. auto.
  - split; [lia|done].
  - destruct Hw. split; [done|]. split; [done|]. lia.
Qed.

Lemma ComponentName_wellformed_witness :
  match ComponentName "chat" "llama" with
  | Done s => dns_label s = true /\ len s <= 52 /\
      (len "chat" + len "llama" <= 51 -> s = "chat" +:+ "-" +:+ "llama")
  | Panicked _ =>
      51 < len "chat" + len "llama" /\ Fnv.sum32 ("chat" +:+ "-" +:+ "llama") < 2 ^ 20
  end.
Proof. exact (ComponentName_wellformed "chat" "llama" eq_refl eq_refl). Defined.

(** ** generateJobName *)

(** The two ways the code cuts a job name, with all the arithmetic done: [j]
    is the length of the job type. *)
Lemma generateJobName_cases jobType repo rev :
  1 <= len jobType <= 8 ->
  let plain := jobType +:+ "-" +:+
    (if bool_decide (rev = EmptyString) then repo else repo +:+ "-" +:+ rev) in
  let hashed := if bool_decide (rev = EmptyString) then repo else repo +:+ "-" +:+ rev in
  let r := generateJobName jobType repo rev in
  r = Done plain /\ len plain <= 63 \/
  62 < len plain /\ Fnv.sum32 hashed < 2 ^ 20 /\ (exists w, r = Panicked w) \/
  62 < len plain /\ 2 ^ 20 <= Fnv.sum32 hashed /\ exists (k1 k2 : nat),
    let name := jobType +:+ "-" +:+ str_take k1 repo +:+ "-" +:+
      (if bool_decide (rev = EmptyString) then str_take 6 (hashString hashed)
       else str_take k2 rev +:+ "-" +:+ str_take 6 (hashString hashed)) in
    r = Done name /\ len name <= 63.
Proof.
  intros Hj plain hashed r. subst plain hashed r. unfold generateJobName.
  pose proof (len_nonneg repo). pose proof (len_nonneg rev).
  case_bool_decide as Hrev.
  - cbn zeta. rewrite !len_app. change (len "-") with 1.
    destruct (Z.leb_spec (len repo) (63 - (len jobType + 1))) as [Hf|Hf].
    { left. rewrite !str_app_assoc. split; [done|lia]. }
    right. rewrite slice_to_ok by lia. cbn [mbind outcome_bind].
    destruct (hash6_spec repo) as [(Hs & w & ->)|(Hs & -> & H6)]; [left|right].
    + split; [lia|]. eauto.
    + split; [lia|]. split; [done|]. exists (Z.to_nat (63 - (len jobType + 1) - 7)), O.
      cbn [mbind outcome_bind]. rewrite !str_app_assoc. split; [done|].
      rewrite !len_app, len_str_take, H6 by lia. change (len "-") with 1. lia.
  - cbn zeta. rewrite !len_app. change (len "-") with 1.
    set (avail := 63 - (len jobType + 1) - 1).
    destruct (Z.leb_spec (len repo + (1 + len rev)) avail) as [Hf|Hf]; subst avail.
    { left. rewrite !str_app_assoc. split; [done|lia]. }
    right.
    set (q := Z.quot ((63 - (len jobType + 1) - 1 - 7) * 3) 5).
    assert (Hq : 27 <= q /\ 5 * q <= (63 - (len jobType + 1) - 1 - 7) * 3).
    { subst q. rewrite Z.quot_div_nonneg by lia.
      pose proof (Z.div_mod ((63 - (len jobType + 1) - 1 - 7) * 3) 5 ltac:(lia)).
      pose proof (Z.mod_pos_bound ((63 - (len jobType + 1) - 1 - 7) * 3) 5 ltac:(lia)). lia. }
    rewrite (proj2 (Z.ltb_ge q 8)) by lia.
    rewrite (proj2 (Z.ltb_ge _ 6)) by lia.
    set (k2 := 63 - (len jobType + 1) - 1 - 7 - q - 1).
    destruct (cut_spec repo q) as [-> Hl1]; [lia|].
    destruct (cut_spec rev k2) as [-> Hl2]; [lia|].
    cbn [mbind outcome_bind].
    destruct (hash6_spec (repo +:+ "-" +:+ rev)) as [(Hs & w & ->)|(Hs & -> & H6)]; [left|right].
    + split; [lia|]. eauto.
    + split; [lia|]. split; [done|]. exists (Z.to_nat q), (Z.to_nat k2).
      cbn [mbind outcome_bind]. rewrite !str_app_assoc. split; [done|].
      rewrite !len_app, Hl1, Hl2, H6. change (len "-") with 1. lia.
Qed.

Lemma generateJobName_prefix jobType repo rev s :
  1 <= len jobType <= 8 -> generateJobName jobType repo rev = Done s ->
  exists t, s = jobType +:+ "-" +:+ t.
Proof.
  intros Hj Hs.
  destruct (generateJobName_cases jobType repo rev Hj) as [(Hr & _)|[(_ & _ & w & Hr)|
    (_ & _ & k1 & k2 & Hr & _)]]; rewrite Hr in Hs; simplify_eq; eauto.
Qed.

(** Property C39: generateJobName, for a job type that is a label of at most 8
    bytes (the code uses "download" and "cleanup"), a repository name that is a
    label and a revision name that is a label or empty, returns an RFC 1123
    label of at most 63 bytes, and panics only for a name that must be cut and
    whose FNV-1a hash has fewer than six digits. *)
Theorem generateJobName_wellformed jobType repo rev :
  dns_label jobType = true -> len jobType <= 8 -> dns_label repo = true ->
  (rev = EmptyString \/ dns_label rev = true) ->
  match generateJobName jobType repo rev with
  | Done s => dns_label s = true /\ len s <= 63 /\ has_prefix (jobType +:+ "-") s = true
  | Panicked _ =>
      60 < len jobType + len repo + len rev /\
      Fnv.sum32 (if bool_decide (rev = EmptyString) then repo else repo +:+ "-" +:+ rev) < 2 ^ 20
  end.
Proof.
  intros (Hj & Hsj & Hej)%label_parts Hlj (Hr & Hsr & Her)%label_parts Hrev.
  assert (1 <= len jobType) by (destruct jobType; [done|unfold len; simpl; lia]).
  assert (Hp : forall t, has_prefix (jobType +:+ "-") (jobType +:+ "-" +:+ t) = true).
  { intros t. rewrite <- str_app_assoc. apply has_prefix_app. }
  set (hashed := if bool_decide (rev = EmptyString) then repo else repo +:+ "-" +:+ rev).
  assert (Hh : label_chars hashed = true /\ ends_ok hashed = true).
  { subst hashed. case_bool_decide as Hd; [done|].
    destruct Hrev as [|(Hv & Hsv & Hev)%label_parts]; [done|].
    rewrite !label_chars_app, Hr, Hv. auto with go. }
  destruct (hash_suffix_label hashed) as [Hc6 He6].
  pose proof (generateJobName_cases jobType repo rev ltac:(lia)) as Hcases.
  cbv zeta in Hcases. fold hashed in Hcases.
  destruct Hcases as [(-> & Hl)|[(Hl & Hs & w & ->)|(Hl & Hs & k1 & k2 & -> & Hlen)]].
  - split; [|done]. apply dash_label; try done; apply Hh.
  - split; [|done]. rewrite !len_app in Hl. change (len "-") with 1 in Hl.
    subst hashed. revert Hl. case_bool_decide as Hd; [rewrite Hd|rewrite !len_app];
      [change (len EmptyString) with 0|change (len "-") with 1]; lia.
  - split; [|done].
    destruct (hash6_spec hashed) as [[Hcontra _]|(_ & _ & H6)]; [lia|].
    apply dash_label; try done; case_bool_decide as Hd; auto 10 with go.
    + rewrite !label_chars_app, Hc6, label_chars_take by done. done.
    + destruct Hrev as [|(Hv & _)%label_parts]; [done|].
      by rewrite !label_chars_app, Hc6, !label_chars_take.
Qed.

Lemma generateJobName_wellformed_witness :
  dns_label "download-llama-main" = true /\ len "download-llama-main" <= 63 /\
  has_prefix ("download" +:+ "-") "download-llama-main" = true.
Proof.
  exact (generateJobName_wellformed "download" "llama" "main" eq_refl
           ltac:(vm_compute; discriminate) eq_refl (or_intror eq_refl)).
Defined.

(** A download job and a cleanup job never share a name, whatever
    the repositories and revisions, so that looking up (and deleting) the
    cleanup job of a revision never hits a download job. *)
Theorem generateJobName_types_disjoint repo rev repo' rev' s s' :
  generateJobName "download" repo rev = Done s ->
  generateJobName "cleanup" repo' rev' = Done s' -> s <> s'.
Proof.
  intros H1 H2. apply generateJobName_prefix in H1 as [t ->]; [|done].
  apply generateJobName_prefix in H2 as [t' ->]; [|done]. discriminate.
Qed.

Lemma generateJobName_types_disjoint_witness :
  "download-llama-main" <> "cleanup-llama-main".
Proof.
  exact (generateJobName_types_disjoint "llama" "main" "llama" "main" _ _ eq_refl eq_refl).
Defined.

(** ** Where the names fall short *)

(** The hash suffix is taken from an unpadded hexadecimal number,
    so valid names exist on which computing the PV name, the Deployment name or
    the job name panics. *)
Theorem names_can_panic :
  (exists engine model, dns_label engine = true /\ dns_label model = true /\
     len engine <= 63 /\ len model <= 40 /\
     exists w, llmEnginePVName engine model = Panicked w) /\
     (exists engine model, dns_label engine = true /\ dns_label model = true /\
     len engine <= 63 /\ len model <= 40 /\
     exists w, ComponentName engine model = Panicked w) /\
     (exists repo rev, dns_label repo = true /\ dns_label rev = true /\ len repo <= 40 /\
     exists w, generateJobName "download" repo rev = Panicked w).
Proof.
  split; [|split].
  - exists "chat-serving-engine-for-the-customer-support-team", "qwen2-5-72b-instruct-v498".
    repeat split; try (vm_compute; congruence). eexists. vm_compute. reflexivity.
  - exists "chat-serving-engine-for-customer-support", "qwen2-5-72b-instruct-v8066".
    repeat split; try (vm_compute; congruence). eexists. vm_compute. reflexivity.
  - exists "mistralai-mixtral-8x22b-instruct-v0-1", "release-2024-candidate-10890".
    repeat split; try (vm_compute; congruence). eexists. vm_compute. reflexivity.
Qed.

(** The dash that separates the parts of a name also occurs inside
    the parts, so different (engine, model) pairs, and different (repository,
    revision) pairs, share a PV, a Deployment or a job name. *)
Theorem names_can_collide :
  (exists e1 m1 e2 m2 n, (e1, m1) <> (e2, m2) /\
     dns_label e1 = true /\ dns_label m1 = true /\ dns_label e2 = true /\ dns_label m2 = true /\
     llmEnginePVName e1 m1 = Done n /\ llmEnginePVName e2 m2 = Done n /\
     ComponentName e1 m1 = ComponentName e2 m2) /\
     (exists r1 v1 r2 v2 n, (r1, v1) <> (r2, v2) /\
     generateJobName "download" r1 v1 = Done n /\ generateJobName "download" r2 v2 = Done n).
Proof.
  split.
  - exists "chat-llama", "3b", "chat", "llama-3b". eexists.
    repeat split; try (vm_compute; congruence).
  - exists "llama-3b", "main", "llama", "3b-main". eexists.
    repeat split; try (vm_compute; congruence).
Qed.

(** Within one engine, names that fit without truncation are told apart by the
    model, and within one repository by the revision. *)
Lemma TruncatedName_inj_r maxLen prefix a b1 b2 s :
  len prefix + 9 <= maxLen ->
  len (full_name prefix a b1) <= maxLen -> len (full_name prefix a b2) <= maxLen ->
  TruncatedName maxLen prefix a b1 = Done s -> TruncatedName maxLen prefix a b2 = Done s -> b1 = b2.
Proof.
  intros Hm H1 H2 E1 E2. apply (full_name_inj_r prefix a).
  destruct (TruncatedName_cases maxLen prefix a b1 Hm) as [[_ E]|[[? _]|[? _]]]; [|lia..].
  destruct (TruncatedName_cases maxLen prefix a b2 Hm) as [[_ E']|[[? _]|[? _]]]; [|lia..].
  congruence.
Qed.
