(* ===== verification/Api.v ===== *)
(** * Objects

    The custom resources of api/v1 (llmengine_types.go, modelrepository_types.go)
    and, of the Kubernetes objects the operator reads and writes, the fields it
    touches.  A field F of a Go struct is a projection named by a short prefix
    of the struct and F.  Go maps of strings are [gmap]s: the code never tells a
    nil map from an empty one except to allocate it before writing.  A
    resource.Quantity is carried in its string form. *)

From S2P Require Import Prelude.

(** ** metav1 *)

Record ObjectMeta := mkMeta {
  meta_Name : string;
  meta_Namespace : string;
  meta_Labels : gmap string string;
  meta_Annotations : gmap string string;
  meta_Finalizers : list string;
  meta_DeletionTimestamp : option Z;
  meta_OwnerReferences : list string;
  meta_ResourceVersion : Z;
}.
#[export] Instance ObjectMeta_eq_dec : EqDecision ObjectMeta.
Proof. solve_decision. Defined.

(** A fresh object: everything zero. *)
Definition meta_empty : ObjectMeta := mkMeta "" "" ∅ ∅ [] None [] 0.

Definition meta_with_Name (n : string) (m : ObjectMeta) : ObjectMeta :=
  mkMeta n (meta_Namespace m) (meta_Labels m) (meta_Annotations m) (meta_Finalizers m)
    (meta_DeletionTimestamp m) (meta_OwnerReferences m) (meta_ResourceVersion m).
Definition meta_with_Namespace (ns : string) (m : ObjectMeta) : ObjectMeta :=
  mkMeta (meta_Name m) ns (meta_Labels m) (meta_Annotations m) (meta_Finalizers m)
    (meta_DeletionTimestamp m) (meta_OwnerReferences m) (meta_ResourceVersion m).
Definition meta_with_Labels (ls : gmap string string) (m : ObjectMeta) : ObjectMeta :=
  mkMeta (meta_Name m) (meta_Namespace m) ls (meta_Annotations m) (meta_Finalizers m)
    (meta_DeletionTimestamp m) (meta_OwnerReferences m) (meta_ResourceVersion m).
Definition meta_with_Finalizers (fs : list string) (m : ObjectMeta) : ObjectMeta :=
  mkMeta (meta_Name m) (meta_Namespace m) (meta_Labels m) (meta_Annotations m) fs
    (meta_DeletionTimestamp m) (meta_OwnerReferences m) (meta_ResourceVersion m).
Definition meta_with_OwnerReferences (os : list string) (m : ObjectMeta) : ObjectMeta :=
  mkMeta (meta_Name m) (meta_Namespace m) (meta_Labels m) (meta_Annotations m)
    (meta_Finalizers m) (meta_DeletionTimestamp m) os (meta_ResourceVersion m).

Record Condition := mkCondition {
  cond_Type : string;
  cond_Status : string;
  cond_Reason : string;
  cond_Message : string;
  cond_LastTransitionTime : Z;
}.
#[export] Instance Condition_eq_dec : EqDecision Condition.
Proof. solve_decision. Defined.

Definition ConditionTrue : string := "True".
Definition ConditionFalse : string := "False".

(** ** api/v1: ModelRepository *)

Definition ModelOriginHuggingFace : string := "huggingface".
Definition ModelOriginOllama : string := "ollama".

Definition DownloadPhasePending : string := "Pending".
Definition DownloadPhaseDownloading : string := "Downloading".
Definition DownloadPhaseReady : string := "Ready".
Definition DownloadPhaseFailed : string := "Failed".
Definition DownloadPhaseDeprecated : string := "Deprecated".

Definition ModelRepoConditionReady : string := "Ready".
Definition ModelRepoConditionStorageReady : string := "StorageReady".

Definition ModelRepoReasonStorageProviderFailed : string := "StorageProviderFailed".
Definition ModelRepoReasonValidationFailed : string := "ValidationFailed".
Definition ModelRepoReasonProvisionFailed : string := "ProvisionFailed".
Definition ModelRepoReasonStorageProvisioned : string := "StorageProvisioned".
Definition ModelRepoReasonDownloadFailed : string := "DownloadFailed".
Definition ModelRepoReasonAllRevisionsReady : string := "AllRevisionsReady".
Definition ModelRepoReasonDownloading : string := "Downloading".
Definition ModelRepoReasonDeletionBlocked : string := "DeletionBlocked".

Record ModelStorage := mkModelStorage {
  sto_Size : string;
  sto_MountPath : string;
  sto_StorageClass : string;
}.

Record RevisionReference := mkRevisionReference { rev_Name : string; rev_Ref : string }.

Record ModelSource := mkModelSource {
  src_Origin : string;
  src_ModelId : string;
  src_Revision : string;
  src_Revisions : list RevisionReference;
  src_HFTokenSecret : string;
  src_HFTokenSecretKey : string;
}.

Record ModelRepositorySpec := mkModelRepositorySpec {
  mrs_ModelName : string;
  mrs_Source : ModelSource;
  mrs_Storage : ModelStorage;
  mrs_AutoDownload : bool;
  mrs_DownloadImage : string;
  mrs_DownloadScripts : string;
  mrs_DeleteScripts : string;
  mrs_NodeSelector : gmap string string;
}.

Record RevisionStatus := mkRevisionStatus {
  rs_Name : string;
  rs_CommitHash : string;
  rs_Status : string;
}.
#[export] Instance RevisionStatus_eq_dec : EqDecision RevisionStatus.
Proof. solve_decision. Defined.

Record BackendReference := mkBackendReference {
  be_Type : string;
  be_Details : gmap string string;
}.
#[export] Instance BackendReference_eq_dec : EqDecision BackendReference.
Proof. solve_decision. Defined.

(** aitrigramv1.StorageStatus (storage.StorageStatus is another type) *)
Record StorageStatus := mkStorageStatus {
  ss_StorageClass : string;
  ss_AccessMode : string;
  ss_VolumeMode : string;
  ss_BackendRef : option BackendReference;
  ss_BoundNodeName : string;
  ss_Capacity : string;
}.
#[export] Instance StorageStatus_eq_dec : EqDecision StorageStatus.
Proof. solve_decision. Defined.

Record ModelRepositoryStatus := mkModelRepositoryStatus {
  mst_Phase : string;
  mst_Conditions : list Condition;
  mst_Storage : option StorageStatus;
  mst_AvailableRevisions : list RevisionStatus;
  mst_ReferencedEngines : string;
}.
#[export] Instance ModelRepositoryStatus_eq_dec : EqDecision ModelRepositoryStatus.
Proof. solve_decision. Defined.

Record ModelRepository := mkModelRepository {
  mr_Meta : ObjectMeta;
  mr_Spec : ModelRepositorySpec;
  mr_Status : ModelRepositoryStatus;
}.
Definition mr_Name (m : ModelRepository) : string := meta_Name (mr_Meta m).

Definition mr_with_Meta (x : ObjectMeta) (m : ModelRepository) : ModelRepository :=
  mkModelRepository x (mr_Spec m) (mr_Status m).
Definition mr_with_Spec (x : ModelRepositorySpec) (m : ModelRepository) : ModelRepository :=
  mkModelRepository (mr_Meta m) x (mr_Status m).
Definition mr_with_Status (x : ModelRepositoryStatus) (m : ModelRepository) : ModelRepository :=
  mkModelRepository (mr_Meta m) (mr_Spec m) x.
Definition mrs_with_ModelName (n : string) (s : ModelRepositorySpec) : ModelRepositorySpec :=
  mkModelRepositorySpec n (mrs_Source s) (mrs_Storage s) (mrs_AutoDownload s)
    (mrs_DownloadImage s) (mrs_DownloadScripts s) (mrs_DeleteScripts s) (mrs_NodeSelector s).
Definition mst_with_Phase (p : string) (s : ModelRepositoryStatus) : ModelRepositoryStatus :=
  mkModelRepositoryStatus p (mst_Conditions s) (mst_Storage s) (mst_AvailableRevisions s)
    (mst_ReferencedEngines s).
Definition mst_with_Conditions (cs : list Condition) (s : ModelRepositoryStatus) :
    ModelRepositoryStatus :=
  mkModelRepositoryStatus (mst_Phase s) cs (mst_Storage s) (mst_AvailableRevisions s)
    (mst_ReferencedEngines s).
Definition mst_with_Storage (x : option StorageStatus) (s : ModelRepositoryStatus) :
    ModelRepositoryStatus :=
  mkModelRepositoryStatus (mst_Phase s) (mst_Conditions s) x (mst_AvailableRevisions s)
    (mst_ReferencedEngines s).
Definition mst_with_AvailableRevisions (rs : list RevisionStatus) (s : ModelRepositoryStatus) :
    ModelRepositoryStatus :=
  mkModelRepositoryStatus (mst_Phase s) (mst_Conditions s) (mst_Storage s) rs
    (mst_ReferencedEngines s).
Definition mst_with_ReferencedEngines (e : string) (s : ModelRepositoryStatus) :
    ModelRepositoryStatus :=
  mkModelRepositoryStatus (mst_Phase s) (mst_Conditions s) (mst_Storage s)
    (mst_AvailableRevisions s) e.
Definition rs_with_Status (p : string) (r : RevisionStatus) : RevisionStatus :=
  mkRevisionStatus (rs_Name r) (rs_CommitHash r) p.

(** ** corev1, the parts used by specs and workloads *)

(** EnvVarSource: the operator makes secret references; a user may give any
    other source, which is passed along. *)
Inductive EnvVarSource : Type :=
| SecretKeyRef (secret key : string)
| OtherSource (text : string).
#[export] Instance EnvVarSource_eq_dec : EqDecision EnvVarSource.
Proof. solve_decision. Defined.

Record EnvVar := mkEnvVar {
  env_Name : string;
  env_Value : string;
  env_ValueFrom : option EnvVarSource;
}.
#[export] Instance EnvVar_eq_dec : EqDecision EnvVar.
Proof. solve_decision. Defined.

(** {Name: n, Value: v} *)
Definition env (n v : string) : EnvVar := mkEnvVar n v None.

Record Toleration := mkToleration {
  tol_Key : string;
  tol_Operator : string;
  tol_Value : string;
  tol_Effect : string;
}.

Record ResourceRequirements := mkResources {
  res_Limits : gmap string string;
  res_Requests : gmap string string;
}.

Record NodeSelectorRequirement := mkNodeReq {
  nsr_Key : string;
  nsr_Operator : string;
  nsr_Values : list string;
}.

(** A NodeSelectorTerm is its MatchExpressions. *)
Abbreviation NodeSelectorTerm := (list NodeSelectorRequirement).

Record VolumeMount := mkVolumeMount {
  vm_Name : string;
  vm_MountPath : string;
  vm_ReadOnly : bool;
}.

Inductive VolumeSource : Type :=
| PVCVolume (claimName : string) (readOnly : bool)
| ConfigMapVolume (name : string)
| EmptyDirVolume (medium sizeLimit : string).

Record Volume := mkVolume { vol_Name : string; vol_Source : VolumeSource }.

Record ContainerPort := mkContainerPort {
  cp_Name : string;
  cp_ContainerPort : Z;
  cp_Protocol : string;
}.

(** A container's security context; an unset Privileged is false. *)
Record SecurityContext := mkSecurityContext {
  sec_Privileged : bool;
  sec_AllowPrivilegeEscalation : bool;
  sec_CapabilitiesDrop : list string;
}.

Record Container := mkContainer {
  c_Name : string;
  c_Image : string;
  c_Command : list string;
  c_Args : list string;
  c_Ports : list ContainerPort;
  c_Env : list EnvVar;
  c_VolumeMounts : list VolumeMount;
  c_Resources : ResourceRequirements;
  c_SecurityContext : option SecurityContext;
}.

Record PodSpec := mkPodSpec {
  pod_Containers : list Container;
  pod_Volumes : list Volume;
  pod_NodeSelector : gmap string string;
  pod_NodeAffinity : option (list NodeSelectorTerm);
  pod_Tolerations : list Toleration;
  pod_HostIPC : bool;
  pod_RestartPolicy : string;
}.

Record Job := mkJob {
  job_Meta : ObjectMeta;
  job_TemplateLabels : gmap string string;
  job_Pod : PodSpec;
  job_Succeeded : Z;
  job_Failed : Z;
}.

Record Deployment := mkDeployment {
  dep_Meta : ObjectMeta;
  dep_Replicas : option Z;
  dep_MatchLabels : gmap string string;
  dep_TemplateLabels : gmap string string;
  dep_Pod : PodSpec;
  dep_ReadyReplicas : Z;
}.

(** intstr.IntOrString *)
Inductive IntOrString : Type := FromInt (n : Z) | FromString (s : string).

Record ServicePort := mkServicePort {
  sp_Name : string;
  sp_Port : Z;
  sp_TargetPort : IntOrString;
  sp_Protocol : string;
}.

Record Service := mkService {
  svc_Meta : ObjectMeta;
  svc_Type : string;
  svc_Selector : gmap string string;
  svc_Ports : list ServicePort;
}.

Record ConfigMap := mkConfigMap { cm_Meta : ObjectMeta; cm_Data : gmap string string }.

Record Node := mkNode { node_Meta : ObjectMeta; node_Allocatable : gmap string string }.

Record StorageClass := mkStorageClass { sc_Meta : ObjectMeta; sc_Provisioner : string }.

Definition ReadWriteMany : string := "ReadWriteMany".
Definition ReadWriteOnce : string := "ReadWriteOnce".
Definition ReadOnlyMany : string := "ReadOnlyMany".
Definition ClaimBound : string := "Bound".
Definition ClaimPending : string := "Pending".

Record PersistentVolumeClaim := mkPVC {
  pvc_Meta : ObjectMeta;
  pvc_AccessModes : list string;
  pvc_Request : string;
  pvc_StorageClassName : option string;
  pvc_VolumeName : string;
  pvc_Phase : string;
  pvc_Capacity : option string;
}.
Definition pvc_with_Meta (x : ObjectMeta) (p : PersistentVolumeClaim) : PersistentVolumeClaim :=
  mkPVC x (pvc_AccessModes p) (pvc_Request p) (pvc_StorageClassName p) (pvc_VolumeName p)
    (pvc_Phase p) (pvc_Capacity p).

(** The volume sources of a PersistentVolume.  Each is a pointer of the Go
    struct; the API server admits one of them. *)
Record NFSVolumeSource := mkNFS { nfs_Server : string; nfs_Path : string; nfs_ReadOnly : bool }.
Record CSIVolumeSource := mkCSI {
  csi_Driver : string;
  csi_VolumeHandle : string;
  csi_ReadOnly : bool;
  csi_VolumeAttributes : gmap string string;
}.
Record AWSVolumeSource := mkAWS { aws_VolumeID : string; aws_FSType : string }.
Record GCEVolumeSource := mkGCE { gce_PDName : string; gce_FSType : string }.
Record AzureDiskVolumeSource := mkAzure { az_DiskName : string; az_DataDiskURI : string }.
Record CephFSVolumeSource := mkCephFS {
  ceph_Monitors : list string;
  ceph_Path : string;
  ceph_ReadOnly : bool;
}.
Record GlusterfsVolumeSource := mkGluster { glu_EndpointsName : string; glu_Path : string }.
Record HostPathVolumeSource := mkHostPath { hp_Path : string; hp_Type : option string }.

Record PVSource := mkPVSource {
  pvs_NFS : option NFSVolumeSource;
  pvs_CSI : option CSIVolumeSource;
  pvs_AWS : option AWSVolumeSource;
  pvs_GCE : option GCEVolumeSource;
  pvs_AzureDisk : option AzureDiskVolumeSource;
  pvs_CephFS : option CephFSVolumeSource;
  pvs_Glusterfs : option GlusterfsVolumeSource;
  pvs_HostPath : option HostPathVolumeSource;
}.
Definition pvs_empty : PVSource := mkPVSource None None None None None None None None.
Definition pvs_of_NFS x : PVSource := mkPVSource (Some x) None None None None None None None.
Definition pvs_of_CSI x : PVSource := mkPVSource None (Some x) None None None None None None.
Definition pvs_of_CephFS x : PVSource := mkPVSource None None None None None (Some x) None None.
Definition pvs_of_HostPath x : PVSource := mkPVSource None None None None None None None (Some x).

(** The spec of a PersistentVolume.  [pvp_NodeAffinity] has two levels of nil:
    the affinity and its Required selector. *)
Record PersistentVolumeSpec := mkPVSpec {
  pvp_Capacity : string;
  pvp_AccessModes : list string;
  pvp_VolumeMode : option string;
  pvp_Source : PVSource;
  pvp_NodeAffinity : option (option (list NodeSelectorTerm));
  pvp_ClaimRef : option (string * string);
  pvp_ReclaimPolicy : string;
}.

Record PersistentVolume := mkPV { pv_Meta : ObjectMeta; pv_Spec : PersistentVolumeSpec }.
Definition pv_with_Meta (x : ObjectMeta) (p : PersistentVolume) : PersistentVolume :=
  mkPV x (pv_Spec p).

(** The containers of a pod can not gain privileges. *)
Definition unprivileged (pod : PodSpec) : Prop :=
  Forall (fun c => exists s, c_SecurityContext c = Some s /\ sec_Privileged s = false /\
                     sec_AllowPrivilegeEscalation s = false /\ "ALL" ∈ sec_CapabilitiesDrop s)
    (pod_Containers pod).

(** ** api/v1: LLMEngine *)

Definition LLMEngineTypeOllama : string := "ollama".
Definition LLMEngineTypeVLLM : string := "vllm".
Definition RevisionUpdatePolicyManual : string := "Manual".
Definition RevisionUpdatePolicyAutomatic : string := "Automatic".

Definition LLMEngineConditionReady : string := "Ready".
Definition LLMEngineConditionModelsAvailable : string := "ModelsAvailable".

Definition LLMEngineReasonModelRepositoryFetchFailed : string := "ModelRepositoryFetchFailed".
Definition LLMEngineReasonNoModelsFound : string := "NoModelsFound".
Definition LLMEngineReasonWaitingForModels : string := "WaitingForModels".
Definition LLMEngineReasonGPUNotAvailable : string := "GPUNotAvailable".
Definition LLMEngineReasonStoragePending : string := "StoragePending".
Definition LLMEngineReasonReconcileFailed : string := "ReconcileFailed".
Definition LLMEngineReasonModelsReady : string := "ModelsReady".
Definition LLMEngineReasonDeploymentsReady : string := "DeploymentsReady".
Definition LLMEngineReasonDeploymentsCreated : string := "DeploymentsCreated".

Record ModelReference := mkModelReference {
  ref_Name : string;
  ref_Revision : string;
  ref_UpdatePolicy : string;
}.

Record GPUConfig := mkGPUConfig {
  gpu_Enabled : bool;
  gpu_Count : Z;
  gpu_Type : string;
  gpu_NodeSelector : gmap string string;
  gpu_Tolerations : list Toleration;
}.

Record LLMEngineSpec := mkLLMEngineSpec {
  les_EngineType : string;
  les_ModelRefs : list ModelReference;
  les_Image : string;
  les_Args : list string;
  les_Env : list EnvVar;
  les_Port : Z;
  les_ServicePort : Z;
  les_Replicas : option Z;
  les_NodeSelector : gmap string string;
  les_Resources : option ResourceRequirements;
  les_GPU : option GPUConfig;
  les_HostIPC : bool;
}.

Record LLMEngineStatus := mkLLMEngineStatus {
  lst_Phase : string;
  lst_Conditions : list Condition;
  lst_ModelRepositories : list string;
}.
#[export] Instance LLMEngineStatus_eq_dec : EqDecision LLMEngineStatus.
Proof. solve_decision. Defined.

Record LLMEngine := mkLLMEngine {
  le_Meta : ObjectMeta;
  le_Spec : LLMEngineSpec;
  le_Status : LLMEngineStatus;
}.
Definition le_Name (e : LLMEngine) : string := meta_Name (le_Meta e).
Definition le_Namespace (e : LLMEngine) : string := meta_Namespace (le_Meta e).

Definition le_with_Meta (x : ObjectMeta) (e : LLMEngine) : LLMEngine :=
  mkLLMEngine x (le_Spec e) (le_Status e).
Definition le_with_Status (x : LLMEngineStatus) (e : LLMEngine) : LLMEngine :=
  mkLLMEngine (le_Meta e) (le_Spec e) x.
Definition lst_with_Phase (p : string) (s : LLMEngineStatus) : LLMEngineStatus :=
  mkLLMEngineStatus p (lst_Conditions s) (lst_ModelRepositories s).
Definition lst_with_Conditions (cs : list Condition) (s : LLMEngineStatus) : LLMEngineStatus :=
  mkLLMEngineStatus (lst_Phase s) cs (lst_ModelRepositories s).
Definition lst_with_ModelRepositories (l : list string) (s : LLMEngineStatus) : LLMEngineStatus :=
  mkLLMEngineStatus (lst_Phase s) (lst_Conditions s) l.
