(* ===== verification/Kube.v ===== *)
(** * The Kubernetes API as the operator sees it

    The controllers talk to the API server through controller-runtime's client.
    Neither is part of the repository, so a reconciler is modelled as a program
    that issues requests, [prog]: a tree with one [Call] per client call and one
    branch per possible answer.  [run] plays such a program against a server,
    which is any function from a request and a server state to an answer and a
    new state, and keeps the trace of requests and answers.  Safety theorems
    quantify over every server; [wp] is the logic that proves them. *)

From S2P Require Import Prelude Api.

(** ** Requests and answers

    One constructor per client call of the code.  ListLLMEngines is across all
    namespaces; DeleteJob uses background propagation (the only policy the code
    asks for); Now is the clock that meta.SetStatusCondition reads. *)
Inductive req : Type :=
| GetModelRepository (name : string)
| UpdateModelRepository (o : ModelRepository)
| UpdateModelRepositoryStatus (o : ModelRepository)
| GetLLMEngine (ns name : string)
| UpdateLLMEngine (o : LLMEngine)
| UpdateLLMEngineStatus (o : LLMEngine)
| ListLLMEngines
| GetJob (ns name : string)
| CreateJob (o : Job)
| DeleteJob (ns name : string)
| ListJobs (ns : string) (labels : gmap string string)
| GetPVC (ns name : string)
| CreatePVC (o : PersistentVolumeClaim)
| UpdatePVC (o : PersistentVolumeClaim)
| DeletePVC (ns name : string)
| GetPV (name : string)
| CreatePV (o : PersistentVolume)
| UpdatePV (o : PersistentVolume)
| DeletePV (name : string)
| GetDeployment (ns name : string)
| ApplyDeployment (o : Deployment)
| DeleteDeployment (ns name : string)
| ApplyService (o : Service)
| DeleteService (ns name : string)
| ApplyConfigMap (o : ConfigMap)
| GetNode (name : string)
| ListNodes
| ListStorageClasses
| Now.

(** What the code uses of each answer.  Update of a custom resource returns the
    object as the server stored it, which the client writes back into its
    argument. *)
Definition resp (r : req) : Type :=
  match r with
  | GetModelRepository _ => result ModelRepository
  | UpdateModelRepository _ => result ModelRepository
  | GetLLMEngine _ _ => result LLMEngine
  | UpdateLLMEngine _ => result LLMEngine
  | ListLLMEngines => result (list LLMEngine)
  | GetJob _ _ => result Job
  | ListJobs _ _ => result (list Job)
  | GetPVC _ _ => result PersistentVolumeClaim
  | GetPV _ => result PersistentVolume
  | GetDeployment _ _ => result Deployment
  | GetNode _ => result Node
  | ListNodes => result (list Node)
  | ListStorageClasses => result (list StorageClass)
  | Now => Z
  | _ => err_opt
  end.

(** Requests that only read. *)
Definition is_read (r : req) : bool :=
  match r with
  | GetModelRepository _ | GetLLMEngine _ _ | ListLLMEngines | GetJob _ _ | ListJobs _ _
  | GetPVC _ _ | GetPV _ | GetDeployment _ _ | GetNode _ | ListNodes | ListStorageClasses
  | Now => true
  | _ => false
  end.

(** ** Programs *)
Inductive prog (A : Type) : Type :=
| Ret (a : A)
| Crash (why : string)
| Call (r : req) (k : resp r -> prog A).
Arguments Ret {A} a.
Arguments Crash {A} why.
Arguments Call {A} r k.

Fixpoint prog_bind {A B} (p : prog A) (f : A -> prog B) : prog B :=
  match p with
  | Ret a => f a
  | Crash w => Crash w
  | Call r k => Call r (fun a => prog_bind (k a) f)
  end.

Definition call (r : req) : prog (resp r) := Call r Ret.

(** Pure Go code that may panic, inside a handler. *)
Definition lift {A} (o : outcome A) : prog A :=
  match o with Done a => Ret a | Panicked w => Crash w end.

Notation "'let!' x := p 'in' q" := (prog_bind p (fun x => q))
  (at level 10, x pattern, p at level 200, q at level 200) : go_scope.

Local Open Scope go_scope.

(** A loop over a slice that may leave early: the body returns [inl] to go on
    with a new accumulator and [inr] to return. *)
Fixpoint for_each {A S B} (l : list A) (s : S) (body : S -> A -> prog (S + B)) : prog (S + B) :=
  match l with
  | [] => Ret (inl s)
  | x :: l =>
      let! r := body s x in
      match r with
      | inl s => for_each l s body
      | inr b => Ret (inr b)
      end
  end.

(** ** Execution *)
Inductive event : Type := Ev (r : req) (a : resp r).
Arguments Ev r a : clear implicits.

Abbreviation trace := (list event).

Definition server (W : Type) : Type := forall r : req, W -> resp r * W.

Fixpoint run {W A} (srv : server W) (p : prog A) (w : W) : trace * outcome A * W :=
  match p with
  | Ret a => ([], Done a, w)
  | Crash m => ([], Panicked m, w)
  | Call r k =>
      let '(a, w) := srv r w in
      let '(t, o, w) := run srv (k a) w in
      (Ev r a :: t, o, w)
  end.

Lemma run_bind {W A B} (srv : server W) (p : prog A) (f : A -> prog B) w :
  run srv (prog_bind p f) w =
  (let '(t, o, w) := run srv p w in
   match o with
   | Done a => let '(t', o', w') := run srv (f a) w in (t ++ t', o', w')
   | Panicked m => (t, Panicked m, w)
   end).
Proof.
  revert w. induction p as [a|m|r k IH]; intros w; simpl.
  - by destruct (run srv (f a) w) as [[??]?].
  - done.
  - destruct (srv r w) as [a w']. rewrite IH.
    destruct (run srv (k a) w') as [[t o] w'']. destruct o; [|done].
    by destruct (run srv (f a0) w'') as [[??]?].
Qed.

(** ** The logic

    [wp G p h Q]: started after the history [h], every request of [p] satisfies
    the guard [G] (which sees the history at that point), whatever the server
    answers, and every end of [p], normal or by panic, satisfies [Q]. *)
Fixpoint wp {A} (G : trace -> req -> Prop) (p : prog A) (h : trace)
    (Q : trace -> outcome A -> Prop) : Prop :=
  match p with
  | Ret a => Q h (Done a)
  | Crash m => Q h (Panicked m)
  | Call r k => G h r /\ forall a, wp G (k a) (h ++ [Ev r a]) Q
  end.

Fixpoint guarded (G : trace -> req -> Prop) (h t : trace) : Prop :=
  match t with
  | [] => True
  | Ev r a :: t => G h r /\ guarded G (h ++ [Ev r a]) t
  end.

Lemma guarded_app_r G h t1 r a t2 :
  guarded G h (t1 ++ Ev r a :: t2) -> G (h ++ t1) r.
Proof.
  revert h; induction t1 as [|[r' a'] t1 IH]; intros h; simpl.
  - intros [? _]. by rewrite app_nil_r.
  - intros [_ H]. apply IH in H. by rewrite <- app_assoc in H.
Qed.

Lemma guarded_Forall G h t (P : event -> Prop) :
  (forall h e, (let 'Ev r _ := e in G h r) -> P e) -> guarded G h t -> Forall P t.
Proof.
  intros HP. revert h. induction t as [|[r a] t IH]; intros h; simpl; [constructor|].
  intros [Hr Ht]. constructor; [by eapply HP|eauto].
Qed.

Lemma wp_run {W A} (srv : server W) G (p : prog A) h Q w t o w' :
  wp G p h Q -> run srv p w = (t, o, w') -> guarded G h t /\ Q (h ++ t) o.
Proof.
  revert h w t. induction p as [a|m|r k IH]; intros h w t Hwp Hrun; simpl in *.
  - simplify_eq. simpl. by rewrite app_nil_r.
  - simplify_eq. simpl. by rewrite app_nil_r.
  - destruct Hwp as [HG Hk]. destruct (srv r w) as [a w1].
    destruct (run srv (k a) w1) as [[t' o'] w2] eqn:E. simplify_eq.
    destruct (IH a _ _ _ (Hk a) E) as [HGt HQ]. rewrite <- app_assoc in HQ. done.
Qed.

Lemma wp_bind {A B} G (p : prog A) (f : A -> prog B) h Q :
  wp G p h (fun h' o => match o with
                        | Done a => wp G (f a) h' Q
                        | Panicked m => Q h' (Panicked m)
                        end) ->
  wp G (prog_bind p f) h Q.
Proof.
  revert h. induction p as [a|m|r k IH]; intros h; simpl; [done..|].
  intros [HG Hk]. split; [done|]. intros a. apply IH, Hk.
Qed.

Lemma wp_mono {A} (G G' : trace -> req -> Prop) (p : prog A) h (Q Q' : trace -> outcome A -> Prop) :
  (forall h r, G h r -> G' h r) ->
  (forall h' o, Q (h ++ h') o -> Q' (h ++ h') o) ->
  wp G p h Q -> wp G' p h Q'.
Proof.
  intros HG. revert h. induction p as [a|m|r k IH]; intros h HQ; simpl.
  - rewrite <- (app_nil_r h). apply HQ.
  - rewrite <- (app_nil_r h). apply HQ.
  - intros [H Hk]. split; [auto|]. intros a. apply IH; [|apply Hk].
    intros h' o. rewrite <- app_assoc. apply HQ.
Qed.

Lemma wp_conseq {A} G (p : prog A) h (Q Q' : trace -> outcome A -> Prop) :
  wp G p h Q -> (forall h' o, Q (h ++ h') o -> Q' (h ++ h') o) -> wp G p h Q'.
Proof. intros H HQ. by eapply wp_mono. Qed.

(** The guard needs to be weaker only for the histories that extend [h]. *)
Lemma wp_weaken {A} (G G' : trace -> req -> Prop) (p : prog A) h (Q Q' : trace -> outcome A -> Prop) :
  (forall h' r, G (h ++ h') r -> G' (h ++ h') r) ->
  (forall h' o, Q (h ++ h') o -> Q' (h ++ h') o) ->
  wp G p h Q -> wp G' p h Q'.
Proof.
  revert h. induction p as [a|m|r k IH]; intros h HG HQ; simpl.
  - rewrite <- (app_nil_r h). apply HQ.
  - rewrite <- (app_nil_r h). apply HQ.
  - intros [H Hk]. split; [by specialize (HG [] r); rewrite app_nil_r in HG; apply HG|].
    intros a. apply IH; [..|apply Hk]; intros h' ?; rewrite <- app_assoc; auto.
Qed.

Lemma wp_conj {A} G1 G2 (p : prog A) h Q1 Q2 :
  wp G1 p h Q1 -> wp G2 p h Q2 ->
  wp (fun h r => G1 h r /\ G2 h r) p h (fun h o => Q1 h o /\ Q2 h o).
Proof.
  revert h. induction p as [a|m|r k IH]; intros h; simpl; [done..|].
  intros [H1 K1] [H2 K2]. split; [done|]. auto.
Qed.

(** *** Programs whose requests all satisfy a predicate *)
Fixpoint calls_only {A} (P : req -> Prop) (p : prog A) : Prop :=
  match p with
  | Ret _ | Crash _ => True
  | Call r k => P r /\ forall a, calls_only P (k a)
  end.

Lemma calls_only_wp {A} P (p : prog A) h :
  calls_only P p <-> wp (fun _ r => P r) p h (fun _ _ => True).
Proof.
  revert h. induction p as [a|m|r k IH]; intros h; simpl; [done..|].
  split; intros [H Hk]; (split; [done|]); intros a; by eapply (IH a), Hk.
Qed.

Lemma calls_only_bind {A B} P (p : prog A) (f : A -> prog B) :
  calls_only P p -> (forall a, calls_only P (f a)) -> calls_only P (prog_bind p f).
Proof.
  intros Hp Hf. induction p as [a|m|r k IH]; simpl in *; [auto..|].
  destruct Hp as [H Hk]. split; [done|]. auto.
Qed.

Lemma calls_only_mono {A} (P P' : req -> Prop) (p : prog A) :
  (forall r, P r -> P' r) -> calls_only P p -> calls_only P' p.
Proof.
  intros HP. induction p as [a|m|r k IH]; simpl; [done..|].
  intros [H Hk]. auto.
Qed.

Lemma calls_only_call P r : P r -> calls_only P (call r).
Proof. done. Qed.

Lemma calls_only_lift {A} P (o : outcome A) : calls_only P (lift o).
Proof. by destruct o. Qed.

Lemma calls_only_for_each {A S B} P (l : list A) (s : S) (body : S -> A -> prog (S + B)) :
  (forall s x, x ∈ l -> calls_only P (body s x)) -> calls_only P (for_each l s body).
Proof.
  revert s. induction l as [|x l IH]; intros s H; simpl; [done|].
  apply calls_only_bind; [apply H; left|]. intros [s'|b]; [|done].
  apply IH. intros s'' y Hy. apply H. by right.
Qed.

Lemma calls_only_run {W A} (srv : server W) P (p : prog A) w t o w' :
  calls_only P p -> run srv p w = (t, o, w') ->
  Forall (fun e => match e with Ev r _ => P r end) t.
Proof.
  intros Hp Hrun. apply (calls_only_wp _ _ []) in Hp.
  destruct (wp_run _ _ _ _ _ _ _ _ _ Hp Hrun) as [HG _].
  clear -HG. revert HG. generalize (@nil event) as h.
  induction t as [|[r a] t IH]; intros h HG; constructor; destruct HG; eauto.
Qed.

#[export] Hint Resolve calls_only_call calls_only_lift : go.

(** Walk through a handler that only issues some requests. *)
Ltac calls_step :=
  match goal with
  | |- calls_only _ (prog_bind _ _) => apply calls_only_bind; [|intros ?]
  | |- calls_only _ (call _) => apply calls_only_call
  | |- calls_only _ (lift _) => apply calls_only_lift
  | |- calls_only _ (Ret _) => exact I
  | |- calls_only _ (Crash _) => exact I
  | |- calls_only _ (for_each _ _ _) => apply calls_only_for_each; intros ? ? ?
  | |- calls_only _ (match ?x with _ => _ end) => destruct x eqn:?
  | |- calls_only _ (let _ := _ in _) => cbv zeta
  end.
Ltac calls_tac := repeat (calls_step; try (solve [eauto with go])).

(** *** Rules of the logic for the shapes handlers have *)
Lemma wp_call {A} G r (f : resp r -> prog A) h Q :
  G h r -> (forall a, wp G (f a) (h ++ [Ev r a]) Q) -> wp G (prog_bind (call r) f) h Q.
Proof. done. Qed.

Lemma wp_lift {A B} G (o : outcome A) (f : A -> prog B) h (Q : trace -> outcome B -> Prop) :
  (forall a, o = Done a -> wp G (f a) h Q) -> (forall m, o = Panicked m -> Q h (Panicked m)) ->
  wp G (prog_bind (lift o) f) h Q.
Proof. intros H1 H2. destruct o; simpl; auto. Qed.

(** A subprogram all of whose requests satisfy the guard, of which nothing else
    matters. *)
Lemma wp_bind_calls {A B} G P (p : prog A) (f : A -> prog B) h Q :
  calls_only P p -> (forall h' r, P r -> G (h ++ h') r) ->
  (forall h' a, wp G (f a) (h ++ h') Q) ->
  (forall h' m, Q (h ++ h') (Panicked m)) ->
  wp G (prog_bind p f) h Q.
Proof.
  revert h. induction p as [a|m|r k IH]; intros h Hp HG Hf HQ; simpl in *.
  - specialize (Hf [] a). by rewrite app_nil_r in Hf.
  - specialize (HQ [] m). by rewrite app_nil_r in HQ.
  - destruct Hp as [Hr Hk]. split.
    + specialize (HG [] r Hr). by rewrite app_nil_r in HG.
    + intros a. apply IH; [auto|..]; intros h'; rewrite <- app_assoc; auto.
Qed.

(** A loop, by an invariant on the history, the elements done and the
    accumulator; *)
Lemma wp_for_each_prefix {A S B} G (l : list A) (s : S) (body : S -> A -> prog (S + B)) h
    (I : trace -> list A -> S -> Prop) (Q : trace -> outcome (S + B) -> Prop) :
  I h [] s ->
  (forall h pre s x, pre ++ [x] `prefix_of` l -> I h pre s ->
     wp G (body s x) h (fun h' o => match o with
                                    | Done (inl s') => I h' (pre ++ [x]) s'
                                    | Done (inr b) => Q h' (Done (inr b))
                                    | Panicked m => Q h' (Panicked m)
                                    end)) ->
  (forall h s, I h l s -> Q h (Done (inl s))) ->
  wp G (for_each l s body) h Q.
Proof.
  intros HI Hbody HQ.
  enough (Hgen : forall post pre h s, l = pre ++ post -> I h pre s -> wp G (for_each post s body) h Q)
    by by apply (Hgen l []).
  clear HI h s. intros post. induction post as [|x post IH]; intros pre h s -> HI; simpl.
  - apply HQ. by rewrite app_nil_r.
  - apply wp_bind. eapply wp_conseq.
    + apply (Hbody _ pre); [|done]. exists post. by rewrite <- app_assoc.
    + intros h' [[s'|b]|m] Ho; simpl; [|done..].
      apply (IH (pre ++ [x])); [by rewrite <- app_assoc|done].
Qed.

(** or on the history and the accumulator. *)
Lemma wp_for_each {A S B} G (l : list A) (s : S) (body : S -> A -> prog (S + B)) h
    (I : trace -> S -> Prop) (Q : trace -> outcome (S + B) -> Prop) :
  I h s ->
  (forall h s x, x ∈ l -> I h s ->
     wp G (body s x) h (fun h' o => match o with
                                    | Done (inl s') => I h' s'
                                    | Done (inr b) => Q h' (Done (inr b))
                                    | Panicked m => Q h' (Panicked m)
                                    end)) ->
  (forall h s, I h s -> Q h (Done (inl s))) ->
  wp G (for_each l s body) h Q.
Proof.
  intros HI Hbody HQ. apply (wp_for_each_prefix _ _ _ _ _ (fun h _ s => I h s)); [done| |done].
  intros h' pre s' x [post ->] HI'. apply Hbody; [|done].
  apply elem_of_app. left. apply elem_of_app. right. by left.
Qed.

(** A guard that a longer history keeps satisfying. *)
Definition stable (G : trace -> req -> Prop) : Prop :=
  forall h h' r, G h r -> G (h ++ h') r.

(** What the trace of a run says of its requests. *)
Lemma wp_run_guard {W A} (srv : server W) G (p : prog A) Q w t o w' t1 r a t2 :
  wp G p [] Q -> run srv p w = (t, o, w') -> t = t1 ++ Ev r a :: t2 -> G t1 r.
Proof.
  intros Hwp Hrun ->. destruct (wp_run _ _ _ _ _ _ _ _ _ Hwp Hrun) as [HG _].
  by apply guarded_app_r in HG.
Qed.

(** *** Histories *)

(** The last request of the history, and its answer. *)
Definition just_answered (h : trace) (r : req) (a : resp r) : Prop :=
  exists h0, h = h0 ++ [Ev r a].

Lemma just_answered_snoc h r a : just_answered (h ++ [Ev r a]) r a.
Proof. by exists h. Qed.
#[export] Hint Resolve just_answered_snoc : go.

(** The request was made, and answered so. *)
Definition answered (h : trace) (r : req) (a : resp r) : Prop := Ev r a ∈ h.

Lemma answered_snoc h r a : answered (h ++ [Ev r a]) r a.
Proof. unfold answered. set_solver. Qed.
Lemma answered_app h h' r a : answered h r a -> answered (h ++ h') r a.
Proof. unfold answered. set_solver. Qed.
#[export] Hint Resolve answered_snoc answered_app : go.

(** ** Contracts with a server

    Started in [I] and sent only requests that satisfy [P], the server stays in [I]
    and its answers satisfy [E]. *)
Class Serves {W : Type} (srv : server W) (I : W -> Prop) (P : req -> Prop) (E : event -> Prop) : Prop := {
  serves_state r w : I w -> P r -> I (srv r w).2;
  serves_answer r w : I w -> P r -> E (Ev r (srv r w).1);
}.

(** What a client owes in return: good requests as long as the answers are good. *)
Definition owes (P : req -> Prop) (E : event -> Prop) (h : trace) (r : req) : Prop :=
  Forall E h -> P r.

(** A program that keeps its part gets the other. *)
Lemma wp_serves {W A} (srv : server W) I P E `{!Serves srv I P E} (p : prog A) h Q w t o w' :
  wp (owes P E) p h Q -> I w -> Forall E h -> run srv p w = (t, o, w') ->
  Forall (fun ev => let 'Ev r _ := ev in P r) t /\ Forall E t /\ I w' /\ Q (h ++ t) o.
Proof.
  revert h w t. induction p as [a|m|r k IH]; intros h w t Hwp Hw Hh Hrun; cbn in *.
  - simplify_eq. by rewrite app_nil_r.
  - simplify_eq. by rewrite app_nil_r.
  - destruct Hwp as [Hr Hk]. specialize (Hr Hh).
    pose proof (serves_state r w Hw Hr) as Hw1. pose proof (serves_answer r w Hw Hr) as He.
    destruct (srv r w) as [a w1]. destruct (run srv (k a) w1) as [[t' o'] w2] eqn:Er. simplify_eq.
    destruct (IH a (h ++ [Ev r a]) w1 t' (Hk a) Hw1) as (H1 & H2 & H3 & H4); [|done|].
    + apply Forall_app. split; [done|]. by constructor.
    + rewrite <- app_assoc in H4. split_and!; [by constructor..|done|done].
Qed.

(** One step of a proof in the logic. *)
Ltac wp_case x := first [is_var x; destruct x | destruct x eqn:?].
Ltac wp_step :=
  lazymatch goal with
  | |- wp _ (prog_bind (call _) _) _ _ => apply wp_call; [|intros ?]
  | |- wp _ (prog_bind (lift _) _) _ _ => apply wp_lift; [intros ? ?|intros ? ?]
  | |- wp _ (prog_bind (Ret _) _) _ _ => cbn [prog_bind]
  | |- wp _ (prog_bind (Crash _) _) _ _ => cbn [prog_bind]
  | |- wp _ (prog_bind (match ?x with _ => _ end) _) _ _ => wp_case x
  | |- wp _ (prog_bind _ _) _ _ => apply wp_bind
  | |- wp _ (Ret _) _ _ => cbn [wp]
  | |- wp _ (Crash _) _ _ => cbn [wp]
  | |- wp _ (call _) _ _ => cbn [wp call]; split; [|intros ?]
  | |- wp _ (match ?x with _ => _ end) _ _ => wp_case x
  | |- wp _ (let _ := _ in _) _ _ => cbv zeta
  end.
