(* ===== verification/Machinery.v ===== *)
(** * Library code the operator calls

    The functions of k8s.io/apimachinery, client-go and controller-runtime that
    the operator calls are the fields of a class, and what the operator relies
    on, as their documentation states it, are the fields of a second class.
    Every definition that uses such a function takes the first class as an
    argument, every theorem that relies on its behaviour the second.  [Reference]
    has an instance of both, so that no theorem is about nothing. *)

From S2P Require Import Prelude Api Kube.
From Stdlib Require Import Ascii String.

Local Open Scope go_scope.

(** The documented behaviour of retry.RetryOnConflict with [n] retries: run the
    function again while it returns a Conflict error, give up after [n] times. *)
Fixpoint retry_loop (n : nat) (p : prog err_opt) : prog err_opt :=
  let! e := p in
  match e, n with
  | Some err, S n => if IsConflict err then retry_loop n p else Ret e
  | _, _ => Ret e
  end.

Class Machinery := {
  (** k8s.io/apimachinery/pkg/api/resource.  A quantity is its String(). *)
  ParseQuantity : string -> result string;
  MustParse : string -> outcome string;
  QuantityZero : string;
  QuantityIsZero : string -> bool;
  QuantityValue : string -> Z;
  NewQuantity : Z -> string;
  (** k8s.io/apimachinery/pkg/api/meta; the first argument is the clock. *)
  SetStatusCondition : Z -> list Condition -> Condition -> list Condition;
  FindStatusCondition : list Condition -> string -> option Condition;
  (** sigs.k8s.io/controller-runtime/pkg/controller/controllerutil *)
  ContainsFinalizer : ObjectMeta -> string -> bool;
  AddFinalizer : ObjectMeta -> string -> ObjectMeta;
  RemoveFinalizer : ObjectMeta -> string -> ObjectMeta;
  (** owner, controlled object *)
  SetControllerReference : ObjectMeta -> ObjectMeta -> result ObjectMeta;
  (** k8s.io/apimachinery/pkg/api/equality: Semantic.DeepEqual *)
  DeepEqualModelRepositoryStatus : ModelRepositoryStatus -> ModelRepositoryStatus -> bool;
  DeepEqualLLMEngineStatus : LLMEngineStatus -> LLMEngineStatus -> bool;
  (** k8s.io/client-go/util/retry: RetryOnConflict(retry.DefaultRetry, -) *)
  RetryOnConflict : prog err_opt -> prog err_opt;
}.

(** The condition a caller of SetStatusCondition passes: no transition time. *)
Definition condition (type status reason message : string) : Condition :=
  mkCondition type status reason message 0.

(** Two conditions that say the same. *)
Definition same_condition (c d : Condition) : Prop :=
  cond_Type c = cond_Type d /\ cond_Status c = cond_Status d /\
  cond_Reason c = cond_Reason d /\ cond_Message c = cond_Message d.

(** Two metas that differ at most in their finalizers. *)
Definition same_but_finalizers (m m' : ObjectMeta) : Prop :=
  meta_with_Finalizers [] m = meta_with_Finalizers [] m'.

Class MachineryLaws {M : Machinery} : Prop := {
  MustParse_ok s q : ParseQuantity s = Ok q -> MustParse s = Done q;
  MustParse_err s e : ParseQuantity s = Err e -> exists w, MustParse s = Panicked w;
  ParseQuantity_empty : exists e, ParseQuantity EmptyString = Err e;
  QuantityZero_IsZero : QuantityIsZero QuantityZero = true;
  NewQuantity_Value n : QuantityValue (NewQuantity n) = n;
  (** FindStatusCondition: the condition of that type *)
  Find_Some cs t c : FindStatusCondition cs t = Some c -> c ∈ cs /\ cond_Type c = t;
  Find_None cs t c : FindStatusCondition cs t = None -> c ∈ cs -> cond_Type c <> t;
  (** SetStatusCondition: the condition of that type is updated or appended,
      the others stay; nothing changes when it already says the same. *)
  Find_Set_eq now cs c :
    exists d, FindStatusCondition (SetStatusCondition now cs c) (cond_Type c) = Some d /\
      same_condition c d;
  Find_Set_ne now cs c t :
    t <> cond_Type c -> FindStatusCondition (SetStatusCondition now cs c) t = FindStatusCondition cs t;
  Set_same now cs c d :
    FindStatusCondition cs (cond_Type c) = Some d -> same_condition c d ->
    SetStatusCondition now cs c = cs;
  ContainsFinalizer_spec m f : ContainsFinalizer m f = true <-> f ∈ meta_Finalizers m;
  AddFinalizer_spec m f g :
    g ∈ meta_Finalizers (AddFinalizer m f) <-> g = f \/ g ∈ meta_Finalizers m;
  AddFinalizer_rest m f : same_but_finalizers m (AddFinalizer m f);
  RemoveFinalizer_spec m f g :
    g ∈ meta_Finalizers (RemoveFinalizer m f) <-> g <> f /\ g ∈ meta_Finalizers m;
  RemoveFinalizer_rest m f : same_but_finalizers m (RemoveFinalizer m f);
  SetControllerReference_rest owner m m' :
    SetControllerReference owner m = Ok m' ->
    meta_with_OwnerReferences [] m' = meta_with_OwnerReferences [] m;
  (** an object that nobody owns can be owned by one of its namespace or of the
      cluster *)
  SetControllerReference_new owner m :
    meta_OwnerReferences m = [] ->
    meta_Namespace m = meta_Namespace owner \/ meta_Namespace owner = EmptyString ->
    exists m', SetControllerReference owner m = Ok m';
  DeepEqualModelRepositoryStatus_spec a b : DeepEqualModelRepositoryStatus a b = true <-> a = b;
  DeepEqualLLMEngineStatus_spec a b : DeepEqualLLMEngineStatus a b = true <-> a = b;
  RetryOnConflict_spec : exists n, forall p, RetryOnConflict p = retry_loop n p;
}.
Arguments MachineryLaws : clear implicits.

(** ** Consequences *)
Section Laws.
Context `{L : MachineryLaws}.

(** Retrying issues no request the function does not issue. *)
Lemma calls_only_retry_loop P n p : calls_only P p -> calls_only P (retry_loop n p).
Proof.
  intros Hp. induction n as [|n IH]; simpl; apply calls_only_bind; try done;
    intros [e|]; simpl; try done. by destruct (IsConflict e).
Qed.

Lemma calls_only_RetryOnConflict P p : calls_only P p -> calls_only P (RetryOnConflict p).
Proof. destruct RetryOnConflict_spec as [n Hn]. rewrite Hn. apply calls_only_retry_loop. Qed.

(** An invariant of every attempt is an invariant of the retries. *)
Lemma wp_retry_loop G n p h (I : trace -> Prop) (Q : trace -> outcome err_opt -> Prop) :
  I h ->
  (forall h, I h -> wp G p h (fun h' o => I h' /\ Q h' o)) ->
  wp G (retry_loop n p) h (fun h' o => I h' /\ Q h' o).
Proof.
  intros HI Hp. revert h HI. induction n as [|n IH]; intros h HI; simpl;
    apply wp_bind; (eapply wp_conseq; [by apply Hp|]); intros h' [[e|]|m] [H1 H2]; simpl; auto.
  destruct (IsConflict e); simpl; auto.
Qed.

Lemma wp_RetryOnConflict G p h (I : trace -> Prop) (Q : trace -> outcome err_opt -> Prop) :
  I h ->
  (forall h, I h -> wp G p h (fun h' o => I h' /\ Q h' o)) ->
  wp G (RetryOnConflict p) h (fun h' o => I h' /\ Q h' o).
Proof. destruct RetryOnConflict_spec as [n Hn]. rewrite Hn. apply wp_retry_loop. Qed.

Lemma AddFinalizer_in m f : f ∈ meta_Finalizers (AddFinalizer m f).
Proof. apply AddFinalizer_spec. by left. Qed.

Lemma RemoveFinalizer_not_in m f : f ∉ meta_Finalizers (RemoveFinalizer m f).
Proof. rewrite RemoveFinalizer_spec. tauto. Qed.

Lemma same_but_finalizers_name m m' :
  same_but_finalizers m m' ->
  meta_Name m' = meta_Name m /\ meta_Namespace m' = meta_Namespace m /\
  meta_Labels m' = meta_Labels m.
Proof. unfold same_but_finalizers, meta_with_Finalizers. intros [=]. auto. Qed.

Lemma same_but_finalizers_version m m' :
  same_but_finalizers m m' ->
  meta_ResourceVersion m' = meta_ResourceVersion m /\
  meta_DeletionTimestamp m' = meta_DeletionTimestamp m.
Proof. unfold same_but_finalizers, meta_with_Finalizers. intros [=]. auto. Qed.

(** The metas the operator makes keep their name under AddFinalizer. *)
Lemma AddFinalizer_name m f :
  meta_Name (AddFinalizer m f) = meta_Name m /\ meta_Namespace (AddFinalizer m f) = meta_Namespace m.
Proof. destruct (same_but_finalizers_name _ _ (AddFinalizer_rest m f)) as (? & ? & ?). done. Qed.

(** An owner reference changes neither name nor namespace. *)
Lemma owner_rest owner m m' :
  SetControllerReference owner m = Ok m' ->
  meta_Name m' = meta_Name m /\ meta_Namespace m' = meta_Namespace m.
Proof.
  intros H%SetControllerReference_rest. destruct m, m'. unfold meta_with_OwnerReferences in H.
  cbn in H. by injection H.
Qed.

(** Removing the only finalizer leaves none. *)
Lemma RemoveFinalizer_last m f :
  (forall g, g ∈ meta_Finalizers m -> g = f) -> meta_Finalizers (RemoveFinalizer m f) = [].
Proof.
  intros Hm. destruct (meta_Finalizers (RemoveFinalizer m f)) as [|g l] eqn:E; [done|].
  assert (Hg : g ∈ meta_Finalizers (RemoveFinalizer m f)) by (rewrite E; left).
  apply RemoveFinalizer_spec in Hg as [Hne Hg]. by destruct Hne; apply Hm.
Qed.

End Laws.
#[export] Hint Resolve calls_only_RetryOnConflict AddFinalizer_in RemoveFinalizer_not_in : go.

(** ** A reference instance

    Simple implementations with the documented behaviour, for the witnesses. *)
Module Reference.

Definition is_digit (c : ascii) : bool := bool_decide (48 <= N_of_ascii c <= 57)%N.

Fixpoint digits_value (acc : Z) (s : string) : Z :=
  match s with
  | EmptyString => acc
  | String c s => digits_value (acc * 10 + (Z.of_N (N_of_ascii c) - 48)) s
  end.

(** Decimal digits and then one of the usual suffixes. *)
Fixpoint quantity_ok (s : string) : bool :=
  match s with
  | EmptyString => true
  | String c s' =>
      if is_digit c then quantity_ok s'
      else bool_decide (s ∈ ["Ki"; "Mi"; "Gi"; "Ti"; "k"; "M"; "G"; "T"; "m"]%list)
  end.

Definition parse_quantity (s : string) : result string :=
  match s with
  | String c _ =>
      if is_digit c && quantity_ok s then Ok s
      else Err (errorf "unable to parse quantity's suffix")
  | EmptyString =>
      Err (errorf "quantities must match the regular expression")
  end.

Definition must_parse (s : string) : outcome string :=
  match parse_quantity s with
  | Ok q => Done q
  | Err e => Panicked ("cannot parse '" +:+ s +:+ "': " +:+ emsg e)
  end.

(** A quantity made from an integer is tagged by a leading sign, so that its
    value can be read back without unfolding decimal notation. *)
Fixpoint pos_string (p : positive) : string :=
  match p with
  | xH => "1"
  | xO p => String "0" (pos_string p)
  | xI p => String "1" (pos_string p)
  end.
Fixpoint string_pos (s : string) : positive :=
  match s with
  | EmptyString => xH
  | String c EmptyString => xH
  | String c s => if bool_decide (c = "0"%char) then xO (string_pos s) else xI (string_pos s)
  end.
Definition new_quantity (n : Z) : string :=
  match n with
  | Z0 => "0"
  | Zpos p => String "+" (pos_string p)
  | Zneg p => String "-" (pos_string p)
  end.
Definition quantity_value (s : string) : Z :=
  match s with
  | String "+" s => Zpos (string_pos s)
  | String "-" s => Zneg (string_pos s)
  | _ => digits_value 0 s
  end.

Fixpoint find_condition (cs : list Condition) (t : string) : option Condition :=
  match cs with
  | [] => None
  | c :: cs => if bool_decide (cond_Type c = t) then Some c else find_condition cs t
  end.

Fixpoint set_condition (now : Z) (cs : list Condition) (c : Condition) : list Condition :=
  match cs with
  | [] => [mkCondition (cond_Type c) (cond_Status c) (cond_Reason c) (cond_Message c) now]
  | d :: cs =>
      if bool_decide (cond_Type d = cond_Type c) then
        mkCondition (cond_Type d) (cond_Status c) (cond_Reason c) (cond_Message c)
          (if bool_decide (cond_Status d = cond_Status c)
           then cond_LastTransitionTime d else now) :: cs
      else d :: set_condition now cs c
  end.

#[export] Instance machinery : Machinery := {|
  ParseQuantity := parse_quantity;
  MustParse := must_parse;
  QuantityZero := "0";
  QuantityIsZero s := bool_decide (quantity_value s = 0%Z);
  QuantityValue := quantity_value;
  NewQuantity := new_quantity;
  SetStatusCondition := set_condition;
  FindStatusCondition := find_condition;
  ContainsFinalizer m f := bool_decide (f ∈ meta_Finalizers m);
  AddFinalizer m f :=
    if bool_decide (f ∈ meta_Finalizers m) then m
    else meta_with_Finalizers (meta_Finalizers m ++ [f]) m;
  RemoveFinalizer m f := meta_with_Finalizers (filter (fun g => g <> f) (meta_Finalizers m)) m;
  SetControllerReference owner m :=
    Ok (meta_with_OwnerReferences (meta_Name owner :: meta_OwnerReferences m) m);
  DeepEqualModelRepositoryStatus a b := bool_decide (a = b);
  DeepEqualLLMEngineStatus a b := bool_decide (a = b);
  RetryOnConflict := retry_loop 4;
|}.

Lemma string_pos_pos_string p : string_pos (pos_string p) = p.
Proof.
  induction p as [p IH|p IH|]; [..|done]; simpl;
    (destruct (pos_string p) eqn:E; [by destruct p|]); by rewrite IH.
Qed.

Lemma quantity_value_new n : quantity_value (new_quantity n) = n.
Proof. destruct n as [|p|p]; simpl; [done|by rewrite string_pos_pos_string..]. Qed.

Lemma find_set_eq now cs c :
  exists d, find_condition (set_condition now cs c) (cond_Type c) = Some d /\ same_condition c d.
Proof.
  induction cs as [|d cs IH]; simpl.
  - rewrite bool_decide_true by done. eexists. split; [done|]. by repeat split.
  - case_bool_decide as Hd; simpl.
    + rewrite bool_decide_true by done. eexists. split; [done|]. by repeat split.
    + by rewrite bool_decide_false.
Qed.

Lemma find_set_ne now cs c t :
  t <> cond_Type c -> find_condition (set_condition now cs c) t = find_condition cs t.
Proof.
  intros Ht. induction cs as [|d cs IH]; simpl.
  - by rewrite bool_decide_false by congruence.
  - case_bool_decide as Hd; simpl; [|by rewrite IH].
    by rewrite !bool_decide_false by congruence.
Qed.

Lemma set_same now cs c d :
  find_condition cs (cond_Type c) = Some d -> same_condition c d -> set_condition now cs c = cs.
Proof.
  intros Hf (Ht & Hs & Hr & Hm). induction cs as [|e cs IH]; simpl in *; [done|].
  case_bool_decide as He; [|by rewrite IH].
  simplify_eq. rewrite bool_decide_true by done. by destruct d; simpl in *; subst.
Qed.

#[export] Instance laws : MachineryLaws machinery.
Proof.
  constructor; simpl.
  - intros s q H. unfold must_parse. by rewrite H.
  - intros s e H. unfold must_parse. rewrite H. eauto.
  - eauto.
  - reflexivity.
  - apply quantity_value_new.
  - induction cs as [|d cs IH]; simpl; [done|]. intros t c. case_bool_decide.
    + intros [= <-]. split; [left|done].
    + intros [? ?]%IH. split; [by right|done].
  - induction cs as [|d cs IH]; simpl; intros t c; [by inversion 2|].
    case_bool_decide as Hd; [done|]. intros Hn [->|Hin]%elem_of_cons; [done|eauto].
  - apply find_set_eq.
  - apply find_set_ne.
  - apply set_same.
  - intros m f. by rewrite bool_decide_eq_true.
  - intros m f g. case_bool_decide; [|simpl; set_solver]. naive_solver.
  - intros m f. by case_bool_decide.
  - intros m f g. simpl. by rewrite list_elem_of_filter.
  - done.
  - by intros owner m m' [= <-].
  - eauto.
  - intros a b. by rewrite bool_decide_eq_true.
  - intros a b. by rewrite bool_decide_eq_true.
  - by exists 4.
Qed.

End Reference.
