(* ===== verification/MemServer.v ===== *)
(** * An API server in memory

    A concrete server for the witnesses and examples: objects in finite maps,
    with optimistic concurrency on the resource version, finalizers that delay
    deletion, and status updates that keep the rest of the object.  The theorems
    about what a controller may do quantify over all servers; those that follow an
    object through many passes (that a referenced repository survives, that a long
    name never becomes ready, what the check before a deletion misses, refinement,
    convergence and deletion) are about this one. *)

From S2P Require Import Prelude Api Kube.

Local Open Scope Z_scope.

Abbreviation key := (string * string)%type.

Record cluster := mkCluster {
  cl_repos : gmap string ModelRepository;
  cl_engines : gmap key LLMEngine;
  cl_jobs : gmap key Job;
  cl_pvcs : gmap key PersistentVolumeClaim;
  cl_pvs : gmap string PersistentVolume;
  cl_deployments : gmap key Deployment;
  cl_services : gmap key Service;
  cl_configmaps : gmap key ConfigMap;
  cl_nodes : list Node;
  cl_classes : list StorageClass;
  cl_clock : Z;
}.

Definition empty_cluster : cluster := mkCluster ∅ ∅ ∅ ∅ ∅ ∅ ∅ ∅ [] [] 100.

Definition set_repos x (c : cluster) := mkCluster x (cl_engines c) (cl_jobs c) (cl_pvcs c)
  (cl_pvs c) (cl_deployments c) (cl_services c) (cl_configmaps c) (cl_nodes c) (cl_classes c) (cl_clock c).
Definition set_engines x (c : cluster) := mkCluster (cl_repos c) x (cl_jobs c) (cl_pvcs c)
  (cl_pvs c) (cl_deployments c) (cl_services c) (cl_configmaps c) (cl_nodes c) (cl_classes c) (cl_clock c).
Definition set_jobs x (c : cluster) := mkCluster (cl_repos c) (cl_engines c) x (cl_pvcs c)
  (cl_pvs c) (cl_deployments c) (cl_services c) (cl_configmaps c) (cl_nodes c) (cl_classes c) (cl_clock c).
Definition set_pvcs x (c : cluster) := mkCluster (cl_repos c) (cl_engines c) (cl_jobs c) x
  (cl_pvs c) (cl_deployments c) (cl_services c) (cl_configmaps c) (cl_nodes c) (cl_classes c) (cl_clock c).
Definition set_pvs x (c : cluster) := mkCluster (cl_repos c) (cl_engines c) (cl_jobs c) (cl_pvcs c)
  x (cl_deployments c) (cl_services c) (cl_configmaps c) (cl_nodes c) (cl_classes c) (cl_clock c).
Definition set_deployments x (c : cluster) := mkCluster (cl_repos c) (cl_engines c) (cl_jobs c) (cl_pvcs c)
  (cl_pvs c) x (cl_services c) (cl_configmaps c) (cl_nodes c) (cl_classes c) (cl_clock c).
Definition set_services x (c : cluster) := mkCluster (cl_repos c) (cl_engines c) (cl_jobs c) (cl_pvcs c)
  (cl_pvs c) (cl_deployments c) x (cl_configmaps c) (cl_nodes c) (cl_classes c) (cl_clock c).
Definition set_configmaps x (c : cluster) := mkCluster (cl_repos c) (cl_engines c) (cl_jobs c) (cl_pvcs c)
  (cl_pvs c) (cl_deployments c) (cl_services c) x (cl_nodes c) (cl_classes c) (cl_clock c).
Definition set_nodes x (c : cluster) := mkCluster (cl_repos c) (cl_engines c) (cl_jobs c) (cl_pvcs c)
  (cl_pvs c) (cl_deployments c) (cl_services c) (cl_configmaps c) x (cl_classes c) (cl_clock c).
Definition set_classes x (c : cluster) := mkCluster (cl_repos c) (cl_engines c) (cl_jobs c) (cl_pvcs c)
  (cl_pvs c) (cl_deployments c) (cl_services c) (cl_configmaps c) (cl_nodes c) x (cl_clock c).
Definition set_clock x (c : cluster) := mkCluster (cl_repos c) (cl_engines c) (cl_jobs c) (cl_pvcs c)
  (cl_pvs c) (cl_deployments c) (cl_services c) (cl_configmaps c) (cl_nodes c) (cl_classes c) x.

Section Store.
Context {K A : Type} `{Countable K}.
Context (meta : A -> ObjectMeta) (with_meta : ObjectMeta -> A -> A).
Implicit Types (m : gmap K A).

Definition fail (k : errkind) (msg : string) : gerror := mkErr k msg.

Definition st_get (k : K) m : result A :=
  match m !! k with Some o => Ok o | None => Err (fail NotFound "not found") end.

Definition bump (o : A) : A :=
  let x := meta o in
  with_meta (mkMeta (meta_Name x) (meta_Namespace x) (meta_Labels x) (meta_Annotations x)
    (meta_Finalizers x) (meta_DeletionTimestamp x) (meta_OwnerReferences x)
    (meta_ResourceVersion x + 1)) o.

Definition st_update (merge : A -> A -> A) (k : K) (o : A) m : result A * gmap K A :=
  match m !! k with
  | None => (Err (fail NotFound "not found"), m)
  | Some old =>
      if bool_decide (meta_ResourceVersion (meta old) = meta_ResourceVersion (meta o)) then
        let new := bump (merge old o) in
        if bool_decide (meta_DeletionTimestamp (meta new) <> None /\ meta_Finalizers (meta new) = [])
        then (Ok new, delete k m) else (Ok new, <[k := new]> m)
      else (Err (fail Conflict "the object has been modified"), m)
  end.

Definition st_create (k : K) (o : A) m : err_opt * gmap K A :=
  match m !! k with
  | Some _ => (Some (fail AlreadyExists "already exists"), m)
  | None => (None, <[k := o]> m)
  end.

Definition st_delete (now : Z) (k : K) m : err_opt * gmap K A :=
  match m !! k with
  | None => (Some (fail NotFound "not found"), m)
  | Some o =>
      let x := meta o in
      if bool_decide (meta_Finalizers x = []) then (None, delete k m)
      else (None, <[k := with_meta (mkMeta (meta_Name x) (meta_Namespace x) (meta_Labels x)
              (meta_Annotations x) (meta_Finalizers x) (Some now) (meta_OwnerReferences x)
              (meta_ResourceVersion x + 1)) o]> m)
  end.

(** Writing an object back without finalizers, and deleting it. *)
Context (meta_with_meta : forall x o, meta (with_meta x o) = x).

Lemma st_update_stripped k old o m :
  m !! k = Some old -> meta_ResourceVersion (meta o) = meta_ResourceVersion (meta old) ->
  meta_DeletionTimestamp (meta o) = None ->
  st_update (fun _ new => new) k o m = (Ok (bump o), <[k := bump o]> m).
Proof.
  intros Hk Hv Hd. unfold st_update. rewrite Hk, bool_decide_true by done. cbv zeta.
  rewrite bool_decide_false; [done|]. unfold bump. rewrite meta_with_meta. cbn. by intros [? _].
Qed.

Lemma st_delete_stripped now k o m :
  meta_Finalizers (meta o) = [] ->
  st_delete now k (<[k := bump o]> m) = (None, delete k m).
Proof.
  intros Hf. unfold st_delete. rewrite lookup_insert_eq. cbv zeta.
  rewrite bool_decide_true; [by rewrite delete_insert_eq|].
  unfold bump. by rewrite meta_with_meta.
Qed.

End Store.

Definition to_opt {A} (r : result A) : err_opt := match r with Ok _ => None | Err e => Some e end.

Definition meta_key (m : ObjectMeta) : key := (meta_Namespace m, meta_Name m).

Definition job_with_Meta (x : ObjectMeta) (j : Job) : Job :=
  mkJob x (job_TemplateLabels j) (job_Pod j) (job_Succeeded j) (job_Failed j).
Definition dep_with_Meta (x : ObjectMeta) (d : Deployment) : Deployment :=
  mkDeployment x (dep_Replicas d) (dep_MatchLabels d) (dep_TemplateLabels d) (dep_Pod d)
    (dep_ReadyReplicas d).
Definition svc_with_Meta (x : ObjectMeta) (s : Service) : Service :=
  mkService x (svc_Type s) (svc_Selector s) (svc_Ports s).

Definition mem : server cluster := fun r c =>
  match r return resp r * cluster with
  | GetModelRepository n => (st_get n (cl_repos c), c)
  | UpdateModelRepository o =>
      let '(a, m) := st_update mr_Meta mr_with_Meta (fun old new => mr_with_Status (mr_Status old) new)
                       (mr_Name o) o (cl_repos c) in (a, set_repos m c)
  | UpdateModelRepositoryStatus o =>
      let '(a, m) := st_update mr_Meta mr_with_Meta
                       (fun old new => mr_with_Status (mr_Status new) old)
                       (mr_Name o) o (cl_repos c) in (to_opt a, set_repos m c)
  | GetLLMEngine ns n => (st_get (ns, n) (cl_engines c), c)
  | UpdateLLMEngine o =>
      let '(a, m) := st_update le_Meta le_with_Meta (fun old new => le_with_Status (le_Status old) new)
                       (meta_key (le_Meta o)) o (cl_engines c) in (a, set_engines m c)
  | UpdateLLMEngineStatus o =>
      let '(a, m) := st_update le_Meta le_with_Meta
                       (fun old new => le_with_Status (le_Status new) old)
                       (meta_key (le_Meta o)) o (cl_engines c) in (to_opt a, set_engines m c)
  | ListLLMEngines => (Ok (map_to_list (cl_engines c)).*2, c)
  | GetJob ns n => (st_get (ns, n) (cl_jobs c), c)
  | CreateJob o =>
      let '(a, m) := st_create (meta_key (job_Meta o)) o (cl_jobs c) in (a, set_jobs m c)
  | DeleteJob ns n =>
      let '(a, m) := st_delete job_Meta job_with_Meta (cl_clock c) (ns, n) (cl_jobs c) in
      (a, set_jobs m c)
  | ListJobs ns labels =>
      (Ok (filter (fun j => meta_Namespace (job_Meta j) = ns /\ labels ⊆ meta_Labels (job_Meta j))
             (map_to_list (cl_jobs c)).*2), c)
  | GetPVC ns n => (st_get (ns, n) (cl_pvcs c), c)
  | CreatePVC o =>
      let '(a, m) := st_create (meta_key (pvc_Meta o)) o (cl_pvcs c) in (a, set_pvcs m c)
  | UpdatePVC o =>
      let '(a, m) := st_update pvc_Meta pvc_with_Meta (fun _ new => new)
                       (meta_key (pvc_Meta o)) o (cl_pvcs c) in (to_opt a, set_pvcs m c)
  | DeletePVC ns n =>
      let '(a, m) := st_delete pvc_Meta pvc_with_Meta (cl_clock c) (ns, n) (cl_pvcs c) in
      (a, set_pvcs m c)
  | GetPV n => (st_get n (cl_pvs c), c)
  | CreatePV o =>
      let '(a, m) := st_create (meta_Name (pv_Meta o)) o (cl_pvs c) in (a, set_pvs m c)
  | UpdatePV o =>
      let '(a, m) := st_update pv_Meta pv_with_Meta (fun _ new => new)
                       (meta_Name (pv_Meta o)) o (cl_pvs c) in (to_opt a, set_pvs m c)
  | DeletePV n =>
      let '(a, m) := st_delete pv_Meta pv_with_Meta (cl_clock c) n (cl_pvs c) in (a, set_pvs m c)
  | GetDeployment ns n => (st_get (ns, n) (cl_deployments c), c)
  | ApplyDeployment o =>
      let k := meta_key (dep_Meta o) in
      let ready := match cl_deployments c !! k with Some d => dep_ReadyReplicas d | None => 0 end in
      (None, set_deployments (<[k := mkDeployment (dep_Meta o) (dep_Replicas o) (dep_MatchLabels o)
         (dep_TemplateLabels o) (dep_Pod o) ready]> (cl_deployments c)) c)
  | DeleteDeployment ns n =>
      let '(a, m) := st_delete dep_Meta dep_with_Meta (cl_clock c) (ns, n) (cl_deployments c) in
      (a, set_deployments m c)
  | ApplyService o => (None, set_services (<[meta_key (svc_Meta o) := o]> (cl_services c)) c)
  | DeleteService ns n =>
      let '(a, m) := st_delete svc_Meta svc_with_Meta (cl_clock c) (ns, n) (cl_services c) in
      (a, set_services m c)
  | ApplyConfigMap o =>
      (None, set_configmaps (<[meta_key (cm_Meta o) := o]> (cl_configmaps c)) c)
  | GetNode n =>
      (match List.find (fun x => bool_decide (meta_Name (node_Meta x) = n)) (cl_nodes c) with
       | Some x => Ok x
       | None => Err (fail NotFound "not found")
       end, c)
  | ListNodes => (Ok (cl_nodes c), c)
  | ListStorageClasses => (Ok (cl_classes c), c)
  | Now => (cl_clock c, set_clock (cl_clock c + 1) c)
  end.
