(* ===== verification/Frames.v ===== *)
(** * What passes leave as it is

    The relations between clusters in memory that the theorems about progress and
    deletion share: objects are stored under their names, and a repository is the
    same but for what it reports. *)

From S2P Require Import Prelude Api Kube MemServer.

Local Open Scope go_scope.

(** The objects are stored under their names, and a repository that is being
    deleted is still there because somebody holds it. *)
Record tidy (c : cluster) : Prop := {
  tidy_repos n mr : cl_repos c !! n = Some mr -> mr_Name mr = n /\
    (meta_DeletionTimestamp (mr_Meta mr) <> None -> meta_Finalizers (mr_Meta mr) <> []);
  tidy_engines k e : cl_engines c !! k = Some e -> meta_key (le_Meta e) = k;
  tidy_claims k pvc : cl_pvcs c !! k = Some pvc -> meta_key (pvc_Meta pvc) = k;
  tidy_volumes n pv : cl_pvs c !! n = Some pv -> meta_Name (pv_Meta pv) = n;
  tidy_jobs k j : cl_jobs c !! k = Some j -> meta_key (job_Meta j) = k;
}.

(** *** Every request leaves them so

    A write replaces an object by another of the same name, and removes what
    nobody holds any more. *)
Section Stored.
Context {K A : Type} `{Countable K}.
Context (meta : A -> ObjectMeta) (with_meta : ObjectMeta -> A -> A).
Context (meta_with_meta : forall x o, meta (with_meta x o) = x).
Context (key_of : ObjectMeta -> K).

Definition stored (m : gmap K A) : Prop := forall k o, m !! k = Some o -> key_of (meta o) = k.
Definition held (m : gmap K A) : Prop := forall k o, m !! k = Some o ->
  meta_DeletionTimestamp (meta o) <> None -> meta_Finalizers (meta o) <> [].

Lemma stored_insert m k o : stored m -> key_of (meta o) = k -> stored (<[k := o]> m).
Proof. intros Hm Ho k' o' [[<- <-]|[_ Hk]]%lookup_insert_Some; [done|by apply Hm]. Qed.

Lemma stored_delete m k : stored m -> stored (delete k m).
Proof. intros Hm k' o' [_ Hk]%lookup_delete_Some. by apply Hm. Qed.

Lemma stored_create m o : stored m -> stored (st_create (key_of (meta o)) o m).2.
Proof. intros Hm. unfold st_create. destruct (m !! _); [done|]. by apply stored_insert. Qed.

(** The name is not among what the server writes. *)
Context (key_bump : forall x f d v, key_of (mkMeta (meta_Name x) (meta_Namespace x) (meta_Labels x)
  (meta_Annotations x) f d (meta_OwnerReferences x) v) = key_of x).

Lemma stored_update merge m o :
  stored m -> (forall old, m !! key_of (meta o) = Some old -> key_of (meta (merge old o)) = key_of (meta o)) ->
  stored (st_update meta with_meta merge (key_of (meta o)) o m).2.
Proof.
  intros Hm Hmerge. unfold st_update. destruct (m !! _) as [old|] eqn:E; [|done].
  case_bool_decide; [|done]. cbv zeta. case_bool_decide; [by apply stored_delete|].
  apply stored_insert; [done|]. unfold bump. by rewrite meta_with_meta, key_bump, Hmerge.
Qed.

Lemma stored_st_delete now k m : stored m -> stored (st_delete meta with_meta now k m).2.
Proof.
  intros Hm. unfold st_delete. destruct (m !! k) as [o|] eqn:E; [|done]. cbv zeta.
  case_bool_decide; [by apply stored_delete|]. apply stored_insert; [done|].
  rewrite meta_with_meta, key_bump. by apply Hm.
Qed.

Lemma held_update merge k m o : held m -> held (st_update meta with_meta merge k o m).2.
Proof.
  intros Hm. unfold st_update. destruct (m !! k); [|done]. case_bool_decide; [|done]. cbv zeta.
  case_bool_decide as Hf; intros k' o'; cbn.
  - intros [_ Hk]%lookup_delete_Some. by apply (Hm k').
  - intros [[_ <-]|[_ Hk]]%lookup_insert_Some; [tauto|by apply (Hm k')].
Qed.

End Stored.

Lemma tidy_stored c :
  tidy c <-> stored mr_Meta meta_Name (cl_repos c) /\ held mr_Meta (cl_repos c) /\
    stored le_Meta meta_key (cl_engines c) /\ stored pvc_Meta meta_key (cl_pvcs c) /\
    stored pv_Meta meta_Name (cl_pvs c) /\ stored job_Meta meta_key (cl_jobs c).
Proof.
  split.
  - intros [H1 H2 H3 H4 H5]. split_and!; try done; intros n mr Hmr; by destruct (H1 n mr Hmr).
  - intros (H1 & H2 & H3 & H4 & H5 & H6). split; try done. intros n mr Hmr. split; [by apply H1|by eapply H2].
Qed.

Lemma mem_tidy r c : tidy c -> tidy (mem r c).2.
Proof.
  rewrite !tidy_stored. intros (H1 & H2 & H3 & H4 & H5 & H6). destruct r; cbn; try done.
  - pose proof (stored_update mr_Meta mr_with_Meta (fun _ _ => eq_refl) meta_Name (fun _ _ _ _ => eq_refl)
      (fun old new => mr_with_Status (mr_Status old) new) _ o H1 (fun _ _ => eq_refl)) as Hs.
    pose proof (held_update mr_Meta mr_with_Meta (fun old new => mr_with_Status (mr_Status old) new)
      (mr_Name o) _ o H2) as Hh. unfold mr_Name in *. by destruct (st_update _ _ _ _ _ _).
  - pose proof (stored_update mr_Meta mr_with_Meta (fun _ _ => eq_refl) meta_Name (fun _ _ _ _ => eq_refl)
      (fun old new => mr_with_Status (mr_Status new) old) _ o H1 (H1 _)) as Hs.
    pose proof (held_update mr_Meta mr_with_Meta (fun old new => mr_with_Status (mr_Status new) old)
      (mr_Name o) _ o H2) as Hh. unfold mr_Name in *. by destruct (st_update _ _ _ _ _ _).
  - pose proof (stored_update le_Meta le_with_Meta (fun _ _ => eq_refl) meta_key (fun _ _ _ _ => eq_refl)
      (fun old new => le_with_Status (le_Status old) new) _ o H3 (fun _ _ => eq_refl)) as Hs.
    by destruct (st_update _ _ _ _ _ _).
  - pose proof (stored_update le_Meta le_with_Meta (fun _ _ => eq_refl) meta_key (fun _ _ _ _ => eq_refl)
      (fun old new => le_with_Status (le_Status new) old) _ o H3 (H3 _)) as Hs.
    by destruct (st_update _ _ _ _ _ _).
  - pose proof (stored_create job_Meta meta_key _ o H6) as Hs. by destruct (st_create _ _ _).
  - pose proof (stored_st_delete job_Meta job_with_Meta (fun _ _ => eq_refl) meta_key (fun _ _ _ _ => eq_refl)
      (cl_clock c) (ns, name) _ H6) as Hs. by destruct (st_delete _ _ _ _ _).
  - pose proof (stored_create pvc_Meta meta_key _ o H4) as Hs. by destruct (st_create _ _ _).
  - pose proof (stored_update pvc_Meta pvc_with_Meta (fun _ _ => eq_refl) meta_key (fun _ _ _ _ => eq_refl)
      (fun _ new => new) _ o H4 (fun _ _ => eq_refl)) as Hs. by destruct (st_update _ _ _ _ _ _).
  - pose proof (stored_st_delete pvc_Meta pvc_with_Meta (fun _ _ => eq_refl) meta_key (fun _ _ _ _ => eq_refl)
      (cl_clock c) (ns, name) _ H4) as Hs. by destruct (st_delete _ _ _ _ _).
  - pose proof (stored_create pv_Meta meta_Name _ o H5) as Hs. by destruct (st_create _ _ _).
  - pose proof (stored_update pv_Meta pv_with_Meta (fun _ _ => eq_refl) meta_Name (fun _ _ _ _ => eq_refl)
      (fun _ new => new) _ o H5 (fun _ _ => eq_refl)) as Hs. by destruct (st_update _ _ _ _ _ _).
  - pose proof (stored_st_delete pv_Meta pv_with_Meta (fun _ _ => eq_refl) meta_Name (fun _ _ _ _ => eq_refl)
      (cl_clock c) name _ H5) as Hs. by destruct (st_delete _ _ _ _ _).
  - by destruct (st_delete _ _ _ _ _).
  - by destruct (st_delete _ _ _ _ _).
Qed.

(** Nor does a whole pass do otherwise. *)
Lemma run_tidy {A} (p : prog A) c : tidy c -> tidy (run mem p c).2.
Proof.
  revert c. induction p as [a|m|r k IH]; intros c Hc; [done..|]. cbn.
  pose proof (mem_tidy r c Hc) as Hm. destruct (mem r c) as [a c1]. specialize (IH a c1 Hm).
  by destruct (run mem (k a) c1) as [[]].
Qed.

(** The repository, now reporting [s]. *)
Definition told (s : string) (mr mr' : ModelRepository) : Prop :=
  exists v, mr' = mr_with_Meta
    (let x := mr_Meta mr in
     mkMeta (meta_Name x) (meta_Namespace x) (meta_Labels x) (meta_Annotations x) (meta_Finalizers x)
       (meta_DeletionTimestamp x) (meta_OwnerReferences x) v)
    (mr_with_Status (mst_with_ReferencedEngines s (mr_Status mr)) mr).

Lemma told_already mr : told (mst_ReferencedEngines (mr_Status mr)) mr mr.
Proof. exists (meta_ResourceVersion (mr_Meta mr)). by destruct mr as [[] ? []]. Qed.

Lemma told_again s s' mr1 mr2 mr3 : told s mr1 mr2 -> told s' mr2 mr3 -> told s' mr1 mr3.
Proof. intros [v ->] [v' ->]. by exists v'. Qed.

(** The same, but for the engines it reports. *)
Definition retold (mr mr' : ModelRepository) : Prop := exists s, told s mr mr'.

#[export] Instance retold_preorder : PreOrder retold.
Proof.
  split.
  - intros mr. eexists. apply told_already.
  - intros mr1 mr2 mr3 [s H1] [s' H2]. exists s'. by eapply told_again.
Qed.

Lemma retold_same mr mr' :
  retold mr mr' ->
  mr_Name mr' = mr_Name mr /\ meta_Namespace (mr_Meta mr') = meta_Namespace (mr_Meta mr) /\
  meta_DeletionTimestamp (mr_Meta mr') = meta_DeletionTimestamp (mr_Meta mr) /\
  mr_Spec mr' = mr_Spec mr /\
  exists s, mr_Status mr' = mst_with_ReferencedEngines s (mr_Status mr).
Proof. intros (s & v & ->). split_and!; try done. by exists s. Qed.

(** Repositories come and go with nobody, and only report differently. *)
Definition all_retold (m m' : gmap string ModelRepository) : Prop :=
  forall r, option_Forall2 retold (m !! r) (m' !! r).

#[export] Instance all_retold_preorder : PreOrder all_retold.
Proof.
  split.
  - intros m r. destruct (m !! r); by constructor.
  - intros m1 m2 m3 H1 H2 r. specialize (H1 r). specialize (H2 r).
    destruct H1; inversion H2; simplify_eq; constructor. by etrans.
Qed.

Lemma all_retold_insert r mr mr' m :
  m !! r = Some mr -> retold mr mr' -> all_retold m (<[r := mr']> m).
Proof.
  intros Hm Hr r'. destruct (decide (r = r')) as [<-|Hne].
  - rewrite Hm, lookup_insert_eq. by constructor.
  - rewrite lookup_insert_ne by done. destruct (m !! r'); by constructor.
Qed.

Lemma all_retold_lookup m m' r mr :
  all_retold m m' -> m !! r = Some mr -> exists mr', m' !! r = Some mr' /\ retold mr mr'.
Proof. intros Hm Hr. specialize (Hm r). rewrite Hr in Hm. inversion Hm; eauto. Qed.
