(* ===== verification/Leads.v ===== *)
(** * Total correctness on a given server

    [wp] of Kube.v is about every server and every answer.  To show that the
    controllers get somewhere one has to say on which server: [leads srv p w Q]
    means that [p], run against [srv] from [w], ends without a panic, in a result
    and a state that satisfy [Q]. *)

From S2P Require Import Prelude Api Kube Machinery MemServer.

Local Open Scope go_scope.

Fixpoint leads {W A} (srv : server W) (p : prog A) (w : W) (Q : A -> W -> Prop) : Prop :=
  match p with
  | Ret a => Q a w
  | Crash _ => False
  | Call r k => leads srv (k (srv r w).1) (srv r w).2 Q
  end.

Section Rules.
Context {W : Type} (srv : server W).

(** It is about the run. *)
Lemma leads_run {A} (p : prog A) w Q :
  leads srv p w Q -> exists t a w', run srv p w = (t, Done a, w') /\ Q a w'.
Proof.
  revert w. induction p as [a|m|r k IH]; intros w Hp; cbn in *; [by eauto|done|].
  destruct (srv r w) as [a w1]. destruct (IH a w1 Hp) as (t & b & w' & -> & HQ). eauto.
Qed.

Lemma leads_of_run {A} (p : prog A) w (Q : A -> W -> Prop) :
  match run srv p w with (_, Done a, w') => Q a w' | _ => False end -> leads srv p w Q.
Proof.
  revert w. induction p as [a|m|r k IH]; intros w Hp; cbn in *; [done..|].
  destruct (srv r w) as [a w1]. cbn. apply IH. by destruct (run srv (k a) w1) as [[t o] w2].
Qed.

Lemma leads_bind {A B} (p : prog A) (f : A -> prog B) w Q :
  leads srv p w (fun a w' => leads srv (f a) w' Q) -> leads srv (prog_bind p f) w Q.
Proof. revert w. induction p as [a|m|r k IH]; intros w; cbn; [done..|]. apply IH. Qed.

Lemma leads_conseq {A} (p : prog A) w (Q Q' : A -> W -> Prop) :
  leads srv p w Q -> (forall a w', Q a w' -> Q' a w') -> leads srv p w Q'.
Proof. intros Hp HQ. revert w Hp. induction p as [a|m|r k IH]; intros w; cbn; eauto. Qed.

(** A call whose answer is known. *)
Lemma leads_call {A} r a w' (f : resp r -> prog A) w Q :
  srv r w = (a, w') -> leads srv (f a) w' Q -> leads srv (prog_bind (call r) f) w Q.
Proof. intros E. cbn. by rewrite E. Qed.

Lemma leads_lift {A B} (o : outcome A) a (f : A -> prog B) w Q :
  o = Done a -> leads srv (f a) w Q -> leads srv (prog_bind (lift o) f) w Q.
Proof. by intros ->. Qed.

(** A loop, by an invariant on the elements done, the accumulator and the
    state. *)
Lemma leads_for_each {A S B} (l : list A) (s : S) (body : S -> A -> prog (S + B)) w
    (I : list A -> S -> W -> Prop) (Q : S + B -> W -> Prop) :
  I [] s w ->
  (forall pre x s w, pre ++ [x] `prefix_of` l -> I pre s w ->
     leads srv (body s x) w (fun r w' => match r with
                                         | inl s' => I (pre ++ [x]) s' w'
                                         | inr b => Q (inr b) w'
                                         end)) ->
  (forall s w, I l s w -> Q (inl s) w) ->
  leads srv (for_each l s body) w Q.
Proof.
  intros HI Hbody HQ.
  enough (Hgen : forall post pre s w, l = pre ++ post -> I pre s w ->
            leads srv (for_each post s body) w Q) by by apply (Hgen l []).
  clear HI s w. induction post as [|x post IH]; intros pre s w -> HI; cbn.
  - apply HQ. by rewrite app_nil_r.
  - apply leads_bind. eapply leads_conseq.
    + apply (Hbody pre); [|done]. exists post. by rewrite <- app_assoc.
    + intros [s'|b] w' Hr; [|done]. apply (IH (pre ++ [x])); [by rewrite <- app_assoc|done].
Qed.

(** A first attempt that succeeds is the last one. *)
Lemma leads_RetryOnConflict {M : Machinery} {L : MachineryLaws M} p w Q :
  leads srv p w (fun e w' => e = None /\ Q w') ->
  leads srv (RetryOnConflict p) w (fun e w' => e = None /\ Q w').
Proof.
  intros Hp. destruct RetryOnConflict_spec as [n Hn]. rewrite Hn.
  assert (Hone : forall f : err_opt -> prog err_opt, f None = Ret None ->
    leads srv (prog_bind p f) w (fun e w' => e = None /\ Q w')).
  { intros f Hf. apply leads_bind. eapply leads_conseq; [exact Hp|]. intros e w' [-> HQ]. by rewrite Hf. }
  destruct n; by apply Hone.
Qed.

End Rules.

(** ** Updates of the server in memory that have the version they read *)
Section Update.
Context {K A : Type} `{Countable K} (meta : A -> ObjectMeta) (with_meta : ObjectMeta -> A -> A).
Context (meta_with_meta : forall x o, meta (with_meta x o) = x).

Lemma st_update_fresh (merge : A -> A -> A) (k : K) (old o : A) (m : gmap K A) :
  m !! k = Some old -> meta_ResourceVersion (meta old) = meta_ResourceVersion (meta o) ->
  meta_DeletionTimestamp (meta (merge old o)) = None ->
  st_update meta with_meta merge k o m =
    (Ok (bump meta with_meta (merge old o)), <[k := bump meta with_meta (merge old o)]> m).
Proof.
  intros Hk Hv Hd. unfold st_update. rewrite Hk, bool_decide_true by done. cbv zeta.
  rewrite bool_decide_false; [done|]. unfold bump. rewrite meta_with_meta. cbn. by intros [? _].
Qed.

End Update.

(** A machine, run on a list of operations. *)
Fixpoint answers {O A S} (step : O -> S -> A * S) (ops : list O) (s : S) : list A * S :=
  match ops with
  | [] => ([], s)
  | op :: ops =>
      let '(a, s) := step op s in
      let '(l, s) := answers step ops s in (a :: l, s)
  end.
