(* ===== verification/Release.v ===== *)
(** * Giving objects up

    How the operator lets go of what it holds: it takes its finalizer off the
    object and deletes it.  Here is what that does to an object of the server in
    memory ([let_go]) and to a store ([given_up]): the object goes, unless others
    hold it; then it is left to them, being deleted.  StorageRefinement.v and the
    theorems about deletion use it. *)

From S2P Require Import Prelude Api Kube Machinery MemServer.

Local Open Scope go_scope.

(** ** An object, as far as its deletion is concerned *)

(** Held by the finalizer in question, held by others, being deleted. *)
Record slot := mkSlot { held : bool; others : bool; deleting : bool }.

Definition fresh : slot := mkSlot true false false.

(** Giving an object up: it goes, unless others hold it; then it is left to them. *)
Definition release (s : slot) : option slot :=
  if others s then Some (mkSlot false true true) else None.

Section Slots.
Context `{L : MachineryLaws}.
Context (finalizer : string).

Definition slot_of (m : ObjectMeta) : slot :=
  mkSlot (bool_decide (finalizer ∈ meta_Finalizers m))
    (existsb (fun f => negb (bool_decide (f = finalizer))) (meta_Finalizers m))
    (bool_decide (meta_DeletionTimestamp m <> None)).

Lemma slot_of_others m :
  others (slot_of m) = true <-> exists f, f ∈ meta_Finalizers m /\ f <> finalizer.
Proof.
  cbn. rewrite List.existsb_exists. split; intros (f & H1 & H2); exists f.
  - apply negb_true_iff, bool_decide_eq_false in H2. by apply list_elem_of_In in H1.
  - split; [by apply list_elem_of_In|]. by apply negb_true_iff, bool_decide_eq_false.
Qed.

Lemma slot_of_ext m m' :
  (forall f, f ∈ meta_Finalizers m <-> f ∈ meta_Finalizers m') ->
  meta_DeletionTimestamp m = meta_DeletionTimestamp m' -> slot_of m = slot_of m'.
Proof.
  intros Hf Hd. assert (Ho : others (slot_of m) = others (slot_of m')).
  { apply eq_true_iff_eq. rewrite !slot_of_others. by setoid_rewrite Hf. }
  unfold slot_of in *. cbn in Ho. rewrite Ho, Hd. f_equal. by apply bool_decide_ext.
Qed.

Lemma slot_of_fresh m :
  meta_Finalizers m = [] -> meta_DeletionTimestamp m = None -> slot_of (AddFinalizer m finalizer) = fresh.
Proof.
  intros Hf Hd. rewrite (slot_of_ext _ (meta_with_Finalizers [finalizer] meta_empty)).
  - unfold slot_of. cbn. by rewrite !bool_decide_true by set_solver.
  - intros f. rewrite AddFinalizer_spec, Hf. cbn. rewrite list_elem_of_singleton. set_solver.
  - by rewrite (proj2 (same_but_finalizers_version _ _ (AddFinalizer_rest _ _))).
Qed.

(** Without the finalizer. *)
Lemma slot_of_stripped m :
  slot_of (RemoveFinalizer m finalizer) = mkSlot false (others (slot_of m)) (deleting (slot_of m)).
Proof.
  assert (Ho : others (slot_of (RemoveFinalizer m finalizer)) = others (slot_of m)).
  { apply eq_true_iff_eq. rewrite !slot_of_others. setoid_rewrite RemoveFinalizer_spec. naive_solver. }
  unfold slot_of in *. cbn in *. rewrite Ho. f_equal; [apply bool_decide_false, RemoveFinalizer_not_in|].
  by rewrite (proj2 (same_but_finalizers_version _ _ (RemoveFinalizer_rest m finalizer))).
Qed.

Lemma stripped_none m :
  meta_Finalizers (RemoveFinalizer m finalizer) = [] <-> others (slot_of m) = false.
Proof.
  rewrite <- not_true_iff_false, slot_of_others. split.
  - intros E (f & Hf & Hn). assert (Hin : f ∈ meta_Finalizers (RemoveFinalizer m finalizer))
      by by apply RemoveFinalizer_spec.
    rewrite E in Hin. by apply elem_of_nil in Hin.
  - intros Hn. destruct (meta_Finalizers (RemoveFinalizer m finalizer)) as [|f l] eqn:E; [done|].
    destruct Hn. exists f.
    assert (Hin : f ∈ meta_Finalizers (RemoveFinalizer m finalizer)) by (rewrite E; by left).
    apply RemoveFinalizer_spec in Hin. tauto.
Qed.

(** ** Objects in a store *)
Section Store.
Context {K A : Type} `{Countable K}.
Context (meta : A -> ObjectMeta) (with_meta : ObjectMeta -> A -> A).
Context (meta_with_meta : forall x o, meta (with_meta x o) = x).
Context (with_meta_with_meta : forall x y o, with_meta x (with_meta y o) = with_meta x o).

(** The finalizers that others hold it with. *)
Definition holders (m : ObjectMeta) : string -> Prop :=
  fun f => f <> finalizer /\ f ∈ meta_Finalizers m.

Definition let_go (old new : option A) : Prop :=
  match old with
  | None => new = None
  | Some o =>
      match release (slot_of (meta o)) with
      | None => new = None
      | Some s => exists x, new = Some (with_meta x o) /\ slot_of x = s /\
          (forall f, f ∈ meta_Finalizers x <-> holders (meta o) f) /\
          meta_Name x = meta_Name (meta o) /\ meta_Namespace x = meta_Namespace (meta o)
      end
  end.

(** The objects at [ks] have been given up, the rest is as it was. *)
Definition given_up (ks : list K) (m m' : gmap K A) : Prop :=
  forall k, if decide (k ∈ ks) then let_go (m !! k) (m' !! k) else m' !! k = m !! k.

(** Only what others hold matters, *)
Lemma holders_others m : others (slot_of m) = true <-> exists f, holders m f.
Proof. rewrite slot_of_others. unfold holders. naive_solver. Qed.

Lemma let_go_of_change x o o' :
  (forall f, holders x f <-> holders (meta o) f) ->
  meta_Name x = meta_Name (meta o) -> meta_Namespace x = meta_Namespace (meta o) ->
  let_go (Some (with_meta x o)) o' -> let_go (Some o) o'.
Proof.
  intros Hh Hn Hs. assert (Ho : others (slot_of x) = others (slot_of (meta o))).
  { apply eq_true_iff_eq. rewrite !holders_others. by setoid_rewrite Hh. }
  unfold let_go, release. rewrite meta_with_meta, Ho. destruct (others (slot_of (meta o))); [|tauto].
  intros (y & -> & Hy & Hyf & Hyn & Hys). exists y. rewrite with_meta_with_meta. setoid_rewrite <- Hh.
  split_and!; [done|done|done|congruence..].
Qed.

(** so twice is once. *)
Lemma let_go_again o o1 o2 : let_go o o1 -> let_go o1 o2 -> let_go o o2.
Proof.
  destruct o as [o|]; [|by intros ->]. unfold let_go at 1, release.
  destruct (others (slot_of (meta o))) eqn:Eo.
  - intros (x & -> & Hx & Hf & Hn & Hs). apply let_go_of_change; [|done..].
    intros f. unfold holders at 1. rewrite Hf. unfold holders. tauto.
  - intros ->. cbn. intros ->. unfold release. by rewrite Eo.
Qed.

Lemma let_go_gone o new : others (slot_of (meta o)) = false -> let_go (Some o) new -> new = None.
Proof. unfold let_go, release. by intros ->. Qed.

Lemma given_up_on ks m m' k : given_up ks m m' -> k ∈ ks -> let_go (m !! k) (m' !! k).
Proof. intros Hg Hk. specialize (Hg k). by rewrite decide_True in Hg. Qed.
Lemma given_up_off ks m m' k : given_up ks m m' -> k ∉ ks -> m' !! k = m !! k.
Proof. intros Hg Hk. specialize (Hg k). by rewrite decide_False in Hg. Qed.

Lemma given_up_nil m : given_up [] m m.
Proof. intros k. rewrite decide_False; [done|]. apply not_elem_of_nil. Qed.

Lemma given_up_at k m m' :
  (forall k', k' <> k -> m' !! k' = m !! k') -> let_go (m !! k) (m' !! k) -> given_up [k] m m'.
Proof.
  intros Hoff Hon k'. case_decide as Hin; rewrite list_elem_of_singleton in Hin; [by subst k'|by apply Hoff].
Qed.

Lemma given_up_app ks ks' m m1 m2 :
  given_up ks m m1 -> given_up ks' m1 m2 -> given_up (ks ++ ks') m m2.
Proof.
  intros H1 H2 k. specialize (H1 k). specialize (H2 k).
  destruct (decide (k ∈ ks ++ ks')) as [Hin|Hin]; rewrite elem_of_app in Hin;
    destruct (decide (k ∈ ks)), (decide (k ∈ ks')); try tauto; try congruence.
  all: try (by eapply let_go_again). all: by rewrite ?H2, <- ?H1.
Qed.

Lemma given_up_gone ks m m' k o :
  given_up ks m m' -> k ∈ ks -> m !! k = Some o -> others (slot_of (meta o)) = false -> m' !! k = None.
Proof.
  intros Hg Hk Ho Hf. pose proof (given_up_on _ _ _ _ Hg Hk) as Hl. rewrite Ho in Hl. by eapply let_go_gone.
Qed.

Lemma given_up_absent ks m m' k : given_up ks m m' -> m !! k = None -> m' !! k = None.
Proof. intros Hg Hk. specialize (Hg k). rewrite Hk in Hg. by case_decide. Qed.

(** What is left has been there, and kept its identity. *)
Lemma given_up_from ks m m' k o' :
  given_up ks m m' -> m' !! k = Some o' ->
  exists o, m !! k = Some o /\ meta_Finalizers (meta o') ⊆ meta_Finalizers (meta o) /\
    meta_Name (meta o') = meta_Name (meta o) /\ meta_Namespace (meta o') = meta_Namespace (meta o).
Proof.
  intros Hg Hk. specialize (Hg k). rewrite Hk in Hg. case_decide as Hin; cycle 1.
  { exists o'. split; [done|]. done. }
  unfold let_go in Hg. destruct (m !! k) as [o|]; [|done]. exists o. split; [done|].
  destruct (release _); [|done]. destruct Hg as (x & [= ->] & _ & Hf & Hn & Hs). rewrite meta_with_meta.
  split; [by intros f [_ ?]%Hf|done].
Qed.

(** *** The two ways to get there *)

Let stripped (o : A) : A := with_meta (RemoveFinalizer (meta o) finalizer) o.

(** Updating an object that is being deleted without the finalizer. *)
Lemma st_strip k o merge (m : gmap K A) :
  m !! k = Some o -> meta_DeletionTimestamp (meta o) <> None -> merge o (stripped o) = stripped o ->
  exists new m', st_update meta with_meta merge k (stripped o) m = (Ok new, m') /\ given_up [k] m m'.
Proof.
  intros Hk Hdel Hm. unfold stripped, st_update in *. rewrite Hk, Hm, meta_with_meta.
  set (x := RemoveFinalizer (meta o) finalizer).
  destruct (same_but_finalizers_version _ _ (RemoveFinalizer_rest (meta o) finalizer)) as [Hv Hd].
  destruct (same_but_finalizers_name _ _ (RemoveFinalizer_rest (meta o) finalizer)) as (Hn & Hs & _).
  fold x in Hv, Hd, Hn, Hs. rewrite bool_decide_true by done. unfold bump. rewrite !meta_with_meta. cbn. rewrite Hd.
  case_bool_decide as Hgone; eexists _, _; (split; [reflexivity|]); apply given_up_at.
  - intros k' Hne. by rewrite lookup_delete_ne.
  - rewrite lookup_delete_eq, Hk. unfold let_go, release. by rewrite (proj1 (stripped_none (meta o)) (proj2 Hgone)).
  - intros k' Hne. by rewrite lookup_insert_ne.
  - rewrite lookup_insert_eq, Hk. unfold let_go, release.
    destruct (others (slot_of (meta o))) eqn:Eo.
    + eexists. rewrite with_meta_with_meta. split; [reflexivity|]. cbn.
      split; [|split; [intros f; apply RemoveFinalizer_spec|done]].
      rewrite (slot_of_ext _ x) by done. unfold x. rewrite slot_of_stripped, Eo. f_equal.
      cbn. by apply bool_decide_true.
    + apply stripped_none in Eo. tauto.
Qed.

(** Deleting an object without it. *)
Lemma st_delete_go now k o (m : gmap K A) :
  m !! k = Some o -> finalizer ∉ meta_Finalizers (meta o) ->
  exists m', st_delete meta with_meta now k m = (None, m') /\ given_up [k] m m'.
Proof.
  intros Hk Hf. unfold st_delete. rewrite Hk. cbv zeta.
  case_bool_decide as He; eexists; (split; [reflexivity|]); apply given_up_at.
  - intros k' Hne. by rewrite lookup_delete_ne.
  - rewrite lookup_delete_eq, Hk. unfold let_go, release, slot_of. cbn. by rewrite He.
  - intros k' Hne. by rewrite lookup_insert_ne.
  - rewrite lookup_insert_eq, Hk. unfold let_go, release.
    destruct (others (slot_of (meta o))) eqn:Eo.
    + eexists. split; [reflexivity|]. cbn. split; [|split; [|done]].
      * unfold slot_of in *. cbn in *. rewrite Eo. f_equal. by apply bool_decide_false.
      * unfold holders. intros f. split; [|tauto]. intros Hin. split; [by intros ->|done].
    + destruct He. rewrite <- not_true_iff_false, slot_of_others in Eo.
      destruct (meta_Finalizers (meta o)) as [|f l]; [done|]. destruct Eo. exists f.
      split; [by left|]. intros ->. apply Hf. by left.
Qed.

(** Updating an object without the finalizer and deleting it: the update
    succeeds, the deletion succeeds or finds nothing. *)
Lemma st_release now k o (m : gmap K A) :
  m !! k = Some o ->
  exists new m1, st_update meta with_meta (fun _ new => new) k (stripped o) m = (Ok new, m1) /\
  exists e m2, st_delete meta with_meta now k m1 = (e, m2) /\
    (e = None \/ exists e', e = Some e' /\ IsNotFound e' = true) /\ given_up [k] m m2.
Proof.
  intros Hk. destruct (decide (meta_DeletionTimestamp (meta o) = None)) as [Hdel|Hdel].
  - (* nobody had asked for its deletion *)
    destruct (same_but_finalizers_version _ _ (RemoveFinalizer_rest (meta o) finalizer)) as [Hv Hd].
    destruct (same_but_finalizers_name _ _ (RemoveFinalizer_rest (meta o) finalizer)) as (Hn & Hs & _).
    rewrite (st_update_stripped meta with_meta meta_with_meta k o);
      [|done|unfold stripped; by rewrite meta_with_meta|unfold stripped; rewrite meta_with_meta; congruence].
    eexists _, _. split; [reflexivity|]. unfold bump, stripped. rewrite meta_with_meta, with_meta_with_meta.
    set (x := mkMeta _ _ _ _ _ _ _ _).
    destruct (st_delete_go now k (with_meta x o) (<[k := with_meta x o]> m)) as (m2 & Hdm & Hg);
      [apply lookup_insert_eq|rewrite meta_with_meta; apply RemoveFinalizer_not_in|].
    exists None, m2. split; [done|]. split; [by left|]. apply given_up_at.
    + intros k' Hne. rewrite (given_up_off _ _ _ _ Hg) by set_solver. by rewrite lookup_insert_ne.
    + pose proof (given_up_on _ _ _ k Hg ltac:(by left)) as Hgk. rewrite lookup_insert_eq in Hgk. rewrite Hk.
      apply (let_go_of_change x); [|exact Hn|exact Hs|exact Hgk].
      intros f. unfold holders. cbn. rewrite RemoveFinalizer_spec. tauto.
  - (* somebody had *)
    destruct (st_strip k o (fun _ new => new) m Hk Hdel eq_refl) as (new & m1 & Hu & Hg).
    exists new, m1. split; [done|]. pose proof (given_up_on _ _ _ k Hg ltac:(by left)) as Hgk.
    rewrite Hk in Hgk. destruct (m1 !! k) as [o1|] eqn:E1.
    + destruct (st_delete_go now k o1 m1 E1) as (m2 & -> & Hg2).
      { unfold let_go in Hgk. destruct (release _) as [s|] eqn:Er; [|done].
        destruct Hgk as (x & [= ->] & Hx & _). rewrite meta_with_meta.
        unfold release in Er. destruct (others _); [|done]. injection Er as <-.
        unfold slot_of in Hx. injection Hx as Hx _ _. by apply bool_decide_eq_false in Hx. }
      eexists _, _. split; [reflexivity|]. split; [by left|].
      pose proof (given_up_app _ _ _ _ _ Hg Hg2) as Hgg. cbn [app] in Hgg. apply given_up_at.
      * intros k' Hne. apply (given_up_off _ _ _ _ Hgg). set_solver.
      * apply (given_up_on _ _ _ _ Hgg). by left.
    + unfold st_delete. rewrite E1. eexists _, _. split; [reflexivity|]. split; [right; by eexists|done].
Qed.

End Store.
End Slots.
