(* ===== verification/StorageDiscovery.v ===== *)
(** * Storage class discovery

    storage/common.go, storage/discovery.go and storage/storage_utils.go: the
    constants of the storage package, the classification of StorageClasses by
    provisioner, the choice of one of them, and what is read off a
    ModelRepository's storage status. *)

From S2P Require Import Prelude Api Kube MemServer.

Local Open Scope go_scope.

(** ** common.go *)
Definition BackendTypeNFS : string := "nfs".
Definition BackendTypeCephFS : string := "cephfs".
Definition BackendTypeLonghorn : string := "longhorn".
Definition BackendTypeCSI : string := "csi".
Definition BackendTypeHostPath : string := "hostpath".
Definition DefaultModelStoragePath : string := "/data/models".
Definition ModelRepositoryFinalizer : string :=
  "modelrepository.aitrigram.cliver-project.github.io/finalizer".
Definition LLMEngineFinalizer : string :=
  "llmengine.aitrigram.cliver-project.github.io/finalizer".
Definition StorageProtectionFinalizer : string :=
  "modelrepository.aitrigram.cliver-project.github.io/storage-protection".
Definition LLMEngineStorageFinalizer : string :=
  "llmengine.aitrigram.cliver-project.github.io/storage-protection".

Definition getOrDefaultMountPath (mountPath : string) : string :=
  if bool_decide (mountPath = EmptyString) then DefaultModelStoragePath else mountPath.

(** ** storage_utils.go *)
Definition GetBoundNodeName (modelRepo : ModelRepository) : string :=
  match mst_Storage (mr_Status modelRepo) with
  | Some s => ss_BoundNodeName s
  | None => EmptyString
  end.

Definition GetStorageType (modelRepo : ModelRepository) : string :=
  match mst_Storage (mr_Status modelRepo) with
  | Some s => ss_StorageClass s
  | None => sto_StorageClass (mrs_Storage (mr_Spec modelRepo))
  end.

Definition RequiresNodeAffinity (modelRepo : ModelRepository) : bool :=
  match mst_Storage (mr_Status modelRepo) with
  | None => false
  | Some s => bool_decide (ss_AccessMode s = ReadWriteOnce)
  end.

(** ** discovery.go *)
Record StorageClassInfo := mkStorageClassInfo {
  sci_Name : string;
  sci_Provisioner : string;
  sci_Type : string;
  sci_AccessMode : string;
  sci_IsDefault : bool;
}.

(** The switch of categorizeStorageClass on the lower-cased provisioner: type
    and access mode. *)
Definition categorize_provisioner (provisioner : string) : string * string :=
  if str_contains "nfs" provisioner then (BackendTypeNFS, ReadWriteMany)
  else if str_contains "cephfs" provisioner || str_contains "ceph.rbd.csi" provisioner
  then (BackendTypeCephFS, ReadWriteMany)
  else if str_contains "glusterfs" provisioner || str_contains "gluster" provisioner
  then ("glusterfs", ReadWriteMany)
  else if bool_decide (provisioner = "driver.longhorn.io")
  then (BackendTypeLonghorn, ReadWriteMany)
  else if str_contains "hostpath" provisioner || str_contains "local" provisioner
  then ("local", ReadWriteOnce)
  else if str_contains "ebs" provisioner || str_contains "gce-pd" provisioner ||
          str_contains "azure-disk" provisioner || str_contains "cinder" provisioner
  then ("block", ReadWriteOnce)
  else ("unknown", ReadWriteOnce).

Definition categorizeStorageClass (sc : StorageClass) : StorageClassInfo :=
  let provisioner := to_lower (sc_Provisioner sc) in
  let '(type, mode) := categorize_provisioner provisioner in
  {| sci_Name := meta_Name (sc_Meta sc);
     sci_Provisioner := sc_Provisioner sc;
     sci_Type := type;
     sci_AccessMode := mode;
     sci_IsDefault :=
       bool_decide (meta_Annotations (sc_Meta sc) !! "storageclass.kubernetes.io/is-default-class"
                    = Some "true") |}.

Definition DiscoverStorageClasses : prog (result (list StorageClassInfo)) :=
  let! r := call ListStorageClasses in
  match r with
  | Err e => Ret (Err (errorw "failed to list storage classes: " e))
  | Ok scs => Ret (Ok (map categorizeStorageClass scs))
  end.

(** The three loops of selectAuto are three linear searches. *)
Definition selectAuto (available : list StorageClassInfo) : result StorageClassInfo :=
  match List.find (fun i => bool_decide (sci_AccessMode i = ReadWriteMany)) available with
  | Some i => Ok i
  | None =>
      match List.find sci_IsDefault available with
      | Some i => Ok i
      | None =>
          match List.find (fun i => bool_decide (sci_AccessMode i = ReadWriteOnce)) available with
          | Some i => Ok i
          | None =>
              Err (errorf ("no suitable StorageClass found among " +:+
                           fmt_d (Z.of_nat (length available)) +:+ " available"))
          end
      end
  end.

Definition selectByName (available : list StorageClassInfo) (name : string) :
    option StorageClassInfo :=
  List.find (fun i => bool_decide (sci_Name i = name)) available.

Definition SelectBestStorageClass (preference : string) : prog (result StorageClassInfo) :=
  let! r := DiscoverStorageClasses in
  match r with
  | Err e => Ret (Err e)
  | Ok available =>
      if bool_decide (available = []) then
        Ret (Err (errorf "no StorageClass found in the cluster; at least one StorageClass is required"))
      else if bool_decide (preference = "auto" ∨ preference = EmptyString) then
        Ret (selectAuto available)
      else
        match selectByName available preference with
        | Some sc => Ret (Ok sc)
        | None => Ret (Err (errorf ("storage class " +:+ fmt_q preference +:+ " not found")))
        end
  end.

Example categorize_longhorn :
  categorize_provisioner (to_lower "driver.Longhorn.io") = ("longhorn", "ReadWriteMany").
Proof. reflexivity. Qed.
Example categorize_ebs : categorize_provisioner "ebs.csi.aws.com" = ("block", "ReadWriteOnce").
Proof. reflexivity. Qed.

(** ** Properties *)

Lemma categorize_mode sc :
  sci_AccessMode (categorizeStorageClass sc) = ReadWriteMany \/
  sci_AccessMode (categorizeStorageClass sc) = ReadWriteOnce.
Proof.
  unfold categorizeStorageClass, categorize_provisioner.
  repeat case_match; simplify_eq; simpl; auto.
Qed.

(** [x] is the first element of [l] with the property [P]. *)
Definition first_with {A} (P : A -> Prop) (l : list A) (x : A) : Prop :=
  exists l1 l2, l = l1 ++ x :: l2 /\ P x /\ Forall (fun y => ~ P y) l1.

Lemma find_first {A} (f : A -> bool) l x :
  List.find f l = Some x -> first_with (fun y => f y = true) l x.
Proof.
  induction l as [|y l IH]; simpl; [done|]. destruct (f y) eqn:E.
  - intros [= <-]. by exists [], l.
  - intros (l1 & l2 & -> & Hx & Hl)%IH. exists (y :: l1), l2.
    split; [done|]. split; [done|]. constructor; [congruence|done].
Qed.

Lemma first_with_proper {A} (P P' : A -> Prop) l x :
  (forall y, P y <-> P' y) -> first_with P l x -> first_with P' l x.
Proof.
  intros HP (l1 & l2 & -> & Hx & Hl). exists l1, l2. split; [done|].
  split; [by apply HP|]. eapply Forall_impl; [done|]. simpl. intros y Hy. by rewrite <- HP.
Qed.

(** What "best" means for automatic selection: the first shared class; without
    one the first default class; without either the first class. *)
Definition best_auto (available : list StorageClassInfo) (i : StorageClassInfo) : Prop :=
  let shared j := sci_AccessMode j = ReadWriteMany in
  let default j := sci_IsDefault j = true in
  first_with shared available i \/
  (Forall (fun j => ~ shared j) available /\
   (first_with default available i \/
    (Forall (fun j => ~ default j) available /\ head available = Some i))).

Lemma selectAuto_best scs :
  scs <> [] ->
  exists i, selectAuto (map categorizeStorageClass scs) = Ok i /\
    best_auto (map categorizeStorageClass scs) i.
Proof.
  intros Hne. unfold selectAuto, best_auto.
  destruct (List.find _ _) as [i|] eqn:E1.
  { exists i. split; [done|]. left. apply find_first in E1.
    eapply first_with_proper; [|done]. intros y. simpl. by rewrite bool_decide_eq_true. }
  assert (Hns : Forall (fun j => sci_AccessMode j <> ReadWriteMany) (map categorizeStorageClass scs)).
  { apply Forall_forall. intros j Hj. apply list_elem_of_In in Hj.
    eapply List.find_none in E1; [|done]. by apply bool_decide_eq_false in E1. }
  destruct (List.find sci_IsDefault _) as [i|] eqn:E2.
  { exists i. split; [done|]. right. split; [done|]. left. by apply find_first. }
  destruct scs as [|sc scs]; [done|]. exists (categorizeStorageClass sc). simpl.
  assert (sci_AccessMode (categorizeStorageClass sc) = ReadWriteOnce) as Hro.
  { destruct (categorize_mode sc) as [H|H]; [|done]. inversion Hns. done. }
  rewrite bool_decide_true by done. split; [done|]. right. split; [done|]. right.
  split; [|done]. apply Forall_forall. intros j Hj%list_elem_of_In.
  eapply List.find_none in E2; [|done]. by rewrite E2.
Qed.

(** Automatic selection ("auto" or no preference) succeeds on every
    cluster with at least one StorageClass, asks the API server once, and takes
    the first shared class, else the first default class, else the first. *)
Theorem SelectBestStorageClass_auto {W} (srv : server W) w scs w' preference :
  srv ListStorageClasses w = (Ok scs, w') -> scs <> [] ->
  preference = "auto" \/ preference = EmptyString ->
  exists i, run srv (SelectBestStorageClass preference) w =
      ([Ev ListStorageClasses (Ok scs)], Done (Ok i), w') /\
    best_auto (map categorizeStorageClass scs) i.
Proof.
  intros Hsrv Hne Hp. destruct (selectAuto_best scs Hne) as (i & Hi & Hb).
  exists i. split; [|done]. cbn [SelectBestStorageClass DiscoverStorageClasses prog_bind call run].
  rewrite Hsrv. cbn. rewrite bool_decide_false by (by destruct scs).
  rewrite bool_decide_true by done. simpl. by rewrite Hi.
Qed.

Definition witness_sc (name provisioner : string) : StorageClass :=
  mkStorageClass (meta_with_Name name meta_empty) provisioner.

Definition witness_classes : list StorageClass :=
  [witness_sc "gp3" "ebs.csi.aws.com"; witness_sc "shared" "nfs.csi.k8s.io"].

Lemma SelectBestStorageClass_auto_witness :
  exists i, run mem (SelectBestStorageClass "auto") (set_classes witness_classes empty_cluster) =
      ([Ev ListStorageClasses (Ok witness_classes)], Done (Ok i),
       set_classes witness_classes empty_cluster) /\
    best_auto (map categorizeStorageClass witness_classes) i.
Proof.
  apply (SelectBestStorageClass_auto mem (set_classes witness_classes empty_cluster)
    witness_classes (set_classes witness_classes empty_cluster) "auto").
  - reflexivity.
  - discriminate.
  - left. reflexivity.
Defined.

Lemma SelectBestStorageClass_reads preference :
  calls_only (fun r => r = ListStorageClasses) (SelectBestStorageClass preference).
Proof. unfold SelectBestStorageClass, DiscoverStorageClasses. calls_tac. Qed.
#[export] Hint Resolve SelectBestStorageClass_reads : go.
