(* ===== verification/Backend.v ===== *)
(** * Storage backends

    How the backend of a ModelRepository's volume travels from the
    PersistentVolume bound to its claim, through status.storage.backendRef, to
    the read-only PersistentVolume of an engine: extractBackendFromPV and
    extractNodeNameFromPV of storage/storage_sc.go, buildReadOnlyPVSpec of
    storage/llmengine_storage.go.  [read_only_source] says what the round trip
    is to give; [backend_roundtrip] proves that it does. *)

From S2P Require Import Prelude Api Kube Machinery StorageDiscovery.

(** m[k] of a Go map of strings *)
Definition mget (m : gmap string string) (k : string) : string := default EmptyString (m !! k).

Definition hostname_key : string := "kubernetes.io/hostname".
Definition NodeSelectorOpIn : string := "In".

(** ** storage_sc.go *)

Definition extractNodeNameFromPV (pv : PersistentVolume) : string :=
  match pvp_NodeAffinity (pv_Spec pv) with
  | Some (Some terms) =>
      match List.find (fun expr =>
              bool_decide (nsr_Key expr = hostname_key) &&
              bool_decide (nsr_Operator expr = NodeSelectorOpIn) &&
              bool_decide (0 < length (nsr_Values expr)))
              (concat terms) with
      | Some expr => default EmptyString (head (nsr_Values expr))
      | None => EmptyString
      end
  | _ => EmptyString
  end.

(** for k, v := range VolumeAttributes { details["csi." + k] = v }.  The keys
    written are distinct, so the order of the range does not matter. *)
Definition add_csi_attributes (attrs details : gmap string string) : gmap string string :=
  map_fold (fun k v d => <["csi." +:+ k := v]> d) details attrs.

Definition extractBackendFromPV (repoName pvcName : string) (pv : PersistentVolume)
    (namespace : string) : result BackendReference :=
  let subPath := "/modelrepositories/" +:+ repoName in
  let src := pvp_Source (pv_Spec pv) in
  let pvc_details : gmap string string :=
    {["pvcName" := pvcName; "pvcNamespace" := namespace]} in
  match pvs_NFS src with
  | Some nfs =>
      let filesystemID := "nfs://" +:+ nfs_Server nfs +:+ nfs_Path nfs in
      Ok (mkBackendReference BackendTypeNFS
            (<["filesystemID" := filesystemID]> (<["server" := nfs_Server nfs]>
             (<["exportPath" := nfs_Path nfs]> (<["subPath" := subPath]> pvc_details)))))
  | None =>
  match pvs_CSI src with
  | Some csi =>
      let details := <["driver" := csi_Driver csi]> (<["volumeID" := csi_VolumeHandle csi]>
                       (<["subPath" := subPath]> pvc_details)) in
      let details := add_csi_attributes (csi_VolumeAttributes csi) details in
      let '(backendType, details) :=
        if bool_decide (csi_Driver csi = "nfs.csi.k8s.io") then
          (BackendTypeNFS,
           match csi_VolumeAttributes csi !! "server" with
           | Some server =>
               match csi_VolumeAttributes csi !! "share" with
               | Some share =>
                   <["exportPath" := share]> (<["server" := server]>
                     (<["filesystemID" := "nfs://" +:+ server +:+ share]> details))
               | None => details
               end
           | None => details
           end)
        else if bool_decide (csi_Driver csi = "cephfs.csi.ceph.com") then
          (BackendTypeCephFS,
           <["filesystemID" := "ceph://" +:+ csi_VolumeHandle csi]> details)
        else if bool_decide (csi_Driver csi = "driver.longhorn.io") then
          (BackendTypeLonghorn, details)
        else (BackendTypeCSI, details) in
      Ok (mkBackendReference backendType details)
  | None =>
  match pvs_AWS src with
  | Some aws =>
      Ok (mkBackendReference "ebs"
            (<["volumeID" := aws_VolumeID aws]> (<["fsType" := aws_FSType aws]> pvc_details)))
  | None =>
  match pvs_GCE src with
  | Some gce =>
      Ok (mkBackendReference "gce-pd"
            (<["pdName" := gce_PDName gce]> (<["fsType" := gce_FSType gce]> pvc_details)))
  | None =>
  match pvs_AzureDisk src with
  | Some az =>
      Ok (mkBackendReference "azure-disk"
            (<["diskName" := az_DiskName az]> (<["diskURI" := az_DataDiskURI az]> pvc_details)))
  | None =>
  match pvs_CephFS src with
  | Some ceph =>
      let monitors := default EmptyString (head (ceph_Monitors ceph)) in
      let filesystemID := "ceph://" +:+ monitors +:+ ceph_Path ceph in
      Ok (mkBackendReference BackendTypeCephFS
            (<["filesystemID" := filesystemID]> (<["monitors" := monitors]>
             (<["path" := ceph_Path ceph]> (<["subPath" := subPath]> pvc_details)))))
  | None =>
  match pvs_Glusterfs src with
  | Some glu =>
      let filesystemID := "gluster://" +:+ glu_EndpointsName glu +:+ "/" +:+ glu_Path glu in
      Ok (mkBackendReference "glusterfs"
            (<["filesystemID" := filesystemID]> (<["endpoints" := glu_EndpointsName glu]>
             (<["path" := glu_Path glu]> (<["subPath" := subPath]> pvc_details)))))
  | None =>
  match pvs_HostPath src with
  | Some hp =>
      Ok (mkBackendReference BackendTypeHostPath (<["path" := hp_Path hp]> pvc_details))
  | None =>
      Err (errorf ("unable to determine backend type for PV " +:+ meta_Name (pv_Meta pv) +:+
                   " (no recognized volume source found)"))
  end end end end end end end end.

(** ** llmengine_storage.go *)

(** The loop that rebuilds volume attributes from the csi.* keys. *)
Definition csi_attributes (details : gmap string string) : gmap string string :=
  map_fold (fun k v attrs =>
              if has_prefix "csi." k then <[trim_prefix "csi." k := v]> attrs else attrs)
    ∅ details.

Definition node_affinity_for (node : string) : list NodeSelectorTerm :=
  [[mkNodeReq hostname_key NodeSelectorOpIn [node]]].

(** The switch on the backend type: the volume source and whether the node
    affinity of a HostPath is to be set. *)
Definition read_only_volume (backendRef : BackendReference) : result (PVSource * bool) :=
  let details := be_Details backendRef in
  let t := be_Type backendRef in
  if bool_decide (t = BackendTypeNFS) then
    let server := mget details "server" in
    let exportPath := mget details "exportPath" in
    if bool_decide (server = EmptyString \/ exportPath = EmptyString)
    then Err (errorf "NFS backend missing server or exportPath")
    else Ok (pvs_of_NFS (mkNFS server exportPath true), false)
  else if bool_decide (t = BackendTypeHostPath) then
    let path := mget details "path" in
    if bool_decide (path = EmptyString) then Err (errorf "hostpath backend missing path")
    else Ok (pvs_of_HostPath (mkHostPath path (Some "Directory")), true)
  else if bool_decide (t = BackendTypeCephFS) then
    let monitors := mget details "monitors" in
    let path := mget details "path" in
    if bool_decide (monitors = EmptyString) then Err (errorf "cephfs backend missing monitors")
    else Ok (pvs_of_CephFS (mkCephFS [monitors] path true), false)
  else if bool_decide (t = BackendTypeLonghorn \/ t = BackendTypeCSI) then
    let driver := mget details "driver" in
    let volumeID := mget details "volumeID" in
    if bool_decide (driver = EmptyString \/ volumeID = EmptyString)
    then Err (errorf "CSI backend missing driver or volumeID")
    else Ok (pvs_of_CSI (mkCSI driver volumeID true (csi_attributes details)), false)
  else Err (errorf ("unsupported backend type: " +:+ t)).

Definition buildReadOnlyPVSpec `{Machinery} (backendRef : BackendReference)
    (storageStatus : StorageStatus) : outcome (result PersistentVolumeSpec) :=
  let capacity :=
    if bool_decide (ss_Capacity storageStatus = EmptyString) then "10Gi"
    else ss_Capacity storageStatus in
  quantity ← MustParse capacity;
  match read_only_volume backendRef with
  | Err e => Done (Err e)
  | Ok (src, hostpath) =>
      Done (Ok {|
        pvp_Capacity := quantity;
        pvp_AccessModes := [ReadOnlyMany];
        pvp_VolumeMode := Some "Filesystem";
        pvp_Source := src;
        pvp_NodeAffinity :=
          if hostpath && bool_decide (ss_BoundNodeName storageStatus <> EmptyString)
          then Some (Some (node_affinity_for (ss_BoundNodeName storageStatus))) else None;
        pvp_ClaimRef := None;
        pvp_ReclaimPolicy := EmptyString |})
  end.

(** ** What the round trip is to give

    The volume source an engine mounts for a repository whose volume has the
    source [s]: the same storage, read-only; [None] when an engine cannot mount
    it. *)
Definition read_only_source (s : PVSource) : option PVSource :=
  match s with
  | mkPVSource (Some nfs) _ _ _ _ _ _ _ =>
      if bool_decide (nfs_Server nfs = EmptyString \/ nfs_Path nfs = EmptyString) then None
      else Some (pvs_of_NFS (mkNFS (nfs_Server nfs) (nfs_Path nfs) true))
  | mkPVSource None (Some csi) _ _ _ _ _ _ =>
      if bool_decide (csi_Driver csi = "nfs.csi.k8s.io") then
        let server := mget (csi_VolumeAttributes csi) "server" in
        let share := mget (csi_VolumeAttributes csi) "share" in
        if bool_decide (server = EmptyString \/ share = EmptyString) then None
        else Some (pvs_of_NFS (mkNFS server share true))
      else if bool_decide (csi_Driver csi = "cephfs.csi.ceph.com" \/ csi_Driver csi = EmptyString
                           \/ csi_VolumeHandle csi = EmptyString) then None
      else Some (pvs_of_CSI (mkCSI (csi_Driver csi) (csi_VolumeHandle csi) true
                                   (csi_VolumeAttributes csi)))
  | mkPVSource None None None None None (Some ceph) _ _ =>
      let monitors := default EmptyString (head (ceph_Monitors ceph)) in
      if bool_decide (monitors = EmptyString) then None
      else Some (pvs_of_CephFS (mkCephFS [monitors] (ceph_Path ceph) true))
  | mkPVSource None None None None None None None (Some hp) =>
      if bool_decide (hp_Path hp = EmptyString) then None
      else Some (pvs_of_HostPath (mkHostPath (hp_Path hp) (Some "Directory")))
  | _ => None
  end.

(** ** Lemmas *)

Lemma add_csi_attributes_lookup attrs details k :
  add_csi_attributes attrs details !! ("csi." +:+ k) =
  match attrs !! k with Some v => Some v | None => details !! ("csi." +:+ k) end.
Proof.
  unfold add_csi_attributes. revert k.
  apply (map_fold_weak_ind (fun r m => forall k, r !! ("csi." +:+ k) =
    match m !! k with Some v => Some v | None => details !! ("csi." +:+ k) end)); [done|].
  intros i x m r Hi IH k. destruct (decide (i = k)) as [->|Hne].
  - by rewrite !lookup_insert_eq.
  - rewrite !lookup_insert_ne; [apply IH|done|]. intros Heq%str_app_inj_l. done.
Qed.

Lemma add_csi_attributes_other attrs details k :
  has_prefix "csi." k = false -> add_csi_attributes attrs details !! k = details !! k.
Proof.
  intros Hk. unfold add_csi_attributes.
  apply (map_fold_weak_ind (fun r m => r !! k = details !! k)); [done|].
  intros i x m r Hi IH. rewrite lookup_insert_ne; [done|].
  intros Heq. rewrite <- Heq, has_prefix_app in Hk. done.
Qed.

Lemma csi_attributes_lookup details k :
  csi_attributes details !! k = details !! ("csi." +:+ k).
Proof.
  unfold csi_attributes. revert k.
  apply (map_fold_weak_ind (fun r m => forall k, r !! k = m !! ("csi." +:+ k))); [done|].
  intros i x m r Hi IH k. destruct (has_prefix "csi." i) eqn:E.
  - apply has_prefix_spec in E as [t ->]. rewrite trim_prefix_app.
    destruct (decide (t = k)) as [->|Hne]; [by rewrite !lookup_insert_eq|].
    rewrite !lookup_insert_ne; [apply IH| |done]. intros Heq%str_app_inj_l. done.
  - rewrite lookup_insert_ne; [apply IH|]. intros ->. by rewrite has_prefix_app in E.
Qed.

(** The volume attributes survive the trip through the string-keyed details. *)
Lemma csi_attributes_roundtrip attrs details :
  (forall k, details !! ("csi." +:+ k) = None) ->
  csi_attributes (add_csi_attributes attrs details) = attrs.
Proof.
  intros Hd. apply map_eq. intros k.
  rewrite csi_attributes_lookup, add_csi_attributes_lookup, Hd. by destruct (attrs !! k).
Qed.

(** Reading a fixed key through the inserts of a literal. *)
Ltac mget_tac :=
  unfold mget;
  repeat first
    [ rewrite lookup_insert_eq
    | rewrite lookup_insert_ne by discriminate
    | rewrite add_csi_attributes_other by reflexivity
    | rewrite lookup_singleton_eq
    | rewrite lookup_singleton_ne by discriminate
    | rewrite lookup_empty ];
  cbn [default from_option id].

(** The switch of [read_only_volume], case by case. *)
Lemma read_only_volume_NFS d :
  read_only_volume (mkBackendReference BackendTypeNFS d) =
  if bool_decide (mget d "server" = EmptyString \/ mget d "exportPath" = EmptyString)
  then Err (errorf "NFS backend missing server or exportPath")
  else Ok (pvs_of_NFS (mkNFS (mget d "server") (mget d "exportPath") true), false).
Proof. reflexivity. Qed.

Lemma read_only_volume_HostPath d :
  read_only_volume (mkBackendReference BackendTypeHostPath d) =
  if bool_decide (mget d "path" = EmptyString) then Err (errorf "hostpath backend missing path")
  else Ok (pvs_of_HostPath (mkHostPath (mget d "path") (Some "Directory")), true).
Proof. reflexivity. Qed.

Lemma read_only_volume_CephFS d :
  read_only_volume (mkBackendReference BackendTypeCephFS d) =
  if bool_decide (mget d "monitors" = EmptyString)
  then Err (errorf "cephfs backend missing monitors")
  else Ok (pvs_of_CephFS (mkCephFS [mget d "monitors"] (mget d "path") true), false).
Proof. reflexivity. Qed.

(** The CSI case: the attributes come back, and the drivers for NFS and CephFS
    are renamed to those backends. *)
Lemma read_only_volume_extract_csi repo pvc pv ns ref csi :
  let src := pvp_Source (pv_Spec pv) in
  pvs_NFS src = None -> pvs_CSI src = Some csi ->
  extractBackendFromPV repo pvc pv ns = Ok ref ->
  match read_only_volume ref, read_only_source src with
  | Ok (src, _), Some src' => src = src'
  | Err _, None => True
  | _, _ => False
  end.
Proof.
  unfold extractBackendFromPV. cbv zeta.
  destruct (pvp_Source (pv_Spec pv)) as [nfs csi' aws gce az ceph glu hp].
  cbn [pvs_NFS pvs_CSI]. intros -> ->. cbn [read_only_source].
  destruct (decide (csi_Driver csi = "nfs.csi.k8s.io")) as [Hd|Hd].
  { rewrite !(bool_decide_true (csi_Driver csi = "nfs.csi.k8s.io")) by done.
    intros [= <-]. rewrite read_only_volume_NFS. unfold mget.
    destruct (csi_VolumeAttributes csi !! "server") as [sv|] eqn:Es;
      [destruct (csi_VolumeAttributes csi !! "share") as [sh|] eqn:Eh|];
      mget_tac; repeat case_bool_decide; naive_solver. }
  rewrite !(bool_decide_false (csi_Driver csi = "nfs.csi.k8s.io")) by done.
  destruct (decide (csi_Driver csi = "cephfs.csi.ceph.com")) as [Hc|Hc].
  { rewrite (bool_decide_true (csi_Driver csi = "cephfs.csi.ceph.com")) by done.
    rewrite (bool_decide_true (_ \/ _)) by auto.
    intros [= <-]. rewrite read_only_volume_CephFS.
    mget_tac. done. }
  rewrite (bool_decide_false (csi_Driver csi = "cephfs.csi.ceph.com")) by done.
  destruct (bool_decide (csi_Driver csi = "driver.longhorn.io")); intros [= <-];
    unfold read_only_volume; cbn [be_Type be_Details];
    rewrite !(bool_decide_false (_ = _ :> string)) by discriminate;
    (rewrite bool_decide_true by auto); mget_tac;
    (rewrite csi_attributes_roundtrip;
       [|intros k; rewrite !lookup_insert_ne by done; by apply lookup_singleton_ne]);
    repeat case_bool_decide; try done; naive_solver.
Qed.

(** read_only_volume after extractBackendFromPV, case by case. *)
Lemma read_only_volume_extract repo pvc pv ns ref :
  extractBackendFromPV repo pvc pv ns = Ok ref ->
  match read_only_volume ref, read_only_source (pvp_Source (pv_Spec pv)) with
  | Ok (src, _), Some src' => src = src'
  | Err _, None => True
  | _, _ => False
  end.
Proof.
  unfold extractBackendFromPV. destruct (pvp_Source (pv_Spec pv)) as [nfs csi aws gce az ceph glu hp] eqn:Es.
  cbn [pvs_NFS pvs_CSI pvs_AWS pvs_GCE pvs_AzureDisk pvs_CephFS pvs_Glusterfs pvs_HostPath].
  destruct nfs as [nfs|].
  { intros [= <-]. rewrite read_only_volume_NFS. cbn [read_only_source]. mget_tac.
    by case_bool_decide. }
  destruct csi as [csi|].
  { intros H. pose proof (read_only_volume_extract_csi repo pvc pv ns ref csi) as Hc.
    cbv zeta in Hc. rewrite Es in Hc. apply Hc; [done..|].
    unfold extractBackendFromPV. by rewrite Es. }
  destruct aws as [aws|]; [by intros [= <-]|].
  destruct gce as [gce|]; [by intros [= <-]|].
  destruct az as [az|]; [by intros [= <-]|].
  destruct ceph as [ceph|].
  { intros [= <-]. rewrite read_only_volume_CephFS. cbn [read_only_source]. mget_tac.
    by case_bool_decide. }
  destruct glu as [glu|]; [by intros [= <-]|].
  destruct hp as [hp|]; [|done].
  intros [= <-]. rewrite read_only_volume_HostPath. cbn [read_only_source]. mget_tac.
  by case_bool_decide.
Qed.

(** ** The round trip *)

(** The capacity of the read-only volume: the recorded one, or the default. *)
Definition effective_capacity (st : StorageStatus) : string :=
  if bool_decide (ss_Capacity st = EmptyString) then "10Gi" else ss_Capacity st.

Lemma buildReadOnlyPVSpec_unfold `{L : MachineryLaws} ref st q :
  ParseQuantity (effective_capacity st) = Ok q ->
  buildReadOnlyPVSpec ref st = Done
    match read_only_volume ref with
    | Err e => Err e
    | Ok (src, hostpath) =>
        Ok (mkPVSpec q [ReadOnlyMany] (Some "Filesystem") src
              (if hostpath && bool_decide (ss_BoundNodeName st <> EmptyString)
               then Some (Some (node_affinity_for (ss_BoundNodeName st))) else None)
              None EmptyString)
    end.
Proof.
  intros Hq%MustParse_ok. unfold buildReadOnlyPVSpec. cbv zeta.
  fold (effective_capacity st). rewrite Hq. cbn.
  by destruct (read_only_volume ref) as [[src hp]|e].
Qed.

Lemma read_only_volume_hostpath ref src hp :
  read_only_volume ref = Ok (src, hp) ->
  hp = true <-> is_Some (pvs_HostPath src).
Proof.
  unfold read_only_volume. repeat case_bool_decide; intros [= <- <-]; cbn;
    split; try done; try (by intros [? ?]); eauto.
Qed.

(** The node of a volume pinned by [node_affinity_for] is read back. *)
Lemma extractNodeNameFromPV_pinned m spec node :
  pvp_NodeAffinity spec = Some (Some (node_affinity_for node)) ->
  extractNodeNameFromPV (mkPV m spec) = node.
Proof. intros H. unfold extractNodeNameFromPV. cbn. by rewrite H. Qed.

(** Property C18: what extractBackendFromPV records of a bound volume is what
    buildReadOnlyPVSpec mounts: the same server, path, driver, handle and
    attributes, read-only (ReadOnlyMany); a HostPath volume is pinned to the
    bound node and no other volume is pinned; and it is an error exactly when
    engines cannot mount the backend.  It never panics when the capacity
    parses. *)
Theorem backend_roundtrip `{L : MachineryLaws} repo pvc pv ns ref st q :
  extractBackendFromPV repo pvc pv ns = Ok ref ->
  ParseQuantity (effective_capacity st) = Ok q ->
  exists r, buildReadOnlyPVSpec ref st = Done r /\
    match r, read_only_source (pvp_Source (pv_Spec pv)) with
    | Ok spec, Some src =>
        pvp_Source spec = src /\ pvp_AccessModes spec = [ReadOnlyMany] /\ pvp_Capacity spec = q /\
        forall m, extractNodeNameFromPV (mkPV m spec) =
          match pvs_HostPath src with Some _ => ss_BoundNodeName st | None => EmptyString end
    | Err _, None => True
    | _, _ => False
    end.
Proof.
  intros He Hq. rewrite (buildReadOnlyPVSpec_unfold _ _ _ Hq). eexists; split; [done|].
  apply read_only_volume_extract in He.
  destruct (read_only_volume ref) as [[src hp]|e] eqn:Er; [|by destruct (read_only_source _)].
  destruct (read_only_source _) as [src'|]; [|done]. subst src'.
  apply read_only_volume_hostpath in Er. repeat (split; [done|]). intros m.
  destruct hp; cbn.
  - destruct (proj1 Er eq_refl) as [p ->]. case_bool_decide as Hb; [done|].
    by rewrite Hb.
  - destruct (pvs_HostPath src) as [p|]; [|done].
    assert (false = true) by (apply Er; eauto). done.
Qed.

Definition witness_nfs_pv : PersistentVolume :=
  mkPV (meta_with_Name "pv-1" meta_empty)
    (mkPVSpec "10Gi" [ReadWriteMany] None
       (pvs_of_CSI (mkCSI "nfs.csi.k8s.io" "h" false {["server" := "10.0.0.1"; "share" := "/x"]}))
       None None EmptyString).

Definition witness_storage_status : StorageStatus :=
  mkStorageStatus "nfs" ReadWriteMany "Filesystem"
    (Some (mkBackendReference BackendTypeNFS {["server" := "10.0.0.1"; "exportPath" := "/x"]}))
    EmptyString "10Gi".

Lemma backend_roundtrip_witness :
  exists ref r, extractBackendFromPV "llama" "pvc" witness_nfs_pv "default" = Ok ref /\
    @buildReadOnlyPVSpec Reference.machinery ref witness_storage_status = Done r /\
    match r, read_only_source (pvp_Source (pv_Spec witness_nfs_pv)) with
    | Ok spec, Some src =>
        pvp_Source spec = src /\ pvp_AccessModes spec = [ReadOnlyMany] /\
        pvp_Capacity spec = "10Gi" /\
        forall m, extractNodeNameFromPV (mkPV m spec) =
          match pvs_HostPath src with
          | Some _ => ss_BoundNodeName witness_storage_status
          | None => EmptyString
          end
    | Err _, None => True
    | _, _ => False
    end.
Proof.
  eexists.
  destruct (backend_roundtrip (L := Reference.laws) "llama" "pvc" witness_nfs_pv "default" _
    witness_storage_status "10Gi" eq_refl eq_refl) as (r & H1 & H2).
  exists r. split; [reflexivity|]. split; [exact H1|exact H2].
Defined.

(** A volume of the CephFS CSI driver, which StorageClass discovery
    classifies as shared CephFS storage, is recorded as a backend that
    buildReadOnlyPVSpec always rejects: no engine can mount it. *)
Theorem cephfs_csi_never_mounts `{L : MachineryLaws} repo pvc m spec ns csi st q :
  pvp_Source spec = pvs_of_CSI csi -> csi_Driver csi = "cephfs.csi.ceph.com" ->
  ParseQuantity (effective_capacity st) = Ok q ->
  categorize_provisioner (csi_Driver csi) = (BackendTypeCephFS, ReadWriteMany) /\
  exists ref e, extractBackendFromPV repo pvc (mkPV m spec) ns = Ok ref /\
    be_Type ref = BackendTypeCephFS /\
    buildReadOnlyPVSpec ref st = Done (Err e).
Proof.
  intros Hs Hd Hq. split; [by rewrite Hd|].
  pose proof (fun ref => read_only_volume_extract repo pvc (mkPV m spec) ns ref) as Hv.
  unfold extractBackendFromPV in *. cbn [pv_Spec] in *. rewrite Hs in *.
  cbn [pvs_of_CSI pvs_NFS pvs_CSI read_only_source] in *. rewrite Hd in *.
  specialize (Hv _ eq_refl). cbn in Hv.
  eexists. destruct (read_only_volume _) as [[src hp]|e] eqn:Er in Hv; [done|].
  exists e. split; [reflexivity|]. split; [reflexivity|].
  rewrite (buildReadOnlyPVSpec_unfold _ _ _ Hq).
  cbn [bool_decide] in *. by rewrite Er.
Qed.

Definition witness_cephfs : CSIVolumeSource :=
  mkCSI "cephfs.csi.ceph.com" "0001-vol" false {["fsName" := "cephfs"]}.

Lemma cephfs_csi_never_mounts_witness :
  categorize_provisioner (csi_Driver witness_cephfs) = (BackendTypeCephFS, ReadWriteMany) /\
  exists ref e,
    extractBackendFromPV "llama" "llama-storage"
      (mkPV meta_empty (mkPVSpec "10Gi" [ReadWriteMany] None (pvs_of_CSI witness_cephfs)
                          None None EmptyString)) "default" = Ok ref /\
    be_Type ref = BackendTypeCephFS /\
    @buildReadOnlyPVSpec Reference.machinery ref witness_storage_status = Done (Err e).
Proof.
  apply (cephfs_csi_never_mounts (L := Reference.laws) "llama" "llama-storage" meta_empty
    (mkPVSpec "10Gi" [ReadWriteMany] None (pvs_of_CSI witness_cephfs) None None EmptyString)
    "default" witness_cephfs witness_storage_status "10Gi"); reflexivity.
Defined.
