(* ===== verification/EngineStorage.v ===== *)
(** * Storage of an engine

    EnsureLLMEngineStorage and CleanupLLMEngineStorage of
    storage/llmengine_storage.go: the read-only PersistentVolume and claim that
    give an engine's namespace a view of a ModelRepository's backend, and their
    removal. *)

From S2P Require Import Prelude Naming Api Kube Machinery MemServer StorageDiscovery Backend.

Local Open Scope go_scope.

Record LLMEngineStorageResult := mkStorageResult { PVCName : string; MountPath : string }.

Section Operations.
Context `{M : Machinery}.

Definition engine_labels (llmEngine : LLMEngine) (modelRepoName : string) : gmap string string :=
  {["app.kubernetes.io/managed-by" := "aitrigram-operator";
    "llmengine.aitrigram.cliver-project.github.io" := le_Name llmEngine;
    "aitrigram.io/model-repo" := modelRepoName]}.

(** The PersistentVolume EnsureLLMEngineStorage makes out of a spec. *)
Definition engine_pv (llmEngine : LLMEngine) (modelRepo : ModelRepository)
    (pvName pvcName : string) (spec : PersistentVolumeSpec) : PersistentVolume :=
  mkPV (AddFinalizer
          (meta_with_Labels (engine_labels llmEngine (mr_Name modelRepo))
             (meta_with_Name pvName meta_empty)) LLMEngineStorageFinalizer)
    (mkPVSpec (pvp_Capacity spec) (pvp_AccessModes spec) (pvp_VolumeMode spec) (pvp_Source spec)
       (pvp_NodeAffinity spec) (Some (le_Namespace llmEngine, pvcName)) "Retain").

Definition engine_pvc (llmEngine : LLMEngine) (modelRepo : ModelRepository)
    (pvName pvcName capacity : string) : PersistentVolumeClaim :=
  mkPVC (AddFinalizer
           (meta_with_Labels (engine_labels llmEngine (mr_Name modelRepo))
              (meta_with_Namespace (le_Namespace llmEngine) (meta_with_Name pvcName meta_empty)))
           LLMEngineStorageFinalizer)
    [ReadOnlyMany] capacity None pvName EmptyString None.

(** The second half: create the claim if it is missing, or see whether it is
    bound. *)
Definition ensure_engine_pvc (llmEngine : LLMEngine) (modelRepo : ModelRepository)
    (storageStatus : StorageStatus) (pvName pvcName : string) :
    prog (result LLMEngineStorageResult) :=
  let namespace := le_Namespace llmEngine in
  let! capacity := lift (MustParse (ss_Capacity storageStatus)) in
  let pvc := engine_pvc llmEngine modelRepo pvName pvcName capacity in
  let! r := call (GetPVC namespace pvcName) in
  match r with
  | Err e =>
      if negb (IsNotFound e) then
        Ret (Err (errorw ("failed to check PVC " +:+ pvcName +:+ ": ") e))
      else
        let! e := call (CreatePVC pvc) in
        match e with
        | Some e => Ret (Err (errorw ("failed to create PVC " +:+ pvcName +:+ ": ") e))
        | None => Ret (Err (errorf ("PVC " +:+ namespace +:+ "/" +:+ pvcName +:+
                                    " created, waiting for binding")))
        end
  | Ok existingPVC =>
      if bool_decide (pvc_Phase existingPVC <> ClaimBound) then
        Ret (Err (errorf ("PVC " +:+ namespace +:+ "/" +:+ pvcName +:+ " not bound yet (phase: " +:+
                          pvc_Phase existingPVC +:+ ")")))
      else
        Ret (Ok (mkStorageResult pvcName
                   (getOrDefaultMountPath (sto_MountPath (mrs_Storage (mr_Spec modelRepo))))))
  end.

Definition EnsureLLMEngineStorage (llmEngine : LLMEngine) (modelRepo : ModelRepository) :
    prog (result LLMEngineStorageResult) :=
  match mst_Storage (mr_Status modelRepo) with
  | Some storageStatus =>
  match ss_BackendRef storageStatus with
  | Some backendRef =>
      let! pvName := lift (llmEnginePVName (le_Name llmEngine) (mr_Name modelRepo)) in
      let! pvcName := lift (llmEnginePVCName (le_Name llmEngine) (mr_Name modelRepo)) in
      let! spec := lift (buildReadOnlyPVSpec backendRef storageStatus) in
      match spec with
      | Err e => Ret (Err (errorw ("unsupported backend type " +:+ fmt_q (be_Type backendRef) +:+ ": ") e))
      | Ok pvSpec =>
          let pv := engine_pv llmEngine modelRepo pvName pvcName pvSpec in
          let! r := call (GetPV pvName) in
          match r with
          | Ok _ => ensure_engine_pvc llmEngine modelRepo storageStatus pvName pvcName
          | Err e =>
              if negb (IsNotFound e) then
                Ret (Err (errorw ("failed to check PV " +:+ pvName +:+ ": ") e))
              else
                let! e := call (CreatePV pv) in
                match e with
                | Some e => Ret (Err (errorw ("failed to create PV " +:+ pvName +:+ ": ") e))
                | None => ensure_engine_pvc llmEngine modelRepo storageStatus pvName pvcName
                end
          end
      end
  | None => Ret (Err (errorf ("ModelRepository " +:+ mr_Name modelRepo +:+
                              " storage status not available")))
  end
  | None => Ret (Err (errorf ("ModelRepository " +:+ mr_Name modelRepo +:+
                              " storage status not available")))
  end.

(** The claim half and the volume half of CleanupLLMEngineStorage.  Update
    writes the stored object back into its argument, of which Delete uses only
    the name. *)
Definition cleanup_engine_pvc (namespace pvcName : string) : prog err_opt :=
  let! r := call (GetPVC namespace pvcName) in
  match r with
  | Err _ => Ret None
  | Ok existingPVC =>
      let existingPVC :=
        pvc_with_Meta (RemoveFinalizer (pvc_Meta existingPVC) LLMEngineStorageFinalizer) existingPVC in
      let! e := call (UpdatePVC existingPVC) in
      match e with
      | Some e => Ret (Some (errorw ("failed to remove finalizer from PVC " +:+ pvcName +:+ ": ") e))
      | None =>
          let! e := call (DeletePVC namespace pvcName) in
          match e with
          | Some e =>
              if negb (IsNotFound e) then
                Ret (Some (errorw ("failed to delete PVC " +:+ namespace +:+ "/" +:+ pvcName +:+ ": ") e))
              else Ret None
          | None => Ret None
          end
      end
  end.

Definition cleanup_engine_pv (pvName : string) : prog err_opt :=
  let! r := call (GetPV pvName) in
  match r with
  | Err _ => Ret None
  | Ok existingPV =>
      let existingPV :=
        pv_with_Meta (RemoveFinalizer (pv_Meta existingPV) LLMEngineStorageFinalizer) existingPV in
      let! e := call (UpdatePV existingPV) in
      match e with
      | Some e => Ret (Some (errorw ("failed to remove finalizer from PV " +:+ pvName +:+ ": ") e))
      | None =>
          let! e := call (DeletePV pvName) in
          match e with
          | Some e =>
              if negb (IsNotFound e) then
                Ret (Some (errorw ("failed to delete PV " +:+ pvName +:+ ": ") e))
              else Ret None
          | None => Ret None
          end
      end
  end.

Definition CleanupLLMEngineStorage (llmEngine : LLMEngine) (modelRepoName : string) : prog err_opt :=
  let! pvName := lift (llmEnginePVName (le_Name llmEngine) modelRepoName) in
  let! pvcName := lift (llmEnginePVCName (le_Name llmEngine) modelRepoName) in
  let! e := cleanup_engine_pvc (le_Namespace llmEngine) pvcName in
  match e with
  | Some e => Ret (Some e)
  | None => cleanup_engine_pv pvName
  end.

End Operations.

(** ** What ensuring may do

    The specification of EnsureLLMEngineStorage as a guard on its requests: it
    reads the two objects of the engine and the repository, and creates each
    only right after the API server said that it does not exist. *)
Section Spec.
Context `{M : Machinery}.

Definition read_only_engine_pv (le : LLMEngine) (mr : ModelRepository)
    (pv : PersistentVolume) : Prop :=
  llmEnginePVName (le_Name le) (mr_Name mr) = Done (meta_Name (pv_Meta pv)) /\
  LLMEngineStorageFinalizer ∈ meta_Finalizers (pv_Meta pv) /\
  pvp_AccessModes (pv_Spec pv) = [ReadOnlyMany] /\
  pvp_ReclaimPolicy (pv_Spec pv) = "Retain" /\
  (exists pvcName, llmEnginePVCName (le_Name le) (mr_Name mr) = Done pvcName /\
     pvp_ClaimRef (pv_Spec pv) = Some (le_Namespace le, pvcName)) /\
  exists st ref hp, mst_Storage (mr_Status mr) = Some st /\ ss_BackendRef st = Some ref /\
    read_only_volume ref = Ok (pvp_Source (pv_Spec pv), hp).

Definition read_only_engine_pvc (le : LLMEngine) (mr : ModelRepository)
    (pvc : PersistentVolumeClaim) : Prop :=
  meta_Namespace (pvc_Meta pvc) = le_Namespace le /\
  llmEnginePVCName (le_Name le) (mr_Name mr) = Done (meta_Name (pvc_Meta pvc)) /\
  llmEnginePVName (le_Name le) (mr_Name mr) = Done (pvc_VolumeName pvc) /\
  LLMEngineStorageFinalizer ∈ meta_Finalizers (pvc_Meta pvc) /\
  pvc_AccessModes pvc = [ReadOnlyMany].

Definition ensure_guard (le : LLMEngine) (mr : ModelRepository) (h : trace) (r : req) : Prop :=
  match r with
  | GetPV n => llmEnginePVName (le_Name le) (mr_Name mr) = Done n
  | GetPVC ns n =>
      ns = le_Namespace le /\ llmEnginePVCName (le_Name le) (mr_Name mr) = Done n
  | CreatePV pv =>
      read_only_engine_pv le mr pv /\
      exists e, just_answered h (GetPV (meta_Name (pv_Meta pv))) (Err e) /\ IsNotFound e = true
  | CreatePVC pvc =>
      read_only_engine_pvc le mr pvc /\
      exists e, just_answered h (GetPVC (le_Namespace le) (meta_Name (pvc_Meta pvc))) (Err e) /\
        IsNotFound e = true
  | _ => False
  end.

(** A result is only given for a claim that the API server just said is
    bound. *)
Definition ensured (le : LLMEngine) (mr : ModelRepository) (h : trace)
    (o : outcome (result LLMEngineStorageResult)) : Prop :=
  match o with
  | Done (Ok res) =>
      llmEnginePVCName (le_Name le) (mr_Name mr) = Done (PVCName res) /\
      MountPath res = getOrDefaultMountPath (sto_MountPath (mrs_Storage (mr_Spec mr))) /\
      exists pvc, just_answered h (GetPVC (le_Namespace le) (PVCName res)) (Ok pvc) /\
        pvc_Phase pvc = ClaimBound
  | _ => True
  end.

Context {L : MachineryLaws M}.

Lemma engine_pv_spec le mr st ref pvName pvcName spec :
  mst_Storage (mr_Status mr) = Some st -> ss_BackendRef st = Some ref ->
  llmEnginePVName (le_Name le) (mr_Name mr) = Done pvName ->
  llmEnginePVCName (le_Name le) (mr_Name mr) = Done pvcName ->
  buildReadOnlyPVSpec ref st = Done (Ok spec) ->
  read_only_engine_pv le mr (engine_pv le mr pvName pvcName spec).
Proof.
  intros Hst Href Hpv Hpvc Hb. unfold buildReadOnlyPVSpec in Hb. cbn in Hb.
  destruct (MustParse _) as [q|]; [|done].
  destruct (read_only_volume ref) as [[src hp]|] eqn:Er; cbn in Hb; simplify_eq.
  unfold read_only_engine_pv, engine_pv. cbn.
  rewrite (proj1 (AddFinalizer_name _ _)). cbn.
  split; [done|]. split; [auto with go|]. repeat (split; [done|]). split; [by eauto|].
  by exists st, ref, hp.
Qed.

Lemma engine_pvc_spec le mr pvName pvcName q :
  llmEnginePVName (le_Name le) (mr_Name mr) = Done pvName ->
  llmEnginePVCName (le_Name le) (mr_Name mr) = Done pvcName ->
  read_only_engine_pvc le mr (engine_pvc le mr pvName pvcName q).
Proof.
  intros Hpv Hpvc. unfold read_only_engine_pvc, engine_pvc. cbn.
  rewrite (proj1 (AddFinalizer_name _ _)), (proj2 (AddFinalizer_name _ _)). cbn.
  repeat (split; [done|]). split; [auto with go|done].
Qed.

Lemma ensure_engine_pvc_wp le mr st pvName pvcName h :
  llmEnginePVName (le_Name le) (mr_Name mr) = Done pvName ->
  llmEnginePVCName (le_Name le) (mr_Name mr) = Done pvcName ->
  wp (ensure_guard le mr) (ensure_engine_pvc le mr st pvName pvcName) h (ensured le mr).
Proof.
  intros Hpv Hpvc. unfold ensure_engine_pvc. repeat wp_step; try done.
  - bool_hyps. cbn. eauto with go.
  - bool_hyps. split; [by apply engine_pvc_spec|].
    cbn. rewrite (proj1 (AddFinalizer_name _ _)). cbn. eauto with go.
Qed.

Lemma EnsureLLMEngineStorage_wp le mr h :
  wp (ensure_guard le mr) (EnsureLLMEngineStorage le mr) h (ensured le mr).
Proof.
  unfold EnsureLLMEngineStorage. repeat (wp_step; try done);
    try by apply ensure_engine_pvc_wp.
  bool_hyps. split; [by eapply engine_pv_spec|].
  cbn. rewrite (proj1 (AddFinalizer_name _ _)). cbn. eauto with go.
Qed.

End Spec.

(** ** What cleaning up may do

    CleanupLLMEngineStorage strips the engine finalizer, and nothing else, from
    the object it just read, and deletes an object only right after that update
    succeeded. *)
Section CleanupSpec.
Context `{M : Machinery}.

Definition without_finalizer (m m' : ObjectMeta) : Prop :=
  m' = RemoveFinalizer m LLMEngineStorageFinalizer.

Definition cleanup_guard (le : LLMEngine) (repo : string) (h : trace) (r : req) : Prop :=
  match r with
  | GetPV n => llmEnginePVName (le_Name le) repo = Done n
  | GetPVC ns n => ns = le_Namespace le /\ llmEnginePVCName (le_Name le) repo = Done n
  | UpdatePV pv' =>
      exists n pv, just_answered h (GetPV n) (Ok pv) /\ pv_Spec pv' = pv_Spec pv /\
        without_finalizer (pv_Meta pv) (pv_Meta pv')
  | UpdatePVC pvc' =>
      exists n pvc, just_answered h (GetPVC (le_Namespace le) n) (Ok pvc) /\
        pvc' = pvc_with_Meta (pvc_Meta pvc') pvc /\
        without_finalizer (pvc_Meta pvc) (pvc_Meta pvc')
  | DeletePV n =>
      llmEnginePVName (le_Name le) repo = Done n /\
      exists h0 pv pv', h = h0 ++ [Ev (GetPV n) (Ok pv); Ev (UpdatePV pv') None] /\
        without_finalizer (pv_Meta pv) (pv_Meta pv')
  | DeletePVC ns n =>
      ns = le_Namespace le /\ llmEnginePVCName (le_Name le) repo = Done n /\
      exists h0 pvc pvc', h = h0 ++ [Ev (GetPVC ns n) (Ok pvc); Ev (UpdatePVC pvc') None] /\
        without_finalizer (pvc_Meta pvc) (pvc_Meta pvc')
  | _ => False
  end.

(** When it reports success, each of the two objects could not be read, or was
    deleted, or was already gone. *)
Definition gone (e : err_opt) : Prop :=
  match e with None => True | Some e => IsNotFound e = true end.

Definition cleaned_pvc (ns n : string) (h : trace) : Prop :=
  (exists e, answered h (GetPVC ns n) (Err e)) \/
  (exists e, answered h (DeletePVC ns n) e /\ gone e).
Definition cleaned_pv (n : string) (h : trace) : Prop :=
  (exists e, answered h (GetPV n) (Err e)) \/
  (exists e, answered h (DeletePV n) e /\ gone e).

Definition cleaned (le : LLMEngine) (repo : string) (h : trace) (o : outcome err_opt) : Prop :=
  o = Done None ->
  exists pvName pvcName,
    llmEnginePVName (le_Name le) repo = Done pvName /\
    llmEnginePVCName (le_Name le) repo = Done pvcName /\
    cleaned_pvc (le_Namespace le) pvcName h /\ cleaned_pv pvName h.

Lemma cleaned_pvc_app ns n h h' : cleaned_pvc ns n h -> cleaned_pvc ns n (h ++ h').
Proof. intros [[e He]|(e & He & Hg)]; [left|right]; eauto with go. Qed.

Lemma cleanup_engine_pvc_wp le repo pvcName h :
  llmEnginePVCName (le_Name le) repo = Done pvcName ->
  wp (cleanup_guard le repo) (cleanup_engine_pvc (le_Namespace le) pvcName) h
    (fun h' o => match o with
                 | Done None => cleaned_pvc (le_Namespace le) pvcName h'
                 | Done (Some _) => True
                 | Panicked _ => False
                 end).
Proof.
  intros Hn. unfold cleanup_engine_pvc, cleaned_pvc, without_finalizer.
  repeat (wp_step; try done); cbn; bool_hyps.
  - eexists _, _. split; [apply just_answered_snoc|done].
  - split; [done|]. split; [done|]. rewrite <- app_assoc. eexists _, _, _. split; [done|done].
  - right. eexists. split; [apply answered_snoc|done].
  - right. eexists. split; [apply answered_snoc|done].
  - left. eauto with go.
Qed.

Lemma cleanup_engine_pv_wp le repo pvName h :
  llmEnginePVName (le_Name le) repo = Done pvName ->
  wp (cleanup_guard le repo) (cleanup_engine_pv pvName) h
    (fun h' o => match o with
                 | Done None => cleaned_pv pvName h'
                 | Done (Some _) => True
                 | Panicked _ => False
                 end).
Proof.
  intros Hn. unfold cleanup_engine_pv, cleaned_pv, without_finalizer.
  repeat (wp_step; try done); cbn; bool_hyps.
  - eexists _, _. split; [apply just_answered_snoc|done].
  - split; [done|]. rewrite <- app_assoc. eexists _, _, _. split; [done|done].
  - right. eexists. split; [apply answered_snoc|done].
  - right. eexists. split; [apply answered_snoc|done].
  - left. eauto with go.
Qed.

Lemma CleanupLLMEngineStorage_wp le repo h :
  wp (cleanup_guard le repo) (CleanupLLMEngineStorage le repo) h (cleaned le repo).
Proof.
  unfold CleanupLLMEngineStorage. do 2 (wp_step; [|done]). wp_step.
  eapply wp_conseq; [by apply cleanup_engine_pvc_wp|].
  intros h1 [[e|]|m] Hc; [done| |done].
  eapply wp_conseq; [by apply cleanup_engine_pv_wp|].
  intros h2 [[e|]|m] Hv; [done| |done]. intros _. exists a, a0.
  eauto using cleaned_pvc_app.
Qed.

End CleanupSpec.

(** ** Properties *)

(** Property C17: whatever the API server answers, EnsureLLMEngineStorage only
    reads and creates the volume and the claim named after the engine and the
    repository, creates each only right after a NotFound answer for it, and what
    it creates is read-only, retained, pre-bound to the engine's namespace and
    protected by the engine finalizer; it returns the claim's name and mount path
    only right after the API server reported that claim Bound. *)
Theorem EnsureLLMEngineStorage_safe `{L : MachineryLaws} {W} (srv : server W) le mr w t o w' :
  run srv (EnsureLLMEngineStorage le mr) w = (t, o, w') ->
  guarded (ensure_guard le mr) [] t /\ ensured le mr t o.
Proof. intros Hrun. by eapply (wp_run _ _ _ []); [apply EnsureLLMEngineStorage_wp|]. Qed.

Definition witness_engine (ns name : string) : LLMEngine :=
  mkLLMEngine (meta_with_Namespace ns (meta_with_Name name meta_empty))
    (mkLLMEngineSpec LLMEngineTypeVLLM [mkModelReference "llama" EmptyString EmptyString]
       EmptyString [] [] 0 0 None ∅ None None false)
    (mkLLMEngineStatus EmptyString [] []).

Definition witness_repo_spec : ModelRepositorySpec :=
  mkModelRepositorySpec "llama"
    (mkModelSource ModelOriginHuggingFace "meta/llama" "main" [] EmptyString EmptyString)
    (mkModelStorage "10Gi" EmptyString EmptyString) true EmptyString EmptyString EmptyString ∅.

Definition witness_repo (st : option StorageStatus) : ModelRepository :=
  mkModelRepository (meta_with_Name "llama" meta_empty) witness_repo_spec
    (mkModelRepositoryStatus DownloadPhaseReady [] st [] EmptyString).

(** Ensuring for the engine ["team"/"chat"] on an empty cluster: the state
    after it. *)
Definition witness_ensured : trace * outcome (result LLMEngineStorageResult) * cluster :=
  run mem (@EnsureLLMEngineStorage Reference.machinery (witness_engine "team" "chat")
             (witness_repo (Some witness_storage_status))) empty_cluster.

Lemma EnsureLLMEngineStorage_safe_witness :
  let le := witness_engine "team" "chat" in
  let mr := witness_repo (Some witness_storage_status) in
  guarded (@ensure_guard le mr) [] (witness_ensured.1.1) /\
  @ensured le mr (witness_ensured.1.1) (witness_ensured.1.2).
Proof.
  apply (EnsureLLMEngineStorage_safe (M := Reference.machinery) (L := Reference.laws) mem
    (witness_engine "team" "chat") (witness_repo (Some witness_storage_status)) empty_cluster
    _ _ witness_ensured.2).
  unfold witness_ensured. by destruct (run _ _ _) as [[??]?].
Defined.

(** Property C26: whatever the API server answers, CleanupLLMEngineStorage touches
    only the claim and the volume named after the engine and the repository,
    deletes each only right after it read the object and successfully wrote it
    back without the engine finalizer, and reports success only when each of the
    two was deleted, was gone, or could not be read. *)
Theorem CleanupLLMEngineStorage_safe `{M : Machinery} {W} (srv : server W) le repo w t o w' :
  run srv (CleanupLLMEngineStorage le repo) w = (t, o, w') ->
  guarded (cleanup_guard le repo) [] t /\ cleaned le repo t o.
Proof. intros Hrun. by eapply (wp_run _ _ _ []); [apply CleanupLLMEngineStorage_wp|]. Qed.

Definition witness_cleanup : trace * outcome err_opt * cluster :=
  run mem (@CleanupLLMEngineStorage Reference.machinery (witness_engine "team" "chat") "llama")
    witness_ensured.2.

Lemma CleanupLLMEngineStorage_safe_witness :
  guarded (@cleanup_guard Reference.machinery (witness_engine "team" "chat") "llama") []
    witness_cleanup.1.1 /\
  cleaned (witness_engine "team" "chat") "llama" witness_cleanup.1.1 witness_cleanup.1.2.
Proof.
  apply (@CleanupLLMEngineStorage_safe Reference.machinery cluster mem
    (witness_engine "team" "chat") "llama" witness_ensured.2 _ _ witness_cleanup.2).
  unfold witness_cleanup. by destruct (run _ _ _) as [[??]?].
Defined.

(** *** Ensure, wait for the binder, ensure again; ensure and clean up *)
Section OnACluster.
Context `{L : MachineryLaws}.
Context (le : LLMEngine) (mr : ModelRepository) (st : StorageStatus) (ref : BackendReference).
Context (pvName pvcName q : string) (src : PVSource) (hp : bool).
Context (Hst : mst_Storage (mr_Status mr) = Some st) (Href : ss_BackendRef st = Some ref).
Context (HpvName : llmEnginePVName (le_Name le) (mr_Name mr) = Done pvName).
Context (HpvcName : llmEnginePVCName (le_Name le) (mr_Name mr) = Done pvcName).
Context (Hq : ParseQuantity (ss_Capacity st) = Ok q).
Context (Hsrc : read_only_volume ref = Ok (src, hp)).

Let made_pvc := engine_pvc le mr pvName pvcName q.
Let pvc_key : key := (le_Namespace le, pvcName).

Lemma capacity_nonempty : ss_Capacity st <> EmptyString.
Proof. intros E. destruct ParseQuantity_empty as [e He]. congruence. Qed.

Lemma build_ok : exists spec, buildReadOnlyPVSpec ref st = Done (Ok spec).
Proof.
  eexists. rewrite (buildReadOnlyPVSpec_unfold _ _ q).
  - by rewrite Hsrc.
  - unfold effective_capacity. rewrite bool_decide_false; [done|apply capacity_nonempty].
Qed.

(** The objects do not exist yet: both are created, and the caller is told to
    come back. *)
Lemma ensure_creates c :
  cl_pvs c !! pvName = None -> cl_pvcs c !! pvc_key = None ->
  exists t e spec, run mem (EnsureLLMEngineStorage le mr) c =
    (t, Done (Err e), set_pvcs (<[pvc_key := made_pvc]> (cl_pvcs c))
       (set_pvs (<[pvName := engine_pv le mr pvName pvcName spec]> (cl_pvs c)) c)).
Proof.
  intros Hpv Hpvc. destruct build_ok as [spec Hspec].
  unfold EnsureLLMEngineStorage. rewrite Hst, Href, HpvName, HpvcName, Hspec.
  cbn [lift prog_bind call run mem]. unfold st_get. rewrite Hpv.
  change (IsNotFound (fail NotFound "not found")) with true. cbn.
  rewrite !(proj1 (AddFinalizer_name _ _)). cbn. unfold st_create at 1. rewrite Hpv.
  unfold ensure_engine_pvc. rewrite (MustParse_ok _ _ Hq). cbn. unfold st_get.
  fold pvc_key. rewrite Hpvc. change (IsNotFound (fail NotFound "not found")) with true.
  cbn. unfold meta_key.
  rewrite (proj1 (AddFinalizer_name _ _)), (proj2 (AddFinalizer_name _ _)). cbn.
  fold pvc_key. unfold st_create. rewrite Hpvc. cbn.
  eexists _, _, spec. reflexivity.
Qed.

(** Both exist and the claim is bound: nothing changes and the claim is given. *)
Lemma ensure_bound c pv pvc :
  cl_pvs c !! pvName = Some pv -> cl_pvcs c !! pvc_key = Some pvc ->
  pvc_Phase pvc = ClaimBound ->
  run mem (EnsureLLMEngineStorage le mr) c =
    ([Ev (GetPV pvName) (Ok pv); Ev (GetPVC (le_Namespace le) pvcName) (Ok pvc)],
     Done (Ok (mkStorageResult pvcName
       (getOrDefaultMountPath (sto_MountPath (mrs_Storage (mr_Spec mr)))))), c).
Proof.
  intros Hpv Hpvc Hb. destruct build_ok as [spec Hspec].
  unfold EnsureLLMEngineStorage. rewrite Hst, Href, HpvName, HpvcName, Hspec.
  cbn [lift prog_bind call run mem]. unfold st_get. rewrite Hpv.
  unfold ensure_engine_pvc. rewrite (MustParse_ok _ _ Hq). cbn. unfold st_get.
  fold pvc_key. rewrite Hpvc, Hb. reflexivity.
Qed.

(** A volume and a claim that carry the engine finalizer only are removed. *)
Lemma cleanup_removes c pv pvc :
  cl_pvs c !! pvName = Some pv -> cl_pvcs c !! pvc_key = Some pvc ->
  meta_Name (pv_Meta pv) = pvName -> meta_key (pvc_Meta pvc) = pvc_key ->
  (forall f, f ∈ meta_Finalizers (pv_Meta pv) -> f = LLMEngineStorageFinalizer) ->
  (forall f, f ∈ meta_Finalizers (pvc_Meta pvc) -> f = LLMEngineStorageFinalizer) ->
  meta_DeletionTimestamp (pv_Meta pv) = None -> meta_DeletionTimestamp (pvc_Meta pvc) = None ->
  exists t, run mem (CleanupLLMEngineStorage le (mr_Name mr)) c =
    (t, Done None, set_pvs (delete pvName (cl_pvs c)) (set_pvcs (delete pvc_key (cl_pvcs c)) c)).
Proof.
  intros Hpv Hpvc Hn Hnc Hf Hfc Hd Hdc.
  destruct (same_but_finalizers_version _ _ (RemoveFinalizer_rest (pv_Meta pv)
              LLMEngineStorageFinalizer)) as [Hv1 Hv2].
  destruct (same_but_finalizers_version _ _ (RemoveFinalizer_rest (pvc_Meta pvc)
              LLMEngineStorageFinalizer)) as [Hc1 Hc2].
  destruct (same_but_finalizers_name _ _ (RemoveFinalizer_rest (pv_Meta pv)
              LLMEngineStorageFinalizer)) as (Hv3 & _ & _).
  destruct (same_but_finalizers_name _ _ (RemoveFinalizer_rest (pvc_Meta pvc)
              LLMEngineStorageFinalizer)) as (Hc3 & Hc4 & _).
  unfold CleanupLLMEngineStorage. rewrite HpvName, HpvcName.
  cbn [lift prog_bind]. unfold cleanup_engine_pvc, cleanup_engine_pv.
  cbn [prog_bind call run mem]. unfold st_get. fold pvc_key. rewrite Hpvc.
  cbn [prog_bind run mem].
  replace (meta_key _) with pvc_key
    by (rewrite <- Hnc; unfold meta_key; cbn; by rewrite Hc3, Hc4).
  rewrite (st_update_stripped pvc_Meta pvc_with_Meta) with (old := pvc); [|done..|]; cbn;
    [|congruence].
  fold pvc_key. rewrite (st_delete_stripped pvc_Meta pvc_with_Meta);
    [|done|by apply RemoveFinalizer_last]. cbn. unfold st_get. rewrite Hpv. cbn.
  rewrite Hv3, Hn.
  rewrite (st_update_stripped pv_Meta pv_with_Meta) with (old := pv); [|done..|]; cbn;
    [|congruence].
  rewrite (st_delete_stripped pv_Meta pv_with_Meta); [|done|by apply RemoveFinalizer_last].
  cbn. eexists. reflexivity.
Qed.

(** The volume binder marks the claim as bound. *)
Definition bind_claim (k : key) (c : cluster) : cluster :=
  set_pvcs (alter (fun p => mkPVC (pvc_Meta p) (pvc_AccessModes p) (pvc_Request p)
    (pvc_StorageClassName p) (pvc_VolumeName p) ClaimBound (Some (pvc_Request p))) k (cl_pvcs c)) c.

Lemma fresh_finalizers m f g :
  meta_Finalizers m = [] -> g ∈ meta_Finalizers (AddFinalizer m f) -> g = f.
Proof. intros Hm [?|Hg]%AddFinalizer_spec; [done|]. rewrite Hm in Hg. by apply not_elem_of_nil in Hg. Qed.

(** On a cluster that has neither the volume nor the claim, the
    first EnsureLLMEngineStorage creates both and asks to be called again; once
    the claim is bound, the second makes no write and gives the claim and the
    mount path; and CleanupLLMEngineStorage then succeeds and leaves the cluster
    as it was before the first call. *)
Theorem engine_storage_lifecycle c :
  cl_pvs c !! pvName = None -> cl_pvcs c !! pvc_key = None ->
  exists t e c1, run mem (EnsureLLMEngineStorage le mr) c = (t, Done (Err e), c1) /\
    let c2 := bind_claim pvc_key c1 in
    exists pv pvc t', run mem (EnsureLLMEngineStorage le mr) c2 =
      ([Ev (GetPV pvName) (Ok pv); Ev (GetPVC (le_Namespace le) pvcName) (Ok pvc)],
       Done (Ok (mkStorageResult pvcName
         (getOrDefaultMountPath (sto_MountPath (mrs_Storage (mr_Spec mr)))))), c2) /\
      run mem (CleanupLLMEngineStorage le (mr_Name mr)) c2 = (t', Done None, c).
Proof.
  intros Hpv Hpvc. destruct (ensure_creates c Hpv Hpvc) as (t & e & spec & He).
  eexists t, e, _. split; [exact He|]. cbv zeta.
  set (c2 := bind_claim _ _).
  assert (H1 : cl_pvs c2 !! pvName = Some (engine_pv le mr pvName pvcName spec))
    by apply lookup_insert_eq.
  assert (exists pvc, cl_pvcs c2 !! pvc_key = Some pvc /\ pvc_Meta pvc = pvc_Meta made_pvc /\
            pvc_Phase pvc = ClaimBound) as (pvc & H2 & H3 & H4).
  { eexists. unfold c2. cbn. rewrite lookup_alter_eq, lookup_insert_eq. by split. }
  destruct (cleanup_removes c2 _ pvc H1 H2) as [t' Hc].
  - cbn. by rewrite (proj1 (AddFinalizer_name _ _)).
  - rewrite H3. unfold meta_key. cbn.
    by rewrite (proj1 (AddFinalizer_name _ _)), (proj2 (AddFinalizer_name _ _)).
  - intros f. by apply fresh_finalizers.
  - rewrite H3. intros f. by apply fresh_finalizers.
  - cbn. by rewrite (proj2 (same_but_finalizers_version _ _ (AddFinalizer_rest _ _))).
  - rewrite H3. cbn. by rewrite (proj2 (same_but_finalizers_version _ _ (AddFinalizer_rest _ _))).
  - eexists _, pvc, t'. split; [by apply ensure_bound|]. rewrite Hc. do 2 f_equal.
    unfold c2. destruct c. cbn in *. unfold set_pvs, set_pvcs. cbn.
    rewrite delete_insert_id by done. f_equal.
    apply map_eq. intros i. destruct (decide (i = pvc_key)) as [->|Hi].
    + by rewrite lookup_delete_eq.
    + by rewrite lookup_delete_ne, lookup_alter_ne, lookup_insert_ne.
Qed.

End OnACluster.

Lemma engine_storage_lifecycle_witness :
  let le := witness_engine "team" "chat" in
  let mr := witness_repo (Some witness_storage_status) in
  let M := Reference.machinery in
  exists t e c1, run mem (EnsureLLMEngineStorage le mr) empty_cluster = (t, Done (Err e), c1) /\
    let c2 := bind_claim ("team", "le-chat-llama") c1 in
    exists pv pvc t', run mem (EnsureLLMEngineStorage le mr) c2 =
      ([Ev (GetPV "le-chat-llama") (Ok pv); Ev (GetPVC "team" "le-chat-llama") (Ok pvc)],
       Done (Ok (mkStorageResult "le-chat-llama" "/data/models")), c2) /\
      run mem (CleanupLLMEngineStorage le "llama") c2 = (t', Done None, empty_cluster).
Proof.
  eapply (engine_storage_lifecycle (L := Reference.laws) (witness_engine "team" "chat")
    (witness_repo (Some witness_storage_status)) witness_storage_status
    (mkBackendReference BackendTypeNFS {["server" := "10.0.0.1"; "exportPath" := "/x"]})
    "le-chat-llama" "le-chat-llama" "10Gi" _ _);
    reflexivity.
Defined.

(** *** Two shortcomings *)

Section Capacity.
Context `{L : MachineryLaws}.

(** A successful creation of a volume. *)
Definition created_pv (ev : event) : Prop :=
  let 'Ev r a := ev in
  match r return resp r -> Prop with CreatePV _ => fun a => a = None | _ => fun _ => False end a.

(** For a repository whose recorded capacity is empty, the default
    that buildReadOnlyPVSpec takes does not help: EnsureLLMEngineStorage never
    gives a claim, whatever the API server answers, and issues no request for
    the claim; it panics in MustParse, at the earliest after it read the volume
    and possibly created it. *)
Theorem EnsureLLMEngineStorage_needs_capacity {W} (srv : server W) le mr st w t o w' :
  mst_Storage (mr_Status mr) = Some st -> ss_Capacity st = EmptyString ->
  run srv (EnsureLLMEngineStorage le mr) w = (t, o, w') ->
  (forall res, o <> Done (Ok res)) /\
  Forall (fun ev => match ev with
                    | Ev (GetPV _) _ | Ev (CreatePV _) _ => True
                    | _ => False
                    end) t /\
  (Exists created_pv t -> exists m, o = Panicked m).
Proof.
  intros Hst Hc Hrun.
  assert (Hp : exists m, MustParse (ss_Capacity st) = Panicked m).
  { rewrite Hc. destruct ParseQuantity_empty as [e He]. by eapply MustParse_err. }
  destruct Hp as [m Hm].
  assert (Hwp : wp (fun _ r => match r with GetPV _ | CreatePV _ => True | _ => False end)
    (EnsureLLMEngineStorage le mr) []
    (fun h o => (forall res, o <> Done (Ok res)) /\
                (Exists created_pv h -> exists m, o = Panicked m))).
  { unfold EnsureLLMEngineStorage, ensure_engine_pvc. rewrite Hst, Hm.
    repeat wp_step; cbn; try done; (split; [done|]); rewrite ?Exists_cons, ?Exists_nil; cbn;
      naive_solver. }
  destruct (wp_run _ _ _ _ _ _ _ _ _ Hwp Hrun) as [HG [H1 H2]].
  split; [done|]. split; [|done]. eapply guarded_Forall; [|done]. by intros ? [[] ?].
Qed.

End Capacity.

Definition no_capacity : StorageStatus :=
  mkStorageStatus "nfs" ReadWriteMany "Filesystem"
    (Some (mkBackendReference BackendTypeNFS {["server" := "10.0.0.1"; "exportPath" := "/x"]}))
    EmptyString EmptyString.

Definition witness_no_capacity : trace * outcome (result LLMEngineStorageResult) * cluster :=
  run mem (@EnsureLLMEngineStorage Reference.machinery (witness_engine "team" "chat")
             (witness_repo (Some no_capacity))) empty_cluster.

Lemma EnsureLLMEngineStorage_needs_capacity_witness :
  (forall res, witness_no_capacity.1.2 <> Done (Ok res)) /\
  Forall (fun ev => match ev with
                    | Ev (GetPV _) _ | Ev (CreatePV _) _ => True
                    | _ => False
                    end) witness_no_capacity.1.1 /\
  (Exists created_pv witness_no_capacity.1.1 -> exists m, witness_no_capacity.1.2 = Panicked m).
Proof.
  apply (EnsureLLMEngineStorage_needs_capacity (L := Reference.laws) mem
    (witness_engine "team" "chat") (witness_repo (Some no_capacity)) no_capacity empty_cluster
    _ _ witness_no_capacity.2); [reflexivity..|].
  unfold witness_no_capacity. by destruct (run _ _ _) as [[??]?].
Defined.

(** The volume of an engine is named after the engine without its
    namespace.  With an engine of the same name in another namespace, cleaning up
    for the one deletes the volume that is pre-bound to the other's claim, while
    that claim stays. *)
Theorem Cleanup_crosses_namespaces :
  let M := Reference.machinery in
  let repo := witness_repo (Some witness_storage_status) in
  let c1 := (run mem (EnsureLLMEngineStorage (witness_engine "team-a" "chat") repo) empty_cluster).2 in
  let '(t, o, c2) := run mem (CleanupLLMEngineStorage (witness_engine "team-b" "chat") "llama") c1 in
  exists pv, cl_pvs c1 !! "le-chat-llama" = Some pv /\
    pvp_ClaimRef (pv_Spec pv) = Some ("team-a", "le-chat-llama") /\
    o = Done None /\ cl_pvs c2 !! "le-chat-llama" = None /\
    is_Some (cl_pvcs c2 !! ("team-a", "le-chat-llama")).
Proof. vm_compute. eexists. repeat (split; [reflexivity|]). eexists. reflexivity. Qed.
