(* ===== verification/StorageRefinement.v ===== *)
(** * The storage of an engine, abstractly

    What EnsureLLMEngineStorage and CleanupLLMEngineStorage promise their caller:
    a machine with a volume and a claim, of which only the finalizers, the
    deletion and the binding matter.  On the server in memory the two functions
    refine it, step by step and over any sequence of calls, with the volume binder
    in between; they leave everything else alone. *)

From S2P Require Import Prelude Naming Api Kube Machinery MemServer Leads Release StorageDiscovery Backend.
From S2P Require Import EngineStorage.

Local Open Scope go_scope.

(** ** The abstract machine *)

(** The volume, and the claim with whether it is bound. *)
Definition view : Type := option slot * option (slot * bool).

Inductive storage_op := Ensure | Bind | Cleanup.
Inductive answer := Waiting | Ready (r : LLMEngineStorageResult) | Cleaned | Quiet | Broken.

Section Abstract.
Context (given : LLMEngineStorageResult).

Definition abs_ensure (v : view) : answer * view :=
  let volume := Some (default fresh v.1) in
  match v.2 with
  | None => (Waiting, (volume, Some (fresh, false)))
  | Some (s, bound) => (if bound then Ready given else Waiting, (volume, Some (s, bound)))
  end.
Definition abs_bind (v : view) : answer * view :=
  (Quiet, (v.1, (fun claim => (claim.1, true)) <$> v.2)).
Definition abs_cleanup (v : view) : answer * view :=
  (Cleaned, (v.1 ≫= release, v.2 ≫= fun claim => (fun s => (s, claim.2)) <$> release claim.1)).

Definition abs_step (op : storage_op) : view -> answer * view :=
  match op with Ensure => abs_ensure | Bind => abs_bind | Cleanup => abs_cleanup end.
End Abstract.

(** ** Cleaning up on the server in memory

    Each half succeeds and gives its object up. *)
Section Cleaning.
Context `{L : MachineryLaws}.

#[local] Abbreviation engine_slot := (slot_of LLMEngineStorageFinalizer).
#[local] Abbreviation claims_given_up := (given_up LLMEngineStorageFinalizer pvc_Meta pvc_with_Meta).
#[local] Abbreviation volumes_given_up := (given_up LLMEngineStorageFinalizer pv_Meta pv_with_Meta).

Lemma cleanup_engine_pvc_leads ns n c :
  (forall pvc, cl_pvcs c !! (ns, n) = Some pvc -> meta_key (pvc_Meta pvc) = (ns, n)) ->
  leads mem (cleanup_engine_pvc ns n) c (fun e c' => e = None /\
    exists m, c' = set_pvcs m c /\ claims_given_up [(ns, n)] (cl_pvcs c) m).
Proof.
  intros Hkey. unfold cleanup_engine_pvc. eapply leads_call; [reflexivity|]. unfold st_get.
  destruct (cl_pvcs c !! (ns, n)) as [pvc|] eqn:E.
  - specialize (Hkey pvc eq_refl).
    destruct (same_but_finalizers_name _ _ (RemoveFinalizer_rest (pvc_Meta pvc) LLMEngineStorageFinalizer))
      as (Hn & Hs & _).
    destruct (st_release LLMEngineStorageFinalizer pvc_Meta pvc_with_Meta (fun _ _ => eq_refl)
      (fun _ _ _ => eq_refl) (cl_clock c) (ns, n) pvc (cl_pvcs c) E)
      as (new & m1 & Hu & e & m2 & Hd & He & Hg).
    cbn [prog_bind call leads mem]. unfold meta_key in *. cbn [pvc_Meta pvc_with_Meta].
    rewrite Hn, Hs, Hkey, Hu. cbn [fst snd to_opt prog_bind call leads mem cl_pvcs cl_clock set_pvcs].
    rewrite Hd. cbn [fst snd]. destruct He as [->|(e' & -> & He')]; [|rewrite He'];
      cbn; (split; [done|]); by exists m2.
  - cbn. split; [done|]. exists (cl_pvcs c). split; [by destruct c|].
    apply given_up_at; [done|]. by rewrite E.
Qed.

Lemma cleanup_engine_pv_leads n c :
  (forall pv, cl_pvs c !! n = Some pv -> meta_Name (pv_Meta pv) = n) ->
  leads mem (cleanup_engine_pv n) c (fun e c' => e = None /\
    exists m, c' = set_pvs m c /\ volumes_given_up [n] (cl_pvs c) m).
Proof.
  intros Hkey. unfold cleanup_engine_pv. eapply leads_call; [reflexivity|]. unfold st_get.
  destruct (cl_pvs c !! n) as [pv|] eqn:E.
  - specialize (Hkey pv eq_refl).
    destruct (same_but_finalizers_name _ _ (RemoveFinalizer_rest (pv_Meta pv) LLMEngineStorageFinalizer))
      as (Hn & _).
    destruct (st_release LLMEngineStorageFinalizer pv_Meta pv_with_Meta (fun _ _ => eq_refl)
      (fun _ _ _ => eq_refl) (cl_clock c) n pv (cl_pvs c) E)
      as (new & m1 & Hu & e & m2 & Hd & He & Hg).
    cbn [prog_bind call leads mem pv_Meta pv_with_Meta].
    rewrite Hn, Hkey, Hu. cbn [fst snd to_opt prog_bind call leads mem cl_pvs cl_clock set_pvs].
    rewrite Hd. cbn [fst snd]. destruct He as [->|(e' & -> & He')]; [|rewrite He'];
      cbn; (split; [done|]); by exists m2.
  - cbn. split; [done|]. exists (cl_pvs c). split; [by destruct c|].
    apply given_up_at; [done|]. by rewrite E.
Qed.

(** The whole of CleanupLLMEngineStorage. *)
Lemma CleanupLLMEngineStorage_leads le repo pvName pvcName c :
  llmEnginePVName (le_Name le) repo = Done pvName -> llmEnginePVCName (le_Name le) repo = Done pvcName ->
  (forall pv, cl_pvs c !! pvName = Some pv -> meta_Name (pv_Meta pv) = pvName) ->
  (forall pvc, cl_pvcs c !! (le_Namespace le, pvcName) = Some pvc ->
     meta_key (pvc_Meta pvc) = (le_Namespace le, pvcName)) ->
  leads mem (CleanupLLMEngineStorage le repo) c (fun e c' => e = None /\
    exists m v, c' = set_pvs v (set_pvcs m c) /\
      claims_given_up [(le_Namespace le, pvcName)] (cl_pvcs c) m /\ volumes_given_up [pvName] (cl_pvs c) v).
Proof.
  intros Hpv Hpvc Hv Hc. unfold CleanupLLMEngineStorage.
  eapply leads_lift; [exact Hpv|]. eapply leads_lift; [exact Hpvc|].
  apply leads_bind. eapply leads_conseq; [by apply cleanup_engine_pvc_leads|].
  intros e c1 [-> (m & -> & Hm)]. eapply leads_conseq; [by apply cleanup_engine_pv_leads|].
  intros e c2 [-> (v & -> & Hg)]. split; [done|]. exists m, v. done.
Qed.

End Cleaning.

(** ** The refinement *)
Section Refinement.
Context `{L : MachineryLaws}.
Context (le : LLMEngine) (mr : ModelRepository) (st : StorageStatus) (ref : BackendReference).
Context (pvName pvcName q : string) (src : PVSource) (hp : bool).
Context (Hst : mst_Storage (mr_Status mr) = Some st) (Href : ss_BackendRef st = Some ref).
Context (HpvName : llmEnginePVName (le_Name le) (mr_Name mr) = Done pvName).
Context (HpvcName : llmEnginePVCName (le_Name le) (mr_Name mr) = Done pvcName).
Context (Hq : ParseQuantity (ss_Capacity st) = Ok q).
Context (Hsrc : read_only_volume ref = Ok (src, hp)).

Let claim_key : key := (le_Namespace le, pvcName).
Let given : LLMEngineStorageResult :=
  mkStorageResult pvcName (getOrDefaultMountPath (sto_MountPath (mrs_Storage (mr_Spec mr)))).

Definition view_of (pvName : string) (claim_key : key) (c : cluster) : view :=
  ((fun pv => slot_of LLMEngineStorageFinalizer (pv_Meta pv)) <$> cl_pvs c !! pvName,
   (fun pvc => (slot_of LLMEngineStorageFinalizer (pvc_Meta pvc), bool_decide (pvc_Phase pvc = ClaimBound))) <$> cl_pvcs c !! claim_key).

(** The two objects are stored under their own names. *)
Definition placed (pvName : string) (claim_key : key) (c : cluster) : Prop :=
  (forall pv, cl_pvs c !! pvName = Some pv -> meta_Name (pv_Meta pv) = pvName) /\
  (forall pvc, cl_pvcs c !! claim_key = Some pvc -> meta_key (pvc_Meta pvc) = claim_key).

(** The cluster without the two. *)
Definition elsewhere (pvName : string) (claim_key : key) (c : cluster) : cluster :=
  set_pvs (delete pvName (cl_pvs c)) (set_pvcs (delete claim_key (cl_pvcs c)) c).

(** One operation on the server in memory. *)
Definition mem_step (le : LLMEngine) (mr : ModelRepository) (claim_key : key) (op : storage_op)
    (c : cluster) : answer * cluster :=
  match op with
  | Ensure =>
      let '(_, o, c) := run mem (EnsureLLMEngineStorage le mr) c in
      (match o with Done (Ok r) => Ready r | Done (Err _) => Waiting | Panicked _ => Broken end, c)
  | Bind => (Quiet, bind_claim claim_key c)
  | Cleanup =>
      let '(_, o, c) := run mem (CleanupLLMEngineStorage le (mr_Name mr)) c in
      (match o with Done None => Cleaned | _ => Broken end, c)
  end.

(** What one operation has to do. *)
Definition refines (op : storage_op) (c : cluster) (r : answer * cluster) : Prop :=
  r.1 = (abs_step given op (view_of pvName claim_key c)).1 /\
  view_of pvName claim_key r.2 = (abs_step given op (view_of pvName claim_key c)).2 /\
  placed pvName claim_key r.2 /\ elsewhere pvName claim_key r.2 = elsewhere pvName claim_key c.

Lemma bind_refines c : placed pvName claim_key c -> refines Bind c (mem_step le mr claim_key Bind c).
Proof.
  intros [Hp Hc]. split_and!; [done|..].
  - unfold view_of, bind_claim. cbn. rewrite lookup_alter_eq. by destruct (cl_pvcs c !! claim_key).
  - split; [done|]. intros pvc. unfold bind_claim. cbn. rewrite lookup_alter_eq.
    destruct (cl_pvcs c !! claim_key) as [p|] eqn:E; cbn; [|done]. intros [= <-]. exact (Hc p eq_refl).
  - unfold elsewhere, bind_claim, set_pvs, set_pvcs. cbn. f_equal. apply delete_alter_eq.
Qed.

Lemma delete_agree {K A} `{Countable K} (k : K) (m m' : gmap K A) :
  (forall k', k' <> k -> m' !! k' = m !! k') -> delete k m' = delete k m.
Proof.
  intros Hm. apply map_eq. intros k'. destruct (decide (k' = k)) as [->|Hne].
  - by rewrite !lookup_delete_eq.
  - rewrite !lookup_delete_ne by done. by apply Hm.
Qed.

(** The claim half of EnsureLLMEngineStorage. *)
Lemma ensure_claim c :
  placed pvName claim_key c ->
  exists t o c', run mem (ensure_engine_pvc le mr st pvName pvcName) c = (t, o, c') /\
    cl_pvs c' = cl_pvs c /\ elsewhere pvName claim_key c' = elsewhere pvName claim_key c /\
    placed pvName claim_key c' /\
    match cl_pvcs c !! claim_key with
    | None => (exists e, o = Done (Err e)) /\ (view_of pvName claim_key c').2 = Some (fresh, false)
    | Some pvc => (if bool_decide (pvc_Phase pvc = ClaimBound) then o = Done (Ok given)
                   else exists e, o = Done (Err e)) /\ c' = c
    end.
Proof.
  intros Hpl. unfold ensure_engine_pvc. rewrite (MustParse_ok _ _ Hq).
  cbn [lift prog_bind call run mem]. unfold st_get. fold claim_key.
  destruct (cl_pvcs c !! claim_key) as [pvc|] eqn:E.
  - case_bool_decide as Hb; cbn [prog_bind run].
    + rewrite bool_decide_false by tauto. eexists _, _, c. split; [reflexivity|]. split_and!; eauto.
    + rewrite bool_decide_true by done. eexists _, _, c. split; [reflexivity|]. split_and!; eauto.
  - change (IsNotFound (fail NotFound "not found")) with true. cbn [negb prog_bind call run mem].
    set (pvc := engine_pvc le mr pvName pvcName q).
    assert (Hkey : meta_key (pvc_Meta pvc) = claim_key).
    { unfold meta_key. cbn. by rewrite (proj1 (AddFinalizer_name _ _)), (proj2 (AddFinalizer_name _ _)). }
    rewrite Hkey. unfold st_create. rewrite E. cbn [prog_bind run].
    eexists _, _, _. split; [reflexivity|]. split; [done|].
    split; [|split; [|split; [by eexists|]]].
    + unfold elsewhere, set_pvs, set_pvcs. cbn. f_equal. by apply delete_agree; intros; rewrite lookup_insert_ne.
    + split; [apply Hpl|]. cbn. rewrite lookup_insert_eq. by intros p [= <-].
    + cbn. rewrite lookup_insert_eq. cbn. do 2 f_equal. by apply slot_of_fresh.
Qed.

Lemma ensure_refines c : placed pvName claim_key c -> refines Ensure c (mem_step le mr claim_key Ensure c).
Proof.
  intros Hpl. destruct (build_ok st ref q src hp Hq Hsrc) as [spec Hspec].
  unfold mem_step, EnsureLLMEngineStorage. rewrite Hst, Href, HpvName, HpvcName, Hspec.
  cbn [lift prog_bind call run mem]. unfold st_get.
  destruct (cl_pvs c !! pvName) as [pv|] eqn:Ev.
  - destruct (ensure_claim c Hpl) as (t & o & c' & -> & Hpv & Hel & Hpl' & Hcl).
    unfold refines, abs_step, abs_ensure, view_of in *. rewrite Ev. cbn in *.
    destruct (cl_pvcs c !! claim_key) as [pvc|] eqn:Ec; cbn.
    + destruct Hcl as [Ho ->]. rewrite Ev, Ec. cbn.
      split; [|done]. case_bool_decide; [by rewrite Ho|by destruct Ho as [e ->]].
    + destruct Hcl as [[e ->] Hv]. split; [done|]. rewrite Hpv, Ev. cbn. by rewrite Hv.
  - change (IsNotFound (fail NotFound "not found")) with true. cbn [negb prog_bind call run mem].
    set (pv := engine_pv le mr pvName pvcName spec).
    assert (Hname : meta_Name (pv_Meta pv) = pvName) by (cbn; by rewrite (proj1 (AddFinalizer_name _ _))).
    rewrite Hname. unfold st_create. rewrite Ev. set (c1 := set_pvs _ c).
    assert (Hpl1 : placed pvName claim_key c1).
    { split; [|apply Hpl]. subst c1. cbn. rewrite lookup_insert_eq. by intros p [= <-]. }
    destruct (ensure_claim c1 Hpl1) as (t & o & c' & -> & Hpv & Hel & Hpl' & Hcl).
    assert (Hel1 : elsewhere pvName claim_key c1 = elsewhere pvName claim_key c).
    { unfold elsewhere, set_pvs, set_pvcs. cbn. f_equal. by apply delete_agree; intros; rewrite lookup_insert_ne. }
    assert (Hv1 : (view_of pvName claim_key c').1 = Some fresh).
    { unfold view_of. cbn. rewrite Hpv. cbn. rewrite lookup_insert_eq. cbn. f_equal. by apply slot_of_fresh. }
    unfold refines, abs_step, abs_ensure. rewrite <- Hel1. unfold view_of in *. rewrite Ev. cbn in *.
    destruct (cl_pvcs c !! claim_key) as [pvc|] eqn:Ec; cbn.
    + destruct Hcl as [Ho ->]. split; [case_bool_decide; [by rewrite Ho|by destruct Ho as [e ->]]|].
      split; [|done]. cbn in *. rewrite Hv1, Ec. done.
    + destruct Hcl as [[e ->] Hv]. split; [done|]. by rewrite Hv1, Hv.
Qed.
(** What is left of an object that was let go of, as the machine sees it. *)
Lemma let_go_slot {A} (meta : A -> ObjectMeta) with_meta (o o' : option A) :
  (forall x o, meta (with_meta x o) = x) -> let_go LLMEngineStorageFinalizer meta with_meta o o' ->
  (fun o => slot_of LLMEngineStorageFinalizer (meta o)) <$> o' =
    ((fun o => slot_of LLMEngineStorageFinalizer (meta o)) <$> o) ≫= release.
Proof.
  intros Hm. unfold let_go. destruct o as [o|]; [cbn|by intros ->].
  destruct (release _); [|by intros ->]. intros (x & -> & <- & _). cbn. by rewrite Hm.
Qed.

Lemma cleanup_refines c :
  placed pvName claim_key c -> refines Cleanup c (mem_step le mr claim_key Cleanup c).
Proof.
  intros [Hpv Hpvc]. unfold mem_step.
  destruct (leads_run _ _ _ _ (CleanupLLMEngineStorage_leads le (mr_Name mr) pvName pvcName c
    HpvName HpvcName Hpv Hpvc)) as (t & e & c' & -> & -> & m & v & -> & Hm & Hv).
  pose proof (given_up_on _ _ _ _ _ _ claim_key Hm ltac:(by left)) as Hmk.
  pose proof (given_up_on _ _ _ _ _ _ pvName Hv ltac:(by left)) as Hvk.
  split; [done|]. split; [|split].
  - unfold view_of, abs_step, abs_cleanup. cbn [fst snd cl_pvs cl_pvcs set_pvs set_pvcs]. f_equal.
    + by apply (let_go_slot pv_Meta pv_with_Meta).
    + unfold let_go in Hmk. destruct (cl_pvcs c !! claim_key) as [pvc|]; cbn; [|by rewrite Hmk].
      destruct (release _); cbn; [|by rewrite Hmk]. by destruct Hmk as (x & -> & <- & _).
  - split; cbn; intros o Ho.
    + destruct (given_up_from _ _ _ (fun _ _ => eq_refl) _ _ _ _ _ Hv Ho) as (o0 & Ho0 & _ & Hn & _).
      rewrite Hn. by apply Hpv.
    + destruct (given_up_from _ _ _ (fun _ _ => eq_refl) _ _ _ _ _ Hm Ho) as (o0 & Ho0 & _ & Hn & Hs).
      unfold meta_key. rewrite Hn, Hs. by apply Hpvc.
  - unfold elsewhere, set_pvs, set_pvcs. cbn. f_equal; apply delete_agree; intros k Hk.
    + apply (given_up_off _ _ _ _ _ _ _ Hm). set_solver.
    + apply (given_up_off _ _ _ _ _ _ _ Hv). set_solver.
Qed.

Lemma step_refines op c : placed pvName claim_key c -> refines op c (mem_step le mr claim_key op c).
Proof. destruct op; [apply ensure_refines|apply bind_refines|apply cleanup_refines]. Qed.

(** Property C13: EnsureLLMEngineStorage and CleanupLLMEngineStorage implement the
    machine above.  From any cluster in which the engine's volume and claim (if
    they are there, in whatever state, held by whomever) are stored under their
    names, and for a repository whose recorded backend can be mounted, any sequence
    of calls of the two functions, with the volume binder in between, answers as
    the machine does and leaves the volume and the claim as the machine says; and
    nothing else of the cluster changes. *)
Theorem storage_refines_machine ops c :
  placed pvName claim_key c ->
  (answers (mem_step le mr claim_key) ops c).1 =
    (answers (abs_step given) ops (view_of pvName claim_key c)).1 /\
  view_of pvName claim_key (answers (mem_step le mr claim_key) ops c).2 =
    (answers (abs_step given) ops (view_of pvName claim_key c)).2 /\
  elsewhere pvName claim_key (answers (mem_step le mr claim_key) ops c).2 = elsewhere pvName claim_key c.
Proof.
  revert c. induction ops as [|op ops IH]; intros c Hpl; cbn [answers]; [done|].
  destruct (step_refines op c Hpl) as (H1 & H2 & H3 & H4).
  destruct (mem_step le mr claim_key op c) as [a c1]. cbn [fst snd] in *.
  destruct (IH c1 H3) as (I1 & I2 & I3). rewrite H2 in I1, I2.
  destruct (abs_step given op _) as [a' v1]. cbn [fst snd] in *. subst a.
  destruct (answers (mem_step le mr claim_key) ops c1) as [l c2].
  destruct (answers (abs_step given) ops v1) as [l' v2]. cbn [fst snd] in *.
  split; [by rewrite I1|]. split; [done|]. by rewrite I3.
Qed.
End Refinement.

(** The claim protected by Kubernetes as long as a pod uses it. *)
Definition protect_claim (c : cluster) : cluster :=
  set_pvcs (fmap (fun p => pvc_with_Meta (meta_with_Finalizers
    ("kubernetes.io/pvc-protection" :: meta_Finalizers (pvc_Meta p)) (pvc_Meta p)) p) (cl_pvcs c)) c.

Definition witness_ops : list storage_op := [Ensure; Bind; Ensure; Cleanup; Ensure; Cleanup].
Definition witness_step (op : storage_op) (c : cluster) : answer * cluster :=
  @mem_step Reference.machinery (witness_engine "team" "chat") (witness_repo (Some witness_storage_status))
    ("team", "le-chat-llama") op c.
Definition witness_protected : cluster := protect_claim (answers witness_step [Ensure] empty_cluster).2.
Definition witness_given : LLMEngineStorageResult := mkStorageResult "le-chat-llama" "/data/models".

(** From the empty cluster, and from one whose claim a pod uses: there the claim
    outlives the cleanup, released by the engine and being deleted. *)
Lemma storage_refines_machine_witness :
  let abs := abs_step witness_given in
  let v := view_of "le-chat-llama" ("team", "le-chat-llama") in
  let away := elsewhere "le-chat-llama" ("team", "le-chat-llama") in
  ((answers abs witness_ops (None, None)).1 =
     [Waiting; Quiet; Ready witness_given; Cleaned; Waiting; Cleaned] /\
   v witness_protected = (Some fresh, Some (mkSlot true true false, false)) /\
   (answers abs witness_ops (v witness_protected)).2 = (None, Some (mkSlot false true true, true))) /\
  ((answers witness_step witness_ops witness_protected).1 = (answers abs witness_ops (v witness_protected)).1 /\
   v (answers witness_step witness_ops witness_protected).2 = (answers abs witness_ops (v witness_protected)).2 /\
   away (answers witness_step witness_ops witness_protected).2 = away witness_protected).
Proof.
  cbv zeta. split; [split; [vm_compute; reflexivity|split; vm_compute; reflexivity]|].
  apply (storage_refines_machine (L := Reference.laws) (witness_engine "team" "chat")
    (witness_repo (Some witness_storage_status)) witness_storage_status
    (mkBackendReference BackendTypeNFS {["server" := "10.0.0.1"; "exportPath" := "/x"]})
    "le-chat-llama" "le-chat-llama" "10Gi" _ _ eq_refl eq_refl eq_refl eq_refl eq_refl eq_refl).
  split.
  - intros pv Hpv. vm_compute in Hpv. by injection Hpv as <-.
  - intros pvc Hpvc. vm_compute in Hpvc. by injection Hpvc as <-.
Defined.
