(* ===== verification/StorageProvider.v ===== *)
(** * The storage of a repository

    storage/provider.go and storage/storage_sc.go: the StorageClassProvider that
    provisions a ModelRepository's claim, reports its state and removes it.  The
    provider's pointer to the ModelRepository is the one the controller works on,
    so the operations that read through it take the repository as an argument. *)

From S2P Require Import Prelude Api Kube Machinery MemServer StorageDiscovery Backend.

Local Open Scope go_scope.

(** storage.StorageStatus *)
Record ProviderStatus := mkProviderStatus {
  ps_Ready : bool;
  ps_Message : string;
  ps_BoundNodeName : string;
  ps_Capacity : string;
}.

(** The fields of the struct but the client, the scheme and the repository.
    detectedSCInfo is never nil: CreateProvider passes a class it found. *)
Record StorageClassProvider := mkProvider {
  p_storageSize : string;
  p_storageClass : string;
  p_mountPath : string;
  p_pvcName : string;
  p_detectedSCInfo : StorageClassInfo;
}.

Definition NewStorageClassProvider (modelRepo : ModelRepository) (scInfo : StorageClassInfo) :
    StorageClassProvider :=
  let storage := mrs_Storage (mr_Spec modelRepo) in
  {| p_storageSize := sto_Size storage;
     p_storageClass := sto_StorageClass storage;
     p_mountPath := getOrDefaultMountPath (sto_MountPath storage);
     p_pvcName := mr_Name modelRepo +:+ "-storage";
     p_detectedSCInfo := scInfo |}.

Definition CreateProvider (modelRepo : ModelRepository) : prog (result StorageClassProvider) :=
  let storage := mrs_Storage (mr_Spec modelRepo) in
  if bool_decide (sto_Size storage = EmptyString) then
    Ret (Err (errorf "storage size is required"))
  else
    let! r := SelectBestStorageClass (sto_StorageClass storage) in
    match r with
    | Err e => Ret (Err (errorw "failed to select storage class: " e))
    | Ok scInfo => Ret (Ok (NewStorageClassProvider modelRepo scInfo))
    end.

Section Operations.
Context `{M : Machinery}.

Definition ValidateConfig (p : StorageClassProvider) : err_opt :=
  if bool_decide (p_storageSize p = EmptyString) then Some (errorf "storage size is required")
  else match ParseQuantity (p_storageSize p) with
       | Err e => Some (errorw ("invalid size " +:+ fmt_q (p_storageSize p) +:+ ": ") e)
       | Ok _ => None
       end.

Definition PrepareDownloadVolume (p : StorageClassProvider) : result (Volume * VolumeMount) :=
  Ok (mkVolume "model-storage" (PVCVolume (p_pvcName p) false),
      mkVolumeMount "model-storage" (p_mountPath p) false).

Definition GetMountPath (p : StorageClassProvider) : string := p_mountPath p.

Definition repo_pvc (p : StorageClassProvider) (modelRepo : ModelRepository)
    (namespace size : string) : PersistentVolumeClaim :=
  mkPVC (AddFinalizer
           (meta_with_Labels
              {["app.kubernetes.io/name" := "model-storage";
                "app.kubernetes.io/managed-by" := "aitrigram-operator";
                "aitrigram.io/model-repo" := mr_Name modelRepo]}
              (meta_with_Namespace namespace (meta_with_Name (p_pvcName p) meta_empty)))
           StorageProtectionFinalizer)
    [sci_AccessMode (p_detectedSCInfo p)] size
    (if bool_decide (sci_Name (p_detectedSCInfo p) <> EmptyString)
     then Some (sci_Name (p_detectedSCInfo p)) else None)
    EmptyString EmptyString None.

Definition CreateStorage (p : StorageClassProvider) (modelRepo : ModelRepository)
    (namespace : string) : prog err_opt :=
  let! size := lift (MustParse (p_storageSize p)) in
  let pvc := repo_pvc p modelRepo namespace size in
  let! r := call (GetPVC namespace (p_pvcName p)) in
  match r with
  | Ok _ => Ret None
  | Err err =>
      if negb (IsNotFound err) then Ret (Some (errorw "failed to check PVC: " err))
      else
        let! e := call (CreatePVC pvc) in
        match e with
        | Some e => Ret (Some (errorw "failed to create PVC: " e))
        | None => Ret None
        end
  end.

Definition delete_repo_pvc (p : StorageClassProvider) (namespace : string) : prog err_opt :=
  let! e := call (DeletePVC namespace (p_pvcName p)) in
  match e with
  | Some e =>
      if negb (IsNotFound e) then Ret (Some (errorw "failed to delete PVC: " e)) else Ret None
  | None => Ret None
  end.

Definition Cleanup (p : StorageClassProvider) (namespace : string) : prog err_opt :=
  let! r := call (GetPVC namespace (p_pvcName p)) in
  match r with
  | Ok existing =>
      let existing :=
        pvc_with_Meta (RemoveFinalizer (pvc_Meta existing) StorageProtectionFinalizer) existing in
      let! e := call (UpdatePVC existing) in
      match e with
      | Some e => Ret (Some (errorw "failed to remove finalizer: " e))
      | None => delete_repo_pvc p namespace
      end
  | Err _ => delete_repo_pvc p namespace
  end.

Definition GetStatus (p : StorageClassProvider) (namespace : string) : prog (result ProviderStatus) :=
  let! r := call (GetPVC namespace (p_pvcName p)) in
  match r with
  | Err err =>
      if IsNotFound err then
        Ret (Ok (mkProviderStatus false "PVC not created yet" EmptyString EmptyString))
      else
        Ret (Ok (mkProviderStatus false ("Failed to get PVC: " +:+ emsg err) EmptyString EmptyString))
  | Ok pvc =>
      Ret (Ok {|
        ps_Ready := bool_decide (pvc_Phase pvc = ClaimBound);
        ps_Message :=
          if bool_decide (pvc_Phase pvc = ClaimBound) then "PVC is bound and ready"
          else if bool_decide (pvc_Phase pvc = ClaimPending)
          then "PVC is pending, waiting for provisioning"
          else "PVC is in " +:+ pvc_Phase pvc +:+ " state";
        ps_BoundNodeName := EmptyString;
        ps_Capacity := default EmptyString (pvc_Capacity pvc) |})
  end.

(** nil, or the required node selector terms *)
Definition GetNodeAffinity (p : StorageClassProvider) (modelRepo : ModelRepository) :
    option (list NodeSelectorTerm) :=
  if bool_decide (sci_AccessMode (p_detectedSCInfo p) = ReadWriteOnce) then
    match mst_Storage (mr_Status modelRepo) with
    | Some st =>
        if bool_decide (ss_BoundNodeName st <> EmptyString)
        then Some [[mkNodeReq "kubernetes.io/hostname" NodeSelectorOpIn [ss_BoundNodeName st]]]
        else None
    | None => None
    end
  else None.

Definition IsShared (p : StorageClassProvider) : bool :=
  bool_decide (sci_AccessMode (p_detectedSCInfo p) = ReadWriteMany).

Definition GetStorageStatus (p : StorageClassProvider) (modelRepo : ModelRepository)
    (namespace : string) : prog (result StorageStatus) :=
  let! r := call (GetPVC namespace (p_pvcName p)) in
  match r with
  | Err err => Ret (Err err)
  | Ok pvc =>
      if bool_decide (pvc_Phase pvc <> ClaimBound \/ pvc_VolumeName pvc = EmptyString) then
        Ret (Err (errorf ("PVC " +:+ namespace +:+ "/" +:+ p_pvcName p +:+
                          " is not bound yet (phase: " +:+ pvc_Phase pvc +:+ ")")))
      else
        let! r := call (GetPV (pvc_VolumeName pvc)) in
        match r with
        | Err err => Ret (Err (errorw ("failed to get PV " +:+ pvc_VolumeName pvc +:+ ": ") err))
        | Ok pv =>
            match extractBackendFromPV (mr_Name modelRepo) (p_pvcName p) pv namespace with
            | Err err =>
                Ret (Err (errorw ("failed to extract backend from PV " +:+ pvc_VolumeName pvc +:+ ": ")
                            err))
            | Ok backendRef =>
                Ret (Ok {|
                  ss_StorageClass := sci_Name (p_detectedSCInfo p);
                  ss_AccessMode := sci_AccessMode (p_detectedSCInfo p);
                  ss_VolumeMode := "Filesystem";
                  ss_BackendRef := Some backendRef;
                  ss_BoundNodeName :=
                    if bool_decide (sci_AccessMode (p_detectedSCInfo p) = ReadWriteOnce)
                    then extractNodeNameFromPV pv else EmptyString;
                  ss_Capacity := default EmptyString (pvc_Capacity pvc) |})
            end
        end
  end.

End Operations.

(** ** Requests *)

Lemma CreateProvider_reads mr :
  calls_only (fun r => r = ListStorageClasses) (CreateProvider mr).
Proof. unfold CreateProvider. calls_tac. Qed.

Definition reads_storage (p : StorageClassProvider) (ns : string) (r : req) : Prop :=
  r = GetPVC ns (p_pvcName p) \/ exists n, r = GetPV n.

Lemma GetStatus_reads p ns : calls_only (reads_storage p ns) (GetStatus p ns).
Proof. unfold GetStatus, reads_storage. calls_tac. Qed.

Lemma GetStorageStatus_reads p mr ns : calls_only (reads_storage p ns) (GetStorageStatus p mr ns).
Proof. unfold GetStorageStatus, reads_storage. calls_tac. Qed.

#[export] Hint Resolve CreateProvider_reads GetStatus_reads GetStorageStatus_reads : go.

(** What a provider made by CreateProvider looks like. *)
Lemma CreateProvider_spec mr h G :
  (forall h, G h ListStorageClasses) ->
  wp G (CreateProvider mr) h (fun _ o => match o with
    | Done (Ok p) => exists scInfo, p = NewStorageClassProvider mr scInfo /\
        (p_storageSize p <> EmptyString)
    | Done (Err _) => True
    | Panicked _ => False
    end).
Proof.
  intros HG. unfold CreateProvider, SelectBestStorageClass, DiscoverStorageClasses.
  repeat (wp_step; auto); cbn; auto; bool_hyps; eexists; (split; [done|]); done.
Qed.

(** ** What provisioning may do *)
Section Spec.
Context `{M : Machinery}.

Definition protected_pvc (p : StorageClassProvider) (ns : string) (pvc : PersistentVolumeClaim) : Prop :=
  meta_Namespace (pvc_Meta pvc) = ns /\ meta_Name (pvc_Meta pvc) = p_pvcName p /\
  (forall f, f ∈ meta_Finalizers (pvc_Meta pvc) <-> f = StorageProtectionFinalizer) /\
  pvc_AccessModes pvc = [sci_AccessMode (p_detectedSCInfo p)] /\
  MustParse (p_storageSize p) = Done (pvc_Request pvc) /\
  (forall n, pvc_StorageClassName pvc = Some n <->
     n = sci_Name (p_detectedSCInfo p) /\ n <> EmptyString).

Definition create_guard (p : StorageClassProvider) (ns : string) (h : trace) (r : req) : Prop :=
  match r with
  | GetPVC ns' n => ns' = ns /\ n = p_pvcName p
  | CreatePVC pvc =>
      protected_pvc p ns pvc /\
      exists e, just_answered h (GetPVC ns (p_pvcName p)) (Err e) /\ IsNotFound e = true
  | _ => False
  end.

(** The claim is there when it reports success. *)
Definition created (p : StorageClassProvider) (ns : string) (h : trace) (o : outcome err_opt) : Prop :=
  match o with
  | Done None =>
      (exists pvc, just_answered h (GetPVC ns (p_pvcName p)) (Ok pvc)) \/
      (exists pvc, just_answered h (CreatePVC pvc) None /\ protected_pvc p ns pvc)
  | Done (Some _) => True
  | Panicked _ => ValidateConfig p <> None
  end.

Definition release_guard (p : StorageClassProvider) (ns : string) (h : trace) (r : req) : Prop :=
  match r with
  | GetPVC ns' n => ns' = ns /\ n = p_pvcName p
  | UpdatePVC pvc' =>
      exists pvc, just_answered h (GetPVC ns (p_pvcName p)) (Ok pvc) /\
        pvc' = pvc_with_Meta (RemoveFinalizer (pvc_Meta pvc) StorageProtectionFinalizer) pvc
  | DeletePVC ns' n =>
      ns' = ns /\ n = p_pvcName p /\
      ((exists e, just_answered h (GetPVC ns n) (Err e)) \/
       exists pvc', just_answered h (UpdatePVC pvc') None /\
         StorageProtectionFinalizer ∉ meta_Finalizers (pvc_Meta pvc'))
  | _ => False
  end.

(** The claim is gone, or about to be, when it reports success. *)
Definition released (p : StorageClassProvider) (ns : string) (h : trace) (o : outcome err_opt) : Prop :=
  match o with
  | Done None =>
      exists e, just_answered h (DeletePVC ns (p_pvcName p)) e /\
        match e with None => True | Some e => IsNotFound e = true end
  | Done (Some _) => True
  | Panicked _ => False
  end.

(** What a reported status says: the claim was bound to a volume, and backend,
    capacity, access mode and node are those of the claim, the class and the
    volume. *)
Definition status_of (p : StorageClassProvider) (mr : ModelRepository) (ns : string)
    (h : trace) (o : outcome (result StorageStatus)) : Prop :=
  match o with
  | Done (Ok st) =>
      exists h0 pvc pv ref,
        h = h0 ++ [Ev (GetPVC ns (p_pvcName p)) (Ok pvc); Ev (GetPV (pvc_VolumeName pvc)) (Ok pv)] /\
        pvc_Phase pvc = ClaimBound /\
        ss_BackendRef st = Some ref /\
        extractBackendFromPV (mr_Name mr) (p_pvcName p) pv ns = Ok ref /\
        ss_Capacity st = default EmptyString (pvc_Capacity pvc) /\
        ss_AccessMode st = sci_AccessMode (p_detectedSCInfo p) /\
        ss_StorageClass st = sci_Name (p_detectedSCInfo p) /\
        ss_BoundNodeName st =
          (if bool_decide (ss_AccessMode st = ReadWriteOnce) then extractNodeNameFromPV pv
           else EmptyString)
  | Done (Err _) => True
  | Panicked _ => False
  end.

Lemma GetStorageStatus_wp p mr ns h :
  wp (fun _ r => reads_storage p ns r) (GetStorageStatus p mr ns) h (status_of p mr ns).
Proof.
  unfold GetStorageStatus, reads_storage. repeat (wp_step; try done); eauto.
  bool_hyps. destruct (Decidable.not_or _ _ Heqb) as [Hb%dec_stable _].
  cbn. eexists _, a, a0, _. rewrite <- app_assoc. cbn. repeat (split; [done|]). done.
Qed.

Lemma Cleanup_wp `{L : !MachineryLaws M} p ns h :
  wp (release_guard p ns) (Cleanup p ns) h (released p ns).
Proof.
  unfold Cleanup, delete_repo_pvc. repeat (wp_step; try done); cbn; bool_hyps; eauto with go.
  - split; [done|]. split; [done|]. right.
    eexists. split; [apply just_answered_snoc|]. cbn. auto with go.
  - by exists None; split; [apply just_answered_snoc|].
  - by exists None; split; [apply just_answered_snoc|].
Qed.

Lemma repo_pvc_protected `{L : !MachineryLaws M} p mr ns q :
  MustParse (p_storageSize p) = Done q -> protected_pvc p ns (repo_pvc p mr ns q).
Proof.
  intros Hq. unfold protected_pvc, repo_pvc. cbn.
  rewrite (proj1 (AddFinalizer_name _ _)), (proj2 (AddFinalizer_name _ _)). cbn.
  split; [done|]. split; [done|].
  split; [intros f; rewrite AddFinalizer_spec; cbn; set_solver|].
  repeat (split; [done|]). intros n. case_bool_decide; naive_solver.
Qed.

Lemma ValidateConfig_MustParse `{L : !MachineryLaws M} p :
  ValidateConfig p = None -> exists q, MustParse (p_storageSize p) = Done q.
Proof.
  unfold ValidateConfig. case_bool_decide; [done|].
  destruct (ParseQuantity _) as [q|] eqn:E; [|done]. intros _. exists q. by apply MustParse_ok.
Qed.

Lemma CreateStorage_wp `{L : !MachineryLaws M} p mr ns h :
  wp (create_guard p ns) (CreateStorage p mr ns) h (created p ns).
Proof.
  unfold CreateStorage. repeat (wp_step; try done); cbn; bool_hyps.
  - left. eauto with go.
  - split; [by apply repo_pvc_protected|]. eauto with go.
  - right. eexists. split; [apply just_answered_snoc|]. by apply repo_pvc_protected.
  - intros Hv. destruct (ValidateConfig_MustParse p Hv) as [q Hq]. congruence.
Qed.
End Spec.

(** ** Properties *)

Section Properties.
Context `{L : MachineryLaws} {W : Type} (srv : server W).

(** Property C31: whatever the API server answers, CreateStorage creates the claim
    only right after a NotFound answer for it, protected by the storage finalizer,
    with the access mode and the name of the chosen class and the requested size;
    it reports success only when the claim was just read or just created, and it
    cannot panic once ValidateConfig accepted the configuration. *)
Theorem CreateStorage_safe p mr ns w t o w' :
  run srv (CreateStorage p mr ns) w = (t, o, w') ->
  guarded (create_guard p ns) [] t /\ created p ns t o.
Proof. intros Hrun. by eapply (wp_run _ _ _ []); [apply CreateStorage_wp|]. Qed.

(** Whatever the API server answers, Cleanup of a repository's
    storage touches only its claim, removes nothing from it but the storage
    finalizer, deletes it only when it could not be read or was just written back
    without that finalizer, and reports success only when the deletion was
    accepted or the claim was already gone. *)
Theorem Cleanup_safe p ns w t o w' :
  run srv (Cleanup p ns) w = (t, o, w') ->
  guarded (release_guard p ns) [] t /\ released p ns t o.
Proof. intros Hrun. by eapply (wp_run _ _ _ []); [apply Cleanup_wp|]. Qed.

(** Property C30: a storage status that GetStorageStatus reports was read off a
    bound claim and its volume, by two reads and no write.  If the capacity it
    reports (10Gi, if it reports none) parses as a quantity, an engine's
    buildReadOnlyPVSpec, given the reported backend, does not panic, and either
    mounts exactly that volume's storage, read-only, or reports an error: an error
    exactly for the volumes of which engines can mount no read-only copy, such as
    those of EBS and of the CephFS CSI driver. *)
Theorem GetStorageStatus_mounts p mr ns w t st w' q :
  run srv (GetStorageStatus p mr ns) w = (t, Done (Ok st), w') ->
  ParseQuantity (effective_capacity st) = Ok q ->
  status_of p mr ns t (Done (Ok st)) /\
  exists pvc pv ref r,
    t = [Ev (GetPVC ns (p_pvcName p)) (Ok pvc); Ev (GetPV (pvc_VolumeName pvc)) (Ok pv)] /\
    ss_BackendRef st = Some ref /\ buildReadOnlyPVSpec ref st = Done r /\
    match r, read_only_source (pvp_Source (pv_Spec pv)) with
    | Ok spec, Some src => pvp_Source spec = src /\ pvp_AccessModes spec = [ReadOnlyMany]
    | Err _, None => True
    | _, _ => False
    end.
Proof.
  intros Hrun Hq.
  destruct (wp_run _ _ _ _ _ _ _ _ _ (GetStorageStatus_wp p mr ns []) Hrun) as [HG Hs].
  split; [done|]. destruct Hs as (h0 & pvc & pv & ref & Ht & Hb & Href & He & _).
  cbn in Ht. rewrite Ht in HG. exists pvc, pv, ref. eexists.
  split; [|split; [done|split; [by apply buildReadOnlyPVSpec_unfold|]]].
  - destruct t as [|e1 [|e2 [|e3 t]]].
    + by destruct h0 as [|? [|]].
    + by destruct h0 as [|? [|]].
    + by destruct h0 as [|? [|? [|]]].
    + exfalso. assert (Hl : length (e1 :: e2 :: e3 :: t) <= 2); [|cbn in Hl; lia].
      pose proof (f_equal (fun x => length x.1.1) Hrun) as Hlen. cbn [fst] in Hlen.
      rewrite <- Hlen. clear. unfold GetStorageStatus. cbn.
      destruct (srv _ w) as [[pvc|e] w1]; cbn; [|lia].
      destruct (bool_decide _); cbn; [lia|]. destruct (srv _ w1) as [[pv|e] w2]; cbn; [|lia].
      destruct (extractBackendFromPV _ _ _ _); cbn; lia.
  - apply read_only_volume_extract in He. destruct (read_only_volume ref) as [[src hp]|];
      destruct (read_only_source _); done.
Qed.

End Properties.

(** When the recorded status carries the access mode of the class,
    a download is pinned exactly when RequiresNodeAffinity says so and a node is
    recorded, and then to the node GetBoundNodeName names; a volume carrying that
    affinity is read back by extractNodeNameFromPV as the same node. *)
Theorem GetNodeAffinity_pins p mr st :
  mst_Storage (mr_Status mr) = Some st ->
  ss_AccessMode st = sci_AccessMode (p_detectedSCInfo p) ->
  (is_Some (GetNodeAffinity p mr) <->
     RequiresNodeAffinity mr = true /\ GetBoundNodeName mr <> EmptyString) /\
  forall terms m spec, GetNodeAffinity p mr = Some terms ->
    pvp_NodeAffinity spec = Some (Some terms) ->
    extractNodeNameFromPV (mkPV m spec) = GetBoundNodeName mr.
Proof.
  intros Hst Hm. unfold GetNodeAffinity, RequiresNodeAffinity, GetBoundNodeName.
  rewrite Hst, Hm. split.
  - repeat case_bool_decide; split; try (by intros [? ?]); naive_solver.
  - intros terms m spec. repeat case_bool_decide; [|done..]. intros [= <-] Ha.
    by apply extractNodeNameFromPV_pinned.
Qed.

(** ** Witnesses *)

Definition witness_class : StorageClassInfo :=
  mkStorageClassInfo "nfs" "nfs.csi.k8s.io" BackendTypeNFS ReadWriteMany false.
Definition witness_provider : StorageClassProvider :=
  mkProvider "10Gi" "auto" "/data/models" "llama-storage" witness_class.
Definition witness_model_repo (st : option StorageStatus) : ModelRepository :=
  mkModelRepository (meta_with_Name "llama" meta_empty)
    (mkModelRepositorySpec "llama"
      (mkModelSource ModelOriginHuggingFace "meta/llama" "main" [] EmptyString EmptyString)
      (mkModelStorage "10Gi" EmptyString EmptyString) true EmptyString EmptyString EmptyString ∅)
    (mkModelRepositoryStatus DownloadPhasePending [] st [] EmptyString).

Definition witness_created : trace * outcome err_opt * cluster :=
  run mem (@CreateStorage Reference.machinery witness_provider (witness_model_repo None) "ns")
    empty_cluster.

Lemma CreateStorage_safe_witness :
  guarded (@create_guard Reference.machinery witness_provider "ns") [] witness_created.1.1 /\
  @created Reference.machinery witness_provider "ns" witness_created.1.1 witness_created.1.2.
Proof.
  apply (CreateStorage_safe (L := Reference.laws) mem witness_provider (witness_model_repo None)
    "ns" empty_cluster _ _ witness_created.2).
  unfold witness_created. by destruct (run _ _ _) as [[??]?].
Defined.

Definition witness_released : trace * outcome err_opt * cluster :=
  run mem (@Cleanup Reference.machinery witness_provider "ns") witness_created.2.

Lemma Cleanup_safe_witness :
  guarded (@release_guard Reference.machinery witness_provider "ns") [] witness_released.1.1 /\
  released witness_provider "ns" witness_released.1.1 witness_released.1.2.
Proof.
  apply (Cleanup_safe (L := Reference.laws) mem witness_provider "ns" witness_created.2
    _ _ witness_released.2).
  unfold witness_released. by destruct (run _ _ _) as [[??]?].
Defined.

(** A bound claim and its volume. *)
Definition witness_bound : cluster :=
  set_pvs {["pv-1" := witness_nfs_pv]}
    (set_pvcs {[("ns", "llama-storage") :=
                  mkPVC (meta_with_Namespace "ns" (meta_with_Name "llama-storage" meta_empty))
                    [ReadWriteMany] "10Gi" (Some "nfs") "pv-1" ClaimBound (Some "10Gi")]}
       empty_cluster).

Lemma GetStorageStatus_mounts_witness :
  exists t st w',
    run mem (GetStorageStatus witness_provider (witness_model_repo None) "ns") witness_bound
      = (t, Done (Ok st), w') /\
    status_of witness_provider (witness_model_repo None) "ns" t (Done (Ok st)) /\
    exists pvc pv ref r,
      t = [Ev (GetPVC "ns" "llama-storage") (Ok pvc); Ev (GetPV (pvc_VolumeName pvc)) (Ok pv)] /\
      ss_BackendRef st = Some ref /\
      @buildReadOnlyPVSpec Reference.machinery ref st = Done r /\
      match r, read_only_source (pvp_Source (pv_Spec pv)) with
      | Ok spec, Some src => pvp_Source spec = src /\ pvp_AccessModes spec = [ReadOnlyMany]
      | Err _, None => True
      | _, _ => False
      end.
Proof.
  eexists _, _, _. split; [reflexivity|].
  eapply (GetStorageStatus_mounts (L := Reference.laws) mem witness_provider
    (witness_model_repo None) "ns" witness_bound _ _ _ "10Gi"); reflexivity.
Defined.

Definition witness_pinned : StorageStatus :=
  mkStorageStatus "local" ReadWriteOnce "Filesystem" None "node-1" "10Gi".

Lemma GetNodeAffinity_pins_witness :
  let p := mkProvider "10Gi" "auto" "/data/models" "llama-storage"
             (mkStorageClassInfo "local" "rancher.io/local-path" "local" ReadWriteOnce true) in
  let mr := witness_model_repo (Some witness_pinned) in
  (is_Some (GetNodeAffinity p mr) <->
     RequiresNodeAffinity mr = true /\ GetBoundNodeName mr <> EmptyString) /\
  forall terms m spec, GetNodeAffinity p mr = Some terms ->
    pvp_NodeAffinity spec = Some (Some terms) ->
    extractNodeNameFromPV (mkPV m spec) = GetBoundNodeName mr.
Proof. eapply GetNodeAffinity_pins; reflexivity. Defined.
