(* ===== verification/Jobs.v ===== *)
(** * Download and cleanup jobs

    assets/assets.go and assets/loader.go for the jobs of a ModelRepository (the
    embedded templates modelrepository/<origin>/<job>.yaml, of which the fields
    of [Job] are translated), and the adapters of component/job_adapters.go that
    fill a template in. *)

From S2P Require Import Prelude Api Kube Machinery StorageDiscovery Backend StorageProvider.

(** The text of the embedded scripts (Python and shell programs), by path. *)
Class Scripts := { script_text : string -> string }.

(** The order in which Go ranges over a map: some order. *)
Class GoRange := {
  range_map {A} : gmap string A -> list (string * A);
  range_map_perm {A} (m : gmap string A) : range_map m ≡ₚ map_to_list m;
}.

(** ** Assets *)

Definition script_files : list (string * string) :=
  [("huggingface", "download.py"); ("huggingface", "cleanup.py");
   ("ollama", "download.sh"); ("ollama", "cleanup.sh")].

Definition LoadModelRepositoryScript `{Scripts} (origin scriptFile : string) : result string :=
  if bool_decide ((origin, scriptFile) ∈ script_files)
  then Ok (script_text ("modelrepository/" +:+ origin +:+ "/" +:+ scriptFile))
  else Err (errorf ("failed to read script " +:+ scriptFile +:+ ": open " +:+ scriptFile +:+
                    ": file does not exist")).

Definition name_label : string := "modelrepository.aitrigram.cliver-project.github.io/name".

(** What the four templates share, and where they differ. *)
Definition job_template (app image command : string) (env : list EnvVar)
    (requests limits : gmap string string) : Job :=
  let labels : gmap string string :=
    {["app" := app; name_label := "placeholder";
      "app.kubernetes.io/managed-by" := "modelrepository-controller"]} in
  {| job_Meta := meta_with_Labels labels
       (meta_with_Namespace "placeholder" (meta_with_Name "placeholder" meta_empty));
     job_TemplateLabels := labels;
     job_Pod := {|
       pod_Containers := [mkContainer "worker" image [command] [] [] env []
                            (mkResources limits requests)
                            (Some (mkSecurityContext false false ["ALL"]))];
       pod_Volumes := []; pod_NodeSelector := ∅; pod_NodeAffinity := None;
       pod_Tolerations := []; pod_HostIPC := false; pod_RestartPolicy := "OnFailure" |};
     job_Succeeded := 0; job_Failed := 0 |}.

Definition quantities (cpu memory : string) : gmap string string :=
  {["memory" := memory; "cpu" := cpu]}.

Definition LoadModelRepositoryJobManifest (origin jobType : string) : result Job :=
  if bool_decide (origin = "huggingface" /\ jobType = "download_job") then
    Ok (job_template "llm-downloader" "python:3.11-slim" "python3"
          [env "HF_HOME" "/data/models"] (quantities "500m" "512Mi") (quantities "2000m" "4Gi"))
  else if bool_decide (origin = "huggingface" /\ jobType = "cleanup_job") then
    Ok (job_template "llm-cleaner" "python:3.11-slim" "python3"
          [env "HF_HOME" "/data/models"] (quantities "250m" "256Mi") (quantities "1000m" "1Gi"))
  else if bool_decide (origin = "ollama" /\ jobType = "download_job") then
    Ok (job_template "llm-downloader" "ollama/ollama:latest" "bash" []
          (quantities "1000m" "1Gi") (quantities "2000m" "4Gi"))
  else if bool_decide (origin = "ollama" /\ jobType = "cleanup_job") then
    Ok (job_template "llm-cleaner" "ollama/ollama:latest" "bash" []
          (quantities "250m" "256Mi") (quantities "1000m" "1Gi"))
  else Err (errorf ("failed to read modelrepository/" +:+ origin +:+ "/" +:+ jobType +:+ 
                    ".yaml: open modelrepository/" +:+ origin +:+ "/" +:+ jobType +:+
                    ".yaml: file does not exist")).

(** ** Adapters *)

(** The fields of the context the adapters read. *)
Record ModelRepositoryJobContext := mkJobContext {
  jc_ModelRepo : ModelRepository;
  jc_Provider : StorageClassProvider;
  jc_RevisionRef : option RevisionReference;
  jc_JobName : string;
  jc_Namespace : string;
  jc_CustomImage : string;
  jc_CustomScript : string;
}.

(** script file and model path; modelRepo is never nil *)
Definition getOriginConfig (origin jobType : string) (modelRepo : ModelRepository) : string * string :=
  let modelPath :=
    if bool_decide (sto_MountPath (mrs_Storage (mr_Spec modelRepo)) <> EmptyString)
    then sto_MountPath (mrs_Storage (mr_Spec modelRepo)) else DefaultModelStoragePath in
  let scriptFile :=
    if bool_decide (origin = "huggingface") then
      if bool_decide (jobType = "download") then "download.py" else "cleanup.py"
    else if bool_decide (origin = "ollama") then
      if bool_decide (jobType = "download") then "download.sh" else "cleanup.sh"
    else EmptyString in
  (scriptFile, modelPath).

(** The variables of the origin; modelSource is never nil. *)
Definition origin_env (origin mountPath : string) (modelSource : ModelSource) : list EnvVar :=
  if bool_decide (origin = "huggingface") then
    env "HF_HOME" mountPath ::
    (if bool_decide (src_HFTokenSecret modelSource <> EmptyString) then
       let key := if bool_decide (src_HFTokenSecretKey modelSource = EmptyString) then "HFToken"
                  else src_HFTokenSecretKey modelSource in
       [mkEnvVar "HF_TOKEN" EmptyString (Some (SecretKeyRef (src_HFTokenSecret modelSource) key))]
     else [])
  else if bool_decide (origin = "ollama") then
    [env "HOME" mountPath; env "OLLAMA_HOME" mountPath; env "OLLAMA_MODELS" mountPath]
  else [].

Definition buildJobEnvironment `{GoRange} (origin : string) (params : gmap string string)
    (mountPath : string) (modelSource : ModelSource) : list EnvVar :=
  origin_env origin mountPath modelSource ++
  map (fun kv => env kv.1 kv.2) (range_map params).

Definition job_params (ctx : ModelRepositoryJobContext) : gmap string string :=
  let params : gmap string string :=
    {["MODEL_ID" := src_ModelId (mrs_Source (mr_Spec (jc_ModelRepo ctx)));
      "MODEL_NAME" := mrs_ModelName (mr_Spec (jc_ModelRepo ctx));
      "MOUNT_PATH" := GetMountPath (jc_Provider ctx)]} in
  match jc_RevisionRef ctx with
  | Some r => <["REVISION_ID" := rev_Ref r]> params
  | None => params
  end.

(** The adapted container: the first of the template's. *)
Definition adapt_container (c : Container) (image : string) (args : list string)
    (envs : list EnvVar) (mounts : list VolumeMount) : Container :=
  mkContainer (c_Name c) (if bool_decide (image <> EmptyString) then image else c_Image c)
    (c_Command c) args (c_Ports c) envs mounts (c_Resources c) (c_SecurityContext c).

Definition adaptModelRepositoryJob `{Scripts, GoRange} (ctx : ModelRepositoryJobContext) (job : Job)
    (jobType : string) : outcome (result Job) :=
  let modelRepo := jc_ModelRepo ctx in
  let origin := src_Origin (mrs_Source (mr_Spec modelRepo)) in
  let '(scriptFile, modelPath) := getOriginConfig origin jobType modelRepo in
  match pod_Containers (job_Pod job) with
  | [] => Panicked "index out of range"
  | container :: containers =>
      let script :=
        if bool_decide (jc_CustomScript ctx <> EmptyString) then Ok (jc_CustomScript ctx)
        else LoadModelRepositoryScript origin scriptFile in
      match script with
      | Err err => Done (Err (errorw ("failed to load " +:+ jobType +:+ " script: ") err))
      | Ok script =>
          let envs := buildJobEnvironment origin (job_params ctx) modelPath
                        (mrs_Source (mr_Spec modelRepo)) in
          match PrepareDownloadVolume (jc_Provider ctx) with
          | Err err => Done (Err (errorw "failed to prepare download volume: " err))
          | Ok (volume, volumeMount) =>
              let pod := job_Pod job in
              Done (Ok {|
                job_Meta :=
                  meta_with_Labels (<[name_label := mr_Name modelRepo]> (meta_Labels (job_Meta job)))
                    (meta_with_Namespace (jc_Namespace ctx)
                      (meta_with_Name (jc_JobName ctx) (job_Meta job)));
                job_TemplateLabels := <[name_label := mr_Name modelRepo]> (job_TemplateLabels job);
                job_Pod := {|
                  pod_Containers :=
                    adapt_container container (jc_CustomImage ctx) ["-c"; script] envs [volumeMount]
                      :: containers;
                  pod_Volumes := [volume];
                  pod_NodeSelector :=
                    if bool_decide (mrs_NodeSelector (mr_Spec modelRepo) <> ∅)
                    then mrs_NodeSelector (mr_Spec modelRepo) else pod_NodeSelector pod;
                  pod_NodeAffinity :=
                    match GetNodeAffinity (jc_Provider ctx) modelRepo with
                    | Some terms => Some terms
                    | None => pod_NodeAffinity pod
                    end;
                  pod_Tolerations := pod_Tolerations pod;
                  pod_HostIPC := pod_HostIPC pod;
                  pod_RestartPolicy := pod_RestartPolicy pod |};
                job_Succeeded := job_Succeeded job;
                job_Failed := job_Failed job |})
          end
      end
  end.

Definition AdaptDownloadJob `{Scripts, GoRange} (ctx : ModelRepositoryJobContext) (job : Job) :
    outcome (result Job) :=
  adaptModelRepositoryJob ctx job "download".

Definition AdaptCleanupJob `{Scripts, GoRange} (ctx : ModelRepositoryJobContext) (job : Job) :
    outcome (result Job) :=
  adaptModelRepositoryJob ctx job "cleanup".

(** ** Lemmas *)

Definition known_origin (origin : string) : Prop := origin = "huggingface" \/ origin = "ollama".
Definition known_type (jobType : string) : Prop := jobType = "download" \/ jobType = "cleanup".

(** Every known origin has a template with one container, and a script. *)
Lemma manifest_ok origin jobType :
  known_origin origin -> known_type jobType ->
  exists app image command envs requests limits,
    LoadModelRepositoryJobManifest origin (jobType +:+ "_job") =
      Ok (job_template app image command envs requests limits).
Proof. intros [-> | ->] [-> | ->]; repeat eexists. Qed.

Lemma manifest_template origin jobType job :
  LoadModelRepositoryJobManifest origin jobType = Ok job ->
  exists app image command envs requests limits,
    job = job_template app image command envs requests limits.
Proof.
  unfold LoadModelRepositoryJobManifest. repeat case_bool_decide; intros [= <-]; by repeat eexists.
Qed.

(** Adapting a template does not panic. *)
Lemma adapt_template `{Scripts, GoRange} ctx jobType app image command envs requests limits :
  exists r, adaptModelRepositoryJob ctx (job_template app image command envs requests limits) jobType
    = Done r.
Proof.
  unfold adaptModelRepositoryJob. destruct (getOriginConfig _ _ _) as [file path]. cbn.
  destruct (if bool_decide _ then _ else _); eauto.
Qed.

Lemma script_ok `{Scripts} origin jobType mr :
  known_origin origin -> known_type jobType ->
  exists text, LoadModelRepositoryScript origin (getOriginConfig origin jobType mr).1 = Ok text.
Proof. intros [-> | ->] [-> | ->]; eexists; reflexivity. Qed.

(** The path the scripts get is the path the provider mounts. *)
Lemma getOriginConfig_path origin jobType mr scInfo :
  (getOriginConfig origin jobType mr).2 = GetMountPath (NewStorageClassProvider mr scInfo).
Proof.
  unfold getOriginConfig, GetMountPath, NewStorageClassProvider, getOrDefaultMountPath. cbn.
  by repeat case_bool_decide.
Qed.

Lemma params_keys ctx k :
  is_Some (job_params ctx !! k) ->
  k ∈ ["MODEL_ID"; "MODEL_NAME"; "MOUNT_PATH"; "REVISION_ID"]%list.
Proof.
  intros [v Hv]. destruct (decide (k ∈ ["MODEL_ID"; "MODEL_NAME"; "MOUNT_PATH"; "REVISION_ID"]%list))
    as [|Hk]; [done|exfalso].
  rewrite !not_elem_of_cons in Hk. destruct Hk as (? & ? & ? & ? & _).
  unfold job_params in Hv.
  destruct (jc_RevisionRef ctx); rewrite ?lookup_insert_ne in Hv by done;
    rewrite lookup_singleton_ne in Hv by done; done.
Qed.

Lemma origin_env_names origin path src :
  known_origin origin ->
  NoDup (map env_Name (origin_env origin path src)) /\
  Forall (fun n => n ∉ ["MODEL_ID"; "MODEL_NAME"; "MOUNT_PATH"; "REVISION_ID"]%list)
    (map env_Name (origin_env origin path src)).
Proof.
  unfold origin_env. intros [-> | ->].
  - change (bool_decide ("huggingface" = "huggingface")) with true.
    case_bool_decide; cbn; (split; [nodup_tac|repeat constructor; not_in_tac]).
  - change (bool_decide ("ollama" = "huggingface")) with false.
    change (bool_decide ("ollama" = "ollama")) with true. cbn.
    (split; [nodup_tac|repeat constructor; not_in_tac]).
Qed.

(** The names in a job's environment are distinct, whatever the order of the
    map. *)
Lemma buildJobEnvironment_NoDup `{GoRange} origin ctx path src :
  known_origin origin ->
  NoDup (map env_Name (buildJobEnvironment origin (job_params ctx) path src)).
Proof.
  intros Ho. destruct (origin_env_names origin path src Ho) as [Hnd Hdis].
  unfold buildJobEnvironment. rewrite map_app. apply NoDup_app. split; [done|]. split.
  - intros n Hn Hn'. rewrite Forall_forall in Hdis. apply (Hdis _ Hn), (params_keys ctx).
    rewrite map_map in Hn'. apply list_elem_of_fmap in Hn' as ([k v] & -> & Hin).
    rewrite range_map_perm in Hin. apply elem_of_map_to_list in Hin. cbn. eauto.
  - rewrite map_map. change (NoDup ((fun kv => kv.1) <$> range_map (job_params ctx))).
    rewrite range_map_perm. apply NoDup_fst_map_to_list.
Qed.

Lemma buildJobEnvironment_param `{GoRange} origin params path src k v :
  params !! k = Some v -> env k v ∈ buildJobEnvironment origin params path src.
Proof.
  intros Hk. unfold buildJobEnvironment. apply elem_of_app. right.
  apply list_elem_of_fmap. exists (k, v). split; [done|].
  rewrite range_map_perm. by apply elem_of_map_to_list.
Qed.

Lemma params_lookup ctx :
  job_params ctx !! "MODEL_ID" = Some (src_ModelId (mrs_Source (mr_Spec (jc_ModelRepo ctx)))) /\
  job_params ctx !! "MODEL_NAME" = Some (mrs_ModelName (mr_Spec (jc_ModelRepo ctx))) /\
  job_params ctx !! "MOUNT_PATH" = Some (GetMountPath (jc_Provider ctx)) /\
  job_params ctx !! "REVISION_ID" = rev_Ref <$> jc_RevisionRef ctx.
Proof.
  unfold job_params. destruct (jc_RevisionRef ctx); cbn; repeat split.
Qed.

(** Every path variable holds the path. *)
Definition path_vars : list string :=
  ["HF_HOME"; "HOME"; "OLLAMA_HOME"; "OLLAMA_MODELS"; "MOUNT_PATH"].

Lemma origin_env_paths origin path src :
  Forall (fun e => env_Name e ∈ path_vars -> env_Value e = path) (origin_env origin path src).
Proof.
  unfold origin_env.
  repeat case_bool_decide; repeat (apply Forall_cons; split); try apply Forall_nil; try done; cbn;
    intros Hn; exfalso; refine ((_ : _ ∉ _) Hn); unfold path_vars; not_in_tac.
Qed.

Lemma buildJobEnvironment_paths `{GoRange} origin ctx path src e :
  job_params ctx !! "MOUNT_PATH" = Some path ->
  e ∈ buildJobEnvironment origin (job_params ctx) path src ->
  env_Name e ∈ path_vars ->
  env_Value e = path.
Proof.
  intros Hm He Hn. unfold buildJobEnvironment in He. apply elem_of_app in He as [He|He].
  - by apply (proj1 (Forall_forall _ _) (origin_env_paths origin path src) e).
  - apply list_elem_of_fmap in He as ([k v] & -> & Hin).
    rewrite range_map_perm in Hin. apply elem_of_map_to_list in Hin. cbn in *.
    assert (Hk : k ∈ ["MODEL_ID"; "MODEL_NAME"; "MOUNT_PATH"; "REVISION_ID"]%list)
      by (apply (params_keys ctx); eauto).
    destruct (decide (k = "MOUNT_PATH")) as [->|Hne]; [congruence|exfalso].
    rewrite !elem_of_cons in Hk. destruct Hk as [->|[->|[->|[->|Hk]]]]; try done;
      [..|by apply not_elem_of_nil in Hk];
      refine ((_ : _ ∉ _) Hn); unfold path_vars; not_in_tac.
Qed.

(** ** What a job is to look like

    The job mounts the repository's claim and nothing else, runs the script of
    its origin or the user's, and tells it the model, the revision and the path
    of the mount; it runs on the node of the volume when there is one. *)
Definition job_for `{Scripts} (ctx : ModelRepositoryJobContext) (jobType : string) (job : Job) : Prop :=
  let mr := jc_ModelRepo ctx in
  let origin := src_Origin (mrs_Source (mr_Spec mr)) in
  let path := GetMountPath (jc_Provider ctx) in
  meta_Name (job_Meta job) = jc_JobName ctx /\
  meta_Namespace (job_Meta job) = jc_Namespace ctx /\
  meta_Labels (job_Meta job) !! name_label = Some (mr_Name mr) /\
  job_TemplateLabels job !! name_label = Some (mr_Name mr) /\
  pod_Volumes (job_Pod job) = [mkVolume "model-storage" (PVCVolume (p_pvcName (jc_Provider ctx)) false)] /\
  pod_NodeAffinity (job_Pod job) = GetNodeAffinity (jc_Provider ctx) mr /\
  pod_NodeSelector (job_Pod job) = mrs_NodeSelector (mr_Spec mr) /\
  unprivileged (job_Pod job) /\
  exists c script, pod_Containers (job_Pod job) = [c] /\
    c_VolumeMounts c = [mkVolumeMount "model-storage" path false] /\
    c_Args c = ["-c"; script] /\
    (jc_CustomScript ctx <> EmptyString -> script = jc_CustomScript ctx) /\
    (jc_CustomImage ctx <> EmptyString -> c_Image c = jc_CustomImage ctx) /\
    (jc_CustomScript ctx = EmptyString ->
       LoadModelRepositoryScript origin (getOriginConfig origin jobType mr).1 = Ok script) /\
    NoDup (map env_Name (c_Env c)) /\
    env "MODEL_ID" (src_ModelId (mrs_Source (mr_Spec mr))) ∈ c_Env c /\
    env "MOUNT_PATH" path ∈ c_Env c /\
    (forall r, jc_RevisionRef ctx = Some r -> env "REVISION_ID" (rev_Ref r) ∈ c_Env c) /\
    (forall e, e ∈ c_Env c ->
       env_Name e ∈ path_vars ->
       env_Value e = path).

Lemma adapt_job_for `{Scripts, GoRange} ctx jobType scInfo :
  known_origin (src_Origin (mrs_Source (mr_Spec (jc_ModelRepo ctx)))) -> known_type jobType ->
  jc_Provider ctx = NewStorageClassProvider (jc_ModelRepo ctx) scInfo ->
  exists template job,
    LoadModelRepositoryJobManifest (src_Origin (mrs_Source (mr_Spec (jc_ModelRepo ctx))))
      (jobType +:+ "_job") = Ok template /\
    adaptModelRepositoryJob ctx template jobType = Done (Ok job) /\
    job_for ctx jobType job.
Proof.
  intros Ho Ht Hp.
  destruct (manifest_ok _ _ Ho Ht) as (app & image & command & envs & rq & lm & Hm).
  exists (job_template app image command envs rq lm). unfold adaptModelRepositoryJob.
  set (origin := src_Origin _) in *.
  destruct (getOriginConfig origin jobType (jc_ModelRepo ctx)) as [file path] eqn:Ec.
  assert (Hpath : path = GetMountPath (jc_Provider ctx)).
  { rewrite Hp, <- (getOriginConfig_path origin jobType), Ec. done. }
  assert (exists text, (if bool_decide (jc_CustomScript ctx <> EmptyString)
            then Ok (jc_CustomScript ctx) else LoadModelRepositoryScript origin file) = Ok text /\
            (jc_CustomScript ctx <> EmptyString -> text = jc_CustomScript ctx) /\
            (jc_CustomScript ctx = EmptyString -> LoadModelRepositoryScript origin file = Ok text))
    as (text & Htext & Hcustom & Hfile).
  { case_bool_decide; [eexists; split_and!; [done..|congruence]|]. destruct (script_ok origin jobType (jc_ModelRepo ctx) Ho Ht)
      as [text Hs]. rewrite Ec in Hs.
    exists text. split_and!; [done|congruence|done]. }
  rewrite Htext. clear Htext. eexists. split; [exact Hm|]. split; [reflexivity|].
  unfold job_for. fold origin. rewrite Ec. cbn.
  destruct (params_lookup ctx) as (P1 & P2 & P3 & P4).
  repeat (split; [done|]).
  split; [by destruct (GetNodeAffinity _ _)|].
  split; [case_bool_decide as Hns; [done|by rewrite Hns]|].
  split; [repeat constructor; eexists; split_and!; [done..|by left]|].
  eexists _, text. split; [reflexivity|]. cbn.
  do 3 (split; [done|]). split; [by case_bool_decide|]. split; [done|].
  split; [by apply buildJobEnvironment_NoDup|].
  split; [by apply buildJobEnvironment_param|].
  split; [by apply buildJobEnvironment_param|].
  split; [intros r Hr; apply buildJobEnvironment_param; by rewrite P4, Hr|].
  rewrite <- Hpath. intros e He Hn. rewrite <- Hpath in P3. by eapply buildJobEnvironment_paths.
Qed.

(** Property C32: for both origins and both kinds of job the template exists, and
    adapting it never fails or panics and gives a job that mounts the claim of
    the repository's provider at its path and nothing else and can not gain
    privileges, passes that same path
    to the script in every path variable, names the model and the revision, has
    no variable twice whatever the order of Go's map iteration, and is pinned
    exactly as the provider's node affinity says. *)
Theorem adaptModelRepositoryJob_spec `{Scripts, GoRange} ctx jobType scInfo :
  known_origin (src_Origin (mrs_Source (mr_Spec (jc_ModelRepo ctx)))) -> known_type jobType ->
  jc_Provider ctx = NewStorageClassProvider (jc_ModelRepo ctx) scInfo ->
  exists template job,
    LoadModelRepositoryJobManifest (src_Origin (mrs_Source (mr_Spec (jc_ModelRepo ctx))))
      (jobType +:+ "_job") = Ok template /\
    adaptModelRepositoryJob ctx template jobType = Done (Ok job) /\
    job_for ctx jobType job.
Proof. apply adapt_job_for. Qed.

Definition witness_scripts : Scripts := {| script_text := fun path => "script " +:+ path |}.
Definition witness_range : GoRange :=
  {| range_map := fun _ => map_to_list; range_map_perm := fun _ m => Permutation_refl _ |}.

Definition witness_job_context : ModelRepositoryJobContext :=
  mkJobContext (witness_model_repo None) (NewStorageClassProvider (witness_model_repo None) witness_class)
    (Some (mkRevisionReference "main" "main")) "download-llama-main" "default" EmptyString EmptyString.

Lemma adaptModelRepositoryJob_spec_witness :
  exists template job,
    LoadModelRepositoryJobManifest "huggingface" "download_job" = Ok template /\
    @adaptModelRepositoryJob witness_scripts witness_range witness_job_context template "download"
      = Done (Ok job) /\
    @job_for witness_scripts witness_job_context "download" job.
Proof.
  apply (@adaptModelRepositoryJob_spec witness_scripts witness_range witness_job_context "download"
    witness_class); [left; reflexivity|left; reflexivity|reflexivity].
Defined.
