(* ===== verification/RepoStatus.v ===== *)
(** * The status of a repository

    The status helpers of modelrepository_controller.go: syncStatus and
    setCondition, the Phase derived from the conditions, and the list of
    revision statuses with the pointers the controller keeps into it. *)

From S2P Require Import Prelude Api Kube Machinery MemServer.

Local Open Scope go_scope.

(** ** Revision statuses *)

(** findRevisionStatus returns a pointer into status.availableRevisions: the
    index of the first entry of that name. *)
Fixpoint find_revision (l : list RevisionStatus) (revisionName : string) : option nat :=
  match l with
  | [] => None
  | rs :: l =>
      if bool_decide (rs_Name rs = revisionName) then Some O else S <$> find_revision l revisionName
  end.

Definition findRevisionStatus (modelRepo : ModelRepository) (revisionName : string) : option nat :=
  find_revision (mst_AvailableRevisions (mr_Status modelRepo)) revisionName.

(** A *RevisionStatus of the controller: into the repository it works on, or to
    a struct of its own. *)
Inductive rev_ptr : Type :=
| InRepo (i : nat)
| Fresh (rs : RevisionStatus).

Definition rev_zero : RevisionStatus := mkRevisionStatus EmptyString EmptyString EmptyString.

Definition deref (modelRepo : ModelRepository) (p : rev_ptr) : RevisionStatus :=
  match p with
  | InRepo i => nth i (mst_AvailableRevisions (mr_Status modelRepo)) rev_zero
  | Fresh rs => rs
  end.

(** p.Status = phase: through a pointer into the repository the repository
    changes. *)
Definition assign_status (modelRepo : ModelRepository) (p : rev_ptr) (phase : string) :
    ModelRepository * rev_ptr :=
  match p with
  | InRepo i =>
      (mr_with_Status
         (mst_with_AvailableRevisions
            (alter (rs_with_Status phase) i (mst_AvailableRevisions (mr_Status modelRepo)))
            (mr_Status modelRepo)) modelRepo, p)
  | Fresh rs => (modelRepo, Fresh (rs_with_Status phase rs))
  end.

(** The closure of updateRevisionStatus on the list: overwrite the first entry
    of that name, or append. *)
Fixpoint upsert_revision (l : list RevisionStatus) (rs : RevisionStatus) : list RevisionStatus :=
  match l with
  | [] => [rs]
  | x :: l => if bool_decide (rs_Name x = rs_Name rs) then rs :: l else x :: upsert_revision l rs
  end.

Section Status.
Context `{M : Machinery}.

(** ** deriveModelRepoPhase *)
Definition deriveModelRepoPhase (conditions : list Condition) : string :=
  match FindStatusCondition conditions ModelRepoConditionReady with
  | None => DownloadPhasePending
  | Some ready =>
      if bool_decide (cond_Status ready = ConditionTrue) then DownloadPhaseReady
      else if bool_decide (cond_Reason ready = ModelRepoReasonDownloading)
      then DownloadPhaseDownloading
      else DownloadPhaseFailed
  end.

(** ** syncStatus

    The mutation is a program, since SetStatusCondition reads the clock. *)
Definition sync_attempt (modelRepo : ModelRepository)
    (mutate : ModelRepositoryStatus -> prog ModelRepositoryStatus) : prog err_opt :=
  let! r := call (GetModelRepository (mr_Name modelRepo)) in
  match r with
  | Err err => Ret (Some err)
  | Ok fresh =>
      let! status := mutate (mr_Status fresh) in
      if DeepEqualModelRepositoryStatus (mr_Status fresh) status then Ret None
      else call (UpdateModelRepositoryStatus (mr_with_Status status fresh))
  end.

Definition syncStatus (modelRepo : ModelRepository)
    (mutate : ModelRepositoryStatus -> prog ModelRepositoryStatus) : prog err_opt :=
  RetryOnConflict (sync_attempt modelRepo mutate).

(** The closure of setCondition, at a time. *)
Definition apply_condition (c : Condition) (now : Z) (s : ModelRepositoryStatus) :
    ModelRepositoryStatus :=
  let conditions := SetStatusCondition now (mst_Conditions s) c in
  mst_with_Phase (deriveModelRepoPhase conditions) (mst_with_Conditions conditions s).

Definition setCondition (modelRepo : ModelRepository) (condType status reason message : string) :
    prog unit :=
  let! _ := syncStatus modelRepo (fun s =>
    let! now := call Now in
    Ret (apply_condition (condition condType status reason message) now s)) in
  Ret tt.

Definition updateRevisionStatus (modelRepo : ModelRepository) (revStatus : RevisionStatus) :
    prog err_opt :=
  syncStatus modelRepo (fun s =>
    Ret (mst_with_AvailableRevisions (upsert_revision (mst_AvailableRevisions s) revStatus) s)).

(** The closure of updateStorageStatus, at a time. *)
Definition apply_storage (storageStatus : StorageStatus) (now : Z) (s : ModelRepositoryStatus) :
    ModelRepositoryStatus :=
  let s := mst_with_Storage (Some storageStatus) s in
  mst_with_Conditions
    (SetStatusCondition now (mst_Conditions s)
       (condition ModelRepoConditionStorageReady ConditionTrue ModelRepoReasonStorageProvisioned
          ("Storage provisioned with class " +:+ ss_StorageClass storageStatus))) s.

End Status.

(** ** Lemmas on revision lists *)

Lemma find_upsert_eq l rs :
  exists i, find_revision (upsert_revision l rs) (rs_Name rs) = Some i /\
    upsert_revision l rs !! i = Some rs.
Proof.
  induction l as [|x l (i & Hi & Hl)]; cbn.
  - exists O. by rewrite bool_decide_true.
  - case_bool_decide as Hx; cbn.
    + exists O. by rewrite bool_decide_true.
    + exists (S i). by rewrite bool_decide_false, Hi by done.
Qed.

(** The entry that a name stands for. *)
Definition revision_of (l : list RevisionStatus) (n : string) : option RevisionStatus :=
  find_revision l n ≫= fun i => l !! i.

Lemma revision_of_cons x l n :
  revision_of (x :: l) n = if bool_decide (rs_Name x = n) then Some x else revision_of l n.
Proof.
  unfold revision_of. cbn. case_bool_decide; [done|]. by destruct (find_revision l n).
Qed.

Lemma revision_of_name l n rs : revision_of l n = Some rs -> rs_Name rs = n /\ rs ∈ l.
Proof.
  induction l as [|x l IH]; [done|]. rewrite revision_of_cons. case_bool_decide as H.
  - intros [= <-]. split; [done|left].
  - intros [? ?]%IH. split; [done|by right].
Qed.

Lemma upsert_length l rs :
  length (upsert_revision l rs) =
  length l + match revision_of l (rs_Name rs) with Some _ => 0 | None => 1 end.
Proof.
  induction l as [|x l IH]; [done|]. rewrite revision_of_cons. cbn.
  case_bool_decide as H; cbn; [lia|]. rewrite IH. lia.
Qed.

Lemma revision_of_upsert l rs n :
  revision_of (upsert_revision l rs) n =
  if bool_decide (rs_Name rs = n) then Some rs else revision_of l n.
Proof.
  induction l as [|x l IH]; cbn [upsert_revision]; [by rewrite revision_of_cons|].
  destruct (bool_decide (rs_Name x = rs_Name rs)) eqn:Hx; bool_hyps;
    rewrite !revision_of_cons, ?IH; repeat case_bool_decide; congruence.
Qed.

Lemma upsert_names l rs :
  map rs_Name (upsert_revision l rs) =
  map rs_Name l ++ match revision_of l (rs_Name rs) with Some _ => [] | None => [rs_Name rs] end.
Proof.
  induction l as [|x l IH]; [done|]. rewrite revision_of_cons. cbn.
  case_bool_decide as H; cbn; [by rewrite app_nil_r, H|]. by rewrite IH.
Qed.

Lemma revision_of_None l n : revision_of l n = None -> n ∉ map rs_Name l.
Proof.
  induction l as [|x l IH]; [set_solver|]. rewrite revision_of_cons.
  case_bool_decide; set_solver.
Qed.

Lemma find_revision_lookup l n i :
  find_revision l n = Some i -> exists rs, l !! i = Some rs /\ rs_Name rs = n.
Proof.
  revert i. induction l as [|x l IH]; intros i; [done|]. cbn. case_bool_decide as H.
  - intros [= <-]. by exists x.
  - destruct (find_revision l n) as [j|]; [|done]. intros [= <-]. cbn. by apply IH.
Qed.

(** Assigning through the pointer of a name keeps the names, and changes what
    that name stands for only. *)
Lemma find_revision_alter l i phase n :
  find_revision (alter (rs_with_Status phase) i l) n = find_revision l n.
Proof.
  revert i. induction l as [|x l IH]; intros [|i]; cbn; try done. by rewrite IH.
Qed.

Lemma revision_of_alter l i phase n n' :
  find_revision l n = Some i ->
  revision_of (alter (rs_with_Status phase) i l) n' =
  (if bool_decide (n' = n) then rs_with_Status phase <$> revision_of l n else revision_of l n').
Proof.
  intros Hi. unfold revision_of. rewrite find_revision_alter.
  case_bool_decide as Hn.
  - subst n'. rewrite Hi. cbn. by rewrite list_lookup_alter_eq.
  - destruct (find_revision l n') as [j|] eqn:Hj; [|done]. cbn.
    apply list_lookup_alter_ne. intros <-.
    apply find_revision_lookup in Hi as (rs & H1 & H2).
    apply find_revision_lookup in Hj as (rs' & H1' & H2'). congruence.
Qed.

(** UpdateRevisionStatus's change to status.availableRevisions is an
    upsert by name: afterwards the name stands for the new entry, every other
    name stands for what it stood for, the order of the names is kept, the list
    grows by one exactly when the name was not there, and distinct names stay
    distinct. *)
Theorem upsert_revision_spec l rs :
  revision_of (upsert_revision l rs) (rs_Name rs) = Some rs /\
  (forall n, n <> rs_Name rs -> revision_of (upsert_revision l rs) n = revision_of l n) /\
  map rs_Name (upsert_revision l rs) =
    map rs_Name l ++ (if bool_decide (rs_Name rs ∈ map rs_Name l) then [] else [rs_Name rs]) /\
  (NoDup (map rs_Name l) -> NoDup (map rs_Name (upsert_revision l rs))).
Proof.
  assert (Hn : match revision_of l (rs_Name rs) with Some _ => [] | None => [rs_Name rs] end =
               if bool_decide (rs_Name rs ∈ map rs_Name l) then [] else [rs_Name rs]).
  { destruct (revision_of l (rs_Name rs)) as [x|] eqn:E.
    - apply revision_of_name in E as [E Hx]. rewrite bool_decide_true; [done|].
      rewrite <- E. by apply list_elem_of_fmap_2.
    - apply revision_of_None in E. by rewrite bool_decide_false. }
  split; [by rewrite revision_of_upsert, bool_decide_true|].
  split; [intros n Hne; by rewrite revision_of_upsert, bool_decide_false|].
  rewrite upsert_names, Hn. split; [done|]. intros Hnd. case_bool_decide; [by rewrite app_nil_r|].
  apply NoDup_app. split; [done|]. split; [set_solver|]. apply NoDup_singleton.
Qed.

Lemma upsert_revision_idem l rs : upsert_revision (upsert_revision l rs) rs = upsert_revision l rs.
Proof.
  induction l as [|x l IH]; cbn; [by rewrite bool_decide_true|].
  destruct (bool_decide (rs_Name x = rs_Name rs)) eqn:E; cbn; [by rewrite bool_decide_true|].
  by rewrite E, IH.
Qed.

(** ** Lemmas on syncStatus *)
Section SyncSpec.
Context `{M : Machinery}.
Context (mr : ModelRepository) (R : ModelRepositoryStatus -> ModelRepositoryStatus -> Prop).

(** It reads the repository, and the clock, and writes only the status of an
    object it read, only as the mutation says, and only when that is a change. *)
Definition sync_guard (h : trace) (r : req) : Prop :=
  match r with
  | GetModelRepository n => n = mr_Name mr
  | Now => True
  | UpdateModelRepositoryStatus o =>
      exists fresh st, answered h (GetModelRepository (mr_Name mr)) (Ok fresh) /\
        o = mr_with_Status st fresh /\ R (mr_Status fresh) st /\ st <> mr_Status fresh
  | _ => False
  end.

(** When it succeeds the status is as the mutation says: it was so, or was
    written. *)
Definition synced (h : trace) (o : outcome err_opt) : Prop :=
  match o with
  | Done None =>
      exists fresh st, answered h (GetModelRepository (mr_Name mr)) (Ok fresh) /\
        R (mr_Status fresh) st /\
        (st = mr_Status fresh \/
         answered h (UpdateModelRepositoryStatus (mr_with_Status st fresh)) None)
  | Done (Some _) => True
  | Panicked _ => False
  end.

Definition mutates (mutate : ModelRepositoryStatus -> prog ModelRepositoryStatus) : Prop :=
  forall s h, wp (fun _ r => r = Now) (mutate s) h
    (fun _ o => match o with Done s' => R s s' | Panicked _ => False end).

Context {L : MachineryLaws M}.

Lemma sync_attempt_wp mutate h :
  mutates mutate -> wp sync_guard (sync_attempt mr mutate) h synced.
Proof.
  intros Hm. unfold sync_attempt. apply wp_call; [done|]. intros [fresh|e]; [|done].
  apply wp_bind. eapply wp_mono; [..|apply Hm]; cbn; [by intros ? ? ->|].
  intros h' [st|m] HR; [|done].
  assert (Hget : answered ((h ++ [Ev (GetModelRepository (mr_Name mr)) (Ok fresh)]) ++ h')
            (GetModelRepository (mr_Name mr)) (Ok fresh)) by auto with go.
  wp_step; cbn.
  - apply DeepEqualModelRepositoryStatus_spec in Heqb. exists fresh, st. auto.
  - split.
    + exists fresh, st. repeat (split; [done|]). intros ->.
      by rewrite (proj2 (DeepEqualModelRepositoryStatus_spec _ _) eq_refl) in Heqb.
    + intros [e|]; [done|]. exists fresh, st. auto with go.
Qed.

Lemma syncStatus_wp mutate h :
  mutates mutate -> wp sync_guard (syncStatus mr mutate) h synced.
Proof.
  intros Hm. eapply wp_conseq.
  - apply (wp_RetryOnConflict _ _ _ (fun _ => True) synced); [done|]. intros h' _.
    eapply wp_conseq; [by apply sync_attempt_wp|]. auto.
  - by intros h' o [_ H].
Qed.

End SyncSpec.

Definition by_condition `{Machinery} (c : Condition) (s s' : ModelRepositoryStatus) : Prop :=
  exists now, s' = apply_condition c now s.
Definition by_upsert (rs : RevisionStatus) (s s' : ModelRepositoryStatus) : Prop :=
  s' = mst_with_AvailableRevisions (upsert_revision (mst_AvailableRevisions s) rs) s.

Section StatusLemmas.
Context `{L : MachineryLaws}.

Lemma setCondition_wp mr t s r m h :
  wp (sync_guard mr (by_condition (condition t s r m))) (setCondition mr t s r m) h
    (fun _ o => o = Done tt).
Proof.
  unfold setCondition. apply wp_bind. eapply wp_conseq; [apply syncStatus_wp; [done|]|].
  - intros st h'. repeat wp_step; cbn; [done|]. by eexists.
  - by intros h' [e|w].
Qed.

Lemma updateRevisionStatus_wp mr rs h :
  wp (sync_guard mr (by_upsert rs)) (updateRevisionStatus mr rs) h (synced mr (by_upsert rs)).
Proof. apply syncStatus_wp; [done|]. intros st h'. done. Qed.

(** The phase after a condition was set. *)
Definition phase_after (c : Condition) (s : ModelRepositoryStatus) : string :=
  if bool_decide (cond_Type c = ModelRepoConditionReady) then
    if bool_decide (cond_Status c = ConditionTrue) then DownloadPhaseReady
    else if bool_decide (cond_Reason c = ModelRepoReasonDownloading) then DownloadPhaseDownloading
    else DownloadPhaseFailed
  else deriveModelRepoPhase (mst_Conditions s).

(** Setting a condition leaves storage, revisions and engines
    alone, makes the condition of that type say what was asked and keeps every
    other one; the Phase is then Ready, Downloading or Failed as the Ready
    condition says (and unchanged in meaning when another condition was set);
    and setting the same condition again, at any later time, changes nothing, so
    that syncStatus does not write. *)
Theorem apply_condition_spec c now s :
  let s' := apply_condition c now s in
  mst_Storage s' = mst_Storage s /\ mst_AvailableRevisions s' = mst_AvailableRevisions s /\
  mst_ReferencedEngines s' = mst_ReferencedEngines s /\
  (exists d, FindStatusCondition (mst_Conditions s') (cond_Type c) = Some d /\ same_condition c d) /\
  (forall t, t <> cond_Type c ->
     FindStatusCondition (mst_Conditions s') t = FindStatusCondition (mst_Conditions s) t) /\
  mst_Phase s' = phase_after c s /\
  forall now', apply_condition c now' s' = s'.
Proof.
  cbv zeta. destruct (Find_Set_eq now (mst_Conditions s) c) as (d & Hd & Hs).
  unfold apply_condition. cbn. do 3 (split; [done|]). split; [by eauto|].
  split; [intros t Ht; by apply Find_Set_ne|]. split.
  - unfold phase_after, deriveModelRepoPhase. case_bool_decide as Hc.
    + rewrite <- Hc, Hd. destruct Hs as (_ & <- & <- & _). done.
    + by rewrite Find_Set_ne by congruence.
  - intros now'. unfold mst_with_Conditions, mst_with_Phase. cbn.
    by rewrite (Set_same now' _ c d Hd Hs).
Qed.

(** Whatever the API server answers, setCondition never fails or
    panics, and every write it makes is a status update of the repository as just
    read, by exactly that condition and the phase derived from it, and only when
    this changes something. *)
Theorem setCondition_safe {W} (srv : server W) mr t s r m w tr o w' :
  run srv (setCondition mr t s r m) w = (tr, o, w') ->
  guarded (sync_guard mr (by_condition (condition t s r m))) [] tr /\ o = Done tt.
Proof. intros Hrun. exact (wp_run _ _ _ [] _ _ _ _ _ (setCondition_wp mr t s r m []) Hrun). Qed.

(** Whatever the API server answers, updateRevisionStatus writes
    only the status of the repository as just read, changed by the upsert of that
    revision and only when this is a change; and when it reports success the
    server holds the repository with the revision upserted. *)
Theorem updateRevisionStatus_safe {W} (srv : server W) mr rs w tr o w' :
  run srv (updateRevisionStatus mr rs) w = (tr, o, w') ->
  guarded (sync_guard mr (by_upsert rs)) [] tr /\ synced mr (by_upsert rs) tr o.
Proof. intros Hrun. exact (wp_run _ _ _ [] _ _ _ _ _ (updateRevisionStatus_wp mr rs []) Hrun). Qed.

End StatusLemmas.

(** ** Witnesses *)

Definition witness_status_repo : ModelRepository :=
  mkModelRepository (meta_with_Name "llama" meta_empty)
    (mkModelRepositorySpec "llama"
      (mkModelSource ModelOriginHuggingFace "meta/llama" "main" [] EmptyString EmptyString)
      (mkModelStorage "10Gi" EmptyString EmptyString) true EmptyString EmptyString EmptyString ∅)
    (mkModelRepositoryStatus DownloadPhasePending [] None [mkRevisionStatus "main" "main" "Pending"]
       EmptyString).
Definition witness_repo_cluster : cluster := set_repos {["llama" := witness_status_repo]} empty_cluster.

Lemma apply_condition_spec_witness :
  let M := Reference.machinery in
  let c := condition ModelRepoConditionReady ConditionFalse ModelRepoReasonDownloading "x" in
  let s := mr_Status witness_status_repo in
  let s' := apply_condition c 100 s in
  mst_Storage s' = mst_Storage s /\ mst_AvailableRevisions s' = mst_AvailableRevisions s /\
  mst_ReferencedEngines s' = mst_ReferencedEngines s /\
  (exists d, FindStatusCondition (mst_Conditions s') (cond_Type c) = Some d /\ same_condition c d) /\
  (forall t, t <> cond_Type c ->
     FindStatusCondition (mst_Conditions s') t = FindStatusCondition (mst_Conditions s) t) /\
  mst_Phase s' = phase_after c s /\
  forall now', apply_condition c now' s' = s'.
Proof. apply (apply_condition_spec (L := Reference.laws)). Defined.

Definition witness_set : trace * outcome unit * cluster :=
  run mem (@setCondition Reference.machinery witness_status_repo ModelRepoConditionReady ConditionTrue
             ModelRepoReasonAllRevisionsReady "done") witness_repo_cluster.

Lemma setCondition_safe_witness :
  guarded (@sync_guard witness_status_repo (@by_condition Reference.machinery
    (condition ModelRepoConditionReady ConditionTrue ModelRepoReasonAllRevisionsReady "done")))
    [] witness_set.1.1 /\ witness_set.1.2 = Done tt.
Proof.
  apply (setCondition_safe (L := Reference.laws) mem witness_status_repo ModelRepoConditionReady
    ConditionTrue ModelRepoReasonAllRevisionsReady "done" witness_repo_cluster _ _ witness_set.2).
  unfold witness_set. by destruct (run _ _ _) as [[??]?].
Defined.

Definition witness_upsert : trace * outcome err_opt * cluster :=
  run mem (@updateRevisionStatus Reference.machinery witness_status_repo
             (mkRevisionStatus "main" "main" "Ready")) witness_repo_cluster.

Lemma updateRevisionStatus_safe_witness :
  let rs := mkRevisionStatus "main" "main" "Ready" in
  guarded (sync_guard witness_status_repo (by_upsert rs)) [] witness_upsert.1.1 /\
  synced witness_status_repo (by_upsert rs) witness_upsert.1.1 witness_upsert.1.2.
Proof.
  apply (updateRevisionStatus_safe (L := Reference.laws) mem witness_status_repo
    (mkRevisionStatus "main" "main" "Ready") witness_repo_cluster _ _ witness_upsert.2).
  unfold witness_upsert. by destruct (run _ _ _) as [[??]?].
Defined.

Lemma upsert_revision_spec_witness :
  let l := [mkRevisionStatus "main" "main" "Pending"] in
  let rs := mkRevisionStatus "v2" "abc" "Downloading" in
  revision_of (upsert_revision l rs) (rs_Name rs) = Some rs /\
  (forall n, n <> rs_Name rs -> revision_of (upsert_revision l rs) n = revision_of l n) /\
  map rs_Name (upsert_revision l rs) =
    map rs_Name l ++ (if bool_decide (rs_Name rs ∈ map rs_Name l) then [] else [rs_Name rs]) /\
  (NoDup (map rs_Name l) -> NoDup (map rs_Name (upsert_revision l rs))).
Proof. apply upsert_revision_spec. Defined.
