(* ===== verification/RepoController.v ===== *)
(** * The ModelRepository controller

    modelrepository_controller.go: Reconcile and everything it calls, as programs
    over the API.  The repository the controller works on is a pointer in Go; the
    handlers that change it in memory return it. *)

From S2P Require Import Prelude Naming Api Kube Machinery MemServer StorageDiscovery Backend.
From S2P Require Import StorageProvider Jobs RepoStatus.

Local Open Scope go_scope.

(** ctrl.Result; the delay in seconds *)
Record Result := mkResult { Requeue : bool; RequeueAfter : Z }.
Definition no_requeue : Result := mkResult false 0.
Definition requeue_after (seconds : Z) : Result := mkResult false seconds.

Definition defaultNamespace : string := "default".

(** The namespace of jobs and claims. *)
Definition operator_namespace (OperatorNamespace : string) : string :=
  if bool_decide (OperatorNamespace = EmptyString) then defaultNamespace else OperatorNamespace.

Definition getCurrentRevision (modelRepo : ModelRepository) : string :=
  let source := mrs_Source (mr_Spec modelRepo) in
  if bool_decide (src_Revision source <> EmptyString) then src_Revision source
  else if bool_decide (src_Origin source = ModelOriginHuggingFace) then "main"
  else if bool_decide (src_Origin source = ModelOriginOllama) then "latest"
  else "main".

Definition getDesiredRevisions (modelRepo : ModelRepository) : list RevisionReference :=
  match src_Revisions (mrs_Source (mr_Spec modelRepo)) with
  | [] => let rev := getCurrentRevision modelRepo in [mkRevisionReference rev rev]
  | revisions => revisions
  end.

(** allReady of updateOverallPhase *)
Definition all_ready (modelRepo : ModelRepository) (desired : list RevisionReference) : bool :=
  forallb (fun revRef =>
    match findRevisionStatus modelRepo (rev_Name revRef) with
    | None => false
    | Some i => bool_decide (rs_Status (deref modelRepo (InRepo i)) = DownloadPhaseReady)
    end) desired.

(** One revision's outcome: job running, a result to return early, an error; and
    the repository, whose revision statuses the handler may have assigned. *)
Abbreviation rev_result := (ModelRepository * (bool * option Result * err_opt))%type.

Section Controller.
Context `{M : Machinery} `{Scripts} `{GoRange}.
Context (OperatorNamespace : string).

Let namespace := operator_namespace OperatorNamespace.

Definition updateStorageStatus (modelRepo : ModelRepository) (provider : StorageClassProvider) :
    prog err_opt :=
  let! r := GetStorageStatus provider modelRepo namespace in
  match r with
  | Err err => Ret (Some (errorw "failed to get storage status: " err))
  | Ok storageStatus =>
      syncStatus modelRepo (fun s =>
        let! now := call Now in Ret (apply_storage storageStatus now s))
  end.

(** The namespace the code sets on the template is the one the adapter sets
    again. *)
Definition createRevisionDownloadJob (modelRepo : ModelRepository) (provider : StorageClassProvider)
    (revisionRef : RevisionReference) : outcome (result Job) :=
  jobName ← generateJobName "download" (mr_Name modelRepo) (rev_Name revisionRef);
  match LoadModelRepositoryJobManifest (src_Origin (mrs_Source (mr_Spec modelRepo))) "download_job" with
  | Err err => Done (Err (errorw "failed to load download job manifest: " err))
  | Ok job =>
      let jobCtx := mkJobContext modelRepo provider (Some revisionRef) jobName namespace
        (mrs_DownloadImage (mr_Spec modelRepo)) (mrs_DownloadScripts (mr_Spec modelRepo)) in
      r ← AdaptDownloadJob jobCtx job;
      Done match r with
           | Err err => Err (errorw "failed to adapt download job: " err)
           | Ok job => Ok job
           end
  end.

Definition deleteStaleCleanupJob (modelRepo : ModelRepository) (revision : string) :
    prog (bool * err_opt) :=
  let! cleanupJobName := lift (generateJobName "cleanup" (mr_Name modelRepo) revision) in
  let! r := call (GetJob namespace cleanupJobName) in
  match r with
  | Err err =>
      if IsNotFound err then Ret (false, None)
      else Ret (false, Some (errorw "failed to check for cleanup job: " err))
  | Ok _ =>
      let! e := call (DeleteJob namespace cleanupJobName) in
      match e with
      | Some err =>
          if IsNotFound err then Ret (true, None)
          else Ret (false, Some (errorw ("failed to delete stale cleanup job " +:+ cleanupJobName +:+ ": ")
                                   err))
      | None => Ret (true, None)
      end
  end.

(** The end of createDownloadJob, with the revision status initialised. *)
Definition launch_download_job (modelRepo : ModelRepository) (provider : StorageClassProvider)
    (revRef : RevisionReference) (revStatus : rev_ptr) : prog rev_result :=
  let failed err :=
    let '(modelRepo, revStatus) := assign_status modelRepo revStatus DownloadPhaseFailed in
    let! _ := updateRevisionStatus modelRepo (deref modelRepo revStatus) in
    Ret (modelRepo, (false, None, Some err)) in
  let started :=
    let '(modelRepo, revStatus) := assign_status modelRepo revStatus DownloadPhaseDownloading in
    let! _ := updateRevisionStatus modelRepo (deref modelRepo revStatus) in
    Ret (modelRepo, (true, None, None)) in
  let! r := lift (createRevisionDownloadJob modelRepo provider revRef) in
  match r with
  | Err err => failed err
  | Ok job =>
      match SetControllerReference (mr_Meta modelRepo) (job_Meta job) with
      | Err err => Ret (modelRepo, (false, None, Some err))
      | Ok meta =>
          let! e := call (CreateJob (job_with_Meta meta job)) in
          match e with
          | Some err => if negb (IsAlreadyExists err) then failed err else started
          | None => started
          end
      end
  end.

Definition createDownloadJob (modelRepo : ModelRepository) (provider : StorageClassProvider)
    (revRef : RevisionReference) (revStatus : option rev_ptr) : prog rev_result :=
  let! d := deleteStaleCleanupJob modelRepo (rev_Name revRef) in
  match d with
  | (_, Some err) => Ret (modelRepo, (false, None, Some err))
  | (true, None) => Ret (modelRepo, (false, Some (requeue_after 5), None))
  | (false, None) =>
      match revStatus with
      | Some revStatus => launch_download_job modelRepo provider revRef revStatus
      | None =>
          let revStatus := mkRevisionStatus (rev_Name revRef) (rev_Ref revRef) DownloadPhasePending in
          let! e := updateRevisionStatus modelRepo revStatus in
          match e with
          | Some err => Ret (modelRepo, (false, None, Some err))
          | None => launch_download_job modelRepo provider revRef (Fresh revStatus)
          end
      end
  end.

Definition ensureRevStatus (revRef : RevisionReference) (revStatus : option rev_ptr) : rev_ptr :=
  match revStatus with
  | Some p => p
  | None => Fresh (mkRevisionStatus (rev_Name revRef) (rev_Ref revRef) EmptyString)
  end.

Definition handleJobStatus (modelRepo : ModelRepository) (revRef : RevisionReference)
    (revStatus : option rev_ptr) (job : Job) : prog rev_result :=
  if (0 <? job_Succeeded job)%Z then
    let '(modelRepo, rs) := assign_status modelRepo (ensureRevStatus revRef revStatus) DownloadPhaseReady in
    let! e := updateRevisionStatus modelRepo (deref modelRepo rs) in
    match e with
    | Some err => Ret (modelRepo, (false, None, Some err))
    | None => Ret (modelRepo, (false, None, None))
    end
  else if (0 <? job_Failed job)%Z then
    let '(modelRepo, rs) := assign_status modelRepo (ensureRevStatus revRef revStatus) DownloadPhaseFailed in
    let! _ := updateRevisionStatus modelRepo (deref modelRepo rs) in
    let! _ := setCondition modelRepo ModelRepoConditionReady ConditionFalse
                ModelRepoReasonDownloadFailed
                ("Download job failed for revision " +:+ rev_Name revRef) in
    Ret (modelRepo, (false, Some (requeue_after 300), None))
  else
    let downloading :=
      match revStatus with
      | None => false
      | Some p => bool_decide (rs_Status (deref modelRepo p) = DownloadPhaseDownloading)
      end in
    if downloading then Ret (modelRepo, (true, None, None))
    else
      let '(modelRepo, rs) :=
        assign_status modelRepo (ensureRevStatus revRef revStatus) DownloadPhaseDownloading in
      let! _ := updateRevisionStatus modelRepo (deref modelRepo rs) in
      Ret (modelRepo, (true, None, None)).

Definition reconcileRevision (modelRepo : ModelRepository) (provider : StorageClassProvider)
    (revRef : RevisionReference) : prog rev_result :=
  let revStatus := InRepo <$> findRevisionStatus modelRepo (rev_Name revRef) in
  let ready :=
    match revStatus with
    | None => false
    | Some p => bool_decide (rs_Status (deref modelRepo p) = DownloadPhaseReady)
    end in
  if ready then Ret (modelRepo, (false, None, None))
  else
    let! jobName := lift (generateJobName "download" (mr_Name modelRepo) (rev_Name revRef)) in
    let! r := call (GetJob namespace jobName) in
    match r with
    | Err err =>
        if IsNotFound err then createDownloadJob modelRepo provider revRef revStatus
        else Ret (modelRepo, (false, None, Some err))
    | Ok job => handleJobStatus modelRepo revRef revStatus job
    end.

Definition updateOverallPhase (modelRepo : ModelRepository) (desiredRevisions : list RevisionReference)
    (anyJobRunning : bool) : prog unit :=
  if all_ready modelRepo desiredRevisions then
    setCondition modelRepo ModelRepoConditionReady ConditionTrue ModelRepoReasonAllRevisionsReady
      "All revisions downloaded successfully"
  else if anyJobRunning then
    setCondition modelRepo ModelRepoConditionReady ConditionFalse ModelRepoReasonDownloading
      "Downloading revisions"
  else Ret tt.

(** The body of the loop over the desired revisions. *)
Definition reconcile_next (provider : StorageClassProvider) (s : ModelRepository * bool)
    (revRef : RevisionReference) : prog ((ModelRepository * bool) + (Result * err_opt)) :=
  let '(modelRepo, anyJobRunning) := s in
  let! r := reconcileRevision modelRepo provider revRef in
  match r with
  | (modelRepo, (running, None, None)) => Ret (inl (modelRepo, anyJobRunning || running))
  | (_, (_, Some result, err)) => Ret (inr (result, err))
  | (_, (_, None, err)) => Ret (inr (no_requeue, err))
  end.

Definition reconcileRevisions (modelRepo : ModelRepository) (provider : StorageClassProvider) :
    prog (Result * err_opt) :=
  let desiredRevisions := getDesiredRevisions modelRepo in
  if bool_decide (desiredRevisions = []) then Ret (no_requeue, None)
  else
    let! r := for_each desiredRevisions (modelRepo, false) (reconcile_next provider) in
    match r with
    | inr early => Ret early
    | inl (modelRepo, anyJobRunning) =>
        let! _ := updateOverallPhase modelRepo desiredRevisions anyJobRunning in
        if anyJobRunning then Ret (requeue_after 30, None) else Ret (no_requeue, None)
    end.

(** *** Deletion *)

(** The names of the engines that reference the repository. *)
Definition references (repo : string) (engine : LLMEngine) : bool :=
  existsb (fun ref => bool_decide (ref_Name ref = repo)) (les_ModelRefs (le_Spec engine)).
Definition dependent_engines (repo : string) (engines : list LLMEngine) : list string :=
  map le_Name (List.filter (references repo) engines).

(** One attempt to remove the finalizer. *)
Definition remove_finalizer (repo : string) : prog err_opt :=
  let! r := call (GetModelRepository repo) in
  match r with
  | Err err => Ret (Some err)
  | Ok fresh =>
      let! r := call (UpdateModelRepository
                        (mr_with_Meta (RemoveFinalizer (mr_Meta fresh) ModelRepositoryFinalizer) fresh)) in
      Ret match r with Ok _ => None | Err err => Some err end
  end.

(** Deleting the repository's jobs; errors are ignored. *)
Definition delete_jobs (modelRepo : ModelRepository) : prog unit :=
  let! r := call (ListJobs namespace {[name_label := mr_Name modelRepo]}) in
  match r with
  | Err _ => Ret tt
  | Ok jobs =>
      let! _ := for_each (B := unit) jobs tt (fun _ job =>
        let! _ := call (DeleteJob (meta_Namespace (job_Meta job)) (meta_Name (job_Meta job))) in
        Ret (inl tt)) in
      Ret tt
  end.

Definition handleDeletion (modelRepo : ModelRepository) (provider : option StorageClassProvider) :
    prog err_opt :=
  let! r := call ListLLMEngines in
  match r with
  | Err err => Ret (Some err)
  | Ok llmEngines =>
      let dependentEngines := dependent_engines (mr_Name modelRepo) llmEngines in
      if bool_decide (dependentEngines <> []) then
        let msg := "Cannot delete: still referenced by LLMEngines: " +:+ fmt_v_list dependentEngines +:+
          ". Please delete the LLMEngines first or remove the modelRef." in
        let! _ := setCondition modelRepo ModelRepoConditionReady ConditionFalse
                    ModelRepoReasonDeletionBlocked msg in
        Ret (Some (errorf ("deletion blocked: " +:+ msg)))
      else
        let! _ := delete_jobs modelRepo in
        let! _ := match provider with
                  | Some provider => Cleanup provider namespace
                  | None => Ret None
                  end in
        RetryOnConflict (remove_finalizer (mr_Name modelRepo))
  end.

(** *** Storage *)

(** The provider (nil with a result or an error), a result to return early, an
    error; and the repository, which is refreshed. *)
Definition reconcileStorage (modelRepo : ModelRepository) (provider : StorageClassProvider) :
    prog (ModelRepository * (option StorageClassProvider * option Result * err_opt)) :=
  match ValidateConfig provider with
  | Some err =>
      let! _ := setCondition modelRepo ModelRepoConditionStorageReady ConditionFalse
                  ModelRepoReasonValidationFailed ("Storage validation failed: " +:+ emsg err) in
      Ret (modelRepo, (None, Some (requeue_after 60), None))
  | None =>
      let! e := CreateStorage provider modelRepo namespace in
      match e with
      | Some err =>
          let! _ := setCondition modelRepo ModelRepoConditionStorageReady ConditionFalse
                      ModelRepoReasonProvisionFailed ("Failed to provision storage: " +:+ emsg err) in
          Ret (modelRepo, (None, Some (requeue_after 60), None))
      | None =>
          let! e := updateStorageStatus modelRepo provider in
          match e with
          | Some _ =>
              if negb (IsShared provider)
              then Ret (modelRepo, (None, Some (requeue_after 10), None))
              else Ret (modelRepo, (Some provider, None, None))
          | None =>
              let! r := call (GetModelRepository (mr_Name modelRepo)) in
              match r with
              | Err err => Ret (modelRepo, (None, None, Some err))
              | Ok modelRepo =>
                  let! r := CreateProvider modelRepo in
                  match r with
                  | Err _ => Ret (modelRepo, (None, Some (requeue_after 60), None))
                  | Ok provider => Ret (modelRepo, (Some provider, None, None))
                  end
              end
          end
      end
  end.

(** *** Reconcile *)

(** Steps 1 and 2, once the finalizer is there.  reconcileStorage gives a
    provider when it gives neither a result nor an error. *)
Definition reconcile_steps (modelRepo : ModelRepository) (provider : StorageClassProvider) :
    prog (Result * err_opt) :=
  let! r := reconcileStorage modelRepo provider in
  match r with
  | (_, (_, Some result, err)) => Ret (result, err)
  | (_, (_, None, Some err)) => Ret (no_requeue, Some err)
  | (_, (None, None, None)) => Crash "nil provider"
  | (modelRepo, (Some provider, None, None)) =>
      if negb (mrs_AutoDownload (mr_Spec modelRepo)) then Ret (no_requeue, None)
      else reconcileRevisions modelRepo provider
  end.

Definition Reconcile (name : string) : prog (Result * err_opt) :=
  let! r := call (GetModelRepository name) in
  match r with
  | Err err => Ret (no_requeue, if IsNotFound err then None else Some err)
  | Ok modelRepo =>
      if bool_decide (mrs_ModelName (mr_Spec modelRepo) = EmptyString) then
        let modelRepo := mr_with_Spec (mrs_with_ModelName (mr_Name modelRepo) (mr_Spec modelRepo)) modelRepo in
        let! r := call (UpdateModelRepository modelRepo) in
        match r with
        | Err err => Ret (no_requeue, Some err)
        | Ok _ => Ret (mkResult true 0, None)
        end
      else
        let! r := CreateProvider modelRepo in
        match r with
        | Err err =>
            if bool_decide (meta_DeletionTimestamp (mr_Meta modelRepo) <> None) then
              let! e := handleDeletion modelRepo None in Ret (no_requeue, e)
            else
              let! _ := setCondition modelRepo ModelRepoConditionReady ConditionFalse
                          ModelRepoReasonStorageProviderFailed
                          ("Failed to create storage provider: " +:+ emsg err) in
              Ret (requeue_after 60, None)
        | Ok provider =>
            if bool_decide (meta_DeletionTimestamp (mr_Meta modelRepo) <> None) then
              let! e := handleDeletion modelRepo (Some provider) in Ret (no_requeue, e)
            else if negb (ContainsFinalizer (mr_Meta modelRepo) ModelRepositoryFinalizer) then
              let! r := call (UpdateModelRepository
                (mr_with_Meta (AddFinalizer (mr_Meta modelRepo) ModelRepositoryFinalizer) modelRepo)) in
              match r with
              | Err err => Ret (no_requeue, Some err)
              | Ok modelRepo => reconcile_steps modelRepo provider
              end
            else reconcile_steps modelRepo provider
        end
  end.

End Controller.
