(* ===== verification/RepoProgress.v ===== *)
(** * What a pass over a repository achieves

    The ModelRepository controller against the in-memory API server, step by
    step, with the rules of Leads.v: for an arbitrary repository that can be
    served ([live]), a pass fills in the model name, or makes the claim, or starts
    the downloads, or finds all of them done and reports Ready.
    RepoConvergence.v repeats it. *)

From S2P Require Import Prelude Naming Api Kube Machinery MemServer Frames Leads StorageDiscovery Backend.
From S2P Require Import StorageProvider Jobs RepoStatus RepoController.

Local Open Scope go_scope.

Section Pass.
Context `{L : MachineryLaws} `{Sc : Scripts} `{Rg : GoRange}.
Context (OperatorNamespace name : string) (spec : ModelRepositorySpec).

Let ns := operator_namespace OperatorNamespace.

(** The specs of the repository: the controller fills in an empty model name. *)
Definition this_spec (s : ModelRepositorySpec) : Prop :=
  s = mrs_with_ModelName (mrs_ModelName s) spec.

Definition this_repo (mr : ModelRepository) : Prop :=
  mr_Name mr = name /\ meta_Namespace (mr_Meta mr) = EmptyString /\
  meta_DeletionTimestamp (mr_Meta mr) = None /\ this_spec (mr_Spec mr).

Definition desired : list RevisionReference :=
  getDesiredRevisions (mkModelRepository meta_empty spec (mkModelRepositoryStatus EmptyString [] None [] EmptyString)).

Definition job_name (rev : RevisionReference) : outcome string :=
  generateJobName "download" name (rev_Name rev).

(** What has to hold of the repository for its download to be possible: a size, a
    known origin, revisions of different names with different job names (see
    [names_can_collide] and [names_can_panic]), and automatic download. *)
Record downloadable_spec : Prop := {
  spec_named : name <> EmptyString;
  spec_auto : mrs_AutoDownload spec = true;
  spec_size : exists q, ParseQuantity (sto_Size (mrs_Storage spec)) = Ok q;
  spec_origin : known_origin (src_Origin (mrs_Source spec));
  spec_jobs rev : rev ∈ desired -> exists n, job_name rev = Done n;
  spec_cleanup rev : rev ∈ desired -> exists n, generateJobName "cleanup" name (rev_Name rev) = Done n;
  spec_revisions : NoDup (map rev_Name desired);
  spec_distinct rev rev' : rev ∈ desired -> rev' ∈ desired -> job_name rev = job_name rev' -> rev = rev';
}.

(** *** The cluster, as far as this repository is concerned *)

Definition status_in (c : cluster) : option ModelRepositoryStatus :=
  mr_Status <$> cl_repos c !! name.
Definition claim_name : string := name +:+ "-storage".
Definition claim_in (c : cluster) : option PersistentVolumeClaim := cl_pvcs c !! (ns, claim_name).
Definition entry_in (c : cluster) (n : string) : option RevisionStatus :=
  status_in c ≫= fun s => revision_of (mst_AvailableRevisions s) n.
Definition job_in (c : cluster) (rev : RevisionReference) : option Job :=
  match job_name rev with
  | Done n => cl_jobs c !! (ns, n)
  | Panicked _ => None
  end.

Definition named (c : cluster) : Prop :=
  exists mr, cl_repos c !! name = Some mr /\ mrs_ModelName (mr_Spec mr) <> EmptyString.
(** The claim is bound to a volume whose backend can be recorded, *)
Definition backed (c : cluster) (pvc : PersistentVolumeClaim) (ref : BackendReference) : Prop :=
  claim_in c = Some pvc /\ pvc_Phase pvc = ClaimBound /\ pvc_VolumeName pvc <> EmptyString /\
  exists pv, cl_pvs c !! pvc_VolumeName pvc = Some pv /\
    extractBackendFromPV name claim_name pv ns = Ok ref.
(** and was. *)
Definition recorded (c : cluster) : Prop :=
  exists s st pvc ref, status_in c = Some s /\ mst_Storage s = Some st /\
    ss_BackendRef st = Some ref /\ backed c pvc ref /\
    ss_Capacity st = default EmptyString (pvc_Capacity pvc).
(** The revision is listed, and downloaded or being downloaded. *)
Definition entered (c : cluster) (rev : RevisionReference) : Prop :=
  exists rs, entry_in c (rev_Name rev) = Some rs /\
    (rs_Status rs = DownloadPhaseReady \/ is_Some (job_in c rev)).
Definition downloaded (c : cluster) (rev : RevisionReference) : Prop :=
  exists rs, entry_in c (rev_Name rev) = Some rs /\ rs_Status rs = DownloadPhaseReady.
Definition ready (c : cluster) : Prop :=
  (exists s, status_in c = Some s /\ mst_Phase s = DownloadPhaseReady) /\
  Forall (downloaded c) desired /\ recorded c.

(** There is the StorageClass the repository asks for, or any. *)
Definition class_available (c : cluster) : Prop :=
  let preference := sto_StorageClass (mrs_Storage spec) in
  cl_classes c <> [] /\
  (preference = "auto" \/ preference = EmptyString \/
   exists sc, sc ∈ cl_classes c /\ meta_Name (sc_Meta sc) = preference).

(** The repository is there and stays. *)
Definition alive (c : cluster) : Prop := exists mr, cl_repos c !! name = Some mr /\ this_repo mr.

(** It can be served: there is a StorageClass, and no cleanup job is in the way. *)
Record live (c : cluster) : Prop := {
  live_repo : alive c;
  live_class : class_available c;
  live_cleanup rev n : rev ∈ desired -> generateJobName "cleanup" name (rev_Name rev) = Done n ->
    cl_jobs c !! (ns, n) = None;
}.

(** The claim, if there, has been bound to a volume, and the jobs there are have
    succeeded. *)
Record settled (c : cluster) : Prop := {
  settled_claim : is_Some (claim_in c) -> exists pvc ref, backed c pvc ref;
  settled_jobs rev j : rev ∈ desired -> job_in c rev = Some j -> (0 < job_Succeeded j)%Z;
}.

(** What a pass keeps: what it made, and what is not the repository's. *)
Record grows (c c' : cluster) : Prop := {
  grows_claims : cl_pvcs c ⊆ cl_pvcs c';
  grows_volumes : cl_pvs c ⊆ cl_pvs c';
  grows_jobs : cl_jobs c ⊆ cl_jobs c';
  grows_entries n rs : entry_in c n = Some rs ->
    exists rs', entry_in c' n = Some rs' /\
      (rs_Status rs = DownloadPhaseReady -> rs_Status rs' = DownloadPhaseReady);
  grows_named : named c -> named c';
  grows_recorded : recorded c -> recorded c';
  grows_others r : r <> name -> cl_repos c' !! r = cl_repos c !! r;
  grows_other_claims k : k <> (ns, claim_name) -> cl_pvcs c' !! k = cl_pvcs c !! k;
  grows_rest : cl_engines c' = cl_engines c /\ cl_pvs c' = cl_pvs c /\
    cl_deployments c' = cl_deployments c /\ cl_nodes c' = cl_nodes c /\ cl_classes c' = cl_classes c;
}.

#[local] Instance repo_grows_preorder : PreOrder grows.
Proof.
  split.
  - intros c. split; eauto.
  - intros c1 c2 c3 [A1 A2 A3 A4 A5 A6 A7 A8 A9] [B1 B2 B3 B4 B5 B6 B7 B8 B9].
    split; [by etrans|by etrans|by etrans| |by auto|by auto|..].
    + intros n rs (rs' & H' & Hr)%A4. destruct (B4 _ _ H') as (rs'' & H'' & Hr'). exists rs''. auto.
    + intros r Hr. by rewrite B7, A7.
    + intros k Hk. by rewrite B8, A8.
    + intuition congruence.
Qed.

Definition advances (c c' : cluster) : Prop := live c' /\ grows c c'.

Lemma advances_refl c : live c -> advances c c.
Proof. intros Hc. split; [done|reflexivity]. Qed.
Lemma repo_advances_trans c1 c2 c3 : advances c1 c2 -> advances c2 c3 -> advances c1 c3.
Proof. intros [_ H1] [H2 H3]. split; [done|by etrans]. Qed.

Lemma grows_backed c c' pvc ref :
  cl_pvcs c ⊆ cl_pvcs c' -> cl_pvs c ⊆ cl_pvs c' -> backed c pvc ref -> backed c' pvc ref.
Proof.
  intros Hp Hv (H1 & H2 & H3 & pv & H4 & H5). split; [by eapply lookup_weaken|]. do 2 (split; [done|]).
  exists pv. split; [by eapply lookup_weaken|done].
Qed.

Lemma grows_job c c' rev : grows c c' -> is_Some (job_in c rev) -> is_Some (job_in c' rev).
Proof.
  intros Hg [j Hj]. unfold job_in in *. destruct (job_name rev); [|done]. exists j.
  by eapply lookup_weaken, Hg.
Qed.

Lemma grows_entered c c' rev : grows c c' -> entered c rev -> entered c' rev.
Proof.
  intros Hg (rs & Hrs & Hs). destruct (grows_entries _ _ Hg _ _ Hrs) as (rs' & Hrs' & Hr).
  exists rs'. split; [done|]. destruct Hs as [Hs|Hs]; [left; auto|right]. by eapply grows_job.
Qed.

Lemma grows_downloaded c c' rev : grows c c' -> downloaded c rev -> downloaded c' rev.
Proof.
  intros Hg (rs & Hrs & Hs). destruct (grows_entries _ _ Hg _ _ Hrs) as (rs' & Hrs' & Hr). exists rs'. auto.
Qed.

(** ** Changes of the status *)

(** Only the repository, and the clock, changed. *)
Definition wrote (c : cluster) (mr : ModelRepository) (c' : cluster) : Prop :=
  exists t, c' = set_clock t (set_repos (<[name := mr]> (cl_repos c)) c).

Definition updated (R : ModelRepositoryStatus -> ModelRepositoryStatus -> Prop) (c c' : cluster) : Prop :=
  exists old new, cl_repos c !! name = Some old /\ this_repo new /\ mr_Spec new = mr_Spec old /\
    R (mr_Status old) (mr_Status new) /\ wrote c new c'.

Lemma wrote_lookup c mr c' : wrote c mr c' -> cl_repos c' !! name = Some mr.
Proof. intros [t ->]. apply lookup_insert_eq. Qed.

Lemma wrote_live c old mr c' :
  live c -> cl_repos c !! name = Some old -> this_repo mr -> wrote c mr c' -> live c'.
Proof.
  intros Hc Ho Hm Hw. pose proof (wrote_lookup _ _ _ Hw) as Hl. destruct Hw as [t ->].
  split; [by exists mr|apply Hc|apply Hc].
Qed.

(** A status change that loses no entry, demotes none, and keeps a record of the
    storage. *)
Lemma updated_advances R c c' :
  live c -> updated R c c' ->
  (forall s s' n rs, R s s' -> status_in c = Some s ->
     revision_of (mst_AvailableRevisions s) n = Some rs ->
     exists rs', revision_of (mst_AvailableRevisions s') n = Some rs' /\
       (rs_Status rs = DownloadPhaseReady -> rs_Status rs' = DownloadPhaseReady)) ->
  (forall s s', R s s' -> mst_Storage s' = mst_Storage s \/
     exists st pvc ref, mst_Storage s' = Some st /\ ss_BackendRef st = Some ref /\ backed c pvc ref /\
       ss_Capacity st = default EmptyString (pvc_Capacity pvc)) ->
  advances c c'.
Proof.
  intros Hc (old & new & Ho & Hn & Hs & HR & Hw) He Hst. split; [by eapply wrote_live|].
  pose proof (wrote_lookup _ _ _ Hw) as Hl.
  assert (Hsame : cl_pvcs c' = cl_pvcs c /\ cl_pvs c' = cl_pvs c /\ cl_jobs c' = cl_jobs c)
    by by destruct Hw as [t ->].
  destruct Hsame as (E1 & E2 & E3).
  assert (Hso : status_in c = Some (mr_Status old)) by (unfold status_in; by rewrite Ho).
  assert (Hsn : status_in c' = Some (mr_Status new)) by (unfold status_in; by rewrite Hl).
  split; [by rewrite E1|by rewrite E2|by rewrite E3|..].
  - intros n rs. unfold entry_in. rewrite Hso, Hsn. cbn. by apply He.
  - intros (mr & Hmr & Hne). exists new. split; [done|]. rewrite Hs. congruence.
  - intros (s & st & pvc & ref & H1 & H2 & H3 & H4 & Hq). rewrite Hso in H1. injection H1 as <-.
    destruct (Hst _ _ HR) as [E|(st' & pvc' & ref' & H5 & H6 & H7 & Hq')].
    + exists (mr_Status new), st, pvc, ref. split; [done|]. split; [congruence|]. split; [done|].
      split; [|done]. apply (grows_backed c); [by rewrite E1|by rewrite E2|done].
    + exists (mr_Status new), st', pvc', ref'. do 3 (split; [done|]).
      split; [|done]. apply (grows_backed c); [by rewrite E1|by rewrite E2|done].
  - intros r Hr. destruct Hw as [t ->]. cbn. by rewrite lookup_insert_ne.
  - by destruct Hw as [t ->].
  - by destruct Hw as [t ->].
Qed.

(** syncStatus with a mutation that reads the clock at most. *)
Lemma repo_sync_leads mr mutate R c :
  mr_Name mr = name -> alive c ->
  (forall s c1 (Q : ModelRepositoryStatus -> cluster -> Prop),
     (forall s' t, R s s' -> Q s' (set_clock t c1)) -> leads mem (mutate s) c1 Q) ->
  leads mem (syncStatus mr mutate) c (fun r c' => r = None /\ updated R c c').
Proof.
  intros Hn Hc Hm. unfold syncStatus. apply (leads_RetryOnConflict mem (L := L)).
  destruct Hc as (old & Ho & Hold). unfold sync_attempt. rewrite Hn.
  eapply leads_call; [reflexivity|]. unfold st_get. rewrite Ho.
  apply leads_bind, Hm. intros st t HR. pose proof Hold as (On & Ons & Od & Os).
  destruct (DeepEqualModelRepositoryStatus _ _) eqn:E.
  - apply DeepEqualModelRepositoryStatus_spec in E. cbn. split; [done|].
    exists old, old. split; [done|]. split; [done|]. split; [done|]. split; [by rewrite E at 2|].
    exists t. rewrite insert_id by done. by destruct c.
  - cbn [leads call mem]. unfold mr_Name in *. cbn [mr_Meta mr_with_Status]. rewrite On.
    rewrite (st_update_fresh mr_Meta mr_with_Meta) with (old := old); [|done..].
    cbn [fst snd leads to_opt]. split; [done|]. exists old, (bump mr_Meta mr_with_Meta (mr_with_Status st old)).
    split; [done|]. split; [done|]. split; [done|]. split; [exact HR|by exists t].
Qed.

Lemma setCondition_leads mr ct cst reason msg c :
  mr_Name mr = name -> live c ->
  leads mem (setCondition mr ct cst reason msg) c (fun _ c' => advances c c' /\
    exists s now, status_in c = Some s /\
      status_in c' = Some (apply_condition (condition ct cst reason msg) now s)).
Proof.
  intros Hn Hc. unfold setCondition. apply leads_bind. eapply leads_conseq.
  - apply (repo_sync_leads mr _ (by_condition (condition ct cst reason msg))); [done|apply Hc|].
    intros s c1 Q HQ. cbn. apply HQ. by eexists.
  - intros r c' [-> Hu]. cbn. split.
    + eapply updated_advances; [done..| |].
      * intros s s' n rs [now ->] _ Hrs. by exists rs.
      * intros s s' [now ->]. by left.
    + destruct Hu as (old & new & Ho & _ & _ & [now Hs] & Hw). exists (mr_Status old), now.
      unfold status_in. rewrite Ho, (wrote_lookup _ _ _ Hw). cbn. split; [done|by rewrite Hs].
Qed.

Lemma upsert_leads mr rs c :
  mr_Name mr = name -> live c ->
  (forall old, entry_in c (rs_Name rs) = Some old -> rs_Status old = DownloadPhaseReady ->
     rs_Status rs = DownloadPhaseReady) ->
  leads mem (updateRevisionStatus mr rs) c (fun r c' => r = None /\ advances c c' /\
    (forall n, entry_in c' n = if bool_decide (rs_Name rs = n) then Some rs else entry_in c n) /\
    cl_jobs c' = cl_jobs c).
Proof.
  intros Hn Hc Hrs. unfold updateRevisionStatus. eapply leads_conseq.
  - apply (repo_sync_leads mr _ (by_upsert rs)); [done|apply Hc|]. intros s c1 Q HQ.
    specialize (HQ _ (cl_clock c1) eq_refl). by destruct c1.
  - intros r c' [-> Hu]. split; [done|]. split.
    + eapply updated_advances; [done..| |].
      * intros s s' n x -> Hs Hx. cbn [mst_AvailableRevisions mst_with_AvailableRevisions].
        destruct (decide (rs_Name rs = n)) as [Hne|Hne].
        -- exists rs. rewrite revision_of_upsert, bool_decide_true by done. split; [done|].
           apply Hrs. unfold entry_in. rewrite Hs. cbn. by rewrite Hne.
        -- exists x. by rewrite revision_of_upsert, bool_decide_false.
      * intros s s' ->. by left.
    + destruct Hu as (old & new & Ho & _ & _ & Hs & Hw). split; [|by destruct Hw as [t ->]].
      intros n. unfold entry_in, status_in. rewrite Ho, (wrote_lookup _ _ _ Hw).
      cbn [fmap option_fmap option_map mbind option_bind]. rewrite Hs. exact (revision_of_upsert _ _ _).
Qed.

(** ** One revision *)

Definition listed (mr : ModelRepository) (n : string) : option RevisionStatus :=
  revision_of (mst_AvailableRevisions (mr_Status mr)) n.
Definition same_repo (mr mr' : ModelRepository) : Prop :=
  mr_Meta mr' = mr_Meta mr /\ mr_Spec mr' = mr_Spec mr.

Lemma same_this mr mr' : same_repo mr mr' -> this_repo mr -> this_repo mr'.
Proof. unfold this_repo, mr_Name. by intros [-> ->]. Qed.

(** A pointer to the status of the revision [n]. *)
Definition points (mr : ModelRepository) (n : string) (p : rev_ptr) : Prop :=
  match p with
  | InRepo i => findRevisionStatus mr n = Some i
  | Fresh rs => rs_Name rs = n /\ listed mr n = None
  end.

Lemma listed_found mr n i :
  findRevisionStatus mr n = Some i ->
  listed mr n = Some (deref mr (InRepo i)) /\ rs_Name (deref mr (InRepo i)) = n.
Proof.
  intros Hi. destruct (find_revision_lookup _ _ _ Hi) as (rs & Hl & Hn).
  assert (Hd : deref mr (InRepo i) = rs) by (cbn; by apply nth_lookup_Some with (d := rev_zero) in Hl).
  rewrite Hd. split; [|done]. unfold listed, revision_of. unfold findRevisionStatus in Hi. by rewrite Hi.
Qed.

Lemma listed_missing mr n : findRevisionStatus mr n = None -> listed mr n = None.
Proof. unfold listed, revision_of, findRevisionStatus. by intros ->. Qed.

Lemma assign_spec mr p phase n mr' p' :
  points mr n p -> assign_status mr p phase = (mr', p') ->
  same_repo mr mr' /\ rs_Name (deref mr' p') = n /\ rs_Status (deref mr' p') = phase /\
  (forall n', n' <> n -> listed mr' n' = listed mr n') /\
  (is_Some (listed mr n) -> exists rs, listed mr' n = Some rs /\ rs_Status rs = phase).
Proof.
  intros Hp Ha. destruct p as [i|rs]; cbn in Ha; injection Ha as <- <-.
  - cbn in Hp. set (mr' := mr_with_Status _ mr).
    assert (Hi : findRevisionStatus mr' n = Some i) by (unfold findRevisionStatus, mr'; cbn; by rewrite find_revision_alter).
    destruct (listed_found _ _ _ Hi) as [Hl Hn]. destruct (listed_found _ _ _ Hp) as [Hl0 _].
    assert (Hrev : forall n', listed mr' n' =
      (if bool_decide (n' = n) then rs_with_Status phase <$> listed mr n else listed mr n'))
      by (intros n'; unfold listed, mr'; cbn; by apply revision_of_alter).
    pose proof (Hrev n) as Hr. rewrite bool_decide_true, Hl0, Hl in Hr by done. cbn [fmap option_fmap option_map] in Hr.
    assert (Hd : deref mr' (InRepo i) = rs_with_Status phase (deref mr (InRepo i))) by congruence.
    split; [done|]. split; [done|]. split; [by rewrite Hd|]. split.
    + intros n' Hne. by rewrite Hrev, bool_decide_false.
    + intros _. eexists. split; [exact Hl|]. by rewrite Hd.
  - destruct Hp as [Hn Hnone]. split; [done|]. split; [done|]. split; [done|]. split; [done|].
    rewrite Hnone. by intros [].
Qed.

(** The job that is made. *)
Lemma download_job_made mr p rev n :
  this_repo mr -> downloadable_spec -> job_name rev = Done n ->
  exists j, createRevisionDownloadJob OperatorNamespace mr p rev = Done (Ok j) /\
    meta_key (job_Meta j) = (ns, n) /\ meta_OwnerReferences (job_Meta j) = [] /\
    job_Succeeded j = 0%Z /\ job_Failed j = 0%Z.
Proof.
  intros (Hn & _ & _ & Hs) Hspec Hj. unfold job_name in Hj. unfold createRevisionDownloadJob. rewrite Hn, Hj.
  cbn [mbind outcome_bind]. pose proof (spec_origin Hspec) as Ho.
  assert (Hso : src_Origin (mrs_Source (mr_Spec mr)) = src_Origin (mrs_Source spec)) by (rewrite Hs; done).
  rewrite Hso. destruct (manifest_ok _ "download" Ho) as (app & image & cmd & envs & rq & lm & Hm); [by left|].
  change ("download" +:+ "_job") with "download_job" in Hm. rewrite Hm.
  unfold AdaptDownloadJob, adaptModelRepositoryJob. cbn [jc_ModelRepo]. rewrite Hso.
  destruct (getOriginConfig _ "download" mr) as [file path] eqn:Ec.
  cbn [job_Pod job_template pod_Containers].
  set (script := if bool_decide _ then _ else _).
  assert (exists text, script = Ok text) as [text ->].
  { unfold script. case_bool_decide; [by eexists|].
    destruct (script_ok _ "download" mr Ho) as [text Ht]; [by left|]. rewrite Ec in Ht. by exists text. }
  cbn. eexists. split; [reflexivity|]. done.
Qed.

(** What dealing with the revision [rev] leaves, in the cluster and in the
    repository the controller works on. *)
Record dealt_with (rev : RevisionReference) (c : cluster) (mr : ModelRepository)
    (c' : cluster) (mr' : ModelRepository) : Prop := {
  dealt_advances : advances c c';
  dealt_same : same_repo mr mr';
  dealt_entered : entered c' rev;
  dealt_entries n : n <> rev_Name rev -> entry_in c' n = entry_in c n /\ listed mr' n = listed mr n;
  dealt_jobs rev' : rev' ∈ desired -> rev' <> rev -> job_in c' rev' = job_in c rev';
  dealt_ready : entered c rev -> downloaded c' rev /\
    exists rs, listed mr' (rev_Name rev) = Some rs /\ rs_Status rs = DownloadPhaseReady;
}.

(** Recording a phase for it: the end of every branch. *)
Lemma mark_leads {A} rev mr mr' p p' phase c (f : err_opt -> prog A) (Q : A -> cluster -> Prop) :
  live c -> this_repo mr -> points mr (rev_Name rev) p -> assign_status mr p phase = (mr', p') ->
  (phase = DownloadPhaseReady \/ ~ downloaded c rev) ->
  (forall c', advances c c' -> same_repo mr mr' ->
     (exists rs, entry_in c' (rev_Name rev) = Some rs /\ rs_Status rs = phase) ->
     (forall n, n <> rev_Name rev -> entry_in c' n = entry_in c n /\ listed mr' n = listed mr n) ->
     cl_jobs c' = cl_jobs c ->
     (is_Some (listed mr (rev_Name rev)) ->
        exists rs, listed mr' (rev_Name rev) = Some rs /\ rs_Status rs = phase) ->
     leads mem (f None) c' Q) ->
  leads mem (prog_bind (updateRevisionStatus mr' (deref mr' p')) f) c Q.
Proof.
  intros Hc Hm Hp Ha Hph HQ. destruct (assign_spec _ _ _ _ _ _ Hp Ha) as (H1 & H2 & H3 & H4 & H5).
  apply leads_bind. eapply leads_conseq.
  - apply (upsert_leads mr' _ c); [by apply (same_this _ _ H1 Hm)|done|]. rewrite H2, H3.
    intros old Ho Hr. destruct Hph as [->|Hnot]; [done|]. exfalso. apply Hnot. by exists old.
  - intros r c' (-> & Hadv & He & Hj). apply HQ; try done.
    + eexists. rewrite He, H2, bool_decide_true by done. by split.
    + intros n Hne. split; [|by apply H4]. rewrite He, H2, bool_decide_false; [done|congruence].
Qed.

Lemma live_add_job c rev n j :
  live c -> job_name rev = Done n -> cl_jobs c !! (ns, n) = None ->
  advances c (set_jobs (<[(ns, n) := j]> (cl_jobs c)) c).
Proof.
  intros Hc Hn Hnone. split.
  - split; [apply Hc..|]. intros rev' m Hr Hm. cbn. rewrite lookup_insert_ne; [by eapply live_cleanup|].
    intros [= E]. exact (generateJobName_types_disjoint _ _ _ _ _ _ Hn Hm E).
  - split; cbn; [done|done|by apply insert_subseteq| |done..]. intros m rs Hrs. by exists rs.
Qed.

Lemma job_in_other c c' rev rev' n :
  downloadable_spec -> rev ∈ desired -> rev' ∈ desired -> rev' <> rev -> job_name rev = Done n ->
  (forall k, k <> (ns, n) -> cl_jobs c' !! k = cl_jobs c !! k) -> job_in c' rev' = job_in c rev'.
Proof.
  intros Hspec Hr Hr' Hne Hn Hk. unfold job_in. destruct (job_name rev') as [m|] eqn:E; [|done].
  apply Hk. intros [= ->]. apply Hne. apply (spec_distinct Hspec); [done..|congruence].
Qed.

Lemma launch_leads c mr p rev ptr :
  live c -> this_repo mr -> downloadable_spec -> rev ∈ desired -> job_in c rev = None ->
  points mr (rev_Name rev) ptr -> ~ downloaded c rev ->
  leads mem (launch_download_job OperatorNamespace mr p rev ptr) c (fun r c' => exists mr' running,
    r = (mr', (running, None, None)) /\ dealt_with rev c mr c' mr').
Proof.
  intros Hc Hm Hspec Hr Hjob Hp Hnot. destruct (spec_jobs Hspec _ Hr) as [n Hn].
  unfold job_in in Hjob. rewrite Hn in Hjob.
  destruct (download_job_made mr p rev n Hm Hspec Hn) as (j & Hj & Hk & Ho & _).
  unfold launch_download_job. cbv zeta. rewrite Hj. cbn [lift prog_bind].
  destruct (SetControllerReference_new (mr_Meta mr) (job_Meta j) Ho) as [m' Hm'].
  { right. apply Hm. }
  rewrite Hm'. destruct (owner_rest _ _ _ Hm') as [E1 E2].
  destruct (assign_status mr ptr DownloadPhaseDownloading) as [mr' p'] eqn:Ha.
  eapply leads_call.
  { cbn [mem]. replace (meta_key (job_Meta (job_with_Meta m' j))) with (ns, n)
      by (rewrite <- Hk; unfold meta_key; cbn; congruence).
    unfold st_create. rewrite Hjob. reflexivity. }
  cbn beta iota. set (c1 := set_jobs _ c).
  pose proof (live_add_job c rev n (job_with_Meta m' j) Hc Hn Hjob) as Hadd. fold c1 in Hadd.
  eapply (mark_leads rev mr mr' ptr p'); [apply Hadd|done|done|exact Ha| |].
  { right. intros Hd. apply Hnot. exact Hd. }
  intros c' Hadv Hsame (rs & Hrs & Hph) Hent Hjobs Hloc. cbn. exists mr', true. split; [done|].
  assert (Hin : is_Some (job_in c' rev)).
  { unfold job_in. rewrite Hn, Hjobs. unfold c1. cbn. rewrite lookup_insert_eq. by eexists. }
  split; [by eapply repo_advances_trans|done|by exists rs; auto|exact Hent| |].
  - intros rev' Hr' Hne. eapply job_in_other; [done|exact Hr|done..|exact Hn|]. intros k Hk'. rewrite Hjobs.
    unfold c1. cbn. by rewrite lookup_insert_ne.
  - intros (rs0 & H0 & [Hready|[j0 Hj0]]).
    + destruct Hnot. by exists rs0.
    + unfold job_in in Hj0. rewrite Hn in Hj0. congruence.
Qed.

(** The whole of a revision. *)
Lemma reconcileRevision_leads c mr p rev :
  live c -> this_repo mr -> downloadable_spec -> rev ∈ desired ->
  (forall j, job_in c rev = Some j -> (0 < job_Succeeded j)%Z) ->
  listed mr (rev_Name rev) = entry_in c (rev_Name rev) ->
  leads mem (reconcileRevision OperatorNamespace mr p rev) c (fun r c' => exists mr' running,
    r = (mr', (running, None, None)) /\ dealt_with rev c mr c' mr').
Proof.
  intros Hc Hm Hspec Hr Hjobs Hlist. destruct (spec_jobs Hspec _ Hr) as [n Hn].
  unfold reconcileRevision. cbv zeta. set (ready := match _ with Some p => _ | None => false end).
  assert (Hready : ready = true <-> downloaded c rev).
  { unfold ready, downloaded. rewrite <- Hlist. destruct (findRevisionStatus mr (rev_Name rev)) as [i|] eqn:Ef; cbn.
    - destruct (listed_found _ _ _ Ef) as [Hl _]. rewrite Hl, bool_decide_eq_true. cbn. naive_solver.
    - rewrite (listed_missing _ _ Ef). naive_solver. }
  destruct ready.
  { cbn. pose proof (proj1 Hready eq_refl) as (rs & Hrs & Hs). exists mr, false. split; [done|].
    split; [by apply advances_refl|done|by exists rs; auto|done|done|]. intros _.
    split; [by exists rs|]. exists rs. by rewrite Hlist. }
  assert (Hnot : ~ downloaded c rev) by (intros Hd; by apply Hready in Hd).
  pose proof Hm as (Hname & _). unfold job_name in Hn. rewrite Hname, Hn. cbn [lift prog_bind].
  fold ns. eapply leads_call; [reflexivity|]. unfold st_get.
  assert (Hj0 : job_in c rev = cl_jobs c !! (ns, n)) by (unfold job_in, job_name; by rewrite Hn).
  rewrite <- Hj0. destruct (job_in c rev) as [j|] eqn:Ej.
  - (* its job has succeeded *)
    unfold handleJobStatus. rewrite (proj2 (Z.ltb_lt _ _) (Hjobs j eq_refl)).
    set (ptr := ensureRevStatus rev _).
    assert (Hp : points mr (rev_Name rev) ptr).
    { unfold ptr. destruct (findRevisionStatus mr (rev_Name rev)) eqn:Ef; cbn; [done|].
      split; [done|]. by apply listed_missing. }
    destruct (assign_status mr ptr DownloadPhaseReady) as [mr' p'] eqn:Ha.
    eapply (mark_leads rev mr mr' ptr p'); [done..|by left|].
    intros c' Hadv Hsame (rs & Hrs & Hph) Hent Hj Hloc. cbn. exists mr', false. split; [done|].
    split; [done|done|by exists rs; auto|exact Hent| |].
    + intros rev' _ _. unfold job_in. by rewrite Hj.
    + intros (rs0 & H0 & _). split; [by exists rs|]. apply Hloc. rewrite Hlist, H0. by eexists.
  - (* it has none *)
    change (IsNotFound (fail NotFound "not found")) with true. unfold createDownloadJob, deleteStaleCleanupJob.
    destruct (spec_cleanup Hspec _ Hr) as [m Hm']. rewrite Hname, Hm'. cbn [lift prog_bind]. fold ns.
    eapply leads_call; [reflexivity|]. unfold st_get. rewrite (live_cleanup _ Hc _ _ Hr Hm').
    change (IsNotFound (fail NotFound "not found")) with true. cbn [prog_bind].
    destruct (findRevisionStatus mr (rev_Name rev)) as [i|] eqn:Ef; cbn [fmap option_fmap option_map].
    + by apply launch_leads.
    + apply listed_missing in Ef. pose proof Ef as Hentry. rewrite Hlist in Hentry.
      set (rs := mkRevisionStatus _ _ DownloadPhasePending). apply leads_bind. eapply leads_conseq.
      * apply (upsert_leads mr rs c); [done..|]. cbn [rs rs_Name]. congruence.
      * intros e c1 (-> & Hadv & Hent & Hj). cbn beta iota.
        assert (Hj1 : forall rev', job_in c1 rev' = job_in c rev') by (intros rev'; unfold job_in; by rewrite Hj).
        assert (He1 : entry_in c1 (rev_Name rev) = Some rs) by (by rewrite Hent, bool_decide_true).
        eapply leads_conseq.
        -- apply (launch_leads c1 mr p rev (Fresh rs)); [apply Hadv|done..|by rewrite Hj1|done|].
           intros (x & Hx & Hs). rewrite He1 in Hx. by injection Hx as <-.
        -- intros r c' (mr' & running & -> & [D1 D2 D3 D4 D5 D6]). exists mr', running. split; [done|].
           split; [by eapply repo_advances_trans|done|done| | |].
           ++ intros n' Hne. destruct (D4 n' Hne) as [-> ->]. split; [|done].
              rewrite Hent, bool_decide_false; [done|]. cbn. congruence.
           ++ intros rev' Hr' Hne. by rewrite D5, Hj1.
           ++ intros (x & Hx & _). congruence.
Qed.

(** ** All revisions *)

Lemma this_desired mr : this_repo mr -> getDesiredRevisions mr = desired.
Proof.
  intros (_ & _ & _ & Hs). unfold desired, getDesiredRevisions, getCurrentRevision. cbn. by rewrite Hs.
Qed.

Lemma desired_inj rev rev' :
  downloadable_spec -> rev ∈ desired -> rev' ∈ desired -> rev_Name rev = rev_Name rev' -> rev = rev'.
Proof.
  intros Hspec H1 H2 E. pose proof (spec_revisions Hspec) as Hnd.
  apply list_elem_of_lookup in H1 as [i Hi]. apply list_elem_of_lookup in H2 as [k Hk].
  assert (i = k) as ->; [|congruence].
  eapply (NoDup_lookup (map rev_Name desired)); [done|..]; rewrite list_lookup_fmap;
    [by rewrite Hi|rewrite Hk; cbn; by rewrite E].
Qed.

(** Where the loop is: the revisions [pre] have been dealt with, the others are
    in the repository the controller works on as they are in the cluster. *)
Definition loop_at (c : cluster) (pre : list RevisionReference) (mr : ModelRepository) (w : cluster) : Prop :=
  advances c w /\ this_repo mr /\ Forall (entered w) pre /\
  (forall rev, rev ∈ desired -> rev ∉ pre ->
     listed mr (rev_Name rev) = entry_in w (rev_Name rev) /\ job_in w rev = job_in c rev) /\
  (Forall (entered c) desired -> Forall (fun rev => downloaded w rev /\
     exists rs, listed mr (rev_Name rev) = Some rs /\ rs_Status rs = DownloadPhaseReady) pre).

Lemma loop_step c pre rev mr w w' mr' :
  downloadable_spec -> (forall x, x ∈ pre ++ [rev] -> x ∈ desired) -> rev ∉ pre ->
  loop_at c pre mr w -> dealt_with rev w mr w' mr' -> loop_at c (pre ++ [rev]) mr' w'.
Proof.
  intros Hspec Hin Hnew (L1 & L2 & L3 & L4 & L5) [D1 D2 D3 D4 D5 D6].
  assert (Hr : rev ∈ desired) by (apply Hin, elem_of_app; right; by left).
  assert (Hne : forall x, x ∈ desired -> x <> rev -> rev_Name x <> rev_Name rev)
    by (intros x Hx Hd E; by apply Hd, desired_inj).
  split; [by eapply repo_advances_trans|]. split; [by eapply same_this|]. split; [|split].
  - apply Forall_app. split; [|by constructor]. eapply Forall_impl; [exact L3|].
    intros x. apply grows_entered, D1.
  - intros x Hx Hnx. rewrite not_elem_of_app, not_elem_of_cons in Hnx. destruct Hnx as (Hx1 & Hx2 & _).
    destruct (L4 x Hx Hx1) as [E1 E2]. destruct (D4 _ (Hne x Hx Hx2)) as [E3 E4].
    rewrite E3, E4, (D5 x Hx Hx2). done.
  - intros Hall. apply Forall_app. split.
    + eapply Forall_impl; [apply Forall_and; split; [exact (L5 Hall)|]|].
      * apply (Forall_forall (fun x => x ∈ desired /\ x <> rev)). intros x Hx. split.
        -- apply Hin, elem_of_app. by left.
        -- by intros ->.
      * intros x [[H1 H2] [Hx Hd]]. split; [by eapply grows_downloaded; [apply D1|]|].
        by rewrite (proj2 (D4 _ (Hne x Hx Hd))).
    + constructor; [|done]. apply D6. eapply grows_entered; [apply L1|]. by eapply Forall_forall in Hall.
Qed.

Lemma all_ready_listed mr :
  Forall (fun rev => exists rs, listed mr (rev_Name rev) = Some rs /\ rs_Status rs = DownloadPhaseReady) desired ->
  all_ready mr desired = true.
Proof.
  intros H. unfold all_ready. apply forallb_forall. intros rev Hin. apply list_elem_of_In in Hin.
  eapply Forall_forall in H as (rs & Hl & Hs); [|exact Hin].
  destruct (findRevisionStatus mr (rev_Name rev)) as [i|] eqn:E.
  - destruct (listed_found _ _ _ E) as [Hl' _]. apply bool_decide_eq_true.
    assert (deref mr (InRepo i) = rs) as -> by congruence. done.
  - apply listed_missing in E. congruence.
Qed.

Definition phase_ready (c : cluster) : Prop :=
  exists s, status_in c = Some s /\ mst_Phase s = DownloadPhaseReady.

Lemma overall_phase_leads mr running c :
  live c -> this_repo mr ->
  leads mem (updateOverallPhase mr desired running) c (fun _ c' => advances c c' /\
    (all_ready mr desired = true -> phase_ready c')).
Proof.
  intros Hc Hm. unfold updateOverallPhase. destruct (all_ready mr desired) eqn:E.
  - eapply leads_conseq; [apply setCondition_leads; [apply Hm|done]|].
    intros r c' (Ha & s & now & _ & Hs). split; [done|]. intros _. eexists. split; [exact Hs|].
    cbn. unfold deriveModelRepoPhase. set (k := condition _ _ _ _).
    destruct (Find_Set_eq now (mst_Conditions s) k) as (d & Hd & _ & Hst & _).
    change (cond_Type k) with ModelRepoConditionReady in Hd. rewrite Hd. by rewrite bool_decide_true.
  - destruct running; [|by split; [apply advances_refl|]].
    eapply leads_conseq; [apply setCondition_leads; [apply Hm|done]|]. by intros r c' [Ha _].
Qed.

Lemma reconcileRevisions_leads c mr p :
  live c -> this_repo mr -> downloadable_spec ->
  (forall rev j, rev ∈ desired -> job_in c rev = Some j -> (0 < job_Succeeded j)%Z) ->
  (forall n, listed mr n = entry_in c n) ->
  leads mem (reconcileRevisions OperatorNamespace mr p) c (fun r c' => r.2 = None /\ advances c c' /\
    Forall (entered c') desired /\
    (Forall (entered c) desired -> Forall (downloaded c') desired /\ phase_ready c')).
Proof.
  intros Hc Hm Hspec Hjobs Hlist. unfold reconcileRevisions. rewrite (this_desired _ Hm).
  rewrite bool_decide_false.
  2: { unfold desired, getDesiredRevisions. by destruct (src_Revisions _). }
  apply leads_bind. eapply leads_conseq.
  - apply (leads_for_each mem _ _ _ _ (fun pre s w => loop_at c pre s.1 w)
      (fun r w => exists s, r = inl s /\ loop_at c desired s.1 w)).
    + split; [by apply advances_refl|]. do 2 (split; [done|]). split; [|done]. intros rev Hr _. by rewrite Hlist.
    + intros pre rev [mr' running] w [post Hp] Hat. cbn [fst] in Hat.
      assert (Hin : forall x, x ∈ pre ++ [rev] -> x ∈ desired).
      { intros x Hx. rewrite Hp. apply elem_of_app. by left. }
      assert (Hr : rev ∈ desired) by (apply Hin, elem_of_app; right; by left).
      assert (Hnew : rev ∉ pre).
      { pose proof (spec_revisions Hspec) as Hnd. apply NoDup_fmap_1 in Hnd. rewrite Hp in Hnd.
        apply NoDup_app in Hnd as [Hnd _]. apply NoDup_app in Hnd as (_ & Hnd & _).
        intros Hx. apply (Hnd _ Hx). by left. }
      destruct Hat as (L1 & L2 & L3 & L4 & L5). destruct (L4 rev Hr Hnew) as [Hl Hj].
      unfold reconcile_next. apply leads_bind. eapply leads_conseq.
      * apply (reconcileRevision_leads w mr' p rev); [apply L1|done..| |done].
        intros j Hj'. apply (Hjobs rev j Hr). congruence.
      * intros r w' (mr'' & run & -> & Hd). cbn. eapply loop_step; [done..| |exact Hd].
        by split_and!.
    + intros s w Hat. by exists s.
  - intros r w ([mr' running] & -> & L1 & L2 & L3 & _ & L5). cbn [fst] in *.
    apply leads_bind. eapply leads_conseq; [apply overall_phase_leads; [apply L1|done]|].
    intros u c' [Ha Hph].
    assert (Hpost : advances c c' /\ Forall (entered c') desired /\
      (Forall (entered c) desired -> Forall (downloaded c') desired /\ phase_ready c')).
    { split; [by eapply repo_advances_trans|]. split.
      - eapply Forall_impl; [exact L3|]. intros x. apply grows_entered, Ha.
      - intros Hall. specialize (L5 Hall). split.
        + eapply Forall_impl; [exact L5|]. intros x [Hx _]. eapply grows_downloaded; [apply Ha|done].
        + apply Hph, all_ready_listed. eapply Forall_impl; [exact L5|]. by intros x [_ Hx]. }
    by destruct running.
Qed.

(** ** Storage *)

Lemma select_leads c :
  class_available c ->
  leads mem (SelectBestStorageClass (sto_StorageClass (mrs_Storage spec))) c
    (fun r c' => c' = c /\ exists sc, r = Ok sc).
Proof.
  intros [Hne Hp]. unfold SelectBestStorageClass, DiscoverStorageClasses. cbn [prog_bind call leads mem fst snd].
  rewrite bool_decide_false by (by destruct (cl_classes c)). case_bool_decide as Hd.
  - destruct (selectAuto_best (cl_classes c) Hne) as (i & -> & _). cbn. eauto.
  - destruct Hp as [Hp|[Hp|(sc & Hin & Hn)]]; [by destruct Hd; left|by destruct Hd; right|].
    destruct (selectByName _ _) as [i|] eqn:E; [cbn; eauto|]. exfalso.
    assert (H : In (categorizeStorageClass sc) (map categorizeStorageClass (cl_classes c)))
      by (by apply in_map, list_elem_of_In).
    pose proof (List.find_none _ _ E _ H) as Hf. apply bool_decide_eq_false in Hf. apply Hf.
    rewrite <- Hn. unfold categorizeStorageClass. by destruct (categorize_provisioner _).
Qed.

Lemma CreateProvider_leads mr c :
  live c -> this_repo mr -> downloadable_spec ->
  leads mem (CreateProvider mr) c (fun r c' => c' = c /\ exists sc, r = Ok (NewStorageClassProvider mr sc)).
Proof.
  intros Hc (_ & _ & _ & Hs) Hspec. unfold CreateProvider. cbv zeta. rewrite Hs.
  change (mrs_Storage (mrs_with_ModelName _ spec)) with (mrs_Storage spec).
  destruct (spec_size Hspec) as [q Hq]. rewrite bool_decide_false.
  2: { intros E. rewrite E in Hq. destruct ParseQuantity_empty as [e He]. congruence. }
  apply leads_bind. eapply leads_conseq; [apply select_leads, Hc|]. intros r c' [-> [sc ->]]. cbn. eauto.
Qed.

Lemma repo_live_add_claim c pvc :
  live c -> claim_in c = None -> advances c (set_pvcs (<[(ns, claim_name) := pvc]> (cl_pvcs c)) c).
Proof.
  intros Hc Hn. split; [split; apply Hc|].
  assert (Hsub : cl_pvcs c ⊆ <[(ns, claim_name) := pvc]> (cl_pvcs c)) by by apply insert_subseteq.
  split; cbn; [done|done|done| |done| |done| |done].
  - intros n rs Hrs. by exists rs.
  - intros (s & st & pvc' & ref & H1 & H2 & H3 & H4 & Hq). exists s, st, pvc', ref. do 3 (split; [done|]).
    split; [|done]. by apply (grows_backed c).
  - intros k Hk. by rewrite lookup_insert_ne.
Qed.

Lemma create_leads c mr sc :
  live c -> this_repo mr -> downloadable_spec ->
  leads mem (CreateStorage (NewStorageClassProvider mr sc) mr ns) c (fun r c' => r = None /\ advances c c' /\
    cl_jobs c' = cl_jobs c /\ cl_repos c' = cl_repos c /\
    ((is_Some (claim_in c) /\ c' = c) \/
     (claim_in c = None /\ exists pvc, claim_in c' = Some pvc /\ pvc_Phase pvc <> ClaimBound))).
Proof.
  intros Hc (Hn & _ & _ & Hs) Hspec. destruct (spec_size Hspec) as [q Hq]. unfold CreateStorage.
  eapply leads_lift.
  { apply MustParse_ok. unfold NewStorageClassProvider. cbn. rewrite Hs. exact Hq. }
  cbn [p_pvcName NewStorageClassProvider]. rewrite Hn. fold claim_name.
  eapply leads_call; [reflexivity|]. unfold st_get. fold (claim_in c).
  destruct (claim_in c) as [pvc|] eqn:Ec.
  - cbn. split; [done|]. split; [by apply advances_refl|]. split; [done|]. split; [done|]. left. by split; [eexists|].
  - change (IsNotFound (fail NotFound "not found")) with true. cbn [negb call prog_bind leads mem].
    assert (Hk : meta_key (pvc_Meta (repo_pvc (NewStorageClassProvider mr sc) mr ns q)) = (ns, claim_name)).
    { unfold meta_key, repo_pvc. cbn. rewrite (proj1 (AddFinalizer_name _ _)), (proj2 (AddFinalizer_name _ _)).
      cbn. by rewrite Hn. }
    rewrite Hk. unfold st_create. fold (claim_in c). rewrite Ec. cbn [fst snd leads].
    split; [done|]. split; [by apply repo_live_add_claim|]. do 2 (split; [done|]). right. split; [done|].
    eexists. split; [apply lookup_insert_eq|]. done.
Qed.

(** The state of a claim that is bound is recorded; *)
Lemma record_leads c mr sc pvc ref :
  live c -> this_repo mr -> backed c pvc ref ->
  leads mem (updateStorageStatus OperatorNamespace mr (NewStorageClassProvider mr sc)) c (fun r c' => r = None /\
    advances c c' /\ recorded c' /\ cl_jobs c' = cl_jobs c).
Proof.
  intros Hc (Hn & _) Hb. pose proof Hb as (H1 & H2 & H3 & pv & H4 & H5).
  unfold updateStorageStatus, GetStorageStatus. apply leads_bind.
  cbn [p_pvcName NewStorageClassProvider]. rewrite Hn. fold claim_name. fold ns.
  eapply leads_call; [reflexivity|]. unfold st_get. fold (claim_in c). rewrite H1.
  rewrite bool_decide_false by tauto. eapply leads_call; [reflexivity|]. unfold st_get. rewrite H4, H5.
  cbn [leads]. set (st := {| ss_StorageClass := _ |}). eapply leads_conseq.
  - apply (repo_sync_leads mr _ (fun s s' => exists now, s' = apply_storage st now s)); [done|apply Hc|].
    intros s c1 Q HQ. cbn. apply HQ. by eexists.
  - intros r c' [-> Hu]. split; [done|].
    assert (Ha : advances c c').
    { eapply updated_advances; [done..| |].
      - intros s s' n rs [now ->] _ Hrs. by exists rs.
      - intros s s' [now ->]. right. by exists st, pvc, ref. }
    split; [done|]. destruct Hu as (old & new & Ho & _ & _ & [now Hs] & Hw). split; [|by destruct Hw as [t ->]].
    exists (mr_Status new), st, pvc, ref. split; [unfold status_in; by rewrite (wrote_lookup _ _ _ Hw)|].
    rewrite Hs. do 2 (split; [done|]). split; [|done]. apply (grows_backed c); [apply Ha..|done].
Qed.

(** of one that is not bound there is nothing to record. *)
Lemma unbound_leads c mr sc pvc :
  this_repo mr -> claim_in c = Some pvc -> pvc_Phase pvc <> ClaimBound ->
  leads mem (updateStorageStatus OperatorNamespace mr (NewStorageClassProvider mr sc)) c (fun r c' => c' = c /\
    exists e, r = Some e).
Proof.
  intros (Hn & _) Hp Hb. unfold updateStorageStatus, GetStorageStatus. apply leads_bind.
  cbn [p_pvcName NewStorageClassProvider]. rewrite Hn. fold claim_name. fold ns.
  eapply leads_call; [reflexivity|]. unfold st_get. fold (claim_in c). rewrite Hp.
  rewrite bool_decide_true by tauto. cbn. eauto.
Qed.

Lemma reconcileStorage_leads c mr sc :
  live c -> settled c -> this_repo mr -> downloadable_spec -> cl_repos c !! name = Some mr ->
  leads mem (reconcileStorage OperatorNamespace mr (NewStorageClassProvider mr sc)) c (fun r c' =>
    advances c c' /\ is_Some (claim_in c') /\ (is_Some (claim_in c) -> recorded c') /\
    ((exists mr' p, r = (mr', (Some p, None, None)) /\ this_repo mr' /\
        (forall n, listed mr' n = entry_in c' n) /\ cl_jobs c' = cl_jobs c) \/
     (exists res, r = (mr, (None, Some res, None)) /\ claim_in c = None))).
Proof.
  intros Hc Hset Hm Hspec Hl. unfold reconcileStorage. pose proof Hm as (Hn & _ & _ & Hs).
  destruct (spec_size Hspec) as [q Hq].
  assert (Hv : ValidateConfig (NewStorageClassProvider mr sc) = None).
  { unfold ValidateConfig. cbn. rewrite Hs. cbn. rewrite bool_decide_false, Hq; [done|].
    intros E. rewrite E in Hq. destruct ParseQuantity_empty as [e He]. congruence. }
  rewrite Hv. fold ns. apply leads_bind. eapply leads_conseq; [by apply create_leads|].
  intros r c1 (-> & Ha & Hj & Hr & Hcase). apply leads_bind. destruct Hcase as [[Hsome ->]|(Hnone & pvc & Hpvc & Hunb)].
  - destruct (settled_claim _ Hset Hsome) as (pvc & ref & Hb).
    eapply leads_conseq; [by eapply record_leads|]. intros r c2 (-> & Ha2 & Hrec & Hj2).
    destruct (live_repo _ (proj1 Ha2)) as (mr2 & Hl2 & Hm2). rewrite Hn.
    eapply leads_call; [reflexivity|]. unfold st_get. rewrite Hl2. apply leads_bind.
    eapply leads_conseq; [apply CreateProvider_leads; [apply Ha2|done..]|]. intros r c3 [-> [sc2 ->]]. cbn [leads].
    split; [done|]. split; [|split; [done|]].
    + destruct Hsome as [v Hv']. exists v. unfold claim_in in *. by eapply lookup_weaken, Ha2.
    + left. eexists mr2, _. split; [done|]. split; [done|]. split; [|done].
      intros n. unfold listed, entry_in, status_in. by rewrite Hl2.
  - eapply leads_conseq; [by eapply unbound_leads|]. intros r c2 (-> & e & ->).
    assert (Hclaim : is_Some (claim_in c1)) by by eexists.
    assert (Hvac : is_Some (claim_in c) -> recorded c1) by (rewrite Hnone; by intros []).
    destruct (IsShared _); cbn [negb leads]; (split; [done|]); (split; [done|]); (split; [done|]).
    + left. eexists mr, _. split; [done|]. split; [done|]. split; [|done].
      intros n. unfold listed, entry_in, status_in. by rewrite Hr, Hl.
    + right. by eexists.
Qed.

(** ** The pass *)

(** What a pass achieves, from [c]. *)
Record pass_from (c c' : cluster) : Prop := {
  pass_advances : advances c c';
  pass_names : named c';
  pass_claims : named c -> is_Some (claim_in c');
  pass_enters : named c -> is_Some (claim_in c) -> Forall (entered c') desired;
  pass_readies : named c -> is_Some (claim_in c) -> Forall (entered c) desired -> ready c';
}.

Lemma steps_leads c mr sc :
  live c -> settled c -> this_repo mr -> downloadable_spec -> cl_repos c !! name = Some mr -> named c ->
  leads mem (reconcile_steps OperatorNamespace mr (NewStorageClassProvider mr sc)) c
    (fun r c' => r.2 = None /\ pass_from c c').
Proof.
  intros Hc Hset Hm Hspec Hl Hnamed. unfold reconcile_steps. apply leads_bind.
  eapply leads_conseq; [by apply reconcileStorage_leads|].
  intros r c1 (Ha & Hclaim & Hrec & [(mr' & p & -> & Hm' & Hlist & Hj)|(res & -> & Hnone)]).
  - pose proof Hm' as (_ & _ & _ & Hs). rewrite Hs.
    change (mrs_AutoDownload (mrs_with_ModelName _ spec)) with (mrs_AutoDownload spec).
    rewrite (spec_auto Hspec). cbn [negb]. eapply leads_conseq.
    + apply (reconcileRevisions_leads c1 mr' p); [apply Ha|done|done| |done].
      intros rev j Hr Hj'. apply (settled_jobs _ Hset rev j Hr). unfold job_in in *. by rewrite Hj in Hj'.
    + intros r c' (Hr & Ha' & Hent & Hready). split; [done|].
      assert (Hadv : advances c c') by by eapply repo_advances_trans.
      split; [done|by apply (grows_named _ _ (proj2 Hadv))| |done|].
      * intros _. destruct Hclaim as [v Hv]. exists v. unfold claim_in in *. by eapply lookup_weaken, Ha'.
      * intros _ Hcl Hall. destruct Hready as [H1 H2].
        { eapply Forall_impl; [exact Hall|]. intros x. apply grows_entered, Ha. }
        split; [exact H2|]. split; [exact H1|]. by apply (grows_recorded _ _ (proj2 Ha')), Hrec.
  - cbn. split; [done|]. split; [done|by apply (grows_named _ _ (proj2 Ha))|done|..];
      rewrite Hnone; by intros _ [].
Qed.

(** Writing the repository itself: its spec or its finalizers. *)
Lemma live_write_repo c mr mr' :
  live c -> cl_repos c !! name = Some mr -> this_repo mr' -> mr_Status mr' = mr_Status mr ->
  (mrs_ModelName (mr_Spec mr) <> EmptyString -> mrs_ModelName (mr_Spec mr') <> EmptyString) ->
  advances c (set_repos (<[name := mr']> (cl_repos c)) c).
Proof.
  intros Hc Hl Hm Hs Hn. set (c' := set_repos _ c).
  assert (Hl' : cl_repos c' !! name = Some mr') by apply lookup_insert_eq.
  assert (Hst : status_in c' = status_in c) by (unfold status_in; rewrite Hl, Hl'; cbn; by rewrite Hs).
  split; [split; [by exists mr'|apply Hc..]|]. split; [done|done|done| | | | |done|done].
  - intros n rs. unfold entry_in. rewrite Hst. intros Hrs. by exists rs.
  - intros (m & Hm0 & Hne). exists mr'. split; [done|]. apply Hn. congruence.
  - unfold recorded. rewrite Hst. done.
  - intros r Hr. cbn. by rewrite lookup_insert_ne.
Qed.

(** The pass from a repository with a name for its model. *)
Lemma named_leads c mr :
  live c -> settled c -> downloadable_spec -> cl_repos c !! name = Some mr -> this_repo mr ->
  mrs_ModelName (mr_Spec mr) <> EmptyString ->
  leads mem (RepoController.Reconcile OperatorNamespace name) c (fun r c' => r.2 = None /\ pass_from c c').
Proof.
  intros Hc Hset Hspec Hl Hm Hne. pose proof Hm as (Hn & Hns & Hd & Hs).
  unfold RepoController.Reconcile. eapply leads_call; [reflexivity|]. unfold st_get. rewrite Hl.
  rewrite bool_decide_false by done. apply leads_bind.
  eapply leads_conseq; [by apply CreateProvider_leads|]. intros r c1 [-> [sc ->]].
  rewrite bool_decide_false by (by rewrite Hd; intros []).
  assert (Hnamed : named c) by by exists mr.
  destruct (ContainsFinalizer _ _); cbn [negb]; [by apply steps_leads|].
  pose proof (AddFinalizer_rest (mr_Meta mr) ModelRepositoryFinalizer) as Hrest.
  destruct (same_but_finalizers_name _ _ Hrest) as (Hn' & Hns' & _).
  destruct (same_but_finalizers_version _ _ Hrest) as [Hv' Hd'].
  cbn [call prog_bind leads mem]. unfold mr_Name in *. cbn [mr_Meta mr_with_Meta]. rewrite Hn', Hn.
  rewrite (st_update_fresh mr_Meta mr_with_Meta) with (old := mr);
    [|first [done|cbn; congruence]..]. cbn [fst snd].
  set (mr1 := bump _ _ _). set (c1 := set_repos _ c).
  assert (Hm1 : this_repo mr1).
  { unfold mr1, this_repo, mr_Name. cbn. by rewrite Hn', Hns', Hd'. }
  assert (Ha : advances c c1) by by eapply (live_write_repo c mr mr1).
  (* the provider was made for the repository as it was before *)
  change (NewStorageClassProvider mr sc) with (NewStorageClassProvider (mr_with_Meta (mr_Meta mr) mr1) sc).
  assert (Hp : NewStorageClassProvider (mr_with_Meta (mr_Meta mr) mr1) sc = NewStorageClassProvider mr1 sc).
  { unfold NewStorageClassProvider, mr_Name. cbn. by rewrite Hn'. }
  rewrite Hp. eapply leads_conseq.
  - apply (steps_leads c1 mr1 sc); [apply Ha| |done|done|apply lookup_insert_eq|].
    + destruct Hset as [Hs1 Hs2]. by split.
    + exists mr1. split; [apply lookup_insert_eq|done].
  - intros r c' [Hr [H1 H2 H3 H4 H5]]. split; [done|].
    split; [by eapply repo_advances_trans|done|by intros _; apply H3, Ha|..].
    + intros _ Hcl. apply H4; [by apply Ha|done].
    + intros _ Hcl Hall. apply H5; [by apply Ha|done|]. eapply Forall_impl; [exact Hall|].
      intros x. apply grows_entered, Ha.
Qed.

(** A first pass may fill in the name only. *)
Lemma Repo_Reconcile_leads c :
  live c -> settled c -> downloadable_spec ->
  leads mem (RepoController.Reconcile OperatorNamespace name) c (fun r c' => r.2 = None /\ pass_from c c').
Proof.
  intros Hc Hset Hspec. destruct (live_repo _ Hc) as (mr & Hl & Hm).
  destruct (decide (mrs_ModelName (mr_Spec mr) = EmptyString)) as [He|Hne]; [|by eapply named_leads].
  pose proof Hm as (Hn & Hns & Hd & Hs).
  unfold RepoController.Reconcile. eapply leads_call; [reflexivity|]. unfold st_get. rewrite Hl.
  rewrite bool_decide_true by done. cbv zeta. cbn [call prog_bind leads mem].
  unfold mr_Name in *. cbn [mr_Meta mr_with_Spec]. rewrite Hn.
  rewrite (st_update_fresh mr_Meta mr_with_Meta) with (old := mr); [|done..].
  cbn [fst snd leads]. split; [done|]. set (mr1 := bump _ _ _). set (c1 := set_repos _ c).
  assert (Hm1 : this_repo mr1).
  { unfold mr1, this_repo, this_spec. cbn. split_and!; [done..|]. rewrite Hs. by destruct spec. }
  assert (Ha : advances c c1).
  by by eapply (live_write_repo c mr mr1).
  assert (Hno : ~ named c) by (intros (m & Hm0 & H); congruence).
  split; [done| |by intros ?%Hno..]. exists mr1. split; [apply lookup_insert_eq|].
  unfold mr1. cbn. apply Hspec.
Qed.

End Pass.
