(* ===== verification/RepoDeletion.v ===== *)
(** * What a pass over a repository that is being deleted achieves

    handleDeletion of the ModelRepository controller against the in-memory API
    server, with the rules of Leads.v: when no engine references the repository
    any more, it deletes the jobs, and gives the claim and the repository up.
    Teardown.v goes on from there. *)

From S2P Require Import Prelude Naming Api Kube Machinery MemServer Frames Leads Release StorageDiscovery Backend.
From S2P Require Import StorageProvider Jobs RepoStatus RepoController RepoProgress.

Local Open Scope go_scope.

Section Pass.
Context `{L : MachineryLaws} `{Sc : Scripts} `{Rg : GoRange}.
Context (OperatorNamespace name : string).

Let ns := operator_namespace OperatorNamespace.

(** ** The jobs *)

(** The jobs of the repository, by their label, and where they are. *)
Definition jobs_of (c : cluster) : list Job :=
  filter (fun j => meta_Namespace (job_Meta j) = ns /\ {[name_label := name]} ⊆ meta_Labels (job_Meta j))
    (map_to_list (cl_jobs c)).*2.
Definition job_key (j : Job) : key := meta_key (job_Meta j).

(** Deleted: gone, unless somebody holds it. *)
Definition deleted (old new : option Job) : Prop :=
  new = None \/ exists j x, old = Some j /\ new = Some (job_with_Meta x j) /\ meta_DeletionTimestamp x <> None.

Definition jobs_deleted (ks : list key) (m m' : gmap key Job) : Prop :=
  forall k, if decide (k ∈ ks) then deleted (m !! k) (m' !! k) else m' !! k = m !! k.

Lemma delete_job_leads k c (Q : err_opt -> cluster -> Prop) :
  (forall e m, jobs_deleted [k] (cl_jobs c) m -> Q e (set_jobs m c)) ->
  leads mem (call (DeleteJob k.1 k.2)) c Q.
Proof.
  intros HQ. cbn. destruct (st_delete _ _ _ _ _) as [e m] eqn:E. cbn. apply HQ. clear HQ.
  unfold st_delete in E. intros k'. destruct k as [a b]. cbn in E.
  destruct (cl_jobs c !! (a, b)) as [j|] eqn:Ej; [case_bool_decide|]; injection E as <- <-; case_decide as Hin;
    rewrite list_elem_of_singleton in Hin; subst; rewrite ?Ej, ?lookup_delete_eq, ?lookup_insert_eq; try by left.
  - by rewrite lookup_delete_ne.
  - right. by eexists _, _.
  - by rewrite lookup_insert_ne.
  - done.
Qed.

Lemma deleted_again o o1 o2 : deleted o o1 -> deleted o1 o2 -> deleted o o2.
Proof.
  intros [->|(j & x & -> & -> & Hx)] [->|(j' & x' & Hj & -> & Hx')]; [by left|done|by left|].
  injection Hj as <-. right. by exists j, x'.
Qed.

Lemma jobs_deleted_app ks ks' m m1 m2 :
  jobs_deleted ks m m1 -> jobs_deleted ks' m1 m2 -> jobs_deleted (ks ++ ks') m m2.
Proof.
  intros H1 H2 k. specialize (H1 k). specialize (H2 k).
  destruct (decide (k ∈ ks ++ ks')) as [Hin|Hin]; rewrite elem_of_app in Hin;
    destruct (decide (k ∈ ks)), (decide (k ∈ ks')); try tauto; try congruence.
  by eapply deleted_again.
Qed.

Lemma delete_jobs_leads mr c :
  mr_Name mr = name ->
  leads mem (delete_jobs OperatorNamespace mr) c (fun _ c' => exists m, c' = set_jobs m c /\
    jobs_deleted (map job_key (jobs_of c)) (cl_jobs c) m).
Proof.
  intros Hn. unfold delete_jobs. rewrite Hn. eapply leads_call; [reflexivity|]. cbn beta iota. fold ns.
  change (filter _ _) with (jobs_of c). apply leads_bind.
  apply (leads_for_each mem _ _ _ _ (fun pre _ c' => exists m, c' = set_jobs m c /\
    jobs_deleted (map job_key pre) (cl_jobs c) m)).
  - exists (cl_jobs c). split; [by destruct c|]. intros k. rewrite decide_False; [done|]. apply not_elem_of_nil.
  - intros pre j [] c1 _ (m & -> & Hm). apply leads_bind.
    apply (delete_job_leads (job_key j)). intros e m' Hm'. cbn. exists m'. split; [done|].
    rewrite map_app. by eapply jobs_deleted_app.
  - intros [] c1 (m & -> & Hm). by exists m.
Qed.

(** ** The claim *)

Lemma Cleanup_leads p c :
  (forall pvc, cl_pvcs c !! (ns, p_pvcName p) = Some pvc -> meta_key (pvc_Meta pvc) = (ns, p_pvcName p)) ->
  leads mem (Cleanup p ns) c (fun e c' => e = None /\ exists m, c' = set_pvcs m c /\
    given_up StorageProtectionFinalizer pvc_Meta pvc_with_Meta [(ns, p_pvcName p)] (cl_pvcs c) m).
Proof.
  intros Hkey. unfold Cleanup, delete_repo_pvc. eapply leads_call; [reflexivity|]. unfold st_get.
  destruct (cl_pvcs c !! (ns, p_pvcName p)) as [pvc|] eqn:E.
  - specialize (Hkey pvc eq_refl).
    destruct (same_but_finalizers_name _ _ (RemoveFinalizer_rest (pvc_Meta pvc) StorageProtectionFinalizer))
      as (Hn & Hs & _).
    destruct (st_release StorageProtectionFinalizer pvc_Meta pvc_with_Meta (fun _ _ => eq_refl)
      (fun _ _ _ => eq_refl) (cl_clock c) (ns, p_pvcName p) pvc (cl_pvcs c) E)
      as (new & m1 & Hu & e & m2 & Hd & He & Hg).
    cbn [prog_bind call leads mem]. unfold meta_key in *. cbn [pvc_Meta pvc_with_Meta].
    rewrite Hn, Hs, Hkey, Hu. cbn [fst snd to_opt prog_bind call leads mem cl_pvcs cl_clock set_pvcs].
    rewrite Hd. cbn [fst snd]. destruct He as [->|(e' & -> & He')]; [|rewrite He'];
      cbn; (split; [done|]); by exists m2.
  - cbn. unfold st_delete. rewrite E. cbn. split; [done|]. exists (cl_pvcs c). split; [by destruct c|].
    apply given_up_at; [done|]. by rewrite E.
Qed.

(** ** Giving the repository up *)

Lemma remove_finalizer_leads mr c :
  cl_repos c !! name = Some mr -> mr_Name mr = name -> meta_DeletionTimestamp (mr_Meta mr) <> None ->
  leads mem (remove_finalizer name) c (fun r c' => r = None /\ exists m, c' = set_repos m c /\
    given_up ModelRepositoryFinalizer mr_Meta mr_with_Meta [name] (cl_repos c) m).
Proof.
  intros Hmr Hname Hdel. unfold remove_finalizer. eapply leads_call; [reflexivity|]. unfold st_get. rewrite Hmr.
  destruct (st_strip ModelRepositoryFinalizer mr_Meta mr_with_Meta (fun _ _ => eq_refl) (fun _ _ _ => eq_refl)
    _ mr (fun old new => mr_with_Status (mr_Status old) new) _ Hmr Hdel) as (new & m & Hu & Hg); [by destruct mr|].
  destruct (same_but_finalizers_name _ _ (RemoveFinalizer_rest (mr_Meta mr) ModelRepositoryFinalizer)) as (Hn & _).
  cbn [prog_bind call leads mem]. unfold mr_Name in *. cbn [mr_Meta mr_with_Meta]. rewrite Hn, Hname, Hu.
  cbn. split; [done|]. by exists m.
Qed.

(** ** The pass *)

(** The provider can be made: there is a size and a StorageClass.  (Else the
    claim stays: handleDeletion gets no provider.) *)
Definition providable (mr : ModelRepository) (c : cluster) : Prop :=
  sto_Size (mrs_Storage (mr_Spec mr)) <> EmptyString /\ class_available (mr_Spec mr) c.

(** What it leaves. *)
Record repo_left (c c' : cluster) : Prop := {
  left_repo : given_up ModelRepositoryFinalizer mr_Meta mr_with_Meta [name] (cl_repos c) (cl_repos c');
  left_claim : given_up StorageProtectionFinalizer pvc_Meta pvc_with_Meta [(ns, claim_name name)]
    (cl_pvcs c) (cl_pvcs c');
  left_jobs : jobs_deleted (map job_key (jobs_of c)) (cl_jobs c) (cl_jobs c');
  left_others : c' = set_repos (cl_repos c') (set_pvcs (cl_pvcs c') (set_jobs (cl_jobs c') c));
}.

Lemma no_dependents engines :
  (forall e, e ∈ engines -> references name e = false) -> dependent_engines name engines = [].
Proof.
  intros He. unfold dependent_engines. induction engines as [|e engines IH]; [done|]. cbn.
  rewrite (He e) by by left. apply IH. intros e' Hin. apply He. by right.
Qed.

Lemma Repo_Reconcile_deleted_leads mr c :
  tidy c -> cl_repos c !! name = Some mr -> meta_DeletionTimestamp (mr_Meta mr) <> None ->
  mrs_ModelName (mr_Spec mr) <> EmptyString -> providable mr c ->
  (forall k e, cl_engines c !! k = Some e -> references name e = false) ->
  leads mem (RepoController.Reconcile OperatorNamespace name) c (fun r c' => r = (no_requeue, None) /\ repo_left c c').
Proof.
  intros Hc Hmr Hdel Hmodel [Hsize Hclass] Hfree. destruct (tidy_repos _ Hc _ _ Hmr) as [Hname _].
  unfold Reconcile. eapply leads_call; [reflexivity|]. unfold st_get. rewrite Hmr.
  rewrite bool_decide_false by done. unfold CreateProvider. cbv zeta. rewrite bool_decide_false by done.
  do 2 apply leads_bind. eapply leads_conseq; [by apply select_leads|]. intros r c0 [-> [sc ->]].
  cbn [leads]. rewrite bool_decide_true by done. apply leads_bind. unfold handleDeletion.
  eapply leads_call; [reflexivity|]. cbn beta iota zeta. rewrite Hname, no_dependents.
  2: { intros e He. rewrite list_elem_of_fmap in He. destruct He as ([k e'] & -> & Hin).
       apply elem_of_map_to_list in Hin. by eapply Hfree. }
  rewrite bool_decide_false by (by intros []). apply leads_bind. fold ns.
  eapply leads_conseq; [by apply delete_jobs_leads|]. intros _ c1 (jobs & -> & Hjobs). apply leads_bind.
  assert (Hp : p_pvcName (NewStorageClassProvider mr sc) = claim_name name) by (cbn; by rewrite Hname).
  eapply leads_conseq.
  { apply Cleanup_leads. intros pvc Hpvc. by apply (tidy_claims _ Hc). }
  rewrite Hp. intros e c2 [-> (claims & -> & Hclaims)]. eapply leads_conseq.
  { apply (leads_RetryOnConflict mem (L := L)), (remove_finalizer_leads mr); done. }
  intros e c3 [-> (repos & -> & Hrepos)]. cbn. split; [done|]. by split.
Qed.

End Pass.
