(* ===== verification/RepoSafety.v ===== *)
(** * Safety of the ModelRepository controller

    One guard, [repo_guard], says what every request of a Reconcile needs in its
    past; [Reconcile_wp] proves that every request has it, whatever the API
    server answers.  The properties below are read off it. *)

From S2P Require Import Prelude Naming Api Kube Machinery MemServer StorageDiscovery Backend.
From S2P Require Import StorageProvider Jobs RepoStatus RepoController.

Local Open Scope go_scope.

(** ** The guard *)
Section Guard.
Context `{M : Machinery} `{S : Scripts} `{Rg : GoRange}.
Context (OperatorNamespace name : string).

Let ns := operator_namespace OperatorNamespace.

(** The API server gave this repository for the one that is reconciled: when it was
    read, when the finalizer was added to it, or when it was read again. *)
Inductive own_repo (h : trace) : ModelRepository -> Prop :=
| own_read mr : answered h (GetModelRepository name) (Ok mr) -> own_repo h mr
| own_protected mr mr' :
    answered h (GetModelRepository name) (Ok mr) ->
    answered h (UpdateModelRepository
      (mr_with_Meta (AddFinalizer (mr_Meta mr) ModelRepositoryFinalizer) mr)) (Ok mr') ->
    own_repo h mr'
| own_again mr mr' :
    own_repo h mr -> answered h (GetModelRepository (mr_Name mr)) (Ok mr') -> own_repo h mr'.

Definition own_name (h : trace) (repo : string) : Prop := exists mr, own_repo h mr /\ mr_Name mr = repo.

(** The provider was made for it. *)
Definition own_provider (h : trace) (p : StorageClassProvider) : Prop :=
  exists mr sc, own_repo h mr /\ p = NewStorageClassProvider mr sc.

(** It asks for the revision. *)
Definition wanted (h : trace) (repo revision : string) : Prop :=
  exists mr, own_repo h mr /\ mr_Name mr = repo /\ revision ∈ map rev_Name (getDesiredRevisions mr).

(** The repository is being deleted, and no engine references it. *)
Definition deletable_as (h : trace) (mr : ModelRepository) : Prop :=
  answered h (GetModelRepository name) (Ok mr) /\
  meta_DeletionTimestamp (mr_Meta mr) <> None /\
  exists engines, answered h ListLLMEngines (Ok engines) /\
    dependent_engines (mr_Name mr) engines = [].
Definition deletable (h : trace) : Prop := exists mr, deletable_as h mr.

(** The repository's download job of the revision was seen to have succeeded. *)
Definition job_succeeded (h : trace) (repo revision : string) : Prop :=
  exists n job, generateJobName "download" repo revision = Done n /\
    answered h (GetJob ns n) (Ok job) /\ (0 < job_Succeeded job)%Z.

(** The revision was recorded as ready in the repository, or its job succeeded. *)
Definition revision_ready (h : trace) (mr : ModelRepository) (revision : string) : Prop :=
  job_succeeded h (mr_Name mr) revision \/
  exists rs, revision_of (mst_AvailableRevisions (mr_Status mr)) revision = Some rs /\
    rs_Status rs = DownloadPhaseReady.

(** All the revisions the repository asks for are ready. *)
Definition all_revisions_ready (h : trace) (repo : string) : Prop :=
  exists mr, own_repo h mr /\ mr_Name mr = repo /\
    Forall (fun r => revision_ready h mr (rev_Name r)) (getDesiredRevisions mr).

(** The storage status was read off the repository's claim and its volume. *)
Definition storage_read (h : trace) (st : StorageStatus) : Prop :=
  exists h0 h1 p mr, h = h0 ++ h1 /\ own_provider h p /\ status_of p mr ns h0 (Done (Ok st)).

(** A change of the status of [repo] that the past justifies. *)
Inductive justified (h : trace) (repo : string) (s s' : ModelRepositoryStatus) : Prop :=
| just_condition c :
    by_condition c s s' ->
    (cond_Type c = ModelRepoConditionReady -> cond_Status c = ConditionTrue ->
       all_revisions_ready h repo) ->
    justified h repo s s'
| just_revision rs :
    by_upsert rs s s' ->
    wanted h repo (rs_Name rs) ->
    (rs_Status rs = DownloadPhaseReady -> job_succeeded h repo (rs_Name rs)) ->
    justified h repo s s'
| just_storage st now :
    s' = apply_storage st now s -> storage_read h st -> justified h repo s s'.

(** The job was looked for, and is not there. *)
Definition no_job (h : trace) (n : string) : Prop :=
  exists e, answered h (GetJob ns n) (Err e) /\ IsNotFound e = true.

(** A job that is the download job of a revision the repository asks for, of which
    neither a download nor a cleanup job exists. *)
Definition justified_job (h : trace) (job : Job) : Prop :=
  exists mr p rev n c j,
    own_repo h mr /\ own_provider h p /\ rev ∈ getDesiredRevisions mr /\
    generateJobName "download" (mr_Name mr) (rev_Name rev) = Done n /\ no_job h n /\
    generateJobName "cleanup" (mr_Name mr) (rev_Name rev) = Done c /\ no_job h c /\
    createRevisionDownloadJob OperatorNamespace mr p rev = Done (Ok j) /\
    SetControllerReference (mr_Meta mr) (job_Meta j) = Ok (job_Meta job) /\
    job = job_with_Meta (job_Meta job) j.

(** The cleanup job of a revision the repository asks for, that has no download
    job yet. *)
Definition stale_cleanup (h : trace) (c : string) : Prop :=
  exists mr rev n job, own_repo h mr /\ rev ∈ getDesiredRevisions mr /\
    generateJobName "download" (mr_Name mr) (rev_Name rev) = Done n /\ no_job h n /\
    generateJobName "cleanup" (mr_Name mr) (rev_Name rev) = Done c /\
    answered h (GetJob ns c) (Ok job).

(** A job of a repository that goes, and its claim. *)
Definition deletable_job (h : trace) (ns' n : string) : Prop :=
  exists mr jobs job, deletable_as h mr /\
    answered h (ListJobs ns {[name_label := mr_Name mr]}) (Ok jobs) /\ job ∈ jobs /\
    ns' = meta_Namespace (job_Meta job) /\ n = meta_Name (job_Meta job).
Definition deletable_claim (h : trace) (n : string) : Prop :=
  exists mr, deletable_as h mr /\ n = mr_Name mr +:+ "-storage".

Definition repo_guard (h : trace) (r : req) : Prop :=
  match r with
  | UpdateModelRepository o =>
      (exists mr, answered h (GetModelRepository name) (Ok mr) /\
         (o = mr_with_Spec (mrs_with_ModelName (mr_Name mr) (mr_Spec mr)) mr \/
          o = mr_with_Meta (AddFinalizer (mr_Meta mr) ModelRepositoryFinalizer) mr)) \/
      (exists mr fresh, deletable_as h mr /\ answered h (GetModelRepository (mr_Name mr)) (Ok fresh) /\
         o = mr_with_Meta (RemoveFinalizer (mr_Meta fresh) ModelRepositoryFinalizer) fresh)
  | UpdateModelRepositoryStatus o =>
      exists repo fresh st, own_name h repo /\ answered h (GetModelRepository repo) (Ok fresh) /\
        o = mr_with_Status st fresh /\ st <> mr_Status fresh /\
        justified h repo (mr_Status fresh) st
  | CreateJob job => justified_job h job
  | DeleteJob ns' n => deletable_job h ns' n \/ (ns' = ns /\ stale_cleanup h n)
  | CreatePVC pvc =>
      exists p e, own_provider h p /\ protected_pvc p ns pvc /\
        answered h (GetPVC ns (meta_Name (pvc_Meta pvc))) (Err e) /\ IsNotFound e = true
  | UpdatePVC o =>
      exists n pvc, deletable_claim h n /\ answered h (GetPVC ns n) (Ok pvc) /\
        o = pvc_with_Meta (RemoveFinalizer (pvc_Meta pvc) StorageProtectionFinalizer) pvc
  | DeletePVC ns' n => ns' = ns /\ deletable_claim h n
  | _ => is_read r = true
  end.

(** *** A longer past justifies more *)
Section Mono.
Context (h h' : trace).

Lemma own_repo_app mr : own_repo h mr -> own_repo (h ++ h') mr.
Proof.
  induction 1; [apply own_read|eapply own_protected|eapply own_again]; eauto with go.
Qed.

Lemma own_name_app repo : own_name h repo -> own_name (h ++ h') repo.
Proof. intros (mr & H1 & H2). exists mr. by split; [apply own_repo_app|]. Qed.

Lemma own_provider_app p : own_provider h p -> own_provider (h ++ h') p.
Proof. intros (mr & sc & H1 & H2). exists mr, sc. by split; [apply own_repo_app|]. Qed.

Lemma wanted_app repo rev : wanted h repo rev -> wanted (h ++ h') repo rev.
Proof. intros (mr & H1 & H2). exists mr. by split; [apply own_repo_app|]. Qed.

Lemma no_job_app n : no_job h n -> no_job (h ++ h') n.
Proof. intros (e & H1 & H2). exists e. auto with go. Qed.

Lemma deletable_as_app mr : deletable_as h mr -> deletable_as (h ++ h') mr.
Proof. intros (H1 & H2 & es & H3 & H4). split_and!; [auto with go|done|]. exists es. auto with go. Qed.

Lemma deletable_app : deletable h -> deletable (h ++ h').
Proof. intros [mr Hd]. exists mr. by apply deletable_as_app. Qed.

Lemma deletable_claim_app n : deletable_claim h n -> deletable_claim (h ++ h') n.
Proof. intros (mr & H1 & H2). exists mr. by split; [apply deletable_as_app|]. Qed.

Lemma job_succeeded_app repo rev : job_succeeded h repo rev -> job_succeeded (h ++ h') repo rev.
Proof. intros (n & job & H1 & H2 & H3). exists n, job. auto with go. Qed.

Lemma revision_ready_app mr rev : revision_ready h mr rev -> revision_ready (h ++ h') mr rev.
Proof. intros [H|H]; [left; by apply job_succeeded_app|by right]. Qed.

Lemma all_revisions_ready_app repo : all_revisions_ready h repo -> all_revisions_ready (h ++ h') repo.
Proof.
  intros (mr & H1 & H2 & H3). exists mr. split; [by apply own_repo_app|]. split; [done|].
  eapply Forall_impl; [done|]. intros r. apply revision_ready_app.
Qed.

Lemma storage_read_app st : storage_read h st -> storage_read (h ++ h') st.
Proof.
  intros (h0 & h1 & p & mr & E & Hp & Hs). exists h0, (h1 ++ h'), p, mr. split; [by rewrite E, app_assoc|].
  split; [by apply own_provider_app|done].
Qed.

Lemma justified_app repo s s' : justified h repo s s' -> justified (h ++ h') repo s s'.
Proof.
  intros [c Hc Hr|rs Hrs Hw Hr|st now Hs Hr].
  - eapply just_condition; [done|]. intros. by apply all_revisions_ready_app, Hr.
  - eapply just_revision; [done|by apply wanted_app|]. intros. by apply job_succeeded_app, Hr.
  - eapply just_storage; [done|by apply storage_read_app].
Qed.

End Mono.

(** *** The pieces the handlers are made of *)
Context {L : MachineryLaws M}.

(** A panic can only come from generating a name. *)
Definition name_panics (m : string) : Prop :=
  exists jobType repo rev, generateJobName jobType repo rev = Panicked m.

Definition post {A} (P : trace -> A -> Prop) (h : trace) (o : outcome A) : Prop :=
  match o with Done a => P h a | Panicked m => name_panics m end.

Lemma sync_ok {A} mr R (p : prog A) h Q :
  own_name h (mr_Name mr) ->
  (forall s s', R s s' -> justified h (mr_Name mr) s s') ->
  wp (sync_guard mr R) p h Q -> wp repo_guard p h Q.
Proof.
  intros Hn HR. apply wp_weaken; [|done]. intros h' r. destruct r; try done.
  intros (fresh & st & H1 & H2 & H3 & H4). exists (mr_Name mr), fresh, st.
  split; [by apply own_name_app|]. repeat (split; [done|]). by apply justified_app, HR.
Qed.

Lemma reads_ok {A} p' ns' (p : prog A) h Q :
  wp (fun _ r => reads_storage p' ns' r) p h Q -> wp repo_guard p h Q.
Proof. apply wp_weaken; [|done]. intros h' r [-> | [n ->]]; done. Qed.

(** Setting a condition other than a true Ready needs no justification. *)
Lemma setCondition_ok mr t s r m h :
  own_name h (mr_Name mr) ->
  (t = ModelRepoConditionReady -> s = ConditionTrue -> all_revisions_ready h (mr_Name mr)) ->
  wp repo_guard (setCondition mr t s r m) h (fun _ o => o = Done tt).
Proof.
  intros Hn Hr. eapply sync_ok; [done| |apply setCondition_wp]. intros st st' Hc.
  by eapply just_condition.
Qed.

Lemma updateRevisionStatus_ok mr rs h :
  wanted h (mr_Name mr) (rs_Name rs) ->
  (rs_Status rs = DownloadPhaseReady -> job_succeeded h (mr_Name mr) (rs_Name rs)) ->
  wp repo_guard (updateRevisionStatus mr rs) h (synced mr (by_upsert rs)).
Proof.
  intros Hw Hr. eapply sync_ok; [| |apply updateRevisionStatus_wp].
  - destruct Hw as (mr0 & H1 & H2 & _). by exists mr0.
  - intros st st' Hc. by eapply just_revision.
Qed.

Lemma updateStorageStatus_ok mr p h :
  own_name h (mr_Name mr) -> own_provider h p ->
  wp repo_guard (updateStorageStatus OperatorNamespace mr p) h (post (fun _ _ => True)).
Proof.
  intros Hn Hp. unfold updateStorageStatus. apply wp_bind.
  eapply reads_ok, wp_conseq; [apply GetStorageStatus_wp|].
  intros h' [[st|e]|m] Hs; [|done..].
  eapply (sync_ok _ (fun s s' => exists now, s' = apply_storage st now s)).
  - by apply own_name_app.
  - intros s s' [now ->]. eapply just_storage; [done|]. exists (h ++ h'), [], p, mr.
    split; [by rewrite app_nil_r|]. split; [by apply own_provider_app|done].
  - eapply wp_conseq; [apply syncStatus_wp; [done|]|].
    + intros s h''. repeat wp_step; cbn; [done|]. by eexists.
    + by intros h'' [e|m].
Qed.

Lemma CreateStorage_ok p mr h :
  own_provider h p -> ValidateConfig p = None ->
  wp repo_guard (CreateStorage p mr ns) h (post (fun _ _ => True)).
Proof.
  intros Ho Hv. eapply wp_weaken; [..|apply (CreateStorage_wp p mr ns h)].
  - intros h' r. destruct r; try done. intros (Hp & e & [h0 He] & Hn). cbn in *.
    exists p, e. split; [by apply own_provider_app|]. split; [done|].
    destruct Hp as (_ & -> & _). split; [|done]. rewrite He. auto with go.
  - intros h' [a|m]; cbn; [done|]. by intros H.
Qed.

Lemma Cleanup_ok p h :
  deletable_claim h (p_pvcName p) -> wp repo_guard (Cleanup p ns) h (post (fun _ _ => True)).
Proof.
  intros Hd. eapply wp_weaken; [..|apply (Cleanup_wp p ns h)].
  - intros h' r. destruct r; try done; cbn.
    + intros (pvc & [h0 He] & ->). exists (p_pvcName p), pvc. split; [by apply deletable_claim_app|].
      rewrite He. auto with go.
    + intros (-> & -> & _). split; [done|]. by apply deletable_claim_app.
  - by intros h' [a|m].
Qed.

(** *** The repository in memory *)

(** It is one the API server returned, but for revision statuses, and a revision
    it has as ready is ready. *)
Definition with_revisions (l : list RevisionStatus) (mr : ModelRepository) : ModelRepository :=
  mr_with_Status (mst_with_AvailableRevisions l (mr_Status mr)) mr.
Definition mem_repo (h : trace) (mr : ModelRepository) : Prop :=
  exists mr0, own_repo h mr0 /\ mr = with_revisions (mst_AvailableRevisions (mr_Status mr)) mr0 /\
    forall n rs, revision_of (mst_AvailableRevisions (mr_Status mr)) n = Some rs ->
      rs_Status rs = DownloadPhaseReady -> revision_ready h mr0 n.

Lemma mem_repo_app h h' mr : mem_repo h mr -> mem_repo (h ++ h') mr.
Proof.
  intros (mr0 & H1 & H2 & H3). exists mr0. split; [by apply own_repo_app|]. split; [done|].
  intros n rs Hn Hr. by eapply revision_ready_app, H3.
Qed.

Lemma own_mem_repo h mr : own_repo h mr -> mem_repo h mr.
Proof.
  intros Hs. exists mr. split; [done|]. split; [by destruct mr as [? ? []]|]. intros n rs Hn Hr. right. by exists rs.
Qed.

Lemma mem_repo_name h mr : mem_repo h mr -> own_name h (mr_Name mr).
Proof. intros (mr0 & H1 & -> & _). by exists mr0. Qed.

Lemma mem_repo_wanted h mr rev :
  mem_repo h mr -> rev ∈ getDesiredRevisions mr -> wanted h (mr_Name mr) (rev_Name rev).
Proof.
  intros (mr0 & H1 & -> & _) Hr. exists mr0. split; [done|]. split; [done|]. by apply list_elem_of_fmap_2.
Qed.

Lemma mem_repo_desired h mr :
  mem_repo h mr ->
  (forall r, r ∈ getDesiredRevisions mr -> exists rs,
     revision_of (mst_AvailableRevisions (mr_Status mr)) (rev_Name r) = Some rs /\ rs_Status rs = DownloadPhaseReady) ->
  all_revisions_ready h (mr_Name mr).
Proof.
  intros (mr0 & H1 & H2 & H3) HF. exists mr0. split; [done|]. split; [by rewrite H2|].
  apply Forall_forall. intros r Hr. destruct (HF r) as (rs & Hrs & Hready); [by rewrite H2|by eapply H3].
Qed.

(** The controller's pointer for a name. *)
Definition ptr_for (mr : ModelRepository) (n : string) (p : rev_ptr) : Prop :=
  match p with
  | InRepo i => findRevisionStatus mr n = Some i
  | Fresh rs => rs_Name rs = n
  end.

Lemma deref_in_repo mr n i :
  findRevisionStatus mr n = Some i ->
  revision_of (mst_AvailableRevisions (mr_Status mr)) n = Some (deref mr (InRepo i)) /\
  rs_Name (deref mr (InRepo i)) = n.
Proof.
  unfold findRevisionStatus. intros Hi.
  destruct (find_revision_lookup _ _ _ Hi) as (rs & Hl & Hn).
  unfold revision_of, deref. rewrite Hi. cbn. rewrite Hl.
  by rewrite (nth_lookup_Some _ _ _ _ Hl).
Qed.

Lemma assign_status_spec h mr n p phase :
  mem_repo h mr -> ptr_for mr n p -> (phase = DownloadPhaseReady -> job_succeeded h (mr_Name mr) n) ->
  let '(mr', p') := assign_status mr p phase in
  mem_repo h mr' /\ ptr_for mr' n p' /\
  rs_Name (deref mr' p') = n /\ rs_Status (deref mr' p') = phase /\
  mr' = mr_with_Status (mr_Status mr') mr.
Proof.
  intros (mr0 & H1 & H2 & Hr) Hp Hphase. destruct p as [i|rs]; cbn in *.
  - unfold findRevisionStatus in Hp. destruct (find_revision_lookup _ _ _ Hp) as (rs & Hl & Hn).
    set (l := mst_AvailableRevisions (mr_Status mr)) in *.
    assert (Hp' : find_revision (alter (rs_with_Status phase) i l) n = Some i)
      by by rewrite find_revision_alter.
    split.
    + exists mr0. split; [done|]. split; [by rewrite H2|].
      intros n' rs'. cbn [mr_Status mr_with_Status mst_AvailableRevisions mst_with_AvailableRevisions].
      rewrite (revision_of_alter _ _ _ _ _ Hp).
      case_bool_decide as Hn'; [subst n'|by apply Hr].
      intros Hx Hs. left. rewrite H2 in Hphase. apply Hphase. destruct (revision_of l n); cbn in Hx; [|done]. by simplify_eq.
    + split; [done|]. rewrite (nth_lookup_Some _ _ _ (rs_with_Status phase rs)).
      * done.
      * fold l. by rewrite list_lookup_alter_eq, Hl.
  - split; [by exists mr0|]. repeat (split; [done|]). by destruct mr.
Qed.

(** What a handler of one revision leaves. *)
Definition rev_post (mr0 : ModelRepository) (h : trace) (r : rev_result) : Prop :=
  mem_repo h r.1 /\ r.1 = mr_with_Status (mr_Status r.1) mr0.

(** Assigning a status and writing it out. *)
Lemma assign_update_ok h mr n p phase :
  mem_repo h mr -> wanted h (mr_Name mr) n -> ptr_for mr n p ->
  (phase = DownloadPhaseReady -> job_succeeded h (mr_Name mr) n) ->
  let '(mr', q) := assign_status mr p phase in
  (forall h' x, rev_post mr (h ++ h') (mr', x)) /\
  forall h', wp repo_guard (updateRevisionStatus mr' (deref mr' q)) (h ++ h') (post (fun _ _ => True)).
Proof.
  intros Hm Hw Hp Hjs. pose proof (assign_status_spec h mr n p phase Hm Hp Hjs) as Ha.
  destruct (assign_status _ _ _) as [mr' q]. destruct Ha as (H1 & H2 & H3 & H4 & H5).
  split; [intros h' x; split; [by apply mem_repo_app|done]|].
  intros h'. assert (E : mr_Name mr' = mr_Name mr) by by rewrite H5.
  eapply wp_conseq; [apply updateRevisionStatus_ok|by intros ? [e|m]]; rewrite E, H3.
  - by apply wanted_app.
  - rewrite H4. intros. by apply job_succeeded_app, Hjs.
Qed.

(** Assign, write the status out whatever comes of it, and go on. *)
Lemma assign_update_then {B} (Q : trace -> outcome B -> Prop) h mr n p phase
    (k : ModelRepository -> prog B) :
  mem_repo h mr -> wanted h (mr_Name mr) n -> ptr_for mr n p ->
  (phase = DownloadPhaseReady -> job_succeeded h (mr_Name mr) n) ->
  (forall mr' h', (forall h'' x, rev_post mr (h ++ h' ++ h'') (mr', x)) ->
     wp repo_guard (k mr') (h ++ h') Q) ->
  (forall h' m, name_panics m -> Q h' (Panicked m)) ->
  wp repo_guard
    (let '(mr', q) := assign_status mr p phase in
     let! _ := updateRevisionStatus mr' (deref mr' q) in k mr') h Q.
Proof.
  intros Hm Hw Hp Hjs Hk HQ. pose proof (assign_update_ok h mr n p phase Hm Hw Hp Hjs) as Ha.
  destruct (assign_status mr p phase) as [mr' q]. destruct Ha as [H1 H2].
  apply wp_bind. specialize (H2 []). rewrite app_nil_r in H2. eapply wp_conseq; [exact H2|].
  intros h' [e|m] Ho; [|by apply HQ]. apply Hk. intros h'' x. apply H1.
Qed.

Lemma rev_post_name mr h r : rev_post mr h r -> own_name h (mr_Name r.1).
Proof. intros [H _]. by apply mem_repo_name. Qed.

Lemma handleJobStatus_ok mr rev p n job h :
  mem_repo h mr -> rev ∈ getDesiredRevisions mr -> (forall q, p = Some q -> ptr_for mr (rev_Name rev) q) ->
  generateJobName "download" (mr_Name mr) (rev_Name rev) = Done n ->
  answered h (GetJob ns n) (Ok job) ->
  wp repo_guard (handleJobStatus mr rev p job) h (post (rev_post mr)).
Proof.
  intros Hm Hrev Hp Hn Hj. pose proof (mem_repo_wanted _ _ _ Hm Hrev) as Hw.
  assert (Hq : ptr_for mr (rev_Name rev) (ensureRevStatus rev p)).
  { destruct p as [q|]; cbn; [by apply Hp|done]. }
  unfold handleJobStatus.
  destruct (0 <? job_Succeeded job)%Z eqn:Es; [|destruct (0 <? job_Failed job)%Z].
  - pose proof (assign_update_ok h mr _ _ DownloadPhaseReady Hm Hw Hq) as Ha.
    destruct (assign_status _ _ _) as [mr' q]. destruct Ha as [H1 H2].
    { intros _. exists n, job. repeat (split; [done|]). lia. }
    apply wp_bind. specialize (H2 []). rewrite app_nil_r in H2. eapply wp_conseq; [exact H2|].
    intros h' [[e|]|m] Ho; cbn; [apply (H1 h')..|done].
  - apply (assign_update_then _ h mr (rev_Name rev)); [done..| |done].
    intros mr' h' H1. apply wp_bind. eapply wp_conseq.
    { apply setCondition_ok; [|done]. specialize (H1 [] (false, None, None)). rewrite app_nil_r in H1.
      exact (rev_post_name _ _ _ H1). }
    intros h'' o ->. cbn. rewrite <- app_assoc. apply H1.
  - destruct (match p with Some _ => _ | None => _ end).
    + cbn. split; [done|by destruct mr].
    + apply (assign_update_then _ h mr (rev_Name rev)); [done..| |done].
      intros mr' h' H1. cbn. specialize (H1 [] (true, None, None)). by rewrite app_nil_r in H1.
Qed.

(** The templates have a container. *)
Lemma createRevisionDownloadJob_panics mr p rev m :
  createRevisionDownloadJob OperatorNamespace mr p rev = Panicked m -> name_panics m.
Proof.
  unfold createRevisionDownloadJob.
  destruct (generateJobName _ _ _) as [n|w] eqn:En; cbn [mbind outcome_bind];
    [|intros [= <-]; by repeat eexists].
  destruct (LoadModelRepositoryJobManifest _ _) as [job|err] eqn:Em; [|done].
  apply manifest_template in Em as (? & ? & ? & ? & ? & ? & ->).
  unfold AdaptDownloadJob. destruct (adapt_template (mkJobContext mr p (Some rev) n
    (operator_namespace OperatorNamespace) (mrs_DownloadImage (mr_Spec mr))
    (mrs_DownloadScripts (mr_Spec mr))) "download" x x0 x1 x2 x3 x4) as [r ->]. done.
Qed.

(** The revisions' status does not go into a job. *)
Lemma createRevisionDownloadJob_revisions l mr p rev :
  createRevisionDownloadJob OperatorNamespace (with_revisions l mr) p rev =
  createRevisionDownloadJob OperatorNamespace mr p rev.
Proof. reflexivity. Qed.

Lemma launch_download_job_ok mr p rev q n c h :
  mem_repo h mr -> own_provider h p -> ptr_for mr (rev_Name rev) q -> rev ∈ getDesiredRevisions mr ->
  generateJobName "download" (mr_Name mr) (rev_Name rev) = Done n -> no_job h n ->
  generateJobName "cleanup" (mr_Name mr) (rev_Name rev) = Done c -> no_job h c ->
  wp repo_guard (launch_download_job OperatorNamespace mr p rev q) h (post (rev_post mr)).
Proof.
  intros Hm Hprov Hq Hrev Hn He Hc He'. unfold launch_download_job. cbv zeta.
  pose proof (mem_repo_wanted _ _ _ Hm Hrev) as Hw.
  apply wp_lift; [intros r Hr|intros m Hr; by eapply createRevisionDownloadJob_panics].
  assert (Hend : forall h' phase x, phase <> DownloadPhaseReady ->
    wp repo_guard
      (let '(mr', q) := assign_status mr q phase in
       let! _ := updateRevisionStatus mr' (deref mr' q) in Ret (mr', x)) (h ++ h')
      (post (rev_post mr))).
  { intros h' phase x Hphase.
    apply (assign_update_then _ (h ++ h') mr (rev_Name rev));
      [by apply mem_repo_app|by apply wanted_app|done..| |done].
    intros mr' h'' H1. cbn. specialize (H1 [] x). by rewrite app_nil_r in H1. }
  destruct r as [j|err]; [|specialize (Hend [] DownloadPhaseFailed); rewrite app_nil_r in Hend; by apply Hend].
  destruct (SetControllerReference _ _) as [meta|err] eqn:Es.
  - apply wp_call.
    + destruct Hm as (mr0 & H1 & H2 & _). rewrite H2 in Hrev, Hn, Hc, Hr, Es.
      rewrite createRevisionDownloadJob_revisions in Hr.
      exists mr0, p, rev, n, c, j. by repeat (split; [done|]).
    + intros [err|]; [destruct (negb _)|]; by apply Hend.
  - cbn. split; [done|by destruct mr].
Qed.

Definition no_cleanup_job (mr : ModelRepository) (rev : string) (h : trace) : Prop :=
  exists c, generateJobName "cleanup" (mr_Name mr) rev = Done c /\ no_job h c.

Lemma deleteStaleCleanupJob_ok mr rev n h :
  mem_repo h mr -> rev ∈ getDesiredRevisions mr ->
  generateJobName "download" (mr_Name mr) (rev_Name rev) = Done n -> no_job h n ->
  wp repo_guard (deleteStaleCleanupJob OperatorNamespace mr (rev_Name rev)) h
    (post (fun h' r => r = (false, None) -> no_cleanup_job mr (rev_Name rev) h')).
Proof.
  intros Hm Hrev Hn He. unfold deleteStaleCleanupJob.
  apply wp_lift; [intros c Hc|intros m Hpanic; by repeat eexists].
  apply wp_call; [done|]. intros [job|e].
  - apply wp_call.
    + right. split; [done|]. destruct Hm as (mr0 & H1 & H2 & _). rewrite H2 in Hrev, Hn, Hc.
      exists mr0, rev, n, job. split; [by apply own_repo_app|]. do 2 (split; [done|]).
      split; [by apply no_job_app|]. auto with go.
    + intros [e|]; [destruct (IsNotFound e)|]; done.
  - destruct (IsNotFound e) eqn:E; cbn; [|done]. intros _. exists c. split; [done|]. exists e. auto with go.
Qed.

Lemma findRevisionStatus_ptr mr n q :
  InRepo <$> findRevisionStatus mr n = Some q -> ptr_for mr n q.
Proof. destruct (findRevisionStatus mr n) as [i|] eqn:E; [|done]. by intros [= <-]. Qed.

Lemma createDownloadJob_ok mr p rev q n h :
  mem_repo h mr -> own_provider h p -> (forall x, q = Some x -> ptr_for mr (rev_Name rev) x) ->
  rev ∈ getDesiredRevisions mr ->
  generateJobName "download" (mr_Name mr) (rev_Name rev) = Done n -> no_job h n ->
  wp repo_guard (createDownloadJob OperatorNamespace mr p rev q) h (post (rev_post mr)).
Proof.
  intros Hm Hprov Hq Hrev Hn He. unfold createDownloadJob.
  apply wp_bind. eapply wp_conseq; [by eapply deleteStaleCleanupJob_ok|].
  intros h' [d|m] Hd; [|done].
  assert (Hpost : forall h' x, rev_post mr (h ++ h') (mr, x)).
  { intros h'' x. split; [by apply mem_repo_app|by destruct mr]. }
  destruct d as [[|] [err|]]; [apply (Hpost h')..|].
  destruct (Hd eq_refl) as (c & Hc & He').
  destruct q as [q|].
  - eapply launch_download_job_ok; eauto using mem_repo_app, own_provider_app, no_job_app.
  - apply wp_bind. eapply wp_conseq.
    { apply updateRevisionStatus_ok; [|done]. apply wanted_app. by apply mem_repo_wanted. }
    intros h'' [[err|]|m] Hs; [|..|done].
    + cbn. rewrite <- app_assoc. apply Hpost.
    + rewrite <- app_assoc in *.
      eapply launch_download_job_ok; eauto using mem_repo_app, own_provider_app, no_job_app.
      * done.
      * rewrite app_assoc. by apply no_job_app.
Qed.

Lemma reconcileRevision_ok mr p rev h :
  mem_repo h mr -> own_provider h p -> rev ∈ getDesiredRevisions mr ->
  wp repo_guard (reconcileRevision OperatorNamespace mr p rev) h (post (rev_post mr)).
Proof.
  intros Hm Hprov Hrev. unfold reconcileRevision. cbv zeta.
  destruct (match InRepo <$> _ with Some _ => _ | None => _ end).
  { cbn. split; [done|by destruct mr]. }
  apply wp_lift; [intros n Hn|intros m Hpanic; by repeat eexists].
  apply wp_call; [done|]. intros [job|e].
  - eapply handleJobStatus_ok; eauto using mem_repo_app, findRevisionStatus_ptr with go.
  - destruct (IsNotFound e) eqn:E.
    + eapply createDownloadJob_ok; eauto using mem_repo_app, own_provider_app, findRevisionStatus_ptr.
      exists e. auto with go.
    + cbn. split; [by apply mem_repo_app|by destruct mr].
Qed.

Lemma all_ready_spec mr :
  all_ready mr (getDesiredRevisions mr) = true ->
  forall r, r ∈ getDesiredRevisions mr -> exists rs,
    revision_of (mst_AvailableRevisions (mr_Status mr)) (rev_Name r) = Some rs /\ rs_Status rs = DownloadPhaseReady.
Proof.
  intros Hr r Hin%list_elem_of_In. unfold all_ready in Hr.
  apply (proj1 (List.forallb_forall _ _) Hr) in Hin.
  destruct (findRevisionStatus mr (rev_Name r)) as [i|] eqn:E; [|done].
  apply bool_decide_eq_true in Hin. apply deref_in_repo in E as [E _]. by eexists.
Qed.

Lemma updateOverallPhase_ok mr b h :
  mem_repo h mr ->
  wp repo_guard (updateOverallPhase mr (getDesiredRevisions mr) b) h (post (fun _ _ => True)).
Proof.
  intros Hm. pose proof (mem_repo_name _ _ Hm) as Hn. unfold updateOverallPhase.
  destruct (all_ready _ _) eqn:E; [|destruct b; [|done]];
    (eapply wp_conseq; [apply setCondition_ok; [done|]|by intros h' o ->]); [|done].
  intros _ _. eapply mem_repo_desired; [done|]. by eapply all_ready_spec.
Qed.

Lemma reconcileRevisions_ok mr p h :
  mem_repo h mr -> own_provider h p ->
  wp repo_guard (reconcileRevisions OperatorNamespace mr p) h (post (fun _ _ => True)).
Proof.
  intros Hm Hp. unfold reconcileRevisions. cbv zeta. wp_step; [done|].
  apply wp_bind. apply (wp_for_each _ _ _ _ _
    (fun h' s => (mem_repo h' s.1 /\ own_provider h' p) /\ s.1 = mr_with_Status (mr_Status s.1) mr)).
  - split; [done|by destruct mr].
  - intros h' [mr' b] rev Hrev [[Hm' Hp'] Heq]. cbn in Hm', Heq. unfold reconcile_next.
    apply wp_bind. eapply wp_conseq; [apply reconcileRevision_ok; [done..|]|].
    + by rewrite Heq.
    + intros h'' [[mr'' [[run res] err]]|m] Hpost; [|done].
      destruct Hpost as [H1 H2]. cbn in H1, H2.
      destruct res as [res|], err as [err|]; cbn; try done.
      split; [split; [done|by apply own_provider_app]|]. rewrite H2, Heq. done.
  - intros h' [mr' b] [[Hm' _] Heq]. cbn in Hm', Heq. cbn.
    assert (Hd : getDesiredRevisions mr = getDesiredRevisions mr') by by rewrite Heq.
    rewrite Hd. apply wp_bind. eapply wp_conseq.
    + by apply updateOverallPhase_ok.
    + intros h'' [u|m] Hu; [|done]. by destruct b.
Qed.

(** *** Deletion *)

Lemma delete_jobs_ok mr h :
  deletable_as h mr -> wp repo_guard (delete_jobs OperatorNamespace mr) h (post (fun _ _ => True)).
Proof.
  intros Hd. unfold delete_jobs. apply wp_call; [done|]. intros [jobs|e]; [|done].
  apply wp_bind, (wp_for_each _ _ _ _ _ (fun h' _ => deletable_as h' mr /\
    answered h' (ListJobs ns {[name_label := mr_Name mr]}) (Ok jobs))).
  - split; [by apply deletable_as_app|apply answered_snoc].
  - intros h' [] job Hin [Hd' Hl]. apply wp_call; [left; by exists mr, jobs, job|].
    intros e. split; [by apply deletable_as_app|auto with go].
  - done.
Qed.

Lemma remove_finalizer_ok mr h :
  deletable_as h mr -> wp repo_guard (remove_finalizer (mr_Name mr)) h
    (fun h' o => deletable_as h' mr /\ post (fun _ _ => True) h' o).
Proof.
  intros Hd. unfold remove_finalizer. apply wp_call; [done|]. intros [fresh|e].
  - apply wp_call.
    + right. exists mr, fresh. split; [by apply deletable_as_app|]. auto with go.
    + intros [o|e]; cbn; (split; [do 2 apply deletable_as_app; done|done]).
  - cbn. split; [by apply deletable_as_app|done].
Qed.

Lemma handleDeletion_ok mr p h :
  answered h (GetModelRepository name) (Ok mr) ->
  meta_DeletionTimestamp (mr_Meta mr) <> None ->
  (forall q, p = Some q -> p_pvcName q = mr_Name mr +:+ "-storage") ->
  wp repo_guard (handleDeletion OperatorNamespace mr p) h (post (fun _ _ => True)).
Proof.
  intros Hget Hdel Hp. unfold handleDeletion. apply wp_call; [done|]. intros [engines|e]; [|done].
  cbv zeta. wp_step.
  - apply wp_bind. eapply wp_conseq; [apply setCondition_ok; [|done]|by intros h' o ->].
    apply own_name_app. exists mr. by split; [apply own_read|].
  - bool_hyps.
    assert (Hd : deletable_as (h ++ [Ev ListLLMEngines (Ok engines)]) mr).
    { split_and!; [auto with go|done|]. exists engines. auto with go. }
    apply wp_bind. eapply wp_conseq; [by apply delete_jobs_ok|].
    intros h1 [u|m] Hu; [|done]. apply wp_bind. eapply wp_conseq with (Q := post (fun _ _ => True)).
    { destruct p as [p|]; [|done]. apply Cleanup_ok. exists mr. split; [by apply deletable_as_app|by apply Hp]. }
    intros h2 [e|m] He; [|done].
    eapply wp_conseq.
    + apply (wp_RetryOnConflict _ _ _ (fun h => deletable_as h mr) (post (fun _ _ => True)));
        [by do 2 apply deletable_as_app|].
      intros h3 Hd3. by apply remove_finalizer_ok.
    + by intros h3 o [_ Ho].
Qed.

(** *** Storage and the whole *)

Definition storage_post (h : trace)
    (r : ModelRepository * (option StorageClassProvider * option Result * err_opt)) : Prop :=
  match r with
  | (mr, (Some p, None, None)) => mem_repo h mr /\ own_provider h p
  | (_, (None, None, None)) => False
  | _ => True
  end.

Lemma CreateProvider_ok mr h :
  wp repo_guard (CreateProvider mr) h (post (fun _ r => match r with
    | Ok p => exists sc, p = NewStorageClassProvider mr sc
    | Err _ => True
    end)).
Proof.
  eapply wp_conseq; [by apply (CreateProvider_spec mr h repo_guard)|].
  intros h' [[p|e]|m]; [intros (sc & -> & _); by exists sc|done..].
Qed.

(** A condition of the repository in memory, and the end. *)
Lemma condition_then {A} mr t s r m (a : A) h (Q : trace -> outcome A -> Prop) :
  own_name h (mr_Name mr) -> s <> ConditionTrue -> (forall h', Q h' (Done a)) ->
  wp repo_guard (let! _ := setCondition mr t s r m in Ret a) h Q.
Proof.
  intros Hn Hs HQ. apply wp_bind. eapply wp_conseq; [by apply setCondition_ok|]. intros h' o ->. apply HQ.
Qed.

Lemma reconcileStorage_ok mr p h :
  mem_repo h mr -> own_provider h p ->
  wp repo_guard (reconcileStorage OperatorNamespace mr p) h (post storage_post).
Proof.
  intros Hm Hp. pose proof (mem_repo_name _ _ Hm) as Hn. unfold reconcileStorage.
  destruct (ValidateConfig p) eqn:Ev; [by apply condition_then|].
  apply wp_bind. eapply wp_conseq; [by apply CreateStorage_ok|].
  intros h1 [[e|]|m] He; [apply condition_then; [by apply own_name_app|done..]| |done].
  apply wp_bind. eapply wp_conseq; [apply updateStorageStatus_ok; [by apply own_name_app|by apply own_provider_app]|].
  intros h2 [[e|]|m] He'; [| |done].
  { destruct (negb _); cbn; [done|]. split; [by do 2 apply mem_repo_app|by do 2 apply own_provider_app]. }
  apply wp_call; [done|]. intros [mr'|e]; [|done].
  apply wp_bind. eapply wp_conseq; [apply CreateProvider_ok|].
  intros h3 [[p'|e]|m] Hp'; [|done..]. cbn. cbn in Hp'. destruct Hp' as [sc ->].
  set (h' := (((h ++ h1) ++ h2) ++ _) ++ h3).
  assert (Ho : own_repo h' mr').
  { destruct Hm as (mr0 & H1 & H2 & _). eapply own_again; [unfold h'; do 4 apply own_repo_app; exact H1|].
    assert (E : mr_Name mr0 = mr_Name mr) by by rewrite H2. rewrite E. apply answered_app, answered_snoc. }
  split; [by apply own_mem_repo|]. by exists mr', sc.
Qed.

Lemma reconcile_steps_ok mr p h :
  mem_repo h mr -> own_provider h p ->
  wp repo_guard (reconcile_steps OperatorNamespace mr p) h (post (fun _ _ => True)).
Proof.
  intros Hm Hp. unfold reconcile_steps. apply wp_bind.
  eapply wp_conseq; [by apply reconcileStorage_ok|].
  intros h' [[mr' [[[p'|] [res|]] [err|]]]|m] Hs; try done.
  destruct Hs as [Hm1 Hp1]. destruct (negb _); [done|]. by apply reconcileRevisions_ok.
Qed.

Lemma Reconcile_wp h :
  wp repo_guard (Reconcile OperatorNamespace name) h (post (fun _ _ => True)).
Proof.
  unfold Reconcile. apply wp_call; [done|]. intros [mr|e]; [|by destruct (IsNotFound e)].
  wp_step.
  { apply wp_call; [|by intros [o|e]]. left. exists mr. split; [auto with go|by left]. }
  apply wp_bind. eapply wp_conseq; [apply CreateProvider_ok|]. intros h' o Hp.
  assert (Hget : answered ((h ++ [Ev (GetModelRepository name) (Ok mr)]) ++ h') (GetModelRepository name) (Ok mr))
    by auto with go.
  revert Hp Hget. generalize ((h ++ [Ev (GetModelRepository name) (Ok mr)]) ++ h'). clear h h'. intros h Hp Hget.
  pose proof (own_read _ _ Hget) as Hown. destruct o as [[p|e]|m]; [destruct Hp as [sc ->]| |done]; wp_step; bool_hyps.
  - apply wp_bind. eapply wp_conseq; [by apply handleDeletion_ok; [..|intros q [= <-]]|]. by intros h'' [e|m].
  - assert (Hprov : own_provider h (NewStorageClassProvider mr sc)) by by exists mr, sc.
    destruct (negb _); [|apply reconcile_steps_ok; [by apply own_mem_repo|done]].
    apply wp_call.
    + left. exists mr. split; [done|by right].
    + intros [mr'|e]; [|done]. apply reconcile_steps_ok; [|by apply own_provider_app].
      eapply own_mem_repo, own_protected; eauto with go.
  - apply wp_bind. eapply wp_conseq; [by apply handleDeletion_ok|]. by intros h'' [e'|m].
  - apply condition_then; [by exists mr|done..].
Qed.

(** A server that gives the objects asked for. *)
Definition names_kept (h : trace) : Prop :=
  forall mr, (forall n, answered h (GetModelRepository n) (Ok mr) -> mr_Name mr = n) /\
    (forall o, answered h (UpdateModelRepository o) (Ok mr) -> mr_Name mr = mr_Name o).

Lemma own_repo_name h mr : names_kept h -> own_repo h mr -> mr_Name mr = name.
Proof.
  intros Hh. induction 1 as [mr Ha|mr mr' Ha Hu|mr mr' _ IH Ha].
  - exact (proj1 (Hh _) _ Ha).
  - pose proof (proj2 (Hh _) _ Hu) as E. pose proof (proj1 (Hh _) _ Ha) as E'.
    rewrite E. unfold mr_Name. cbn. rewrite (proj1 (AddFinalizer_name _ _)). exact E'.
  - rewrite (proj1 (Hh _) _ Ha). exact IH.
Qed.

Lemma own_name_name h repo : names_kept h -> own_name h repo -> repo = name.
Proof. intros Hh (mr & Hmr & <-). by eapply own_repo_name. Qed.

End Guard.

(** ** Properties *)
Section Properties.
Context `{L : MachineryLaws} `{S : Scripts} `{Rg : GoRange} {W : Type} (srv : server W).
Context (OperatorNamespace name : string).

Lemma guarded_weaken (G G' : trace -> req -> Prop) h t :
  (forall h r, G h r -> G' h r) -> guarded G h t -> guarded G' h t.
Proof.
  intros HG. revert h. induction t as [|[r a] t IH]; intros h; simpl; [done|].
  intros [Hr Ht]. auto.
Qed.

(** What giving up an object needs: of the repository's claim and jobs, and of its
    finalizers, that it is being deleted and that no listed engine references it;
    of a stale cleanup job, that the repository asks for the revision, of which
    there is no download job.  Nothing else is deleted. *)
Definition consent_guard (h : trace) (r : req) : Prop :=
  match r with
  | UpdatePVC o => exists pvc mr, deletable_as name h mr /\
      answered h (GetPVC (operator_namespace OperatorNamespace) (mr_Name mr +:+ "-storage")) (Ok pvc) /\
      o = pvc_with_Meta (RemoveFinalizer (pvc_Meta pvc) StorageProtectionFinalizer) pvc
  | DeletePVC ns n => ns = operator_namespace OperatorNamespace /\ deletable_claim name h n
  | DeleteJob ns n => deletable_job OperatorNamespace name h ns n \/
      (ns = operator_namespace OperatorNamespace /\ stale_cleanup OperatorNamespace name h n)
  | UpdateModelRepository o =>
      deletable name h \/
      exists mr, answered h (GetModelRepository name) (Ok mr) /\
        forall f, f ∈ meta_Finalizers (mr_Meta mr) -> f ∈ meta_Finalizers (mr_Meta o)
  | UpdatePV _ | DeletePV _ | DeleteDeployment _ _ | DeleteService _ _ => False
  | _ => True
  end.

(** Property C8: whatever the API server answers, a Reconcile gives up nothing
    that is in use: it strips or deletes the repository's claim, deletes jobs
    listed under the repository's label, or drops a finalizer of the repository
    only after it read the repository with a deletion timestamp and then a list of
    all engines none of which references it; and apart from these it deletes only
    cleanup jobs of revisions that the repository asks for and that have no
    download job, which it is about to launch. *)
Theorem Reconcile_deletes_only_unused w t o w' :
  run srv (Reconcile OperatorNamespace name) w = (t, o, w') -> guarded consent_guard [] t.
Proof.
  intros Hrun. destruct (wp_run _ _ _ [] _ _ _ _ _ (Reconcile_wp OperatorNamespace name []) Hrun)
    as [HG _]. eapply guarded_weaken; [|exact HG]. intros h r. destruct r; try done.
  - intros [(mr & Hmr & Ho)|(mr & _ & Hd & _)]; [right|left; by exists mr]. exists mr. split; [done|].
    intros f Hf. destruct Ho as [->| ->]; cbn; [done|]. apply AddFinalizer_spec. by right.
  - intros (n & pvc & (mr & Hd & ->) & Ha & Ho). by exists pvc, mr.
Qed.

(** Property C23: whatever the API server answers, a Reconcile creates a job only
    for a revision that the repository it reconciles asks for, as the server gave
    it, under the name generated for the repository and the revision, after the
    server said that neither that job nor the revision's cleanup job exists; the
    job is the adapted download template, on the claim of a provider made for the
    repository, and owned by the repository.  (On a server that gives the objects
    asked for, the repository has the name that is reconciled.) *)
Theorem Reconcile_creates_jobs_once w t o w' :
  run srv (Reconcile OperatorNamespace name) w = (t, o, w') ->
  guarded (fun h r => match r with
    | CreateJob job =>
        exists mr p rev n c j, own_repo name h mr /\ (names_kept h -> mr_Name mr = name) /\
          own_provider name h p /\ rev ∈ getDesiredRevisions mr /\
          generateJobName "download" (mr_Name mr) (rev_Name rev) = Done n /\ no_job OperatorNamespace h n /\
          generateJobName "cleanup" (mr_Name mr) (rev_Name rev) = Done c /\ no_job OperatorNamespace h c /\
          createRevisionDownloadJob OperatorNamespace mr p rev = Done (Ok j) /\
          SetControllerReference (mr_Meta mr) (job_Meta j) = Ok (job_Meta job) /\
          job = job_with_Meta (job_Meta job) j
    | _ => True
    end) [] t.
Proof.
  intros Hrun. destruct (wp_run _ _ _ [] _ _ _ _ _ (Reconcile_wp OperatorNamespace name []) Hrun)
    as [HG _]. eapply guarded_weaken; [|exact HG]. intros h r. destruct r; try done.
  intros (mr & p & rev & n & c & j & Hown & H). exists mr, p, rev, n, c, j. split; [done|].
  split; [|done]. intros Hh. by eapply own_repo_name.
Qed.

(** Property C10: whatever the API server answers, every status a Reconcile writes
    is that of the repository it reconciles, as just read, really changed, and
    honest: only a revision that the repository asks for is recorded, and it
    becomes Ready only after the repository's own download job of that revision
    was seen to have succeeded; the Ready condition becomes true only when each
    revision the repository asks for was recorded in it as Ready or its own job
    was seen to have succeeded; and a storage status was read off a bound claim
    and its volume.  (On a server that gives the objects asked for, the repository
    written is the one of the name that is reconciled.) *)
Theorem Reconcile_status_honest w t o w' :
  run srv (Reconcile OperatorNamespace name) w = (t, o, w') ->
  guarded (fun h r => match r with
    | UpdateModelRepositoryStatus o =>
        exists repo fresh st, own_name name h repo /\ (names_kept h -> repo = name /\ mr_Name o = name) /\
          answered h (GetModelRepository repo) (Ok fresh) /\
          o = mr_with_Status st fresh /\ st <> mr_Status fresh /\
          justified OperatorNamespace name h repo (mr_Status fresh) st
    | _ => True
    end) [] t.
Proof.
  intros Hrun. destruct (wp_run _ _ _ [] _ _ _ _ _ (Reconcile_wp OperatorNamespace name []) Hrun)
    as [HG _]. eapply guarded_weaken; [|exact HG]. intros h r. destruct r; try done.
  intros (repo & fresh & st & Hn & Ha & -> & H). exists repo, fresh, st. split; [done|]. split; [|done].
  intros Hh. pose proof (own_name_name _ _ _ Hh Hn) as ->. split; [done|]. by apply (Hh fresh).
Qed.

(** Whatever the API server answers, a Reconcile ends with a result
    or an error, never in a panic, unless generating a job name panics (which it
    does for names that hash below 2^20): no quantity is parsed that was not
    validated, no template lacks a container, no provider is nil. *)
Theorem Reconcile_panics_only_on_names w t o w' :
  run srv (Reconcile OperatorNamespace name) w = (t, o, w') ->
  match o with
  | Done _ => True
  | Panicked m => exists jobType repo rev, generateJobName jobType repo rev = Panicked m
  end.
Proof.
  intros Hrun. destruct (wp_run _ _ _ [] _ _ _ _ _ (Reconcile_wp OperatorNamespace name []) Hrun)
    as [_ Ho]. by destruct o.
Qed.

(** While an engine references a repository, its deletion is blocked:
    handleDeletion answers with an error, and apart from the list of engines it
    makes only the requests of reporting the Ready condition as false for the
    reason DeletionBlocked. *)
Theorem handleDeletion_blocked mr p w w1 engines t o w' :
  srv ListLLMEngines w = (Ok engines, w1) ->
  dependent_engines (mr_Name mr) engines <> [] ->
  run srv (handleDeletion OperatorNamespace mr p) w = (t, o, w') ->
  exists e t' msg, o = Done (Some e) /\ t = Ev ListLLMEngines (Ok engines) :: t' /\
    guarded (sync_guard mr (by_condition (condition ModelRepoConditionReady ConditionFalse
                                            ModelRepoReasonDeletionBlocked msg))) [] t'.
Proof.
  intros Hl Hd Hrun. unfold handleDeletion in Hrun. cbn [prog_bind call run] in Hrun.
  rewrite Hl in Hrun. cbv zeta in Hrun. rewrite bool_decide_true in Hrun by done.
  rewrite run_bind in Hrun.
  destruct (run srv (setCondition _ _ _ _ _) w1) as [[t1 o1] w2] eqn:E.
  destruct (wp_run _ _ _ [] _ _ _ _ _ (setCondition_wp _ _ _ _ _ []) E) as [HG Ho].
  subst o1. cbn in Hrun. rewrite app_nil_r in Hrun. simplify_eq.
  eexists _, t1, _. split; [reflexivity|]. split; [done|exact HG].
Qed.

End Properties.

(** ** Witnesses, and a life of a repository *)

Definition life_cluster : cluster :=
  set_classes [witness_sc "nfs" "nfs.csi.k8s.io"]
    (set_repos {["llama" := witness_model_repo None]} empty_cluster).

Definition reconcile_llama (c : cluster) : trace * outcome (Result * err_opt) * cluster :=
  run mem (@Reconcile Reference.machinery witness_scripts witness_range EmptyString "llama") c.

(** The job controller completes every job; an engine appears and goes; somebody
    deletes the repository. *)
Definition complete_jobs (c : cluster) : cluster :=
  set_jobs (fmap (fun j => mkJob (job_Meta j) (job_TemplateLabels j) (job_Pod j) 1 0) (cl_jobs c)) c.
Definition with_engine (c : cluster) : cluster :=
  set_engines {[("team", "chat") := mkLLMEngine
      (meta_with_Namespace "team" (meta_with_Name "chat" meta_empty))
      (mkLLMEngineSpec LLMEngineTypeVLLM [mkModelReference "llama" EmptyString EmptyString]
         EmptyString [] [] 0 0 None ∅ None None false)
      (mkLLMEngineStatus EmptyString [] [])]} c.
Definition without_engines (c : cluster) : cluster := set_engines ∅ c.
Definition delete_llama (c : cluster) : cluster :=
  set_repos (st_delete mr_Meta mr_with_Meta 7 "llama" (cl_repos c)).2 c.

Definition writes (t : trace) : nat :=
  length (List.filter (fun ev => let 'Ev r _ := ev in negb (is_read r)) t).

(** The phase of the repository (if there is one), the numbers of claims and of
    jobs, and how many writes a pass made. *)
Definition summary (r : trace * outcome (Result * err_opt) * cluster) :
    option string * nat * nat * nat :=
  let '(t, _, c) := r in
  ((fun mr => mst_Phase (mr_Status mr)) <$> cl_repos c !! "llama",
   size (cl_pvcs c), size (cl_jobs c), writes t).

(** The life of a repository, reconciled on the in-memory API
    server.  The first pass creates the claim and the job and reports
    Downloading; once the job has succeeded the next one reports Ready; the one
    after that writes nothing.  Deleted while an engine references it, the
    repository stays with its claim and its job; once the engine is gone, one
    pass removes the job, the claim and the repository. *)
Theorem repository_life :
  let r1 := reconcile_llama life_cluster in
  let r2 := reconcile_llama (complete_jobs r1.2) in
  let r3 := reconcile_llama r2.2 in
  let r4 := reconcile_llama (delete_llama (with_engine r3.2)) in
  let r5 := reconcile_llama (without_engines r4.2) in
  map summary [r1; r2; r3; r4; r5] =
    [(Some DownloadPhaseDownloading, 1, 1, 6); (Some DownloadPhaseReady, 1, 1, 2);
     (Some DownloadPhaseReady, 1, 1, 0); (Some DownloadPhaseFailed, 1, 1, 1);
     (None, 0, 0, 4)].
Proof. vm_compute. reflexivity. Qed.

Definition witness_doomed : cluster := delete_llama (reconcile_llama life_cluster).2.

Lemma Reconcile_deletes_only_unused_witness :
  let M := Reference.machinery in
  let S := witness_scripts in
  let R := witness_range in
  guarded (consent_guard EmptyString "llama") [] (reconcile_llama witness_doomed).1.1.
Proof.
  intros M S R.
  apply (Reconcile_deletes_only_unused (L := Reference.laws) (S := witness_scripts)
    (Rg := witness_range) mem EmptyString "llama" witness_doomed _
    (reconcile_llama witness_doomed).1.2 (reconcile_llama witness_doomed).2).
  unfold reconcile_llama. by destruct (run _ _ _) as [[??]?].
Defined.

Lemma Reconcile_creates_jobs_once_witness :
  let M := Reference.machinery in
  let S := witness_scripts in
  let R := witness_range in
  let ns := EmptyString in
  existsb (fun ev => let 'Ev r _ := ev in if r is CreateJob _ then true else false)
    (reconcile_llama life_cluster).1.1 = true /\
  guarded (fun h r => match r with
    | CreateJob job =>
        exists mr p rev n c j, own_repo "llama" h mr /\ (names_kept h -> mr_Name mr = "llama") /\
          own_provider "llama" h p /\ rev ∈ getDesiredRevisions mr /\
          generateJobName "download" (mr_Name mr) (rev_Name rev) = Done n /\ no_job ns h n /\
          generateJobName "cleanup" (mr_Name mr) (rev_Name rev) = Done c /\ no_job ns h c /\
          createRevisionDownloadJob ns mr p rev = Done (Ok j) /\
          SetControllerReference (mr_Meta mr) (job_Meta j) = Ok (job_Meta job) /\
          job = job_with_Meta (job_Meta job) j
    | _ => True
    end) [] (reconcile_llama life_cluster).1.1.
Proof.
  intros M S R ns. split.
  - vm_compute. reflexivity.
  - apply (Reconcile_creates_jobs_once (L := Reference.laws) mem EmptyString "llama" life_cluster _
      (reconcile_llama life_cluster).1.2 (reconcile_llama life_cluster).2).
    unfold reconcile_llama. by destruct (run _ _ _) as [[??]?].
Defined.

Lemma Reconcile_status_honest_witness :
  let M := Reference.machinery in
  guarded (fun h r => match r with
    | UpdateModelRepositoryStatus o =>
        exists repo fresh st, own_name "llama" h repo /\ (names_kept h -> repo = "llama" /\ mr_Name o = "llama") /\
          answered h (GetModelRepository repo) (Ok fresh) /\
          o = mr_with_Status st fresh /\ st <> mr_Status fresh /\
          justified EmptyString "llama" h repo (mr_Status fresh) st
    | _ => True
    end) [] (reconcile_llama life_cluster).1.1.
Proof.
  intros M. apply (Reconcile_status_honest (L := Reference.laws) (S := witness_scripts) (Rg := witness_range)
    mem EmptyString "llama" life_cluster _
    (reconcile_llama life_cluster).1.2 (reconcile_llama life_cluster).2).
  unfold reconcile_llama. by destruct (run _ _ _) as [[??]?].
Defined.

Lemma Reconcile_panics_only_on_names_witness :
  match (reconcile_llama life_cluster).1.2 with
  | Done _ => True
  | Panicked m => exists jobType repo rev, generateJobName jobType repo rev = Panicked m
  end.
Proof.
  apply (Reconcile_panics_only_on_names (L := Reference.laws) (S := witness_scripts)
    (Rg := witness_range) mem EmptyString "llama" life_cluster
    (reconcile_llama life_cluster).1.1 _ (reconcile_llama life_cluster).2).
  unfold reconcile_llama. by destruct (run _ _ _) as [[??]?].
Defined.

Definition witness_blocked : trace * outcome err_opt * cluster :=
  run mem (@handleDeletion Reference.machinery EmptyString (witness_model_repo None) None)
    (with_engine life_cluster).

Lemma handleDeletion_blocked_witness :
  exists e t' msg, witness_blocked.1.2 = Done (Some e) /\
    witness_blocked.1.1 =
      Ev ListLLMEngines (Ok (map_to_list (cl_engines (with_engine life_cluster))).*2) :: t' /\
    guarded (sync_guard (witness_model_repo None)
      (@by_condition Reference.machinery (condition ModelRepoConditionReady ConditionFalse
         ModelRepoReasonDeletionBlocked msg))) [] t'.
Proof.
  apply (handleDeletion_blocked (L := Reference.laws) mem EmptyString (witness_model_repo None) None
    (with_engine life_cluster) (with_engine life_cluster) _ _ _ witness_blocked.2).
  - reflexivity.
  - vm_compute. discriminate.
  - unfold witness_blocked. by destruct (run _ _ _) as [[??]?].
Defined.
