(* ===== verification/RepoConvergence.v ===== *)
(** * Repositories converge

    Reconciled again and again on the in-memory API server, with the rest of the
    cluster binding the claim and running the jobs in between, every repository
    that can be served ends up Ready, and stays so.  [repository_life] plays one
    such life; here the repository and the cluster are arbitrary. *)

From S2P Require Import Prelude Naming Api Kube Machinery MemServer Frames Leads StorageDiscovery Backend.
From S2P Require Import StorageProvider Jobs RepoStatus RepoController RepoProgress RepoSafety.

Local Open Scope go_scope.

Section Convergence.
Context `{L : MachineryLaws} `{Sc : Scripts} `{Rg : GoRange}.
Context (OperatorNamespace name : string) (spec : ModelRepositorySpec).

#[local] Abbreviation desired := (desired spec).
#[local] Abbreviation downloadable_spec := (downloadable_spec name spec).
#[local] Abbreviation claim_in := (claim_in OperatorNamespace name).
#[local] Abbreviation named := (named name).
#[local] Abbreviation entered := (entered OperatorNamespace name).
#[local] Abbreviation ready := (ready OperatorNamespace name spec).
#[local] Abbreviation live := (live OperatorNamespace name spec).
#[local] Abbreviation settled := (settled OperatorNamespace name spec).
#[local] Abbreviation pass_from := (pass_from OperatorNamespace name spec).
#[local] Abbreviation pass := (run mem (RepoController.Reconcile OperatorNamespace name)).

(** After a pass, the rest of the cluster may do anything that leaves the
    repository servable, its model named and its claim and its revisions there,
    and that binds the claim to a volume and completes the jobs. *)
Record helps (c c' : cluster) : Prop := {
  helps_live : live c';
  helps_settled : settled c';
  helps_named : named c -> named c';
  helps_claim : is_Some (claim_in c) -> is_Some (claim_in c');
  helps_entered rev : rev ∈ desired -> entered c rev -> entered c' rev;
}.

Section Rounds.
Context (cs : nat -> cluster).
Context (Hspec : downloadable_spec) (Hlive : live (cs 0%nat)) (Hset : settled (cs 0%nat)).
Context (Hround : forall i, helps (pass (cs i)).2 (cs (S i))).

Lemma rounds_servable i : live (cs i) /\ settled (cs i).
Proof. destruct i as [|i]; [done|]. split; apply (Hround i). Qed.

Lemma repo_rounds_pass i : exists t res c',
  pass (cs i) = (t, Done (res, None), c') /\ pass_from (cs i) c' /\ helps c' (cs (S i)).
Proof.
  destruct (rounds_servable i) as [H1 H2].
  destruct (leads_run _ _ _ _ (Repo_Reconcile_leads OperatorNamespace name spec _ H1 H2 Hspec))
    as (t & [res e] & c' & Hrun & He & Hp).
  cbn in He. subst e. exists t, res, c'. split; [done|]. split; [done|].
  pose proof (Hround i) as Hr. by rewrite Hrun in Hr.
Qed.

(** Three rounds: the name, the claim, the downloads. *)
Lemma rounds_named i : named (cs (S i)).
Proof.
  destruct (repo_rounds_pass i) as (t & res & c' & _ & Hp & Hh).
  by apply (helps_named _ _ Hh), (pass_names _ _ _ _ _ Hp).
Qed.

Lemma rounds_claim i : is_Some (claim_in (cs (S (S i)))).
Proof.
  destruct (repo_rounds_pass (S i)) as (t & res & c' & _ & Hp & Hh).
  by apply (helps_claim _ _ Hh), (pass_claims _ _ _ _ _ Hp), rounds_named.
Qed.

Lemma rounds_entered i : Forall (entered (cs (S (S (S i))))) desired.
Proof.
  destruct (repo_rounds_pass (S (S i))) as (t & res & c' & _ & Hp & Hh).
  apply Forall_forall. intros rev Hr. apply (helps_entered _ _ Hh rev Hr).
  pose proof (pass_enters _ _ _ _ _ Hp (rounds_named _) (rounds_claim _)) as He.
  by eapply Forall_forall in He.
Qed.

Lemma rounds_ready k : (3 <= k)%nat -> exists t res c', pass (cs k) = (t, Done (res, None), c') /\ ready c'.
Proof.
  intros Hk. destruct k as [|[|[|i]]]; [lia..|].
  destruct (repo_rounds_pass (S (S (S i)))) as (t & res & c' & Hrun & Hp & _). exists t, res, c'. split; [done|].
  apply (pass_readies _ _ _ _ _ Hp); [apply rounds_named|apply rounds_claim|apply rounds_entered].
Qed.

End Rounds.
End Convergence.

(** Property C5: repositories converge.  On the in-memory API server take any
    repository to be downloaded, of a known origin, with a valid size, a
    StorageClass that exists and revisions whose names and job names differ, on
    any cluster where its claim, if there, is bound and its jobs have succeeded,
    even one with nothing but the repository, and whatever its status says.  Let
    it be reconciled again and again, where between two passes the rest of the
    cluster does anything that leaves this so, takes none of its objects away,
    binds the claim and completes the jobs.  Then no pass fails, and from the
    fourth on every pass ends with the repository Ready, every desired revision
    recorded as downloaded, and the backend of its volume recorded. *)
Theorem repository_converges `{L : MachineryLaws} `{Sc : Scripts} `{Rg : GoRange}
    OperatorNamespace name spec (cs : nat -> cluster) :
  downloadable_spec name spec -> live OperatorNamespace name spec (cs 0%nat) ->
  settled OperatorNamespace name spec (cs 0%nat) ->
  (forall i, helps OperatorNamespace name spec
     (run mem (RepoController.Reconcile OperatorNamespace name) (cs i)).2 (cs (S i))) ->
  (forall i, exists t res c',
     run mem (RepoController.Reconcile OperatorNamespace name) (cs i) = (t, Done (res, None), c')) /\
  forall k, (3 <= k)%nat ->
    ready OperatorNamespace name spec (run mem (RepoController.Reconcile OperatorNamespace name) (cs k)).2.
Proof.
  intros Hspec Hlive Hset Hround. split.
  - intros i. destruct (repo_rounds_pass _ _ _ cs Hspec Hlive Hset Hround i) as (t & res & c' & H & _).
    by exists t, res, c'.
  - intros k Hk. destruct (rounds_ready _ _ _ cs Hspec Hlive Hset Hround k Hk) as (t & res & c' & H & Hr).
    by rewrite H.
Qed.

(** ** A rest of the cluster that helps *)

(** A provisioner that gives every claim the NFS volume of Backend.v. *)
Definition provision (c : cluster) : cluster :=
  set_pvs (<["pv-1" := witness_nfs_pv]> (cl_pvs c))
    (set_pvcs (fmap (fun p => mkPVC (pvc_Meta p) (pvc_AccessModes p) (pvc_Request p)
       (pvc_StorageClassName p) "pv-1" ClaimBound (Some (pvc_Request p))) (cl_pvcs c)) c).

Section Help.
Context `{L : MachineryLaws} `{Sc : Scripts} `{Rg : GoRange}.
Context (OperatorNamespace name : string) (spec : ModelRepositorySpec).

Lemma job_in_completed c rev :
  job_in OperatorNamespace name (provision (complete_jobs c)) rev =
    (fun j => mkJob (job_Meta j) (job_TemplateLabels j) (job_Pod j) 1 0) <$>
      job_in OperatorNamespace name c rev.
Proof. unfold job_in. destruct (job_name _ _); [|done]. cbn. apply lookup_fmap. Qed.

Lemma provisioner_and_jobs_help c :
  live OperatorNamespace name spec c ->
  helps OperatorNamespace name spec c (provision (complete_jobs c)).
Proof.
  intros Hc. split.
  - split; [apply Hc..|]. intros rev n Hr Hn. cbn. rewrite lookup_fmap.
    by rewrite (live_cleanup _ _ _ _ Hc rev n Hr Hn).
  - split.
    + intros [p Hp]. cbn in Hp. unfold claim_in in Hp. cbn in Hp. rewrite lookup_fmap in Hp.
      destruct (cl_pvcs c !! _) as [p0|] eqn:E; [|done]. injection Hp as <-.
      eexists _, _. split; [unfold claim_in; cbn; by rewrite lookup_fmap, E|].
      split; [done|]. split; [done|]. exists witness_nfs_pv. split; [apply lookup_insert_eq|]. reflexivity.
    + intros rev j _. rewrite job_in_completed. destruct (job_in _ _ _ _); [|done]. by intros [= <-].
  - done.
  - intros [p Hp]. unfold claim_in in *. cbn. rewrite lookup_fmap, Hp. by eexists.
  - intros rev _ (rs & Hrs & Hs). exists rs. split; [exact Hrs|].
    destruct Hs as [Hs|[j Hj]]; [by left|]. right. rewrite job_in_completed, Hj. by eexists.
Qed.

Definition round (c : cluster) : cluster :=
  provision (complete_jobs (run mem (RepoController.Reconcile OperatorNamespace name) c).2).

Lemma repo_round_helps c :
  live OperatorNamespace name spec c -> settled OperatorNamespace name spec c -> downloadable_spec name spec ->
  helps OperatorNamespace name spec (run mem (RepoController.Reconcile OperatorNamespace name) c).2 (round c).
Proof.
  intros H1 H2 H3. unfold round.
  destruct (leads_run _ _ _ _ (Repo_Reconcile_leads _ _ _ _ H1 H2 H3)) as (t & res & c' & -> & _ & Hp).
  apply provisioner_and_jobs_help, (pass_advances _ _ _ _ _ Hp).
Qed.

Lemma repo_rounds_ok c i :
  live OperatorNamespace name spec c -> settled OperatorNamespace name spec c -> downloadable_spec name spec ->
  live OperatorNamespace name spec (Nat.iter i round c) /\
  settled OperatorNamespace name spec (Nat.iter i round c).
Proof.
  intros H1 H2 H3. induction i as [|i [IH1 IH2]]; [done|]. cbn.
  split; [apply (helps_live _ _ _ _ _ (repo_round_helps _ IH1 IH2 H3))
         |apply (helps_settled _ _ _ _ _ (repo_round_helps _ IH1 IH2 H3))].
Qed.

End Help.

(** Two revisions of a model without a name, on the only class there is, which is
    not shared; the status is not empty. *)
Definition two_spec : ModelRepositorySpec :=
  mkModelRepositorySpec EmptyString
    (mkModelSource ModelOriginHuggingFace "meta/llama" EmptyString
       [mkRevisionReference "main" "main"; mkRevisionReference "v2" "abc"] EmptyString EmptyString)
    (mkModelStorage "10Gi" EmptyString "auto") true EmptyString EmptyString EmptyString ∅.
Definition two_cluster : cluster :=
  set_classes [witness_sc "gp3" "ebs.csi.aws.com"]
    (set_repos {["llama" := mkModelRepository (meta_with_Name "llama" meta_empty) two_spec
       (mkModelRepositoryStatus DownloadPhaseFailed [] None
          [mkRevisionStatus "v2" "old" DownloadPhaseFailed] EmptyString)]} empty_cluster).

Section Two.
#[local] Instance two_machinery : Machinery := Reference.machinery.

Lemma two_revisions rev :
  rev ∈ desired two_spec -> rev = mkRevisionReference "main" "main" \/ rev = mkRevisionReference "v2" "abc".
Proof. cbn. set_solver. Qed.

Lemma two_spec_downloadable : downloadable_spec "llama" two_spec.
Proof.
  split; try done.
  - by eexists.
  - by left.
  - intros rev [-> | ->]%two_revisions; eexists; vm_compute; reflexivity.
  - intros rev [-> | ->]%two_revisions; eexists; vm_compute; reflexivity.
  - cbn. nodup_tac.
  - intros rev rev' [-> | ->]%two_revisions [-> | ->]%two_revisions E; try done; exfalso; revert E;
      vm_compute; discriminate.
Qed.

Lemma two_cluster_live : live EmptyString "llama" two_spec two_cluster.
Proof.
  split.
  - eexists. split; [reflexivity|]. done.
  - split; [done|]. left. reflexivity.
  - intros rev n _ _. apply lookup_empty.
Qed.

Lemma two_cluster_settled : settled EmptyString "llama" two_spec two_cluster.
Proof.
  split.
  - intros [p Hp]. unfold claim_in in Hp. cbn in Hp. by rewrite lookup_empty in Hp.
  - intros rev j _. unfold job_in. destruct (job_name _ _); [|done]. cbn. by rewrite lookup_empty.
Qed.

End Two.

Lemma repository_converges_witness :
  let M := Reference.machinery in
  let S := witness_scripts in
  let R := witness_range in
  ready EmptyString "llama" two_spec
    (run mem (RepoController.Reconcile EmptyString "llama") (Nat.iter 3 (round EmptyString "llama") two_cluster)).2.
Proof.
  intros M S R.
  apply (proj2 (repository_converges (L := Reference.laws) EmptyString "llama" two_spec
    (fun i => Nat.iter i (round EmptyString "llama") two_cluster)
    two_spec_downloadable two_cluster_live two_cluster_settled
    (fun i => repo_round_helps (L := Reference.laws) EmptyString "llama" two_spec _
       (proj1 (repo_rounds_ok (L := Reference.laws) EmptyString "llama" two_spec _ i
          two_cluster_live two_cluster_settled two_spec_downloadable))
       (proj2 (repo_rounds_ok (L := Reference.laws) EmptyString "llama" two_spec _ i
          two_cluster_live two_cluster_settled two_spec_downloadable))
       two_spec_downloadable)) 3%nat).
  lia.
Defined.
