(* ===== verification/DownloadRefinement.v ===== *)
(** * Downloads, abstractly

    What reconcileRevisions does over time, as a machine of which only the phase of
    the repository and, for each desired revision, the phase it reports, the state
    of its download job and a cleanup job in its way matter.  On the server in
    memory the function refines it, over any number of passes with jobs ending and
    cleanup jobs turning up in between, failures and early returns included; it
    leaves everything else alone. *)

From S2P Require Import Prelude Naming Api Kube Machinery MemServer Frames Leads StorageDiscovery Backend.
From S2P Require Import StorageProvider Jobs RepoStatus RepoController RepoProgress RepoSafety RepoConvergence.

Local Open Scope go_scope.

(** ** The machine *)

Inductive job_state := JobRunning | JobSucceeded | JobFailed.

(** A revision: the phase that is listed for it, its download job, and its cleanup
    job with whether somebody holds that. *)
Record download := mkDownload {
  d_phase : option string;
  d_job : option job_state;
  d_cleanup : option bool;
}.
Definition d_with_phase (phase : string) (d : download) : download :=
  mkDownload (Some phase) (d_job d) (d_cleanup d).

(** What a visit of a revision gives: whether its job runs, a result to return at
    once, and whether it failed. *)
Record visit := mkVisit { v_running : bool; v_early : option Result; v_failed : bool }.

Definition abs_visit (d : download) : visit * download :=
  if bool_decide (d_phase d = Some DownloadPhaseReady) then (mkVisit false None false, d)
  else match d_job d with
  | Some JobSucceeded => (mkVisit false None false, d_with_phase DownloadPhaseReady d)
  | Some JobFailed => (mkVisit false (Some (requeue_after 300)) true, d_with_phase DownloadPhaseFailed d)
  | Some JobRunning => (mkVisit true None false, d_with_phase DownloadPhaseDownloading d)
  | None =>
      match d_cleanup d with
      | Some held => (mkVisit false (Some (requeue_after 5)) false,
                      mkDownload (d_phase d) None (if held then Some true else None))
      | None => (mkVisit true None false, mkDownload (Some DownloadPhaseDownloading) (Some JobRunning) None)
      end
  end.

(** One after the other, up to an early return. *)
Fixpoint abs_loop (l : list download) (running : bool) : list download * (bool + (Result * bool)) :=
  match l with
  | [] => ([], inl running)
  | d :: l =>
      let '(v, d') := abs_visit d in
      match v_early v with
      | Some result => (d' :: l, inr (result, v_failed v))
      | None => let '(l', r) := abs_loop l (running || v_running v) in (d' :: l', r)
      end
  end.

(** All are ready, and were listed when the pass began: the controller looks at
    the repository it read then. *)
Definition all_known_ready (l l' : list download) : bool :=
  forallb (fun d => bool_decide (is_Some (d_phase d))) l &&
  forallb (fun d => bool_decide (d_phase d = Some DownloadPhaseReady)) l'.

Definition abs_reconcile (phase : string) (l : list download) : Result * (string * list download) :=
  let '(l', r) := abs_loop l false in
  match r with
  | inr (result, failed) => (result, (if failed then DownloadPhaseFailed else phase, l'))
  | inl running =>
      (if running then requeue_after 30 else no_requeue,
       (if all_known_ready l l' then DownloadPhaseReady
        else if running then DownloadPhaseDownloading else phase, l'))
  end.

(** A pass; a job of a revision that ends, or that somebody deletes; a cleanup job
    that turns up. *)
Inductive download_op :=
  Pass | JobEnds (i : nat) (ok : bool) | JobGone (i : nat) | CleanupJob (i : nat) (held : bool).

Definition abs_step (op : download_op) (v : string * list download) : option Result * (string * list download) :=
  match op with
  | Pass => let '(r, v) := abs_reconcile v.1 v.2 in (Some r, v)
  | JobEnds i ok =>
      (None, (v.1, alter (fun d => mkDownload (d_phase d)
        ((fun _ => if ok then JobSucceeded else JobFailed) <$> d_job d) (d_cleanup d)) i v.2))
  | JobGone i => (None, (v.1, alter (fun d => mkDownload (d_phase d) None (d_cleanup d)) i v.2))
  | CleanupJob i held =>
      (None, (v.1, alter (fun d => mkDownload (d_phase d) (d_job d) (Some held)) i v.2))
  end.

(** *** What the machine guarantees *)

Lemma abs_visit_ready d : d_phase (abs_visit d).2 = Some DownloadPhaseReady ->
  d_phase d = Some DownloadPhaseReady \/ d_job d = Some JobSucceeded.
Proof.
  unfold abs_visit. case_bool_decide as Hr; [by left|]. destruct (d_job d) as [[]|]; cbn; try done; [by right|].
  destruct (d_cleanup d); cbn; [done|]. done.
Qed.

Lemma abs_visit_goes_on d : v_early (abs_visit d).1 = None -> v_failed (abs_visit d).1 = false.
Proof.
  unfold abs_visit. case_bool_decide; [done|]. destruct (d_job d) as [[]|]; cbn; try done. by destruct (d_cleanup d).
Qed.

Lemma abs_visit_stays d : d_phase d = Some DownloadPhaseReady -> abs_visit d = (mkVisit false None false, d).
Proof. intros H. unfold abs_visit. by rewrite bool_decide_true. Qed.

(** A revision is ready only when it was, or its job has succeeded; *)
Theorem abs_ready_earned l running i d' :
  (abs_loop l running).1 !! i = Some d' -> d_phase d' = Some DownloadPhaseReady ->
  exists d, l !! i = Some d /\ (d_phase d = Some DownloadPhaseReady \/ d_job d = Some JobSucceeded).
Proof.
  revert running i. induction l as [|d l IH]; intros running i; [done|]. cbn.
  pose proof (abs_visit_ready d) as Hv. destruct (abs_visit d) as [v d1]. cbn in Hv.
  destruct (v_early v).
  - destruct i as [|i]; cbn; [intros [= <-]|]; eauto.
  - specialize (IH (running || v_running v)). destruct (abs_loop l _) as [l' r].
    destruct i as [|i]; cbn in *; [intros [= <-]; eauto|apply IH].
Qed.

(** and stays ready, whatever happens. *)
Theorem abs_ready_stays op v i d :
  v.2 !! i = Some d -> d_phase d = Some DownloadPhaseReady ->
  exists d', (abs_step op v).2.2 !! i = Some d' /\ d_phase d' = Some DownloadPhaseReady.
Proof.
  assert (Hloop : forall l running i, l !! i = Some d -> d_phase d = Some DownloadPhaseReady ->
    exists d', (abs_loop l running).1 !! i = Some d' /\ d_phase d' = Some DownloadPhaseReady).
  { clear i v. induction l as [|x l IH]; intros running i Hl Hd; [done|]. cbn.
    pose proof (abs_visit_stays x) as Hs. destruct (abs_visit x) as [v x'].
    assert (Hx : x = d -> x' = d) by (intros ->; by injection (Hs Hd)).
    destruct i as [|i]; cbn in Hl.
    - injection Hl as ->. rewrite Hx by done. destruct (v_early v); [by exists d|].
      destruct (abs_loop l _). by exists d.
    - destruct (v_early v); [by exists d|]. specialize (IH (running || v_running v) i Hl Hd).
      by destruct (abs_loop l _). }
  assert (Halter : forall (f : download -> download) k (l : list download), l !! i = Some d ->
    (forall x, d_phase (f x) = d_phase x) -> d_phase d = Some DownloadPhaseReady ->
    exists d', alter f k l !! i = Some d' /\ d_phase d' = Some DownloadPhaseReady).
  { intros f k l Hl Hf Hd. destruct (decide (k = i)) as [->|Hne].
    - rewrite list_lookup_alter_eq, Hl. exists (f d). by rewrite Hf.
    - rewrite list_lookup_alter_ne by done. by exists d. }
  intros Hl Hd. destruct op as [|k ok|k|k held]; cbn; [|by apply Halter..].
  unfold abs_reconcile. specialize (Hloop v.2 false i Hl Hd). destruct (abs_loop _ _) as [l' [running|[result failed]]];
      by destruct Hloop as (d' & H1 & H2); exists d'.
Qed.

(** A failed download holds up those after it in the spec, for as long as its job
    is there: their downloads are not started. *)
Theorem abs_failure_blocks pre d post running :
  Forall (fun x => d_phase x = Some DownloadPhaseReady) pre ->
  d_phase d <> Some DownloadPhaseReady -> d_job d = Some JobFailed ->
  abs_loop (pre ++ d :: post) running =
    (pre ++ d_with_phase DownloadPhaseFailed d :: post, inr (requeue_after 300, true)).
Proof.
  intros Hpre Hd Hj. revert running. induction Hpre as [|x pre Hx _ IH]; intros running; cbn.
  - unfold abs_visit. by rewrite bool_decide_false, Hj by done.
  - by rewrite abs_visit_stays, IH by done.
Qed.

(** ** The cluster, as the machine sees it *)
Section Refinement.
Context `{L : MachineryLaws} `{Sc : Scripts} `{Rg : GoRange}.
Context (OperatorNamespace name : string) (spec : ModelRepositorySpec) (p : StorageClassProvider).

Let ns := operator_namespace OperatorNamespace.
#[local] Abbreviation this_repo := (this_repo name spec).
#[local] Abbreviation alive := (alive name spec).
#[local] Abbreviation desired := (desired spec).
#[local] Abbreviation job_name := (job_name name).
#[local] Abbreviation entry_in := (entry_in name).
#[local] Abbreviation status_in := (status_in name).
#[local] Abbreviation job_in := (job_in OperatorNamespace name).

Definition cleanup_name (rev : RevisionReference) : outcome string :=
  generateJobName "cleanup" name (rev_Name rev).
Definition cleanup_in (c : cluster) (rev : RevisionReference) : option Job :=
  match cleanup_name rev with Done n => cl_jobs c !! (ns, n) | Panicked _ => None end.

Definition job_state_of (j : Job) : job_state :=
  if (0 <? job_Succeeded j)%Z then JobSucceeded
  else if (0 <? job_Failed j)%Z then JobFailed else JobRunning.
Definition held_job (j : Job) : bool := bool_decide (meta_Finalizers (job_Meta j) <> []).

Definition download_of (c : cluster) (rev : RevisionReference) : download :=
  mkDownload (rs_Status <$> entry_in c (rev_Name rev)) (job_state_of <$> job_in c rev) (held_job <$> cleanup_in c rev).
Definition phase_of (c : cluster) : string := default EmptyString (mst_Phase <$> status_in c).
Definition view_of (c : cluster) : string * list download := (phase_of c, map (download_of c) desired).

(** A pass: Reconcile reads the repository and deals with its revisions. *)
Definition revisions_pass : prog (Result * err_opt) :=
  let! r := call (GetModelRepository name) in
  match r with
  | Ok modelRepo => reconcileRevisions OperatorNamespace modelRepo p
  | Err err => Ret (no_requeue, Some err)
  end.

(** The rest of the cluster. *)
Definition ended (ok : bool) (j : Job) : Job :=
  mkJob (job_Meta j) (job_TemplateLabels j) (job_Pod j) (if ok then 1 else 0) (if ok then 0 else 1).
Definition at_job (n : outcome string) (f : option Job -> option Job) (c : cluster) : cluster :=
  match n with
  | Done n => set_jobs (partial_alter f (ns, n) (cl_jobs c)) c
  | Panicked _ => c
  end.
Definition cleanup_job (held : bool) : Job :=
  mkJob (meta_with_Finalizers (if held then ["foregroundDeletion"] else []) meta_empty) ∅
    (mkPodSpec [] [] ∅ None [] false EmptyString) 0 0.

Definition mem_step (op : download_op) (c : cluster) : option Result * cluster :=
  match op with
  | Pass =>
      let '(_, o, c) := run mem revisions_pass c in
      (match o with Done (result, None) => Some result | _ => None end, c)
  | JobEnds i ok =>
      (None, match desired !! i with Some rev => at_job (job_name rev) (fmap (ended ok)) c | None => c end)
  | JobGone i =>
      (None, match desired !! i with Some rev => at_job (job_name rev) (fun _ => None) c | None => c end)
  | CleanupJob i held =>
      (None, match desired !! i with
             | Some rev => at_job (cleanup_name rev) (fun _ => Some (cleanup_job held)) c
             | None => c
             end)
  end.

(** ** What changes *)

(** The jobs of the revisions. *)
Definition our_job (k : key) : Prop :=
  exists rev n, rev ∈ desired /\ (job_name rev = Done n \/ cleanup_name rev = Done n) /\ k = (ns, n).

(** The repository, but for the phases and conditions it reports. *)
Definition reports (mr mr' : ModelRepository) : Prop :=
  (this_repo mr -> this_repo mr') /\ mr_Spec mr' = mr_Spec mr /\
  mst_Storage (mr_Status mr') = mst_Storage (mr_Status mr) /\
  mst_ReferencedEngines (mr_Status mr') = mst_ReferencedEngines (mr_Status mr).

#[local] Instance reports_preorder : PreOrder reports.
Proof. split; [done|]. intros m1 m2 m3 (A1 & A2 & A3 & A4) (B1 & B2 & B3 & B4). split_and!; [auto|congruence..]. Qed.

(** Nothing but that and the jobs of the revisions. *)
Record untouched (c c' : cluster) : Prop := {
  untouched_repo : option_Forall2 reports (cl_repos c !! name) (cl_repos c' !! name);
  untouched_repos r : r <> name -> cl_repos c' !! r = cl_repos c !! r;
  untouched_jobs k : ~ our_job k -> cl_jobs c' !! k = cl_jobs c !! k;
  untouched_rest : cl_engines c' = cl_engines c /\ cl_pvcs c' = cl_pvcs c /\ cl_pvs c' = cl_pvs c /\
    cl_deployments c' = cl_deployments c /\ cl_services c' = cl_services c /\
    cl_configmaps c' = cl_configmaps c /\ cl_nodes c' = cl_nodes c /\ cl_classes c' = cl_classes c;
}.

#[local] Instance untouched_preorder : PreOrder untouched.
Proof.
  split.
  - intros c. split; [destruct (cl_repos c !! name); by constructor|done..].
  - intros c1 c2 c3 [A1 A2 A3 A4] [B1 B2 B3 B4]. split.
    + destruct A1; inversion B1; simplify_eq; constructor. by etrans.
    + intros r Hr. by rewrite B2, A2.
    + intros k Hk. by rewrite B3, A3.
    + intuition congruence.
Qed.

Lemma untouched_alive c c' : untouched c c' -> alive c -> alive c'.
Proof.
  intros [H _ _ _] (mr & Hmr & Ht). rewrite Hmr in H. inversion H as [? mr' [Hr _] E|]; subst. exists mr'. auto.
Qed.

(** A change of the status that is about phases and conditions. *)
Definition about_phases (R : ModelRepositoryStatus -> ModelRepositoryStatus -> Prop) : Prop :=
  forall s s', R s s' -> mst_Storage s' = mst_Storage s /\ mst_ReferencedEngines s' = mst_ReferencedEngines s.

Lemma updated_untouched R c c' :
  about_phases R -> updated name spec R c c' -> untouched c c' /\ cl_jobs c' = cl_jobs c.
Proof.
  intros HR (old & new & Ho & Hn & Hs & Hst & t & ->). split; [|done]. destruct (HR _ _ Hst) as [H1 H2]. split; cbn; try done.
  - rewrite Ho, lookup_insert_eq. constructor. done.
  - intros r Hr. by rewrite lookup_insert_ne.
Qed.

Lemma updated_status R c c' :
  updated name spec R c c' -> exists s s', status_in c = Some s /\ status_in c' = Some s' /\ R s s'.
Proof.
  intros (old & new & Ho & Hn & Hs & Hst & t & ->). exists (mr_Status old), (mr_Status new).
  unfold RepoProgress.status_in. cbn. by rewrite Ho, lookup_insert_eq.
Qed.

Lemma condition_about k : about_phases (by_condition k).
Proof. by intros s s' [now ->]. Qed.
Lemma upsert_about rs : about_phases (by_upsert rs).
Proof. by intros s s' ->. Qed.

(** What a write of the status leaves: the jobs, and more or less of the rest. *)
Lemma phases_condition_leads mr cst reason msg c :
  mr_Name mr = name -> alive c ->
  leads mem (setCondition mr ModelRepoConditionReady cst reason msg) c (fun _ c' =>
    untouched c c' /\ cl_jobs c' = cl_jobs c /\ (forall n, entry_in c' n = entry_in c n) /\
    phase_of c' = if bool_decide (cst = ConditionTrue) then DownloadPhaseReady
                  else if bool_decide (reason = ModelRepoReasonDownloading) then DownloadPhaseDownloading
                  else DownloadPhaseFailed).
Proof.
  intros Hn Hc. unfold setCondition. apply leads_bind. eapply leads_conseq.
  - apply (repo_sync_leads name spec mr _ (by_condition (condition ModelRepoConditionReady cst reason msg))); [done..|].
    intros s c1 Q HQ. cbn. apply HQ. by eexists.
  - intros r c' [-> Hu]. cbn [leads].
    destruct (updated_untouched _ _ _ (condition_about _) Hu) as [H1 H2].
    destruct (updated_status _ _ _ Hu) as (s & s' & Hs & Hs' & now & ->). do 2 (split; [done|]). split.
    + intros n. unfold RepoProgress.entry_in. rewrite Hs, Hs'. done.
    + unfold phase_of. rewrite Hs'. cbn. unfold deriveModelRepoPhase. set (k := condition _ _ _ _).
      destruct (Find_Set_eq now (mst_Conditions s) k) as (d & Hd & _ & Hst & Hr & _).
      change (cond_Type k) with ModelRepoConditionReady in Hd. by rewrite Hd, <- Hst, <- Hr.
Qed.

Lemma phases_record_leads mr rs c :
  mr_Name mr = name -> alive c ->
  leads mem (updateRevisionStatus mr rs) c (fun r c' => r = None /\ untouched c c' /\ cl_jobs c' = cl_jobs c /\
    phase_of c' = phase_of c /\
    forall n, entry_in c' n = if bool_decide (rs_Name rs = n) then Some rs else entry_in c n).
Proof.
  intros Hn Hc. unfold updateRevisionStatus. eapply leads_conseq.
  - apply (repo_sync_leads name spec mr _ (by_upsert rs)); [done..|]. intros s c1 Q HQ.
    specialize (HQ _ (cl_clock c1) eq_refl). by destruct c1.
  - intros r c' [-> Hu]. split; [done|]. destruct (updated_untouched _ _ _ (upsert_about _) Hu) as [H1 H2].
    destruct (updated_status _ _ _ Hu) as (s & s' & Hs & Hs' & ->). do 2 (split; [done|]). split.
    + unfold phase_of. by rewrite Hs, Hs'.
    + intros n. unfold RepoProgress.entry_in. rewrite Hs, Hs'. exact (revision_of_upsert _ _ _).
Qed.

(** ** One revision *)
Context (downloadable : downloadable_spec name spec).
Hypothesis cleanup_distinct : forall rev rev',
  rev ∈ desired -> rev' ∈ desired -> cleanup_name rev = cleanup_name rev' -> rev = rev'.

#[local] Abbreviation listed := RepoProgress.listed.

(** What changed is about the revision, or is the phase of the repository. *)
Record only (rev : RevisionReference) (c c' : cluster) : Prop := {
  only_untouched : untouched c c';
  only_entries n : n <> rev_Name rev -> entry_in c' n = entry_in c n;
  only_jobs rev' : rev' ∈ desired -> rev' <> rev ->
    job_in c' rev' = job_in c rev' /\ cleanup_in c' rev' = cleanup_in c rev';
}.

#[local] Instance only_preorder rev : PreOrder (only rev).
Proof.
  split; [by split|]. intros c1 c2 c3 [A1 A2 A3] [B1 B2 B3]. split; [by etrans|..].
  - intros n Hn. by rewrite B2, A2.
  - intros r Hr Hne. destruct (A3 r Hr Hne) as [<- <-]. auto.
Qed.

Lemma only_same_jobs rev c c' :
  untouched c c' -> cl_jobs c' = cl_jobs c -> (forall n, n <> rev_Name rev -> entry_in c' n = entry_in c n) ->
  only rev c c'.
Proof. intros H1 H2 H3. split; [done..|]. intros r _ _. unfold job_in, cleanup_in, RepoProgress.job_in. by rewrite H2. Qed.

(** The names of the jobs of a revision are no other's. *)
Lemma job_names_apart rev rev' n n' :
  rev ∈ desired -> rev' ∈ desired -> rev' <> rev ->
  job_name rev = Done n \/ cleanup_name rev = Done n ->
  job_name rev' = Done n' \/ cleanup_name rev' = Done n' -> n' <> n.
Proof.
  intros Hr Hr' Hne H H' ->. apply Hne. destruct H as [H|H], H' as [H'|H'].
  - apply (spec_distinct _ _ downloadable); [done..|congruence].
  - by destruct (generateJobName_types_disjoint _ _ _ _ _ _ H H').
  - by destruct (generateJobName_types_disjoint _ _ _ _ _ _ H' H).
  - apply cleanup_distinct; [done..|congruence].
Qed.

Lemma only_job rev n f c :
  rev ∈ desired -> job_name rev = Done n \/ cleanup_name rev = Done n ->
  only rev c (set_jobs (partial_alter f (ns, n) (cl_jobs c)) c).
Proof.
  intros Hr Hn. set (c' := set_jobs _ c). split.
  - split; cbn; [by destruct (cl_repos c !! name); constructor|done| |done].
    intros k Hk. apply lookup_partial_alter_ne. intros <-. apply Hk. by exists rev, n.
  - done.
  - intros rev' Hr' Hne. pose proof (fun n' => job_names_apart rev rev' n n' Hr Hr' Hne Hn) as Hap.
    unfold cleanup_in, RepoProgress.job_in. split.
    + destruct (RepoProgress.job_name name rev') as [n'|] eqn:E; [|done]. apply lookup_partial_alter_ne.
      intros [= E']. by destruct (Hap n' (or_introl eq_refl)).
    + destruct (cleanup_name rev') as [n'|] eqn:E; [|done]. apply lookup_partial_alter_ne.
      intros [= E']. by destruct (Hap n' (or_intror eq_refl)).
Qed.

(** The repository in memory, after the revision was given a phase. *)
Definition marked (rev : RevisionReference) (phase : option string) (mr mr' : ModelRepository) : Prop :=
  same_repo mr mr' /\ (forall n, n <> rev_Name rev -> listed mr' n = listed mr n) /\
  rs_Status <$> listed mr' (rev_Name rev) = listed mr (rev_Name rev) ≫= (fun _ => phase).

Lemma marked_refl rev mr : marked rev (rs_Status <$> listed mr (rev_Name rev)) mr mr.
Proof. do 2 (split; [done|]). by destruct (RepoProgress.listed _ _). Qed.

Lemma assign_marked rev mr ptr phase mr' ptr' :
  points mr (rev_Name rev) ptr -> assign_status mr ptr phase = (mr', ptr') ->
  marked rev (Some phase) mr mr' /\ rs_Name (deref mr' ptr') = rev_Name rev /\ rs_Status (deref mr' ptr') = phase.
Proof.
  intros Hp Ha. destruct (assign_spec _ _ _ _ _ _ Hp Ha) as (H1 & H2 & H3 & H4 & H5). split; [|done].
  do 2 (split; [done|]). destruct (listed mr (rev_Name rev)) as [rs|] eqn:E; cbn.
  - destruct H5 as (rs' & -> & <-); [by eexists|done].
  - destruct ptr as [i|rs].
    + destruct (listed_found _ _ _ Hp) as [Hl _]. congruence.
    + cbn in Ha. injection Ha as <- _. by rewrite E.
Qed.

(** Giving it a phase, in memory and on the server. *)
Lemma assign_leads {A} rev mr ptr phase c (f : ModelRepository -> err_opt -> prog A) Q :
  alive c -> this_repo mr -> points mr (rev_Name rev) ptr ->
  (forall mr' c', only rev c c' -> marked rev (Some phase) mr mr' -> cl_jobs c' = cl_jobs c ->
     phase_of c' = phase_of c -> rs_Status <$> entry_in c' (rev_Name rev) = Some phase ->
     leads mem (f mr' None) c' Q) ->
  leads mem (let '(mr', ptr') := assign_status mr ptr phase in
             prog_bind (updateRevisionStatus mr' (deref mr' ptr')) (f mr')) c Q.
Proof.
  intros Hc Hm Hp HQ. destruct (assign_status mr ptr phase) as [mr' ptr'] eqn:Ha.
  destruct (assign_marked _ _ _ _ _ _ Hp Ha) as (Hmk & Hn & Hs).
  pose proof (same_this _ _ _ _ (proj1 Hmk) Hm) as (Hn' & _).
  apply leads_bind. eapply leads_conseq; [by apply phases_record_leads|].
  intros r c' (-> & Hu & Hj & Hph & He). apply HQ; [|done..|].
  - apply only_same_jobs; [done..|]. intros n Hne. rewrite He, bool_decide_false; [done|congruence].
  - rewrite He, Hn, bool_decide_true by done. cbn. by rewrite Hs.
Qed.

(** What a visit makes of the revision, as the machine says. *)
Definition visited (rev : RevisionReference) (c : cluster) (mr : ModelRepository) (r : rev_result) (c' : cluster) : Prop :=
  let '(v, d) := abs_visit (download_of c rev) in
  exists mr', r = (mr', (v_running v, v_early v, None)) /\ only rev c c' /\ marked rev (d_phase d) mr mr' /\
    download_of c' rev = d /\ phase_of c' = if v_failed v then DownloadPhaseFailed else phase_of c.

Lemma job_in_eq c c' rev : cl_jobs c' = cl_jobs c -> job_in c' rev = job_in c rev /\ cleanup_in c' rev = cleanup_in c rev.
Proof. intros H. unfold cleanup_in, RepoProgress.job_in. by rewrite H. Qed.

(** A job that is started. *)
Lemma launch_visits rev mr ptr c :
  alive c -> this_repo mr -> rev ∈ desired -> points mr (rev_Name rev) ptr -> job_in c rev = None ->
  leads mem (launch_download_job OperatorNamespace mr p rev ptr) c (fun r c' => exists mr',
    r = (mr', (true, None, None)) /\ only rev c c' /\ marked rev (Some DownloadPhaseDownloading) mr mr' /\
    download_of c' rev = mkDownload (Some DownloadPhaseDownloading) (Some JobRunning) (d_cleanup (download_of c rev)) /\
    phase_of c' = phase_of c).
Proof.
  intros Hc Hm Hr Hp Hjob. destruct (spec_jobs _ _ downloadable _ Hr) as [n Hn].
  destruct (download_job_made OperatorNamespace name spec mr p rev n Hm downloadable Hn) as (j & Hj & Hk & Ho & H1 & H2).
  fold ns in Hk. unfold launch_download_job. cbv zeta. rewrite Hj. cbn [lift prog_bind].
  destruct (SetControllerReference_new (mr_Meta mr) (job_Meta j) Ho) as [m' Hm']; [right; apply Hm|].
  rewrite Hm'. destruct (owner_rest _ _ _ Hm') as [E1 E2].
  assert (Hnone : cl_jobs c !! (ns, n) = None) by (unfold RepoProgress.job_in in Hjob; by rewrite Hn in Hjob).
  eapply leads_call.
  { cbn [mem]. replace (meta_key (job_Meta (job_with_Meta m' j))) with (ns, n)
      by (rewrite <- Hk; unfold meta_key; cbn; congruence).
    unfold st_create. rewrite Hnone. reflexivity. }
  cbn beta iota. pose proof (only_job rev n (fun _ => Some (job_with_Meta m' j)) c Hr (or_introl Hn)) as Hadd.
  set (c1 := set_jobs _ c) in *.
  apply assign_leads with (rev := rev); [eapply untouched_alive; [apply Hadd|done]|done|done|].
  intros mr' c' Honly Hmk Hjobs Hph He. cbn. exists mr'. split; [done|]. split; [by etrans|]. split; [done|].
  split; [|exact Hph]. destruct (job_in_eq _ _ rev Hjobs) as [J1 J2]. unfold download_of. rewrite He, J1, J2. f_equal.
  - unfold RepoProgress.job_in. rewrite Hn. unfold c1. cbn [cl_jobs set_jobs]. fold ns. rewrite lookup_partial_alter_eq.
    cbn. unfold job_state_of. cbn. by rewrite H1, H2.
  - unfold cleanup_in. destruct (cleanup_name rev) as [m|] eqn:Em; [|done]. unfold c1. cbn [cl_jobs set_jobs].
    rewrite lookup_partial_alter_ne; [done|]. intros [= E]. exact (generateJobName_types_disjoint _ _ _ _ _ _ Hn Em E).
Qed.

Lemma download_of_phase rev c c' phase :
  cl_jobs c' = cl_jobs c -> rs_Status <$> entry_in c' (rev_Name rev) = Some phase ->
  download_of c' rev = d_with_phase phase (download_of c rev).
Proof. intros Hj He. destruct (job_in_eq _ _ rev Hj) as [J1 J2]. unfold download_of. by rewrite He, J1, J2. Qed.

Lemma visited_only rev c mr r c' : visited rev c mr r c' -> only rev c c'.
Proof. unfold visited. destruct (abs_visit _) as [v d]. by intros (mr' & _ & H & _). Qed.

Lemma points_listed rev mr phase :
  points mr (rev_Name rev)
    (match InRepo <$> findRevisionStatus mr (rev_Name rev) with
     | Some ptr => ptr
     | None => Fresh (mkRevisionStatus (rev_Name rev) (rev_Ref rev) phase)
     end).
Proof.
  destruct (findRevisionStatus mr (rev_Name rev)) eqn:E; cbn; [done|]. split; [done|]. by apply listed_missing.
Qed.

(** A revision that has a job. *)
Lemma job_visits rev mr c j :
  alive c -> this_repo mr -> rev ∈ desired -> listed mr (rev_Name rev) = entry_in c (rev_Name rev) ->
  d_phase (download_of c rev) <> Some DownloadPhaseReady -> job_in c rev = Some j ->
  leads mem (handleJobStatus mr rev (InRepo <$> findRevisionStatus mr (rev_Name rev)) j) c (visited rev c mr).
Proof.
  intros Hc Hm Hr Hl Hnot Hj. pose proof (points_listed rev mr EmptyString) as Hp.
  unfold visited, abs_visit. rewrite bool_decide_false by done.
  unfold handleJobStatus. cbn [download_of d_job]. rewrite Hj. cbn [fmap option_fmap option_map]. unfold job_state_of.
  destruct (0 <? job_Succeeded j)%Z; [|destruct (0 <? job_Failed j)%Z].
  - apply assign_leads with (rev := rev); [done..|]. intros mr' c' Ho Hmk Hjobs Hph He. cbn. exists mr'.
    split; [done|]. do 2 (split; [done|]). split; [by apply download_of_phase|done].
  - apply assign_leads with (rev := rev); [done..|]. intros mr' c' Ho Hmk Hjobs Hph He. cbn beta.
    apply leads_bind. eapply leads_conseq.
    + apply phases_condition_leads; [apply (same_this _ _ _ _ (proj1 Hmk) Hm)|].
      eapply untouched_alive; [apply Ho|done].
    + intros u c2 (Hu & Hj2 & He2 & Hph2). cbn. exists mr'. split; [done|]. split; [|split; [done|]].
      * transitivity c'; [done|]. by apply only_same_jobs.
      * split; [|done]. apply download_of_phase; [congruence|]. by rewrite He2.
  - set (downloading := match InRepo <$> _ with Some _ => _ | None => _ end).
    assert (Hd : downloading = true -> d_phase (download_of c rev) = Some DownloadPhaseDownloading).
    { unfold downloading. cbn. rewrite <- Hl. destruct (findRevisionStatus mr (rev_Name rev)) as [i|] eqn:E; [|done].
      destruct (listed_found _ _ _ E) as [-> _]. cbn. rewrite bool_decide_eq_true. by intros ->. }
    destruct downloading.
    + specialize (Hd eq_refl). cbn. exists mr. split; [done|]. split; [done|]. split.
      * pose proof (marked_refl rev mr) as Hmk. rewrite Hl in Hmk. cbn in Hd. by rewrite Hd in Hmk.
      * split; [|done]. unfold download_of in *. cbn in Hd. unfold d_with_phase. cbn. by rewrite Hd.
    + apply assign_leads with (rev := rev); [done..|]. intros mr' c' Ho Hmk Hjobs Hph He. cbn. exists mr'.
      split; [done|]. do 2 (split; [done|]). split; [by apply download_of_phase|done].
Qed.

(** A cleanup job in the way is deleted, as far as it lets itself. *)
Lemma delete_visits rev c n j :
  rev ∈ desired -> cleanup_name rev = Done n -> cl_jobs c !! (ns, n) = Some j ->
  exists x, mem (DeleteJob ns n) c = (None, set_jobs (partial_alter (fun _ => x) (ns, n) (cl_jobs c)) c) /\
    held_job <$> x = if held_job j then Some true else None.
Proof.
  intros Hr Hn Hj. cbn [mem]. unfold st_delete. rewrite Hj. cbv zeta. unfold held_job at 2.
  destruct (decide (meta_Finalizers (job_Meta j) = [])) as [Hf|Hf].
  - exists None. by rewrite bool_decide_true, bool_decide_false by tauto.
  - eexists (Some _). rewrite bool_decide_false, bool_decide_true by done. split; [reflexivity|].
    cbn. f_equal. unfold held_job. cbn. by rewrite bool_decide_true.
Qed.

(** A revision that has none. *)
Lemma start_visits rev mr c :
  alive c -> this_repo mr -> rev ∈ desired -> listed mr (rev_Name rev) = entry_in c (rev_Name rev) ->
  d_phase (download_of c rev) <> Some DownloadPhaseReady -> job_in c rev = None ->
  leads mem (createDownloadJob OperatorNamespace mr p rev (InRepo <$> findRevisionStatus mr (rev_Name rev))) c
    (visited rev c mr).
Proof.
  intros Hc Hm Hr Hl Hnot Hj. unfold visited, abs_visit. rewrite bool_decide_false by done.
  cbn [download_of d_job d_cleanup d_phase]. rewrite Hj. cbn [fmap option_fmap option_map].
  unfold createDownloadJob, deleteStaleCleanupJob. destruct (spec_cleanup _ _ downloadable _ Hr) as [m Hm'].
  pose proof Hm as (Hname & _). rewrite Hname, Hm'. cbn [lift prog_bind]. fold ns. change (cleanup_name rev = Done m) in Hm'.
  assert (Hcl : cleanup_in c rev = cl_jobs c !! (ns, m)) by (unfold cleanup_in; by rewrite Hm').
  eapply leads_call; [reflexivity|]. unfold st_get. rewrite <- Hcl.
  destruct (cleanup_in c rev) as [x|] eqn:Ex; cbn [fmap option_fmap option_map].
  - destruct (delete_visits rev c m x Hr Hm' (eq_sym Hcl)) as (x' & Hdel & Hheld).
    eapply leads_call; [exact Hdel|]. cbn. exists mr. split; [done|].
    split; [by apply only_job; [|right]|]. split; [rewrite <- Hl; apply marked_refl|]. split; [|done].
    unfold download_of. f_equal.
    + transitivity (job_state_of <$> job_in c rev); [f_equal|by rewrite Hj].
      unfold RepoProgress.job_in. destruct (RepoProgress.job_name name rev) as [n|] eqn:En; [|done].
      apply lookup_partial_alter_ne. intros [= E].
      exact (generateJobName_types_disjoint _ _ _ _ _ _ En Hm' (eq_sym E)).
    + unfold cleanup_in. rewrite Hm'. cbn. by rewrite lookup_partial_alter_eq.
  - change (IsNotFound (fail NotFound "not found")) with true. cbn [prog_bind].
    pose proof (points_listed rev mr DownloadPhasePending) as Hp.
    assert (Hlaunch : forall c1 ptr, only rev c c1 -> cl_jobs c1 = cl_jobs c -> phase_of c1 = phase_of c ->
      points mr (rev_Name rev) ptr ->
      leads mem (launch_download_job OperatorNamespace mr p rev ptr) c1 (visited rev c mr)).
    { intros c1 ptr Ho Hjobs Hph Hptr. destruct (job_in_eq _ _ rev Hjobs) as [J1 J2].
      eapply leads_conseq; [apply launch_visits with (rev := rev)|]; [by eapply untouched_alive, Hc; apply Ho|done..| |].
      - congruence.
      - intros r c' (mr' & -> & Ho' & Hmk & Hd & Hph'). unfold visited, abs_visit.
        rewrite bool_decide_false by done. cbn [download_of d_job d_cleanup]. rewrite Hj, Ex. cbn. exists mr'.
        split; [done|]. split; [by etrans|]. split; [done|]. split; [|congruence].
        rewrite Hd. cbn. by rewrite J2, Ex. }
    assert (Heta : forall r c', visited rev c mr r c' -> exists mr', r = (mr', (true, None, None)) /\ only rev c c' /\
      marked rev (Some DownloadPhaseDownloading) mr mr' /\
      download_of c' rev = mkDownload (Some DownloadPhaseDownloading) (Some JobRunning) None /\ phase_of c' = phase_of c).
    { intros r c'. unfold visited, abs_visit. rewrite bool_decide_false by done.
      cbn [download_of d_job d_cleanup]. by rewrite Hj, Ex. }
    eapply leads_conseq; [|intros r c' H; exact (Heta r c' H)].
    destruct (findRevisionStatus mr (rev_Name rev)) as [i|] eqn:Ef; cbn [fmap option_fmap option_map] in *.
    + by apply Hlaunch.
    + apply leads_bind. eapply leads_conseq; [by apply phases_record_leads|].
      intros e c1 (-> & Hu & Hjobs & Hph & He). apply Hlaunch; [|done..].
      apply only_same_jobs; [done..|]. intros n Hne. rewrite He, bool_decide_false; [done|]. cbn. congruence.
Qed.

Lemma revision_visits rev mr c :
  alive c -> this_repo mr -> rev ∈ desired -> listed mr (rev_Name rev) = entry_in c (rev_Name rev) ->
  leads mem (reconcileRevision OperatorNamespace mr p rev) c (visited rev c mr).
Proof.
  intros Hc Hm Hr Hl. destruct (spec_jobs _ _ downloadable _ Hr) as [n Hn]. pose proof Hm as (Hname & _).
  unfold reconcileRevision. cbv zeta. set (ready := match _ with Some p => _ | None => false end).
  assert (Hready : ready = bool_decide (d_phase (download_of c rev) = Some DownloadPhaseReady)).
  { unfold ready. cbn. rewrite <- Hl. destruct (findRevisionStatus mr (rev_Name rev)) as [i|] eqn:Ef; cbn.
    - destruct (listed_found _ _ _ Ef) as [-> _]. cbn. apply bool_decide_ext. split; congruence.
    - rewrite (listed_missing _ _ Ef). done. }
  destruct ready.
  - cbn. unfold visited, abs_visit. rewrite <- Hready. exists mr. split; [done|]. split; [done|].
    split; [|done]. cbn. rewrite <- Hl. apply marked_refl.
  - apply eq_sym, bool_decide_eq_false in Hready. unfold RepoProgress.job_name in Hn.
    rewrite Hname, Hn. cbn [lift prog_bind]. fold ns. eapply leads_call; [reflexivity|]. unfold st_get.
    assert (Hj : job_in c rev = cl_jobs c !! (ns, n)) by (unfold RepoProgress.job_in, RepoProgress.job_name; by rewrite Hn).
    rewrite <- Hj. clear Hj. destruct (job_in c rev) as [j|] eqn:Ej.
    + by apply job_visits.
    + change (IsNotFound (fail NotFound "not found")) with true. by apply start_visits.
Qed.

(** ** All of them *)

(** What is not about the revision. *)
Lemma only_download rev rev' c c' :
  only rev c c' -> rev ∈ desired -> rev' ∈ desired -> rev' <> rev ->
  download_of c' rev' = download_of c rev' /\ entry_in c' (rev_Name rev') = entry_in c (rev_Name rev').
Proof.
  intros [_ H2 H3] Hr Hr' Hne. assert (Hn : rev_Name rev' <> rev_Name rev) by (intros E; by apply Hne, (desired_inj name spec)).
  destruct (H3 _ Hr' Hne) as [E1 E2]. unfold download_of. by rewrite (H2 _ Hn), E1, E2.
Qed.

Lemma visit_others rev rev' phase c c' mr mr' :
  only rev c c' -> marked rev phase mr mr' -> rev ∈ desired -> rev' ∈ desired -> rev' <> rev ->
  download_of c' rev' = download_of c rev' /\ entry_in c' (rev_Name rev') = entry_in c (rev_Name rev') /\
  listed mr' (rev_Name rev') = listed mr (rev_Name rev').
Proof.
  intros Ho (_ & Hl & _) Hr Hr' Hne. destruct (only_download _ _ _ _ Ho Hr Hr' Hne) as [E1 E2].
  do 2 (split; [done|]). apply Hl. intros E. by apply Hne, (desired_inj name spec).
Qed.

(** The repository in memory, after the loop: of the revisions listed in it, the
    phases they have; the others are still missing. *)
Definition looped (post : list RevisionReference) (mr mr' : ModelRepository) (c' : cluster) : Prop :=
  this_repo mr' /\
  (forall rev, rev ∈ desired -> rev ∉ post -> listed mr' (rev_Name rev) = listed mr (rev_Name rev)) /\
  (forall rev, rev ∈ post ->
     rs_Status <$> listed mr' (rev_Name rev) = listed mr (rev_Name rev) ≫= (fun _ => d_phase (download_of c' rev))).

Definition loop_refines (post : list RevisionReference) (mr : ModelRepository) (running : bool) (c : cluster)
    (r : (ModelRepository * bool) + (Result * err_opt)) (c' : cluster) : Prop :=
  let '(l, a) := abs_loop (map (download_of c) post) running in
  untouched c c' /\
  (forall rev, rev ∈ desired -> rev ∉ post -> download_of c' rev = download_of c rev) /\
  map (download_of c') post = l /\
  match a with
  | inl run => phase_of c' = phase_of c /\ exists mr', r = inl (mr', run) /\ looped post mr mr' c'
  | inr (result, failed) =>
      r = inr (result, None) /\ phase_of c' = if failed then DownloadPhaseFailed else phase_of c
  end.

Lemma map_download_eq post c c' :
  (forall rev, rev ∈ post -> download_of c' rev = download_of c rev) -> map (download_of c') post = map (download_of c) post.
Proof. intros H. apply map_ext_in. intros rev Hr. by apply H, list_elem_of_In. Qed.

Lemma looped_cons rev post c c1 c2 mr mr1 mr2 :
  only rev c c1 -> marked rev (d_phase (download_of c1 rev)) mr mr1 -> rev ∈ desired -> rev ∉ post ->
  (forall rev', rev' ∈ post -> rev' ∈ desired) ->
  download_of c2 rev = download_of c1 rev -> looped post mr1 mr2 c2 -> looped (rev :: post) mr mr2 c2.
Proof.
  intros Ho Hmk Hr Hnew Hin Hd (H1 & H2 & H3). split; [done|].
  assert (Hother : forall x, x ∈ desired -> x <> rev -> listed mr1 (rev_Name x) = listed mr (rev_Name x))
    by (intros x Hx Hne; by apply (visit_others rev x _ c c1 mr mr1 Ho Hmk)).
  split.
  - intros x Hx [Hne Hnx]%not_elem_of_cons. rewrite H2 by done. by apply Hother.
  - intros x [->|Hx]%elem_of_cons.
    + rewrite H2, Hd by done. apply Hmk.
    + rewrite H3, Hother by (auto; by intros ->). done.
Qed.

Lemma loop_leads post mr running c :
  (forall rev, rev ∈ post -> rev ∈ desired) -> NoDup post -> alive c -> this_repo mr ->
  (forall rev, rev ∈ post -> listed mr (rev_Name rev) = entry_in c (rev_Name rev)) ->
  leads mem (for_each post (mr, running) (reconcile_next OperatorNamespace p)) c (loop_refines post mr running c).
Proof.
  revert mr running c. induction post as [|rev post IH]; intros mr running c Hin Hnd Hc Hm Hl.
  { cbn. do 3 (split; [done|]). split; [done|]. exists mr. split; [done|]. split; [done|]. split; [done|].
    intros rev []%not_elem_of_nil. }
  apply NoDup_cons in Hnd as [Hnew Hnd]. assert (Hr : rev ∈ desired) by (apply Hin; by left).
  assert (Hin' : forall x, x ∈ post -> x ∈ desired) by (intros x Hx; apply Hin; by right).
  cbn [for_each]. apply leads_bind. unfold reconcile_next at 1. apply leads_bind.
  eapply leads_conseq; [apply (revision_visits rev mr c); [done..|apply Hl; by left]|].
  intros r c1 Hv. unfold visited in Hv. pose proof (abs_visit_goes_on (download_of c rev)) as Hgo.
  unfold loop_refines. cbn [map abs_loop]. destruct (abs_visit (download_of c rev)) as [v d].
  destruct Hv as (mr1 & -> & Ho & Hmk & <- & Hph). cbn [fst] in Hgo.
  pose proof (fun x Hx Hne => visit_others rev x _ c c1 mr mr1 Ho Hmk Hr Hx Hne) as Hother.
  assert (Hne : forall x, x ∈ post -> x <> rev) by (by intros x Hx ->).
  assert (Hmap : map (download_of c1) post = map (download_of c) post)
    by (apply map_download_eq; intros x Hx; by apply Hother; auto).
  destruct (v_early v) as [result|]; cbn [leads prog_bind].
  - split; [apply Ho|]. split; [|split; [by rewrite Hmap|done]].
    intros x Hx [Hn _]%not_elem_of_cons. by apply Hother.
  - eapply leads_conseq.
    + apply (IH mr1 (running || v_running v) c1); [done|done|by eapply untouched_alive, Hc; apply Ho| |].
      * by eapply same_this; [apply Hmk|].
      * intros x Hx. destruct (Hother x) as (_ & -> & ->); [by auto..|]. apply Hl. by right.
    + intros r c2. unfold loop_refines. rewrite Hmap. destruct (abs_loop _ _) as [l a].
      intros (Hu & Hsame & Hml & Ha). rewrite (Hgo eq_refl) in Hph. split; [by etrans; [apply Ho|]|]. split; [|split].
      * intros x Hx [H1 H2]%not_elem_of_cons. rewrite Hsame by done. by apply Hother.
      * rewrite Hsame, Hml by done. done.
      * destruct a as [run|[result failed]]; rewrite <- Hph; [|done].
        destruct Ha as (Hp2 & mr' & -> & Hlo). split; [done|]. exists mr'. split; [done|].
        eapply looped_cons; eauto.
Qed.

(** *** The pass *)

Lemma forallb_map {A B} (f : A -> B) (q : B -> bool) l : forallb q (map f l) = forallb (fun x => q (f x)) l.
Proof. induction l as [|x l IH]; cbn; [done|by rewrite IH]. Qed.

Lemma all_ready_known c c' mr mr' :
  (forall rev, rev ∈ desired -> listed mr (rev_Name rev) = entry_in c (rev_Name rev)) ->
  looped desired mr mr' c' ->
  all_ready mr' desired = all_known_ready (map (download_of c) desired) (map (download_of c') desired).
Proof.
  intros Hl (_ & _ & Hlo). unfold all_ready, all_known_ready. rewrite !forallb_map.
  assert (Hx : forall rev, In rev desired ->
    match findRevisionStatus mr' (rev_Name rev) with
    | Some i => bool_decide (rs_Status (deref mr' (InRepo i)) = DownloadPhaseReady)
    | None => false
    end = bool_decide (is_Some (d_phase (download_of c rev))) &&
          bool_decide (d_phase (download_of c' rev) = Some DownloadPhaseReady)).
  { intros rev Hr%list_elem_of_In. specialize (Hlo _ Hr). rewrite (Hl _ Hr) in Hlo.
    assert (Hm : match findRevisionStatus mr' (rev_Name rev) with
      | Some i => bool_decide (rs_Status (deref mr' (InRepo i)) = DownloadPhaseReady)
      | None => false
      end = bool_decide (rs_Status <$> listed mr' (rev_Name rev) = Some DownloadPhaseReady)).
    { destruct (findRevisionStatus mr' (rev_Name rev)) as [i|] eqn:Ef.
      - destruct (listed_found _ _ _ Ef) as [-> _]. apply bool_decide_ext. cbn. split; congruence.
      - by rewrite (listed_missing _ _ Ef). }
    rewrite Hm, Hlo. cbn [download_of d_phase]. destruct (entry_in c (rev_Name rev)); cbn; [done|].
    by rewrite bool_decide_false. }
  apply eq_true_iff_eq. rewrite andb_true_iff, !forallb_forall. split.
  - intros H. split; intros rev Hr; specialize (H rev Hr); rewrite Hx in H by done; by apply andb_true_iff in H as [? ?].
  - intros [H1 H2] rev Hr. rewrite Hx by done. by rewrite H1, H2.
Qed.

Lemma overall_refines mr running c :
  alive c -> this_repo mr ->
  leads mem (updateOverallPhase mr desired running) c (fun _ c' => untouched c c' /\
    (forall rev, download_of c' rev = download_of c rev) /\
    phase_of c' = if all_ready mr desired then DownloadPhaseReady
                  else if running then DownloadPhaseDownloading else phase_of c).
Proof.
  intros Hc [Hn _]. unfold updateOverallPhase.
  assert (Hd : forall c', cl_jobs c' = cl_jobs c -> (forall n, entry_in c' n = entry_in c n) ->
    forall rev, download_of c' rev = download_of c rev).
  { intros c' Hj He rev. destruct (job_in_eq c c' rev Hj) as [J1 J2]. unfold download_of. by rewrite He, J1, J2. }
  destruct (all_ready mr desired); [|destruct running; [|done]];
    (eapply leads_conseq; [by apply phases_condition_leads|]); intros u c' (H1 & H2 & H3 & H4); auto.
Qed.

Lemma pass_refines c :
  alive c ->
  leads mem revisions_pass c (fun r c' => let '(result, v) := abs_reconcile (view_of c).1 (view_of c).2 in
    r = (result, None) /\ untouched c c' /\ view_of c' = v).
Proof.
  intros Hc. unfold revisions_pass. pose proof Hc as (mr & Hmr & Hm). eapply leads_call; [reflexivity|].
  unfold st_get. rewrite Hmr. unfold reconcileRevisions. rewrite (this_desired _ _ _ Hm).
  rewrite bool_decide_false by (unfold RepoProgress.desired, getDesiredRevisions; by destruct (src_Revisions _)).
  assert (Hl : forall rev, rev ∈ desired -> listed mr (rev_Name rev) = entry_in c (rev_Name rev)).
  { intros rev _. unfold RepoProgress.entry_in, RepoProgress.status_in, RepoProgress.listed. by rewrite Hmr. }
  apply leads_bind. eapply leads_conseq.
  - apply loop_leads; [done|eapply (NoDup_fmap_1 rev_Name), downloadable|done..].
  - intros r c1. unfold loop_refines, abs_reconcile, view_of. cbn [fst snd].
    destruct (abs_loop _ _) as [l a]. intros (Hu & _ & Hml & Ha). destruct a as [running|[result failed]].
    + destruct Ha as (Hph & mr' & -> & Hlo). apply leads_bind. eapply leads_conseq.
      * apply overall_refines; [by eapply untouched_alive|apply Hlo].
      * intros u c2 (Hu2 & Hd & Hph2). rewrite (all_ready_known c c1 mr mr' Hl Hlo), Hml, Hph in Hph2.
        assert (Hml2 : map (download_of c2) desired = l) by (rewrite <- Hml; by apply map_download_eq; auto).
        destruct running; cbn; (split; [done|]); (split; [by etrans|]); by rewrite Hph2, Hml2.
    + destruct Ha as [-> Hph]. cbn. split; [done|]. split; [done|]. by rewrite Hph, Hml.
Qed.

(** A change of the jobs of one revision. *)
Lemma view_alter i f c c' :
  (forall rev, desired !! i = Some rev -> only rev c c' /\ phase_of c' = phase_of c /\
     download_of c' rev = f (download_of c rev)) ->
  (desired !! i = None -> c' = c) ->
  untouched c c' /\ view_of c' = ((view_of c).1, alter f i (view_of c).2).
Proof.
  intros Hs Hn. unfold view_of. cbn [fst snd]. destruct (desired !! i) as [rev|] eqn:E.
  - destruct (Hs _ eq_refl) as (Ho & -> & Hd). split; [apply Ho|]. f_equal. apply list_eq. intros k.
    rewrite list_lookup_fmap. destruct (decide (i = k)) as [->|Hne].
    + by rewrite list_lookup_alter_eq, list_lookup_fmap, E; cbn; rewrite Hd.
    + rewrite list_lookup_alter_ne, list_lookup_fmap by done. destruct (desired !! k) as [rev'|] eqn:E'; [|done]. cbn.
      f_equal. assert (Hne' : rev' <> rev).
      { intros ->. apply Hne. eapply NoDup_lookup; [eapply (NoDup_fmap_1 rev_Name), downloadable|done..]. }
      apply (only_download rev rev'); [done|by eapply list_elem_of_lookup_2..|done].
  - rewrite (Hn eq_refl). split; [done|]. f_equal. apply list_eq. intros k. destruct (decide (i = k)) as [->|Hne].
    + by rewrite list_lookup_alter_eq, list_lookup_fmap, E.
    + by rewrite list_lookup_alter_ne.
Qed.

Lemma job_change i f g c :
  (forall j, job_state_of <$> f j = g (job_state_of <$> j)) ->
  let c' := match desired !! i with Some rev => at_job (job_name rev) f c | None => c end in
  untouched c c' /\ view_of c' = ((view_of c).1,
    alter (fun d => mkDownload (d_phase d) (g (d_job d)) (d_cleanup d)) i (view_of c).2).
Proof.
  intros Hfg. cbv zeta. apply view_alter; [|by intros ->]. intros rev E. rewrite E.
  pose proof (list_elem_of_lookup_2 _ _ _ E) as Hr. destruct (spec_jobs _ _ downloadable _ Hr) as [n Hn].
  rewrite Hn. cbn [at_job]. split; [by apply only_job; [|left]|]. split; [done|]. unfold download_of.
  cbn [d_phase d_job d_cleanup]. f_equal.
  - unfold RepoProgress.job_in. rewrite Hn. cbn [cl_jobs set_jobs]. fold ns. by rewrite lookup_partial_alter_eq.
  - unfold cleanup_in. destruct (cleanup_name rev) as [m|] eqn:Em; [|done]. cbn. f_equal. apply lookup_partial_alter_ne.
    intros [= E']. exact (generateJobName_types_disjoint _ _ _ _ _ _ Hn Em E').
Qed.

Lemma cleanup_change i held c :
  let c' := match desired !! i with
            | Some rev => at_job (cleanup_name rev) (fun _ => Some (cleanup_job held)) c
            | None => c
            end in
  untouched c c' /\ view_of c' = ((view_of c).1, alter (fun d => mkDownload (d_phase d) (d_job d) (Some held)) i (view_of c).2).
Proof.
  cbv zeta. apply view_alter; [|by intros ->]. intros rev E. rewrite E.
  pose proof (list_elem_of_lookup_2 _ _ _ E) as Hr. destruct (spec_cleanup _ _ downloadable _ Hr) as [m Hm].
  change (cleanup_name rev = Done m) in Hm. rewrite Hm. cbn [at_job].
  split; [by apply only_job; [|right]|]. split; [done|]. unfold download_of. cbn [d_phase d_job d_cleanup]. f_equal.
  - f_equal. unfold RepoProgress.job_in. destruct (RepoProgress.job_name name rev) as [n|] eqn:En; [|done].
    apply lookup_partial_alter_ne. intros [= E']. exact (generateJobName_types_disjoint _ _ _ _ _ _ En Hm (eq_sym E')).
  - unfold cleanup_in. rewrite Hm. cbn. rewrite lookup_partial_alter_eq. cbn. by destruct held.
Qed.

Lemma download_step_refines op c :
  alive c ->
  let '(a, c') := mem_step op c in
  let '(a', v) := abs_step op (view_of c) in
  a = a' /\ view_of c' = v /\ untouched c c'.
Proof.
  intros Hc. destruct op as [|i ok|i|i held]; cbn [mem_step abs_step].
  - destruct (leads_run mem _ _ _ (pass_refines c Hc)) as (tr & r & c' & -> & H).
    destruct (abs_reconcile _ _) as [result v]. by destruct H as (-> & Hu & Hv).
  - split; [done|]. destruct (job_change i (fmap (ended ok)) (fun j => (fun _ => if ok then JobSucceeded else JobFailed) <$> j) c)
      as [H1 H2]; [|done]. intros [j|]; [|done]. cbn. f_equal. by destruct ok.
  - split; [done|]. by destruct (job_change i (fun _ => None) (fun _ => None) c) as [H1 H2].
  - split; [done|]. by destruct (cleanup_change i held c) as [H1 H2].
Qed.

(** Property C14: over any number of passes, with download jobs that end well or badly
    or are deleted, and cleanup jobs that turn up, in any order, in between, the
    controller does to the revisions of a repository that can be downloaded what the
    small machine [abs_step] does: it returns the same results (and no error, ever),
    the phases it reports for the revisions and the repository, the download jobs and
    the cleanup jobs are those of the machine after every operation; and nothing
    else of the cluster changes, not the spec of the repository, nor the storage or
    the engines its status records, nor any job of another repository. *)
Theorem downloads_refine ops c :
  alive c ->
  let '(l, c') := answers mem_step ops c in
  answers abs_step ops (view_of c) = (l, view_of c') /\ untouched c c'.
Proof.
  revert c. induction ops as [|op ops IH]; intros c Hc; cbn [answers]; [done|].
  pose proof (download_step_refines op c Hc) as Hs. destruct (mem_step op c) as [a c1], (abs_step op (view_of c)) as [a' v].
  destruct Hs as (-> & <- & Hu). specialize (IH c1 (untouched_alive _ _ Hu Hc)).
  destruct (answers mem_step ops c1) as [l c2]. destruct IH as [-> Hu2]. split; [done|by etrans].
Qed.

End Refinement.

(** A run: the old failure of the second revision is forgotten when its cleanup job
    is out of the way, the first one fails and is retried when its job was deleted,
    and both are done in the end. *)
Definition witness_ops : list download_op :=
  [CleanupJob 1 false; Pass; Pass; JobEnds 0 false; Pass; JobGone 0; Pass; JobEnds 0 true; JobEnds 1 true; Pass; Pass].
Definition witness_provider : StorageClassProvider :=
  NewStorageClassProvider (mkModelRepository (meta_with_Name "llama" meta_empty) two_spec
    (mkModelRepositoryStatus EmptyString [] None [] EmptyString)) (categorizeStorageClass (witness_sc "gp3" "ebs.csi.aws.com")).

Lemma downloads_refine_witness :
  let M := Reference.machinery in
  let S := witness_scripts in
  let R := witness_range in
  let '(l, c') := answers (mem_step EmptyString "llama" two_spec witness_provider) witness_ops two_cluster in
  (answers abs_step witness_ops (view_of EmptyString "llama" two_spec two_cluster) =
     (l, view_of EmptyString "llama" two_spec c') /\
   untouched EmptyString "llama" two_spec two_cluster c') /\
  answers abs_step witness_ops (view_of EmptyString "llama" two_spec two_cluster) =
    ([None; Some (requeue_after 5); Some (requeue_after 30); None; Some (requeue_after 300); None;
      Some (requeue_after 30); None; None; Some no_requeue; Some no_requeue],
     (DownloadPhaseReady, replicate 2 (mkDownload (Some DownloadPhaseReady) (Some JobSucceeded) None))).
Proof.
  intros M S R.
  assert (Hd : forall rev rev', rev ∈ desired two_spec -> rev' ∈ desired two_spec ->
    cleanup_name "llama" rev = cleanup_name "llama" rev' -> rev = rev').
  { intros rev rev' [-> | ->]%two_revisions [-> | ->]%two_revisions E; try done; exfalso; revert E; vm_compute; discriminate. }
  pose proof (downloads_refine (L := Reference.laws) EmptyString "llama" two_spec witness_provider two_spec_downloadable Hd
    witness_ops two_cluster (live_repo _ _ _ _ two_cluster_live)) as H.
  assert (Ha : answers abs_step witness_ops (view_of EmptyString "llama" two_spec two_cluster) =
    ([None; Some (requeue_after 5); Some (requeue_after 30); None; Some (requeue_after 300); None;
      Some (requeue_after 30); None; None; Some no_requeue; Some no_requeue],
     (DownloadPhaseReady, replicate 2 (mkDownload (Some DownloadPhaseReady) (Some JobSucceeded) None))))
    by (vm_compute; reflexivity).
  destruct (answers (mem_step _ _ _ _) _ _) as [l c']. exact (conj H Ha).
Defined.
