(* ===== verification/GoStd.v ===== *)
(** * Parts of Go's standard library

    What adapters/llmengine_utils.go uses of strings, strconv and encoding/json:
    splitting and replacing, strconv.Atoi, the strings strconv.ParseFloat accepts,
    and json.Unmarshal into an interface{}.  A float64 is carried as the literal it
    was parsed from. *)

From S2P Require Import Prelude.
From Stdlib Require Import Ascii String.

Local Open Scope Z_scope.

(** ** strings *)

(** strings.ReplaceAll(s, a, b) for one-byte strings *)
Fixpoint replace_char (a b : ascii) (s : string) : string :=
  match s with
  | EmptyString => EmptyString
  | String c s => String (if bool_decide (c = a) then b else c) (replace_char a b s)
  end.

(** strings.SplitN(s, sep, 2) for a separator that occurs: what is before and
    after the first one. *)
Fixpoint cut_at (sep : ascii) (s : string) : option (string * string) :=
  match s with
  | EmptyString => None
  | String c s =>
      if bool_decide (c = sep) then Some (EmptyString, s)
      else match cut_at sep s with
           | Some (a, b) => Some (String c a, b)
           | None => None
           end
  end.

(** strings.Split(s, sep) for a one-byte separator *)
Fixpoint split_on (sep : ascii) (s : string) : list string :=
  match s with
  | EmptyString => [EmptyString]
  | String c s =>
      if bool_decide (c = sep) then EmptyString :: split_on sep s
      else match split_on sep s with
           | [] => [String c EmptyString]
           | x :: l => String c x :: l
           end
  end.

Fixpoint contains_char (a : ascii) (s : string) : bool :=
  match s with
  | EmptyString => false
  | String c s => bool_decide (c = a) || contains_char a s
  end.

Lemma split_on_flat sep s : contains_char sep s = false -> split_on sep s = [s].
Proof.
  induction s as [|c s IH]; cbn [contains_char split_on]; [done|].
  intros [Hc Hs]%orb_false_iff. rewrite Hc, IH by done. done.
Qed.

Lemma split_on_cons sep s : exists x l, split_on sep s = x :: l.
Proof.
  induction s as [|c s (x & l & IH)]; cbn; [eauto|]. rewrite IH.
  destruct (bool_decide _); eauto.
Qed.

(** strings.TrimSpace, of the ASCII white space. *)
Definition is_space (c : ascii) : bool :=
  let n := N_of_ascii c in bool_decide ((9 <= n <= 13)%N \/ n = 32%N).

Fixpoint trim_left (s : string) : string :=
  match s with
  | String c s' => if is_space c then trim_left s' else s
  | EmptyString => EmptyString
  end.

Fixpoint rev_string (s acc : string) : string :=
  match s with
  | EmptyString => acc
  | String c s => rev_string s (String c acc)
  end.

Definition trim_space (s : string) : string :=
  rev_string (trim_left (rev_string (trim_left s) EmptyString)) EmptyString.

Fixpoint last_char (s : string) : option ascii :=
  match s with
  | EmptyString => None
  | String c EmptyString => Some c
  | String _ s => last_char s
  end.
Definition first_char (s : string) : option ascii :=
  match s with EmptyString => None | String c _ => Some c end.

(** ** strconv *)

Definition digit_of (c : ascii) : option Z :=
  let n := Z.of_N (N_of_ascii c) in
  if bool_decide (48 <= n <= 57) then Some (n - 48) else None.

Fixpoint digits_of (s : string) (acc : Z) : option Z :=
  match s with
  | EmptyString => Some acc
  | String c s => match digit_of c with Some d => digits_of s (10 * acc + d) | None => None end
  end.

(** An optional sign: whether it is a minus, and the rest. *)
Definition sign_of (s : string) : bool * string :=
  match s with
  | String "+" s => (false, s)
  | String "-" s => (true, s)
  | _ => (false, s)
  end.

(** strconv.Atoi on a 64-bit platform *)
Definition Atoi (s : string) : option Z :=
  let '(neg, s) := sign_of s in
  match s with
  | EmptyString => None
  | _ =>
      match digits_of s 0 with
      | Some n =>
          let n := if neg then - n else n in
          if bool_decide (- 2 ^ 63 <= n < 2 ^ 63) then Some n else None
      | None => None
      end
  end.

(** The digits at the front: how many there are, their value after [acc], and
    the rest. *)
Fixpoint take_digits (s : string) (count acc : Z) : Z * Z * string :=
  match s with
  | String c s' =>
      match digit_of c with
      | Some d => take_digits s' (count + 1) (10 * acc + d)
      | None => (count, acc, s)
      end
  | EmptyString => (count, acc, s)
  end.

(** The exponent of a decimal literal, with its sign; like Go's, it stops
    growing at 10000.  [None] when there are no digits or something follows. *)
Fixpoint exponent_digits (s : string) (acc : Z) : option Z :=
  match s with
  | EmptyString => Some acc
  | String c s =>
      match digit_of c with
      | Some d => exponent_digits s (if acc <? 10000 then 10 * acc + d else acc)
      | None => None
      end
  end.

Definition exponent_of (s : string) : option Z :=
  match s with
  | EmptyString => Some 0
  | String e s =>
      if bool_decide (e = "e"%char \/ e = "E"%char) then
        let '(neg, s) := sign_of s in
        match s with
        | EmptyString => None
        | _ => (fun n : Z => if neg then - n else n) <$> exponent_digits s 0
        end
      else None
  end.

(** m * 10^e rounds to a finite float64: it is below the midpoint between the
    greatest float64 and 2^1024. *)
Definition in_float_range (m e : Z) : bool :=
  let bound := 2 ^ 1024 - 2 ^ 970 in
  if m =? 0 then true
  else if e <? 0 then bool_decide (m < bound * 10 ^ (- e))
  else if 400 <? e then false
  else bool_decide (m * 10 ^ e < bound).

(** Decimal literals: digits with at most one point, at least one digit, an
    optional exponent; in range. *)
Definition decimal_literal (s : string) : bool :=
  let '(n1, m, s) := take_digits s 0 0 in
  let '(n2, m, s) :=
    match s with
    | String "." s => take_digits s 0 m
    | _ => (0, m, s)
    end in
  if n1 + n2 =? 0 then false
  else match exponent_of s with
       | Some e => in_float_range m (e - n2)
       | None => false
       end.

(** Hexadecimal literals (0x1.8p3), in which an exponent is mandatory. *)
Definition hex_value (c : ascii) : option Z :=
  let n := Z.of_N (N_of_ascii (ascii_lower c)) in
  if bool_decide (97 <= n <= 102) then Some (n - 87) else digit_of c.

(** What is before the exponent: how many digits, their value after [m], and
    four times the number of those after the point ([frac]). *)
Fixpoint hex_mantissa (s : string) (count m frac : Z) (point : bool) : option (Z * Z * Z * string) :=
  match s with
  | EmptyString => None
  | String c s =>
      if bool_decide (c = "p"%char \/ c = "P"%char) then Some (count, m, frac, s)
      else if bool_decide (c = "."%char) then
        if point then None else hex_mantissa s count m frac true
      else match hex_value c with
           | Some d => hex_mantissa s (count + 1) (16 * m + d) (if point then frac + 4 else frac) point
           | None => None
           end
  end.

Definition hex_literal (s : string) : bool :=
  match s with
  | String "0" (String x s) =>
      if bool_decide (x = "x"%char \/ x = "X"%char) then
        match hex_mantissa s 0 0 0 false with
        | Some (count, m, frac, s) =>
            let '(neg, s) := sign_of s in
            if (count =? 0) || bool_decide (s = EmptyString) then false
            else match exponent_digits s 0 with
                 | Some e =>
                     let e := (if neg then - e else e) - frac in
                     (m =? 0) || (Z.log2 m + e <? 1023) ||
                     ((Z.log2 m + e =? 1023) &&
                      bool_decide (m * 2 ^ 54 < (2 ^ 54 - 1) * 2 ^ (Z.log2 m + 1)))
                 | None => false
                 end
        | None => false
        end
      else false
  | _ => false
  end.

(** strconv's underscoreOK: an underscore stands between digits, or after a base
    prefix and before a digit.  [digit] and [under]: what the last character
    was. *)
Fixpoint underscores_between (hex : bool) (s : string) (digit under : bool) : bool :=
  match s with
  | EmptyString => negb under
  | String c s =>
      if (if hex then match hex_value c with Some _ => true | None => false end
          else match digit_of c with Some _ => true | None => false end)
      then underscores_between hex s true false
      else if bool_decide (c = "_"%char) then digit && underscores_between hex s false true
      else negb under && underscores_between hex s false false
  end.

Definition underscoreOK (s : string) : bool :=
  let '(_, s) := sign_of s in
  match s with
  | String "0" (String x s') =>
      let x := ascii_lower x in
      if bool_decide (x = "b"%char \/ x = "o"%char \/ x = "x"%char)
      then underscores_between (bool_decide (x = "x"%char)) s' true false
      else underscores_between false s false false
  | _ => underscores_between false s false false
  end.

Fixpoint remove_char (a : ascii) (s : string) : string :=
  match s with
  | EmptyString => EmptyString
  | String c s => if bool_decide (c = a) then remove_char a s else String c (remove_char a s)
  end.

(** strconv.ParseFloat(s, 64): whether it gives a value.  It skips underscores
    and then asks underscoreOK, so that they separate digits only. *)
Definition special_float (s : string) : bool :=
  let low := to_lower s in
  let '(_, unsigned) := sign_of low in
  bool_decide (unsigned = "inf" \/ unsigned = "infinity" \/ low = "nan").

Definition ParseFloat_ok (s : string) : bool :=
  special_float s ||
  ((negb (contains_char "_" s) || underscoreOK s) &&
   (let '(_, u) := sign_of (remove_char "_" s) in hex_literal u || decimal_literal u)).

Example floats :
  map ParseFloat_ok ["1_23.50_0_0e+1_2"; "0x_1_2.3_4_5p+1_2"; "+.5"; "-Infinity"; "1.7976931348623157e308"] =
    [true; true; true; true; true] /\
  map ParseFloat_ok ["_1"; "1__2"; "1_.5"; "1e_5"; "0_x1p3"; "0x1"; "1e309"; "."; "1.2.3"; "-nan"] =
    [false; false; false; false; false; false; false; false; false; false].
Proof. split; vm_compute; reflexivity. Qed.

(** ** encoding/json *)

(** What an interface{} holds in the configuration of vLLM: what json.Unmarshal
    stores there, and int and bool.  A map is a finite map. *)
Inductive value : Type :=
| VNull
| VBool (b : bool)
| VInt (n : Z)
| VFloat (literal : string)
| VString (s : string)
| VList (l : list value)
| VMap (m : gmap string value).

Definition code (c : ascii) : Z := Z.of_N (N_of_ascii c).
Definition byte_of (n : Z) : ascii := ascii_of_N (Z.to_N n).
Definition between (lo : Z) (c : ascii) (hi : Z) : bool := (lo <=? code c) && (code c <=? hi).

(** White space between tokens. *)
Fixpoint skip_ws (s : string) : string :=
  match s with
  | String c s' =>
      if bool_decide (c = " "%char \/ code c = 9 \/ code c = 10 \/ code c = 13) then skip_ws s' else s
  | EmptyString => EmptyString
  end.

(** The UTF-8 encoding of a rune. *)
Definition encode_rune (r : Z) : string :=
  if r <? 128 then String (byte_of r) EmptyString
  else if r <? 2048 then
    String (byte_of (192 + r / 64)) (String (byte_of (128 + r mod 64)) EmptyString)
  else if r <? 65536 then
    String (byte_of (224 + r / 4096)) (String (byte_of (128 + r / 64 mod 64))
      (String (byte_of (128 + r mod 64)) EmptyString))
  else
    String (byte_of (240 + r / 262144)) (String (byte_of (128 + r / 4096 mod 64))
      (String (byte_of (128 + r / 64 mod 64)) (String (byte_of (128 + r mod 64)) EmptyString))).

Definition replacement : string := encode_rune 65533.

(** How many bytes the UTF-8 sequence at the front takes; 0 when it is invalid. *)
Definition rune_width (s : string) : nat :=
  let tail c := between 128 c 191 in
  match s with
  | EmptyString => 0%nat
  | String a s =>
      if code a <? 128 then 1%nat
      else
        let lo := if code a =? 224 then 160 else if code a =? 240 then 144 else 128 in
        let hi := if code a =? 237 then 159 else if code a =? 244 then 143 else 191 in
        match s with
        | EmptyString => 0%nat
        | String b s =>
            if negb (between lo b hi) then 0%nat
            else if between 194 a 223 then 2%nat
            else match s with
                 | EmptyString => 0%nat
                 | String c s =>
                     if negb (tail c) then 0%nat
                     else if between 224 a 239 then 3%nat
                     else match s with
                          | EmptyString => 0%nat
                          | String d _ => if tail d && between 240 a 244 then 4%nat else 0%nat
                          end
                 end
        end
  end.

(** The runes that stand for an escaped character. *)
Definition simple_escape (c : ascii) : option Z :=
  if bool_decide (c = dquote \/ c = backslash \/ c = "/"%char) then Some (code c)
  else if bool_decide (c = "b"%char) then Some 8
  else if bool_decide (c = "f"%char) then Some 12
  else if bool_decide (c = "n"%char) then Some 10
  else if bool_decide (c = "r"%char) then Some 13
  else if bool_decide (c = "t"%char) then Some 9
  else None.

Definition hex4 (a b c d : ascii) : option Z :=
  match hex_value a, hex_value b, hex_value c, hex_value d with
  | Some a, Some b, Some c, Some d => Some (4096 * a + 256 * b + 16 * c + d)
  | _, _, _, _ => None
  end.

(** The \uXXXX escape at the front, if there is one. *)
Definition next_u4 (s : string) : option Z :=
  match s with
  | String x (String u (String a (String b (String c (String d _))))) =>
      if bool_decide (x = backslash /\ u = "u"%char) then hex4 a b c d else None
  | _ => None
  end.

(** utf16.DecodeRune of a surrogate and what follows it. *)
Definition surrogate_pair (r : Z) (next : option Z) : option Z :=
  match next with
  | Some r2 =>
      if bool_decide (55296 <= r < 56320 /\ 56320 <= r2 < 57344)
      then Some (65536 + (r - 55296) * 1024 + (r2 - 56320)) else None
  | None => None
  end.

Definition emit (t : string) (r : option (string * string)) : option (string * string) :=
  match r with Some (u, rest) => Some (t +:+ u, rest) | None => None end.

(** The rest of a string literal after its opening quote: its value, and what
    follows the closing quote.  [skip] is the number of bytes left of a
    sequence that was already decoded: they are dropped ([keep] = false) or
    copied. *)
Fixpoint json_string (s : string) (skip : nat) (keep : bool) : option (string * string) :=
  match s with
  | EmptyString => None
  | String c s1 =>
      match skip with
      | S skip => emit (if keep then String c EmptyString else EmptyString) (json_string s1 skip keep)
      | O =>
          if bool_decide (c = dquote) then Some (EmptyString, s1)
          else if bool_decide (c = backslash) then
            match s1 with
            | EmptyString => None
            | String e s2 =>
                if bool_decide (e = "u"%char) then
                  match next_u4 s with
                  | None => None
                  | Some r =>
                      if bool_decide (55296 <= r < 57344) then
                        match surrogate_pair r (next_u4 (str_drop 6 s)) with
                        | Some r => emit (encode_rune r) (json_string s1 11 false)
                        | None => emit replacement (json_string s1 5 false)
                        end
                      else emit (encode_rune r) (json_string s1 5 false)
                  end
                else match simple_escape e with
                     | Some r => emit (encode_rune r) (json_string s2 0 false)
                     | None => None
                     end
            end
          else if code c <? 32 then None
          else match rune_width s with
               | O => emit replacement (json_string s1 0 false)
               | S w => emit (String c EmptyString) (json_string s1 w true)
               end
      end
  end.

(** A number of JSON's grammar at the front: its literal and the rest. *)
Fixpoint take_while (P : ascii -> bool) (s : string) : string * string :=
  match s with
  | String c s' =>
      if P c then let '(a, b) := take_while P s' in (String c a, b) else (EmptyString, s)
  | EmptyString => (EmptyString, s)
  end.

Definition digit_char (c : ascii) : bool := between 48 c 57.

Definition json_integer (s : string) : option (string * string) :=
  match s with
  | String "0" s => Some ("0", s)
  | _ =>
      match take_while digit_char s with
      | (EmptyString, _) => None
      | r => Some r
      end
  end.

Definition json_fraction (s : string) : option (string * string) :=
  match s with
  | String "." s =>
      match take_while digit_char s with
      | (EmptyString, _) => None
      | (d, s) => Some (String "." d, s)
      end
  | _ => Some (EmptyString, s)
  end.

Definition json_exponent (s : string) : option (string * string) :=
  match s with
  | String e s' =>
      if bool_decide (e = "e"%char \/ e = "E"%char) then
        let '(sign, s) :=
          match s' with
          | String c s => if bool_decide (c = "+"%char \/ c = "-"%char)
                          then (String c EmptyString, s) else (EmptyString, s')
          | EmptyString => (EmptyString, s')
          end in
        match take_while digit_char s with
        | (EmptyString, _) => None
        | (d, s) => Some (String e (sign +:+ d), s)
        end
      else Some (EmptyString, s)
  | EmptyString => Some (EmptyString, s)
  end.

(** The grammar, for a choice of what the number literals have to satisfy: a
    number that json.Unmarshal stores in an interface{} must be a float64, one
    that it skips need not be. *)
Section Grammar.
Context (number_ok : string -> bool).

Definition json_number (s : string) : option (string * string) :=
  let '(sign, s) := match s with String "-" s => ("-", s) | _ => (EmptyString, s) end in
  match json_integer s with
  | Some (i, s) =>
      match json_fraction s with
      | Some (f, s) =>
          match json_exponent s with
          | Some (e, s) =>
              let lit := sign +:+ i +:+ f +:+ e in
              if number_ok lit then Some (lit, s) else None
          | None => None
          end
      | None => None
      end
  | None => None
  end.

Definition literal (word : string) (v : value) (s : string) : option (value * string) :=
  if has_prefix word s then Some (v, str_drop (String.length word) s) else None.

Definition next_is (c : ascii) (s : string) : bool :=
  match s with String d _ => bool_decide (d = c) | EmptyString => false end.

(** A value and the rest.  [depth] is the number of arrays and objects around
    it, at most 10000; [n] is fuel, of which [json_fuel] is enough. *)
Fixpoint json_value (n : nat) (depth : Z) (s : string) {struct n} : option (value * string) :=
  match n with
  | O => None
  | S n =>
      match skip_ws s with
      | EmptyString => None
      | String c s' as s =>
          if bool_decide (c = "{"%char) then
            if 10000 <=? depth then None
            else if next_is "}" (skip_ws s') then Some (VMap ∅, str_drop 1 (skip_ws s'))
            else json_members n (depth + 1) ∅ (skip_ws s')
          else if bool_decide (c = "["%char) then
            if 10000 <=? depth then None
            else if next_is "]" (skip_ws s') then Some (VList [], str_drop 1 (skip_ws s'))
            else json_elements n (depth + 1) [] (skip_ws s')
          else if bool_decide (c = dquote) then
            match json_string s' 0 false with
            | Some (t, s) => Some (VString t, s)
            | None => None
            end
          else if bool_decide (c = "t"%char) then literal "true" (VBool true) s
          else if bool_decide (c = "f"%char) then literal "false" (VBool false) s
          else if bool_decide (c = "n"%char) then literal "null" VNull s
          else match json_number s with
               | Some (lit, s) => Some (VFloat lit, s)
               | None => None
               end
      end
  end
(** The members of an object, from a key on: the later of two equal keys wins. *)
with json_members (n : nat) (depth : Z) (m : gmap string value) (s : string) {struct n} :
    option (value * string) :=
  match n with
  | O => None
  | S n =>
      if negb (next_is dquote s) then None
      else match json_string (str_drop 1 s) 0 false with
           | None => None
           | Some (k, s) =>
               if negb (next_is ":" (skip_ws s)) then None
               else match json_value n depth (str_drop 1 (skip_ws s)) with
                    | None => None
                    | Some (v, s) =>
                        let m := <[k := v]> m in
                        let s := skip_ws s in
                        if next_is "," s then json_members n depth m (skip_ws (str_drop 1 s))
                        else if next_is "}" s then Some (VMap m, str_drop 1 s)
                        else None
                    end
           end
  end
(** The elements of an array, of which [l] is the reverse of the first ones. *)
with json_elements (n : nat) (depth : Z) (l : list value) (s : string) {struct n} :
    option (value * string) :=
  match n with
  | O => None
  | S n =>
      match json_value n depth s with
      | None => None
      | Some (v, s) =>
          let s := skip_ws s in
          if next_is "," s then json_elements n depth (v :: l) (str_drop 1 s)
          else if next_is "]" s then Some (VList (rev (v :: l)), str_drop 1 s)
          else None
      end
  end.

Definition json_fuel (s : string) : nat := S (2 * String.length s).

(** One value, and nothing after it. *)
Definition json_text (s : string) : option value :=
  match json_value (json_fuel s) 0 s with
  | Some (v, s) => if bool_decide (skip_ws s = EmptyString) then Some v else None
  | None => None
  end.

(** ** Fuel

    Every parser consumes at least one byte, so twice the length of the text is
    enough fuel: with more the answer is the same. *)
Definition ssize (s : string) : nat := String.length s.
Definition shrinks {A} (s : string) (r : option (A * string)) : Prop :=
  match r with Some (_, r) => (ssize r < ssize s)%nat | None => True end.

Lemma skip_ws_size s : (ssize (skip_ws s) <= ssize s)%nat.
Proof. induction s as [|c s IH]; simpl; [done|]. case_bool_decide; simpl; lia. Qed.

Lemma str_drop_size n s : (ssize (str_drop n s) <= ssize s)%nat.
Proof.
  revert s; induction n as [|n IH]; intros [|c s]; simpl; [lia..|]. specialize (IH s). lia.
Qed.

Lemma take_while_size P s a b : take_while P s = (a, b) -> (ssize a + ssize b = ssize s)%nat.
Proof.
  revert a b; induction s as [|c s IH]; simpl; intros a b; [by intros [= <- <-]|].
  destruct (P c); [|by intros [= <- <-]].
  destruct (take_while P s) as [a' b'] eqn:E. intros [= <- <-].
  specialize (IH a' b' eq_refl). simpl. lia.
Qed.

Lemma emit_shrinks t r s : shrinks s r -> shrinks s (emit t r).
Proof. by destruct r as [[? ?]|]. Qed.

Lemma shrinks_cons {A} c s (r : option (A * string)) : shrinks s r -> shrinks (String c s) r.
Proof. destruct r as [[? ?]|]; simpl; [lia|done]. Qed.

Lemma json_string_shrinks s k b : shrinks s (json_string s k b).
Proof.
  revert k b. induction s as [s IH] using (induction_ltof1 _ ssize). unfold ltof in IH.
  destruct s as [|c s]; intros k b; [done|].
  assert (Hs : forall k b, shrinks (String c s) (json_string s k b)).
  { intros. apply shrinks_cons, IH. simpl. lia. }
  assert (Hd : forall e s' k b, s = String e s' -> shrinks (String c s) (json_string s' k b)).
  { intros e s' k' b' ->. apply shrinks_cons, shrinks_cons, IH. simpl. lia. }
  change (json_string (String c s) k b) with
    ltac:(let t := eval cbn [json_string] in (json_string (String c s) k b) in exact t).
  repeat first [ done | apply emit_shrinks | by apply Hs | by eapply Hd
               | solve [unfold shrinks, ssize; simpl; lia] | split_match ].
Qed.

Lemma json_integer_shrinks s : shrinks s (json_integer s).
Proof.
  unfold json_integer.
  assert (H : shrinks s (match take_while digit_char s with
                         | (EmptyString, _) => None | r => Some r end)).
  { destruct (take_while _ _) as [[|? a] r] eqn:E; [done|].
    apply take_while_size in E. simpl in *. lia. }
  repeat split_match; try exact H; simpl; lia.
Qed.

Ltac take_while_tac :=
  repeat split_match; intros ?; simplify_eq; try done;
  match goal with H : take_while _ _ = _ |- _ => apply take_while_size in H end;
  simpl in *; lia.

Lemma json_fraction_size s f r : json_fraction s = Some (f, r) -> (ssize r <= ssize s)%nat.
Proof. unfold json_fraction. take_while_tac. Qed.

Lemma json_exponent_size s f r : json_exponent s = Some (f, r) -> (ssize r <= ssize s)%nat.
Proof. unfold json_exponent. take_while_tac. Qed.

Lemma json_number_shrinks s : shrinks s (json_number s).
Proof.
  unfold json_number.
  destruct (match s with String "-" s => ("-", s) | _ => (EmptyString, s) end) as [sign s'] eqn:E.
  assert (Hs' : (ssize s' <= ssize s)%nat).
  { revert E. repeat split_match; intros [= <- <-]; simpl; lia. }
  pose proof (json_integer_shrinks s') as Hi.
  destruct (json_integer s') as [[i s1]|]; [|done].
  destruct (json_fraction s1) as [[f s2]|] eqn:E2; [|done]. apply json_fraction_size in E2.
  destruct (json_exponent s2) as [[e s3]|] eqn:E3; [|done]. apply json_exponent_size in E3.
  cbv zeta. destruct (number_ok _); simpl in *; [lia|done].
Qed.

(** With enough fuel for the text, more fuel changes nothing. *)
Definition value_agrees (n : nat) : Prop := forall m d s,
  (2 * ssize s < n)%nat -> (2 * ssize s < m)%nat ->
  json_value n d s = json_value m d s /\ shrinks s (json_value n d s).
Definition members_agree (n : nat) : Prop := forall m d o s,
  (2 * ssize s < n)%nat -> (2 * ssize s < m)%nat ->
  json_members n d o s = json_members m d o s /\ shrinks s (json_members n d o s).
Definition elements_agree (n : nat) : Prop := forall m d l s,
  (2 * ssize s + 1 < n)%nat -> (2 * ssize s + 1 < m)%nat ->
  json_elements n d l s = json_elements m d l s /\ shrinks s (json_elements n d l s).

Lemma shrinks_le {A} s s' (r : option (A * string)) :
  (ssize s <= ssize s')%nat -> shrinks s r -> shrinks s' r.
Proof. destruct r as [[? ?]|]; simpl; [lia|done]. Qed.

Lemma literal_shrinks w v c s :
  w <> EmptyString -> shrinks (String c s) (literal w v (String c s)).
Proof.
  unfold literal. destruct (has_prefix _ _); [|done]. destruct w; [done|]. intros _. simpl.
  pose proof (str_drop_size (String.length w) s). lia.
Qed.

Lemma skip_next c s : next_is c s = true -> (ssize (str_drop 1 s) < ssize s)%nat.
Proof. destruct s as [|d s]; simpl; [done|]. intros _. destruct s; simpl; lia. Qed.

(** The sizes of what the parsers are called on. *)
Ltac sizes :=
  repeat match goal with
  | H : negb _ = false |- _ => apply negb_false_iff in H
  | H : next_is _ _ = true |- _ => apply skip_next in H
  | H : skip_ws ?s = String _ _ |- _ =>
      let E := fresh in pose proof (skip_ws_size s) as E; rewrite H in E; clear H; simpl in E
  | H : context [ssize (skip_ws ?s)] |- _ =>
      lazymatch goal with
      | _ : (ssize (skip_ws s) <= ssize s)%nat |- _ => fail
      | _ => pose proof (skip_ws_size s)
      end
  | |- context [ssize (skip_ws ?s)] =>
      lazymatch goal with
      | _ : (ssize (skip_ws s) <= ssize s)%nat |- _ => fail
      | _ => pose proof (skip_ws_size s)
      end
  end; simpl in *; lia.

Lemma members_agree_S n : value_agrees n -> members_agree n -> members_agree (S n).
Proof.
  intros Hv Hm [|m] d o s Hn Hm'; [lia|]. cbn [json_members].
  destruct (negb (next_is dquote s)) eqn:E1; [done|].
  pose proof (json_string_shrinks (str_drop 1 s) 0 false) as Hs.
  destruct (json_string (str_drop 1 s) 0 false) as [[k s1]|]; [|done]. cbn [shrinks] in Hs.
  destruct (negb (next_is ":" (skip_ws s1))) eqn:E2; [done|].
  destruct (Hv m d (str_drop 1 (skip_ws s1))) as [<- Hs2]; [sizes..|].
  destruct (json_value n d _) as [[v s2]|]; [|done]. cbn [shrinks] in Hs2. cbv zeta.
  destruct (next_is "," (skip_ws s2)) eqn:E3.
  - destruct (Hm m d (<[k:=v]> o) (skip_ws (str_drop 1 (skip_ws s2)))) as [<- Hs3]; [sizes..|].
    split; [done|]. revert Hs3. apply shrinks_le. sizes.
  - destruct (next_is "}" (skip_ws s2)) eqn:E4; [|done]. split; [done|]. cbn [shrinks]. sizes.
Qed.

Lemma elements_agree_S n : value_agrees n -> elements_agree n -> elements_agree (S n).
Proof.
  intros Hv Hm [|m] d l s Hn Hm'; [lia|]. cbn [json_elements].
  destruct (Hv m d s) as [<- Hs]; [lia..|].
  destruct (json_value n d s) as [[v s1]|]; [|done]. cbn [shrinks] in Hs. cbv zeta.
  destruct (next_is "," (skip_ws s1)) eqn:E3.
  - destruct (Hm m d (v :: l) (str_drop 1 (skip_ws s1))) as [<- Hs3]; [sizes..|].
    split; [done|]. revert Hs3. apply shrinks_le. sizes.
  - destruct (next_is "]" (skip_ws s1)) eqn:E4; [|done]. split; [done|]. cbn [shrinks]. sizes.
Qed.

Lemma value_agrees_S n :
  members_agree n -> elements_agree n -> value_agrees (S n).
Proof.
  intros Hm He [|m] d s Hn Hm'; [lia|]. cbn [json_value].
  destruct (skip_ws s) as [|c s'] eqn:E; [done|].
  assert (Hle : (ssize (String c s') <= ssize s)%nat) by (rewrite <- E; apply skip_ws_size).
  simpl in Hle. repeat split_match; try done.
  - split; [done|]. cbn [shrinks]. sizes.
  - destruct (Hm m (d + 1) ∅ (skip_ws s')) as [<- H]; [sizes..|].
    split; [done|]. revert H. apply shrinks_le. sizes.
  - split; [done|]. cbn [shrinks]. sizes.
  - destruct (He m (d + 1) [] (skip_ws s')) as [<- H]; [sizes..|].
    split; [done|]. revert H. apply shrinks_le. sizes.
  - split; [done|]. pose proof (json_string_shrinks s' 0 false) as H.
    match goal with E : json_string _ _ _ = _ |- _ => rewrite E in H end. simpl in *. lia.
  - split; [done|]. eapply shrinks_le, literal_shrinks; [done|by vm_compute].
  - split; [done|]. eapply shrinks_le, literal_shrinks; [done|by vm_compute].
  - split; [done|]. eapply shrinks_le, literal_shrinks; [done|by vm_compute].
  - split; [done|]. pose proof (json_number_shrinks (String c s')) as H.
    match goal with E : json_number _ = _ |- _ => rewrite E in H end. simpl in *. lia.
Qed.

Lemma json_fuel_agree n : value_agrees n /\ members_agree n /\ elements_agree n.
Proof.
  induction n as [|n (Hv & Hm & He)].
  - repeat split; intros; lia.
  - split; [by apply value_agrees_S|]. split; [by apply members_agree_S|by apply elements_agree_S].
Qed.

Lemma json_fuel_enough n s :
  (json_fuel s <= n)%nat -> json_value n 0 s = json_value (json_fuel s) 0 s.
Proof.
  intros Hn. destruct (json_fuel_agree (json_fuel s)) as [Hv _].
  unfold json_fuel in *. symmetry. apply Hv; unfold ssize; lia.
Qed.

End Grammar.

(** json.Unmarshal(s, &v) for an interface{} v *)
Definition json_Unmarshal (s : string) : option value := json_text ParseFloat_ok s.
