(* ===== verification/ReferenceJson.v ===== *)
(** * Model references in JSON

    UnmarshalJSON of ModelReference (api/v1/llmengine_types.go) over
    encoding/json, and json.Marshal of the struct as its tags say.  An engine
    written to the API server is read back with the same references, and a bare
    string is a reference by name. *)

From S2P Require Import Prelude Api Kube GoStd.
From Stdlib Require Import Ascii String.

Local Open Scope Z_scope.

(** ** encoding/json: into a struct of strings *)

(** The numbers of a text that is only skipped. *)
Definition any_number (_ : string) : bool := true.

(** The members of an object, in order, from a key on; and the rest. *)
Fixpoint json_fields (n : nat) (s : string) : option (list (string * value) * string) :=
  match n with
  | O => None
  | S n =>
      if negb (next_is dquote s) then None
      else match json_string (str_drop 1 s) 0 false with
           | None => None
           | Some (k, s) =>
               if negb (next_is ":" (skip_ws s)) then None
               else match json_value any_number (json_fuel s) 1 (str_drop 1 (skip_ws s)) with
                    | None => None
                    | Some (v, s) =>
                        let s := skip_ws s in
                        if next_is "," s then
                          match json_fields n (skip_ws (str_drop 1 s)) with
                          | Some (l, s) => Some ((k, v) :: l, s)
                          | None => None
                          end
                        else if next_is "}" s then Some ([(k, v)], str_drop 1 s)
                        else None
                    end
           end
  end.

Definition json_object (s : string) : option (list (string * value)) :=
  let s := skip_ws s in
  if negb (next_is "{" s) then None
  else
    let s := skip_ws (str_drop 1 s) in
    match (if next_is "}" s then Some ([], str_drop 1 s) else json_fields (String.length s) s) with
    | Some (l, s) => if bool_decide (skip_ws s = EmptyString) then Some l else None
    | None => None
    end.

(** foldName: upper case for ASCII, and the long s, whose two bytes follow each
    other, is an S.  (The Kelvin sign, which folds to K, is in no name that is
    asked for.) *)
Fixpoint foldName (s : string) : string :=
  match s with
  | String c s1 =>
      match s1 with
      | String d s2 =>
          if bool_decide (code c = 197 /\ code d = 191) then String "S" (foldName s2)
          else String (if between 97 c 122 then byte_of (code c - 32) else c) (foldName s1)
      | EmptyString => String (if between 97 c 122 then byte_of (code c - 32) else c) EmptyString
      end
  | EmptyString => EmptyString
  end.

(** The field of the struct that a key is for: the one of that name, or else one
    of that name up to case. *)
Inductive reference_field := FieldName | FieldRevision | FieldUpdatePolicy.
Definition field_of (key : string) : option reference_field :=
  if bool_decide (foldName key = "NAME") then Some FieldName
  else if bool_decide (foldName key = "REVISION") then Some FieldRevision
  else if bool_decide (foldName key = "UPDATEPOLICY") then Some FieldUpdatePolicy
  else None.

Definition set_field (f : reference_field) (v : string) (m : ModelReference) : ModelReference :=
  match f with
  | FieldName => mkModelReference v (ref_Revision m) (ref_UpdatePolicy m)
  | FieldRevision => mkModelReference (ref_Name m) v (ref_UpdatePolicy m)
  | FieldUpdatePolicy => mkModelReference (ref_Name m) (ref_Revision m) v
  end.

(** Unknown members are skipped; null leaves a string as it is; anything else but
    a string is an error. *)
Fixpoint store_fields (l : list (string * value)) (m : ModelReference) : option ModelReference :=
  match l with
  | [] => Some m
  | (k, v) :: l =>
      match field_of k, v with
      | None, _ | Some _, VNull => store_fields l m
      | Some f, VString t => store_fields l (set_field f t m)
      | Some _, _ => None
      end
  end.

Definition reference_empty : ModelReference := mkModelReference EmptyString EmptyString EmptyString.

(** ** UnmarshalJSON *)
Section Unmarshal.
(** What encoding/json says of a text it can not decode. *)
Context (json_error : string -> gerror).

(** json.Unmarshal(data, &name) of an empty string *)
Definition unmarshal_string (data : string) : option string :=
  match json_text any_number data with
  | Some (VString t) => Some t
  | Some VNull => Some EmptyString
  | _ => None
  end.

(** json.Unmarshal(data, &p) of an empty struct *)
Definition unmarshal_plain (data : string) : option ModelReference :=
  match json_text any_number data with
  | Some VNull => Some reference_empty
  | _ =>
      match json_object data with
      | Some l => store_fields l reference_empty
      | None => None
      end
  end.

Definition UnmarshalJSON (m : ModelReference) (data : string) : result ModelReference :=
  match unmarshal_string data with
  | Some name => Ok (mkModelReference name (ref_Revision m) "Manual")
  | None =>
      match unmarshal_plain data with
      | None => Err (errorw ("modelRef must be an object {" +:+ fmt_q "name" +:+ ":" +:+ fmt_q "..." +:+
                             "} or a string: ") (json_error data))
      | Some p => Ok p
      end
  end.

End Unmarshal.

(** ** json.Marshal *)

(** A hexadecimal digit. *)
Definition hex_char (n : Z) : ascii := if n <? 10 then byte_of (48 + n) else byte_of (87 + n).

Definition escape_char (c : ascii) : string :=
  let short e := String backslash (String e EmptyString) in
  if bool_decide (c = dquote \/ c = backslash) then short c
  else if code c =? 8 then short "b"%char
  else if code c =? 12 then short "f"%char
  else if code c =? 10 then short "n"%char
  else if code c =? 13 then short "r"%char
  else if code c =? 9 then short "t"%char
  else if (code c <? 32) || bool_decide (c = "<"%char \/ c = ">"%char \/ c = "&"%char) then
    String backslash ("u00" +:+ String (hex_char (code c / 16)) (String (hex_char (code c mod 16)) EmptyString))
  else String c EmptyString.

(** The body of a string literal.  [skip] is the number of bytes left of a rune,
    which are copied or dropped.  The line and paragraph separators, U+2028 and
    U+2029, are escaped too. *)
Fixpoint quote_json (s : string) (skip : nat) (keep : bool) : string :=
  match s with
  | EmptyString => EmptyString
  | String c s1 =>
      match skip with
      | S skip => (if keep then String c EmptyString else EmptyString) +:+ quote_json s1 skip keep
      | O =>
          if code c <? 128 then escape_char c +:+ quote_json s1 0 false
          else match rune_width s with
               | O => String backslash "ufffd" +:+ quote_json s1 0 false
               | S w =>
                   if has_prefix (encode_rune 8232) s then
                     String backslash "u2028" +:+ quote_json s1 2 false
                   else if has_prefix (encode_rune 8233) s then
                     String backslash "u2029" +:+ quote_json s1 2 false
                   else String c EmptyString +:+ quote_json s1 w true
               end
      end
  end.

Definition json_quote (s : string) : string :=
  String dquote (quote_json s 0 false) +:+ String dquote EmptyString.

(** A member, unless it is omitted when empty. *)
Definition member (key v : string) : string := json_quote key +:+ ":" +:+ json_quote v.
Definition member_omitempty (key v : string) : string :=
  if bool_decide (v = EmptyString) then EmptyString else "," +:+ member key v.

Definition MarshalJSON (m : ModelReference) : string :=
  "{" +:+ member "name" (ref_Name m) +:+ member_omitempty "revision" (ref_Revision m) +:+
  member_omitempty "updatePolicy" (ref_UpdatePolicy m) +:+ "}".

(** Valid UTF-8; [skip] bytes are left of a rune. *)
Fixpoint valid_utf8 (s : string) (skip : nat) : bool :=
  match s with
  | EmptyString => Nat.eqb skip 0
  | String _ s1 =>
      match skip with
      | S skip => valid_utf8 s1 skip
      | O => match rune_width s with O => false | S w => valid_utf8 s1 w end
      end
  end.

Section Tests.
Let parse := UnmarshalJSON (mkErr Other) reference_empty.
Let q s := json_quote s.
Example parse_bare : parse (q "my-model") = Ok (mkModelReference "my-model" "" "Manual").
Proof. reflexivity. Qed.
Example parse_object : parse ("{" +:+ q "name" +:+ ":" +:+ q "my-model" +:+ "," +:+ q "Revision" +:+ " : " +:+ q "v1.0" +:+ "}")
  = Ok (mkModelReference "my-model" "v1.0" "").
Proof. reflexivity. Qed.
Example parse_number : is_Some (match parse "123" with Err e => Some e | Ok _ => None end).
Proof. eexists. reflexivity. Qed.
Example marshal_some : MarshalJSON (mkModelReference "a<b" "" "Manual") =
  "{" +:+ q "name" +:+ ":" +:+ String dquote "a\u003cb" +:+ String dquote "," +:+ q "updatePolicy" +:+ ":" +:+ q "Manual" +:+ "}".
Proof. reflexivity. Qed.
End Tests.

(** ** What is quoted is read back *)

Lemma emit_emit a b r : emit a (emit b r) = emit (a +:+ b) r.
Proof. destruct r as [[u rest]|]; cbn; [|done]. by rewrite str_app_assoc. Qed.

Lemma json_string_keep s b : json_string s 0 b = json_string s 0 false.
Proof. by destruct s. Qed.

Lemma json_string_plain c rest :
  bool_decide (c = dquote) = false -> bool_decide (c = backslash) = false ->
  (code c <? 32) = false -> (code c <? 128) = true ->
  json_string (String c rest) 0 false = emit (String c EmptyString) (json_string rest 0 false).
Proof.
  intros H1 H2 H3 H4. cbn [json_string]. rewrite H1, H2, H3. unfold rune_width. rewrite H4.
  by rewrite json_string_keep.
Qed.

Lemma json_string_escape e r rest :
  bool_decide (e = "u"%char) = false -> simple_escape e = Some r ->
  json_string (String backslash (String e rest)) 0 false = emit (encode_rune r) (json_string rest 0 false).
Proof.
  intros H1 H2. cbn [json_string]. rewrite bool_decide_false, bool_decide_true by done.
  by rewrite H1, H2.
Qed.

Lemma json_string_u4 a b c d r rest :
  hex4 a b c d = Some r -> bool_decide (55296 <= r < 57344) = false ->
  json_string (String backslash (String "u" (String a (String b (String c (String d rest)))))) 0 false =
  emit (encode_rune r) (json_string rest 0 false).
Proof.
  intros H1 H2. cbn [json_string]. rewrite bool_decide_false, !bool_decide_true by done.
  unfold next_u4. rewrite bool_decide_true, H1, H2 by done.
  destruct (json_string rest 0 false) as [[u t]|]; done.
Qed.

(** Of the ASCII characters, checked one by one: the digits of an escape are its
    code, and only the characters that are escaped need to be. *)
Ltac each_char c := destruct c as [[] [] [] [] [] [] [] []]; vm_compute; first [reflexivity | discriminate].

Lemma hex_of_char c :
  (code c <? 128) = true ->
  hex4 "0" "0" (hex_char (code c / 16)) (hex_char (code c mod 16)) = Some (code c).
Proof. each_char c. Qed.

Lemma encode_char c : (code c <? 128) = true -> encode_rune (code c) = String c EmptyString.
Proof. each_char c. Qed.

Lemma small_not_surrogate n : n < 128 -> bool_decide (55296 <= n < 57344) = false.
Proof. intros Hn. apply bool_decide_false. lia. Qed.

(** One character, escaped or not. *)
Lemma escape_char_read c rest :
  (code c <? 128) = true ->
  json_string (escape_char c +:+ rest) 0 false = emit (String c EmptyString) (json_string rest 0 false).
Proof.
  intros Hc. rewrite <- (encode_char c) by done. unfold escape_char. cbv zeta.
  assert (Hshort : forall e, bool_decide (e = "u"%char) = false -> simple_escape e = Some (code c) ->
    json_string (String backslash (String e EmptyString) +:+ rest) 0 false =
    emit (encode_rune (code c)) (json_string rest 0 false)) by (intros e; apply json_string_escape).
  case_bool_decide as Hq; [apply Hshort; by destruct Hq as [->| ->]|].
  repeat (match goal with |- context [code c =? ?n] => destruct (Z.eqb_spec (code c) n) as [E|_] end;
    [apply Hshort; [done|by rewrite E]|]).
  destruct (_ || _) eqn:Eh.
  - change (json_string (String backslash (String "u" (String "0" (String "0"
      (String (hex_char (code c / 16)) (String (hex_char (code c mod 16)) rest)))))) 0 false =
      emit (encode_rune (code c)) (json_string rest 0 false)).
    apply json_string_u4; [by apply hex_of_char|apply small_not_surrogate; lia].
  - apply orb_false_iff in Eh as [Eh _]. rewrite encode_char by done.
    apply (json_string_plain c rest); try done; apply bool_decide_false; tauto.
Qed.

(** The bytes of a rune decide its width. *)
Lemma rune_width_copied c s w rest :
  (code c <? 128) = false -> rune_width (String c s) = S w ->
  rune_width (String c (quote_json s w true +:+ rest)) = S w.
Proof.
  intros Hc Hw. unfold rune_width in *. rewrite Hc in *.
  destruct s as [|b s]; [done|].
  destruct (negb _) eqn:E1; [done|].
  destruct (between 194 c 223) eqn:E2.
  { injection Hw as <-. cbn [quote_json]. rewrite ?str_app_assoc, ?str_app_cons, ?str_app_nil_l. by rewrite E1. }
  destruct s as [|d s]; [done|]. destruct (negb (between 128 d 191)) eqn:E3; [done|].
  destruct (between 224 c 239) eqn:E4.
  { injection Hw as <-. cbn [quote_json]. rewrite ?str_app_assoc, ?str_app_cons, ?str_app_nil_l. by rewrite E1, E3. }
  destruct s as [|e s]; [done|]. destruct (_ && _) eqn:E5; [|done].
  injection Hw as <-. cbn [quote_json]. rewrite ?str_app_assoc, ?str_app_cons, ?str_app_nil_l. by rewrite E1, E3, E5.
Qed.

(** A separator at the front: a rune of three bytes. *)
Lemma separator_front r c s :
  r = 8232 \/ r = 8233 -> has_prefix (encode_rune r) (String c s) = true ->
  exists a b s', s = String a (String b s') /\ encode_rune r = String c (String a (String b EmptyString)) /\
    rune_width (String c s) = 3%nat.
Proof.
  intros Hr. assert (encode_rune r = String "226" (String "128" (String (byte_of (128 + r mod 64)) EmptyString))) as ->
    by by destruct Hr as [->| ->].
  cbn [has_prefix]. destruct s as [|a [|b s]]; cbn [has_prefix];
    rewrite ?andb_false_r; try done.
  intros (<-%bool_decide_eq_true & [<-%bool_decide_eq_true [<-%bool_decide_eq_true _]%andb_prop]%andb_prop)%andb_prop.
  exists "128"%char, (byte_of (128 + r mod 64)), s. split; [done|]. split; [done|].
  by destruct Hr as [->| ->].
Qed.

Lemma quote_json_keep s b : quote_json s 0 b = quote_json s 0 true.
Proof. by destruct s. Qed.

Lemma separator_read r esc c s rest :
  (r = 8232 /\ esc = "u2028") \/ (r = 8233 /\ esc = "u2029") ->
  has_prefix (encode_rune r) (String c s) = true ->
  json_string (quote_json s 2 true +:+ String dquote rest) 2 true = Some (s, rest) ->
  json_string ((String backslash esc +:+ quote_json s 2 false) +:+ String dquote rest) 0 false =
    Some (String c s, rest).
Proof.
  intros Hr Hp IH. destruct (separator_front r c s) as (a & b & s' & -> & Hs & _); [tauto|done|].
  cbn [quote_json] in *. rewrite ?str_app_assoc, ?str_app_cons, ?str_app_nil_l in *. cbn [json_string] in IH.
  rewrite !json_string_keep in IH. rewrite emit_emit in IH.
  assert (Hesc : json_string (String backslash (esc +:+ quote_json s' 0 false +:+ String dquote rest)) 0 false =
    emit (encode_rune r) (json_string (quote_json s' 0 false +:+ String dquote rest) 0 false)).
  { destruct Hr as [[-> ->]|[-> ->]]; rewrite ?str_app_cons, str_app_nil_l; by apply json_string_u4. }
  rewrite Hesc, Hs, quote_json_keep. destruct (json_string (quote_json s' 0 true +:+ _) 0 false) as [[u t]|]; [|done].
  change (Some (String a (String b u), t) = Some (String a (String b s'), rest)) in IH.
  by injection IH as -> ->.
Qed.

Lemma json_string_copied c w s :
  (code c <? 128) = false -> rune_width (String c s) = S w ->
  json_string (String c s) 0 false = emit (String c EmptyString) (json_string s w true).
Proof.
  intros Hc Hw. cbn [json_string].
  rewrite !bool_decide_false by (intros ->; vm_compute in Hc; discriminate).
  apply Z.ltb_ge in Hc. rewrite (proj2 (Z.ltb_ge _ _)) by lia. by rewrite Hw.
Qed.

(** A quoted string is read back, up to its closing quote. *)
Lemma quote_read s rest : forall k,
  valid_utf8 s k = true ->
  json_string (quote_json s k true +:+ String dquote rest) k true = Some (s, rest).
Proof.
  induction s as [|c s IH]; intros k Hv; cbn [quote_json valid_utf8] in *.
  - apply Nat.eqb_eq in Hv as ->. done.
  - destruct k as [|k].
    + rewrite json_string_keep. destruct (rune_width (String c s)) as [|w] eqn:Ew; [done|].
      destruct (code c <? 128) eqn:Ec.
      * rewrite str_app_assoc, escape_char_read by done.
        assert (w = 0%nat) as -> by (unfold rune_width in Ew; rewrite Ec in Ew; congruence).
        rewrite <- (json_string_keep _ true), quote_json_keep, (IH 0%nat Hv). done.
      * 
        assert (H3 : forall r, r = 8232 \/ r = 8233 -> has_prefix (encode_rune r) (String c s) = true -> w = 2%nat).
        { intros r Hr Hp. destruct (separator_front r c s Hr Hp) as (? & ? & ? & _ & _ & H). congruence. }
        destruct (has_prefix (encode_rune 8232) _) eqn:E1.
        { apply (separator_read 8232); [by left|done|]. rewrite <- (H3 8232) by auto. by apply IH. }
        destruct (has_prefix (encode_rune 8233) _) eqn:E2.
        { apply (separator_read 8233); [by right|done|]. rewrite <- (H3 8233) by auto. by apply IH. }
        rewrite str_app_assoc, str_app_cons, str_app_nil_l.
        rewrite (json_string_copied _ w) by (done || by apply rune_width_copied).
        by rewrite (IH w Hv).
    + cbn [json_string]. rewrite str_app_assoc, str_app_cons, str_app_nil_l. cbn [json_string]. by rewrite (IH k Hv).
Qed.

Lemma json_quote_read s rest :
  valid_utf8 s 0 = true ->
  json_string (str_drop 1 (json_quote s +:+ rest)) 0 false = Some (s, rest).
Proof.
  intros Hv. unfold json_quote. rewrite str_app_assoc, !str_app_cons, str_app_nil_l. cbn [str_drop].
  change (str_drop 0 ?x) with x. rewrite quote_json_keep, <- (json_string_keep _ true). by apply quote_read.
Qed.

Lemma json_quote_front s rest : exists t, json_quote s +:+ rest = String dquote t.
Proof. unfold json_quote. rewrite str_app_assoc, str_app_cons. by eexists. Qed.

(** A quoted string, as a value. *)
Lemma json_value_string ok n d s rest :
  valid_utf8 s 0 = true -> json_value ok (S n) d (json_quote s +:+ rest) = Some (VString s, rest).
Proof.
  intros Hv. pose proof (json_quote_read s rest Hv) as Hr. destruct (json_quote_front s rest) as [t Ht].
  rewrite Ht in *. change (str_drop 1 (String dquote t)) with t in Hr. cbn [json_value].
  replace (skip_ws (String dquote t)) with (String dquote t) by done.
  rewrite !bool_decide_false, bool_decide_true by done. by rewrite Hr.
Qed.

(** A member, and what follows it. *)
Lemma member_read n k v rest :
  valid_utf8 k 0 = true -> valid_utf8 v 0 = true ->
  json_fields (S n) (member k v +:+ "," +:+ rest) =
    (match json_fields n (skip_ws rest) with
     | Some (l, s) => Some ((k, VString v) :: l, s) | None => None end) /\
  json_fields (S n) (member k v +:+ "}" +:+ rest) = Some ([(k, VString v)], rest).
Proof.
  intros Hk Hv. unfold member. rewrite !str_app_assoc.
  assert (Hgen : forall c rest, let s := json_quote k +:+ ":" +:+ json_quote v +:+ String c rest in
    next_is dquote s = true /\ json_string (str_drop 1 s) 0 false = Some (k, ":" +:+ json_quote v +:+ String c rest) /\
    json_value any_number (json_fuel (":" +:+ json_quote v +:+ String c rest)) 1
      (json_quote v +:+ String c rest) = Some (VString v, String c rest)).
  { intros c rest' s. subst s. split_and!.
    - by destruct (json_quote_front k (":" +:+ json_quote v +:+ String c rest')) as [t ->].
    - by apply json_quote_read.
    - unfold json_fuel. by apply json_value_string. }
  split.
  - destruct (Hgen ","%char rest) as (H1 & H2 & H3). cbn [json_fields].
    change ("," +:+ rest) with (String "," rest). rewrite H1, H2. cbn [negb].
    change (next_is ":" (skip_ws (":" +:+ json_quote v +:+ String "," rest))) with true. cbn [negb].
    change (str_drop 1 (skip_ws (":" +:+ json_quote v +:+ String "," rest))) with (json_quote v +:+ String "," rest).
    by rewrite H3.
  - destruct (Hgen "}"%char rest) as (H1 & H2 & H3). cbn [json_fields].
    change ("}" +:+ rest) with (String "}" rest). rewrite H1, H2. cbn [negb].
    change (next_is ":" (skip_ws (":" +:+ json_quote v +:+ String "}" rest))) with true. cbn [negb].
    change (str_drop 1 (skip_ws (":" +:+ json_quote v +:+ String "}" rest))) with (json_quote v +:+ String "}" rest).
    by rewrite H3.
Qed.

Lemma member_last n k v rest :
  valid_utf8 k 0 = true -> valid_utf8 v 0 = true ->
  json_fields (S n) (member k v +:+ "}" +:+ rest) = Some ([(k, VString v)], rest).
Proof. intros Hk Hv. by destruct (member_read n k v rest Hk Hv). Qed.

Lemma member_more n k v k' v' rest :
  valid_utf8 k 0 = true -> valid_utf8 v 0 = true ->
  json_fields (S n) (member k v +:+ "," +:+ member k' v' +:+ rest) =
    match json_fields n (member k' v' +:+ rest) with
    | Some (l, s) => Some ((k, VString v) :: l, s) | None => None end.
Proof.
  intros Hk Hv. destruct (member_read n k v (member k' v' +:+ rest) Hk Hv) as [-> _].
  unfold member. rewrite !str_app_assoc. by destruct (json_quote_front k' (":" +:+ json_quote v' +:+ rest)) as [t ->].
Qed.

(** What starts with a brace is an object or nothing. *)
Lemma json_members_map ok n d m s v rest :
  json_members ok n d m s = Some (v, rest) -> exists m', v = VMap m'.
Proof.
  revert m s. induction n as [|n IH]; intros m s; cbn [json_members]; [done|].
  destruct (negb _); [done|]. destruct (json_string _ _ _) as [[k s1]|]; [|done].
  destruct (negb _); [done|]. destruct (json_value _ _ _ _) as [[v1 s2]|]; [|done]. cbv zeta.
  destruct (next_is "," _); [apply IH|]. destruct (next_is "}" _); [|done].
  intros [= <- _]. by eexists.
Qed.

Lemma json_text_brace ok s v : json_text ok (String "{" s) = Some v -> exists m, v = VMap m.
Proof.
  unfold json_text, json_fuel. destruct (json_value _ _ _ _) as [[v' s']|] eqn:E; [|done].
  case_bool_decide; [|done]. intros [= ->]. cbn [json_value] in E.
  change (skip_ws (String "{" s)) with (String "{" s) in E.
  cbv iota in E. rewrite bool_decide_true in E by done.
  change (10000 <=? 0) with false in E. cbv iota in E. destruct (next_is "}" _).
  - injection E as <- _. by eexists.
  - by eapply json_members_map.
Qed.

(** ** Properties *)

Definition valid_reference (m : ModelReference) : Prop :=
  valid_utf8 (ref_Name m) 0 = true /\ valid_utf8 (ref_Revision m) 0 = true /\
  valid_utf8 (ref_UpdatePolicy m) 0 = true.

Lemma MarshalJSON_fields m :
  valid_reference m ->
  exists l, json_object (MarshalJSON m) = Some l /\ store_fields l reference_empty = Some m.
Proof.
  intros (H1 & H2 & H3). destruct m as [name rev policy]. cbn [ref_Name ref_Revision ref_UpdatePolicy] in *.
  unfold MarshalJSON. cbn [ref_Name ref_Revision ref_UpdatePolicy].
  set (T := member "name" name +:+ member_omitempty "revision" rev +:+
            member_omitempty "updatePolicy" policy +:+ "}").
  assert (Hlen : exists n, String.length T = S (S (S n))) by (eexists; reflexivity). destruct Hlen as [n Hn].
  enough (Hf : exists l, json_fields (S (S (S n))) T = Some (l, EmptyString) /\
    store_fields l reference_empty = Some (mkModelReference name rev policy)).
  { destruct Hf as (l & Hl & Hs). exists l. split; [|done]. unfold json_object.
    change (skip_ws ("{" +:+ T)) with ("{" +:+ T). change (next_is "{" ("{" +:+ T)) with true. cbn [negb]. cbv zeta.
    change (skip_ws (str_drop 1 ("{" +:+ T))) with T. change (next_is "}" T) with false. cbv iota.
    rewrite Hn, Hl. by rewrite bool_decide_true. }
  clear Hn. subst T. unfold member_omitempty.
  assert (Hk : valid_utf8 "name" 0 = true /\ valid_utf8 "revision" 0 = true /\ valid_utf8 "updatePolicy" 0 = true)
    by done.
  destruct Hk as (K1 & K2 & K3). rewrite <- (str_app_nil_r "}").
  repeat case_bool_decide; subst; rewrite ?str_app_nil_l, ?str_app_assoc;
    rewrite ?(member_more _ "name"), ?(member_more _ "revision") by done;
    rewrite ?(member_last _ "name"), ?(member_last _ "revision"), ?(member_last _ "updatePolicy") by done;
    (eexists; split; [reflexivity|done]).
Qed.

Section Properties.
Context (json_error : string -> gerror).

(** Property C25: references survive JSON.  What json.Marshal writes of a
    reference, UnmarshalJSON reads back as that reference, whatever was in it
    before; and the bare string of a name, which stale resources have, is read as
    a reference to that name that is updated by hand and keeps the revision it
    had.  The strings are any valid UTF-8. *)
Theorem ModelReference_roundtrip old m :
  valid_reference m ->
  UnmarshalJSON json_error old (MarshalJSON m) = Ok m /\
  UnmarshalJSON json_error old (json_quote (ref_Name m)) =
    Ok (mkModelReference (ref_Name m) (ref_Revision old) "Manual").
Proof.
  intros Hm. destruct (MarshalJSON_fields m Hm) as (l & Hl & Hs). split.
  - assert (Hb : exists t, MarshalJSON m = String "{" t) by (eexists; reflexivity).
    destruct Hb as [t Ht]. unfold UnmarshalJSON, unmarshal_string, unmarshal_plain. rewrite Hl, Hs, Ht.
    destruct (json_text any_number (String "{" t)) as [v|] eqn:E; [|done].
    by destruct (json_text_brace _ _ _ E) as [m' ->].
  - unfold UnmarshalJSON, unmarshal_string, json_text, json_fuel.
    pose proof (json_value_string any_number (2 * String.length (json_quote (ref_Name m))) 0 (ref_Name m) EmptyString
      (proj1 Hm)) as Hv.
    rewrite str_app_nil_r in Hv. rewrite Hv. by rewrite bool_decide_true.
Qed.

End Properties.

(** A name with a quote, a line separator and a letter outside ASCII. *)
Definition witness_name : string := String dquote (encode_rune 8232 +:+ encode_rune 233 +:+ "<llama>").

Lemma ModelReference_roundtrip_witness :
  MarshalJSON (mkModelReference witness_name "v1" EmptyString) =
    "{" +:+ json_quote "name" +:+ ":" +:+
    String dquote (String backslash (String dquote (String backslash
      ("u2028" +:+ encode_rune 233 +:+ String backslash ("u003cllama" +:+ String backslash ("u003e" +:+
        String dquote ("," +:+ json_quote "revision" +:+ ":" +:+ json_quote "v1" +:+ "}"))))))) /\
  (UnmarshalJSON (mkErr Other) reference_empty (MarshalJSON (mkModelReference witness_name "v1" EmptyString)) =
     Ok (mkModelReference witness_name "v1" EmptyString) /\
   UnmarshalJSON (mkErr Other) reference_empty (json_quote witness_name) =
     Ok (mkModelReference witness_name EmptyString "Manual")).
Proof.
  split; [vm_compute; reflexivity|].
  apply (ModelReference_roundtrip (mkErr Other) reference_empty (mkModelReference witness_name "v1" EmptyString)).
  split_and!; vm_compute; reflexivity.
Defined.
