(* ===== verification/EngineConfig.v ===== *)
(** * Configuration of an engine's pods

    adapters/llmengine_utils.go, but for the vLLM configuration file: storage
    paths, environments, ports, and the resources, node selectors and tolerations
    of GPU workloads. *)

From S2P Require Import Prelude Api Kube Machinery StorageDiscovery Backend StorageProvider Jobs.
From S2P Require Import EngineStorage.

Definition DefaultGPUResourceType : string := "nvidia.com/gpu".
Definition DefaultVLLMImage : string := "vllm/vllm-openai:latest".
Definition DefaultOllamaImage : string := "ollama/ollama:latest".
Definition VLLMConfigMapKeyName : string := "vllm-config.yaml".
Definition VLLMConfigMountPath : string := "/etc/vllm".
Definition VLLMConfigFilePath : string := "/etc/vllm/vllm-config.yaml".
Definition AmdGPUResourceType : string := "amd.com/gpu".

(** modelPath and envPaths; modelRepo is never nil here. *)
Definition GetStoragePaths (llmEngine : LLMEngine) (modelRepo : ModelRepository) :
    string * gmap string string :=
  let modelPath :=
    if bool_decide (sto_MountPath (mrs_Storage (mr_Spec modelRepo)) <> EmptyString)
    then sto_MountPath (mrs_Storage (mr_Spec modelRepo)) else DefaultModelStoragePath in
  let envPaths : gmap string string :=
    if bool_decide (les_EngineType (le_Spec llmEngine) = LLMEngineTypeVLLM) then
      if bool_decide (src_Origin (mrs_Source (mr_Spec modelRepo)) = ModelOriginHuggingFace)
      then {["HF_HOME" := modelPath]} else ∅
    else if bool_decide (les_EngineType (le_Spec llmEngine) = LLMEngineTypeOllama)
    then {["OLLAMA_MODELS" := modelPath]}
    else ∅ in
  (modelPath, envPaths).

Definition DetectGPURequest (llmEngine : LLMEngine) : bool :=
  match les_GPU (le_Spec llmEngine) with
  | Some gpu => gpu_Enabled gpu
  | None => false
  end.

(** The keys of a map, in the order Go ranges over it, sorted. *)
Definition sortedEnvFromMap `{GoRange} (envPaths : gmap string string) : list EnvVar :=
  map (fun k => env k (mget envPaths k)) (sort_strings (map fst (range_map envPaths))).

Definition MergeEnvVars (defaultEnv userEnv : list EnvVar) : list EnvVar :=
  userEnv ++ List.filter (fun e => negb (existsb (fun u => bool_decide (env_Name u = env_Name e)) userEnv))
               defaultEnv.

Definition BuildOllamaEnv `{GoRange} (llmEngine : LLMEngine) (modelRepo : ModelRepository)
    (requestGPU : bool) : list EnvVar :=
  let envPaths := (GetStoragePaths llmEngine modelRepo).2 in
  let commonEnv :=
    [env "OLLAMA_HOST" "0.0.0.0"; env "OLLAMA_ORIGINS" "*"; env "OLLAMA_MAX_LOADED_MODELS" "1"] ++
    sortedEnvFromMap envPaths in
  let specificEnv :=
    if requestGPU then
      [env "OLLAMA_NUM_PARALLEL" "4"; env "OLLAMA_FLASH_ATTENTION" "1";
       env "CUDA_VISIBLE_DEVICES" "0"; env "OLLAMA_GPU_OVERHEAD" "0.05"]
    else
      [env "OLLAMA_NUM_PARALLEL" "2"; env "OLLAMA_NUM_GPU" "0"; env "OMP_NUM_THREADS" "8"] in
  MergeEnvVars (commonEnv ++ specificEnv) (les_Env (le_Spec llmEngine)).

Definition hub_token_env (source : ModelSource) : list EnvVar :=
  if bool_decide (src_HFTokenSecret source <> EmptyString /\ src_Origin source = ModelOriginHuggingFace)
  then
    let key := if bool_decide (src_HFTokenSecretKey source = EmptyString) then "HFToken"
               else src_HFTokenSecretKey source in
    [mkEnvVar "HUGGING_FACE_HUB_TOKEN" EmptyString (Some (SecretKeyRef (src_HFTokenSecret source) key))]
  else [].

Definition BuildVLLMEnv `{GoRange} (llmEngine : LLMEngine) (modelRepo : ModelRepository)
    (requestGPU : bool) : list EnvVar :=
  let envPaths := (GetStoragePaths llmEngine modelRepo).2 in
  let commonEnv :=
    [env "VLLM_LOGGING_LEVEL" "WARNING"; env "VLLM_WORKER_MULTIPROC_METHOD" "spawn"] ++
    hub_token_env (mrs_Source (mr_Spec modelRepo)) ++ sortedEnvFromMap envPaths in
  let specificEnv :=
    if requestGPU then [] else [env "OMP_NUM_THREADS" "8"; env "MKL_NUM_THREADS" "8"] in
  MergeEnvVars (commonEnv ++ specificEnv) (les_Env (le_Spec llmEngine)).

Definition GetPodPort (llmEngine : LLMEngine) : Z :=
  if negb (les_Port (le_Spec llmEngine) =? 0)%Z then les_Port (le_Spec llmEngine)
  else if bool_decide (les_EngineType (le_Spec llmEngine) = LLMEngineTypeOllama) then 11434
  else if bool_decide (les_EngineType (le_Spec llmEngine) = LLMEngineTypeVLLM) then 8000
  else 8080.

Definition GetServicePort (llmEngine : LLMEngine) : Z :=
  if negb (les_ServicePort (le_Spec llmEngine) =? 0)%Z then les_ServicePort (le_Spec llmEngine) else 8080.

(** The type and count of GPUs asked for, with the defaults. *)
Definition gpu_type_or_default (gpuType : string) : string :=
  if bool_decide (gpuType = EmptyString) then DefaultGPUResourceType else gpuType.
Definition gpu_count_or_default (count : Z) : Z := if (count =? 0)%Z then 1 else count.

Definition BuildGPUResources `{Machinery} (gpuConfig : GPUConfig) : ResourceRequirements :=
  let q : gmap string string :=
    {[gpu_type_or_default (gpu_Type gpuConfig) := NewQuantity (gpu_count_or_default (gpu_Count gpuConfig))]} in
  mkResources q q.

(** Copying one map over another: the later keys win. *)
Definition overlay (base additional : gmap string string) : gmap string string := additional ∪ base.

Definition MergeResourceRequirements (base additional : ResourceRequirements) : ResourceRequirements :=
  mkResources (overlay (res_Limits base) (res_Limits additional))
              (overlay (res_Requests base) (res_Requests additional)).

Definition GetDefaultGPUNodeSelector (gpuType : string) : gmap string string :=
  let gpuType := gpu_type_or_default gpuType in
  if bool_decide (gpuType = DefaultGPUResourceType)
  then {[DefaultGPUResourceType +:+ ".present" := "true"]}
  else if bool_decide (gpuType = AmdGPUResourceType) then {["amd.com/gpu.present" := "true"]}
  else ∅.

Definition BuildGPUNodeSelector (gpuConfig : GPUConfig) (llmEngine : LLMEngine) : gmap string string :=
  let nodeSelector := overlay (les_NodeSelector (le_Spec llmEngine)) (gpu_NodeSelector gpuConfig) in
  nodeSelector ∪ GetDefaultGPUNodeSelector (gpu_Type gpuConfig).

Definition GetDefaultGPUTolerations (gpuType : string) : list Toleration :=
  let gpuType := gpu_type_or_default gpuType in
  if bool_decide (gpuType = DefaultGPUResourceType)
  then [mkToleration DefaultGPUResourceType "Exists" EmptyString "NoSchedule"]
  else if bool_decide (gpuType = AmdGPUResourceType)
  then [mkToleration AmdGPUResourceType "Exists" EmptyString "NoSchedule"]
  else [].

Definition BuildGPUTolerations (gpuConfig : GPUConfig) : list Toleration :=
  match gpu_Tolerations gpuConfig with
  | [] => GetDefaultGPUTolerations (gpu_Type gpuConfig)
  | ts => ts
  end.

(** ** Environments as finite maps *)

(** The variable a pod sees under a name: the last of the list wins in the
    kubelet, but the lists here have distinct names. *)
Fixpoint env_lookup (l : list EnvVar) (n : string) : option EnvVar :=
  match l with
  | [] => None
  | e :: l => if bool_decide (env_Name e = n) then Some e else env_lookup l n
  end.

Lemma env_lookup_app l1 l2 n :
  env_lookup (l1 ++ l2) n =
  match env_lookup l1 n with Some e => Some e | None => env_lookup l2 n end.
Proof. induction l1 as [|e l1 IH]; cbn; [done|]. by case_bool_decide. Qed.

Lemma env_lookup_None l n : env_lookup l n = None <-> n ∉ map env_Name l.
Proof.
  induction l as [|e l IH]; cbn; [set_solver|]. case_bool_decide as H; set_solver.
Qed.

Lemma env_lookup_Some l n e : env_lookup l n = Some e -> e ∈ l /\ env_Name e = n.
Proof.
  induction l as [|x l IH]; cbn; [done|]. case_bool_decide as H.
  - intros [= ->]. split; [left|done].
  - intros [? ?]%IH. split; [by right|done].
Qed.

Lemma env_defined l n :
  existsb (fun u => bool_decide (env_Name u = n)) l = true <-> n ∈ map env_Name l.
Proof.
  induction l as [|x l IH]; cbn; [set_solver|].
  rewrite orb_true_iff, bool_decide_eq_true, IH, elem_of_cons. naive_solver.
Qed.

Lemma merge_names defaultEnv userEnv :
  exists l, MergeEnvVars defaultEnv userEnv = userEnv ++ l /\
    map env_Name l `sublist_of` map env_Name defaultEnv /\
    forall n, env_lookup l n = if bool_decide (n ∈ map env_Name userEnv) then None
                               else env_lookup defaultEnv n.
Proof.
  unfold MergeEnvVars. eexists. split; [reflexivity|]. split.
  - induction defaultEnv as [|e l IH]; cbn; [constructor|].
    destruct (negb _); cbn; by constructor.
  - intros n. induction defaultEnv as [|e l IH]; cbn; [by case_bool_decide|].
    destruct (existsb _ userEnv) eqn:E; cbn.
    + apply env_defined in E. rewrite IH. repeat case_bool_decide; subst; done.
    + rewrite IH. assert (env_Name e ∉ map env_Name userEnv).
      { intros Hin%env_defined. congruence. }
      repeat case_bool_decide; subst; done.
Qed.

Lemma env_lookup_merge defaultEnv userEnv n :
  env_lookup (MergeEnvVars defaultEnv userEnv) n =
  match env_lookup userEnv n with Some e => Some e | None => env_lookup defaultEnv n end.
Proof.
  destruct (merge_names defaultEnv userEnv) as (l & -> & _ & Hl).
  rewrite env_lookup_app, Hl. destruct (env_lookup userEnv n) eqn:E; [done|].
  apply env_lookup_None in E. by rewrite bool_decide_false.
Qed.

Lemma MergeEnvVars_NoDup defaultEnv userEnv :
  NoDup (map env_Name defaultEnv) -> NoDup (map env_Name userEnv) ->
  NoDup (map env_Name (MergeEnvVars defaultEnv userEnv)).
Proof.
  intros Hd Hu. destruct (merge_names defaultEnv userEnv) as (l & -> & Hsub & Hl).
  rewrite map_app. apply NoDup_app. split; [done|]. split; [|by apply (sublist_NoDup _ _ Hd)].
  intros n Hn Hn'. specialize (Hl n). rewrite bool_decide_true in Hl by done.
  by apply env_lookup_None in Hl.
Qed.

(** Merging environments gives a pod the user's variable where the
    user set one and the default one elsewhere, nothing else, and no name twice
    if neither list had one twice. *)
Theorem MergeEnvVars_spec defaultEnv userEnv :
  (forall n, env_lookup (MergeEnvVars defaultEnv userEnv) n =
     match env_lookup userEnv n with Some e => Some e | None => env_lookup defaultEnv n end) /\
  (NoDup (map env_Name defaultEnv) -> NoDup (map env_Name userEnv) ->
     NoDup (map env_Name (MergeEnvVars defaultEnv userEnv))).
Proof. split; [intros n; apply env_lookup_merge|apply MergeEnvVars_NoDup]. Qed.

Lemma MergeEnvVars_spec_witness :
  let d := [env "OMP_NUM_THREADS" "8"; env "MKL_NUM_THREADS" "8"] in
  let u := [env "OMP_NUM_THREADS" "16"] in
  (forall n, env_lookup (MergeEnvVars d u) n =
     match env_lookup u n with Some e => Some e | None => env_lookup d n end) /\
  (NoDup (map env_Name d) -> NoDup (map env_Name u) -> NoDup (map env_Name (MergeEnvVars d u))).
Proof. apply MergeEnvVars_spec. Defined.

(** ** Paths *)

(** Where an engine looks for the models is where the jobs put them. *)
Lemma GetStoragePaths_path le mr :
  (GetStoragePaths le mr).1 = getOrDefaultMountPath (sto_MountPath (mrs_Storage (mr_Spec mr))).
Proof.
  unfold GetStoragePaths, getOrDefaultMountPath. cbn. by repeat case_bool_decide.
Qed.

Section Envs.
Context `{Rg : GoRange}.

Lemma range_map_singleton {A} k (v : A) : range_map {[k := v]} = [(k, v)].
Proof. apply Permutation_singleton_r. rewrite range_map_perm. by rewrite map_to_list_singleton. Qed.

Lemma range_map_empty {A} : range_map (∅ : gmap string A) = [].
Proof. apply Permutation_nil_r. rewrite range_map_perm. by rewrite map_to_list_empty. Qed.

Lemma sortedEnv_singleton k v : sortedEnvFromMap {[k := v]} = [env k v].
Proof.
  unfold sortedEnvFromMap. rewrite range_map_singleton. cbn. unfold mget.
  by rewrite lookup_singleton_eq.
Qed.

Lemma sortedEnv_empty : sortedEnvFromMap ∅ = [].
Proof. unfold sortedEnvFromMap. by rewrite range_map_empty. Qed.

End Envs.

(** Sorting makes the environment independent of the order of Go's map
    iteration. *)
Lemma sortedEnv_order (R1 R2 : GoRange) m :
  @sortedEnvFromMap R1 m = @sortedEnvFromMap R2 m.
Proof.
  unfold sortedEnvFromMap. f_equal. apply sort_strings_unique.
  apply Permutation_map. by rewrite !range_map_perm.
Qed.
