(* ===== verification/VllmConfig.v ===== *)
(** * The configuration file of vLLM

    BuildVLLMConfig and what it calls in adapters/llmengine_utils.go: command line
    arguments become a nested map, merged over defaults.  sigs.k8s.io/yaml is a
    parameter. *)

From S2P Require Import Prelude GoStd.
From Stdlib Require Import Ascii String.

(** sigs.k8s.io/yaml *)
Class Yaml := { yaml_Marshal : gmap string value -> result string }.

Definition tryParseInt (s : string) : option Z := Atoi s.
Definition tryParseFloat (s : string) : option string := if ParseFloat_ok s then Some s else None.

(** {keys[0]: {keys[1]: ... value}} *)
Fixpoint nest (keys : list string) (v : value) : value :=
  match keys with
  | [] => v
  | k :: keys => VMap {[k := nest keys v]}
  end.
Definition createNestedMap (keys : list string) (v : value) : gmap string value :=
  match keys with
  | [] => ∅
  | k :: keys => {[k := nest keys v]}
  end.

(** What recursiveMerge leaves at a key: the value [v] of src over the value
    [dst] that is there.  The map it ranges over has distinct keys, so the order
    does not matter. *)
Fixpoint merge_value (v dst : value) {struct v} : value :=
  match dst, v with
  | VMap dst, VMap src =>
      VMap (map_fold (fun k v acc =>
              <[k := match acc !! k with Some dstVal => merge_value v dstVal | None => v end]> acc)
            dst src)
  | _, _ => v
  end.
Definition recursiveMerge (dst src : gmap string value) : gmap string value :=
  map_fold (fun k v acc =>
    <[k := match acc !! k with Some dstVal => merge_value v dstVal | None => v end]> acc)
    dst src.

(** The value of an argument.  White space that is not ASCII is not trimmed:
    JSON that starts or ends with it does not parse, and then, as without the
    test, the value is kept as a string. *)
Definition parse_value (v : string) : value :=
  let trimmedValue := trim_space v in
  let isJSONSyntax :=
    bool_decide ((first_char trimmedValue = Some "{"%char /\ last_char trimmedValue = Some "}"%char) \/
                 (first_char trimmedValue = Some "["%char /\ last_char trimmedValue = Some "]"%char)) in
  if isJSONSyntax then
    match json_Unmarshal v with Some parsed => parsed | None => VString v end
  else match tryParseInt v with
       | Some intVal => VInt intVal
       | None =>
           match tryParseFloat v with
           | Some floatVal => VFloat floatVal
           | None =>
               if bool_decide (v = "true" \/ v = "false") then VBool (bool_decide (v = "true"))
               else VString v
           end
       end.

(** Setting a parsed value: a dotted key is a path.  In the second case the map
    that is there is merged into in place. *)
Definition set_arg (config : gmap string value) (key : string) (parsedValue : value) :
    gmap string value :=
  if contains_char "." key then
    recursiveMerge config (createNestedMap (split_on "." key) parsedValue)
  else
    match config !! key, parsedValue with
    | Some (VMap existingMap), VMap parsedMap => <[key := VMap (recursiveMerge existingMap parsedMap)]> config
    | _, _ => <[key := parsedValue]> config
    end.

Definition arg_key (key : string) : string := replace_char "-" "_" key.

(** The loop over the arguments; [config] is the map so far. *)
Fixpoint convert_args (args : list string) (config : gmap string value) : gmap string value :=
  match args with
  | [] => config
  | arg :: rest =>
      if negb (has_prefix "--" arg) then convert_args rest config
      else
        match cut_at "=" arg with
        | Some (name, v) =>
            convert_args rest (set_arg config (arg_key (trim_prefix "--" name)) (parse_value v))
        | None =>
            let key := arg_key (trim_prefix "--" arg) in
            match rest with
            | [] => <[key := VBool true]> config
            | v :: rest' =>
                if has_prefix "--" v then convert_args rest (<[key := VBool true]> config)
                else convert_args rest' (set_arg config key (parse_value v))
            end
        end
  end.

Definition ConvertArgsToVLLMConfig (args : list string) : gmap string value := convert_args args ∅.

(** The configuration before the user's arguments. *)
Definition vllm_defaults (modelId revision : string) (requestGPU : bool) (gpuCount : Z) :
    gmap string value :=
  let config : gmap string value :=
    if requestGPU then
      let config := {["dtype" := VString "auto"; "gpu_memory_utilization" := VFloat "0.9"]} in
      if (1 <? gpuCount)%Z then <["tensor_parallel_size" := VInt gpuCount]> config else config
    else {["dtype" := VString "half"; "max_num_batched_tokens" := VInt 2048;
           "max_model_len" := VInt 2048; "enforce_eager" := VBool true]} in
  let config := <["model" := VString modelId]> config in
  let config :=
    if bool_decide (revision <> EmptyString) then <["revision" := VString revision]> config
    else config in
  <["trust_remote_code" := VBool false]> config.

Definition BuildVLLMConfig (modelId revision : string) (requestGPU : bool) (gpuCount : Z)
    (userArgs : list string) : gmap string value :=
  ConvertArgsToVLLMConfig userArgs ∪ vllm_defaults modelId revision requestGPU gpuCount.

Definition MarshalVLLMConfig `{Yaml} (config : gmap string value) : result string :=
  match yaml_Marshal config with
  | Ok data => Ok data
  | Err err => Err (errorw "failed to marshal vLLM config to YAML: " err)
  end.

(** ** Merging *)

Definition over (v : value) (dst : option value) : value :=
  match dst with Some dst => merge_value v dst | None => v end.

Lemma recursiveMerge_lookup dst src k :
  recursiveMerge dst src !! k =
  match src !! k with Some v => Some (over v (dst !! k)) | None => dst !! k end.
Proof.
  unfold recursiveMerge. revert k.
  apply (map_fold_weak_ind (fun acc src => forall k, acc !! k =
    match src !! k with Some v => Some (over v (dst !! k)) | None => dst !! k end)).
  - intros k. by rewrite lookup_empty.
  - intros i v m acc Hi IH k. destruct (decide (i = k)) as [->|Hne].
    + rewrite !lookup_insert_eq. rewrite IH, Hi. done.
    + by rewrite !lookup_insert_ne.
Qed.

Lemma merge_maps src dst : merge_value (VMap src) (VMap dst) = VMap (recursiveMerge dst src).
Proof. reflexivity. Qed.

Lemma merge_not_map v dst : (forall m, v <> VMap m) -> merge_value v dst = v.
Proof. destruct v; intros Hv; try by destruct dst. by destruct (Hv m). Qed.

(** The value at a path of keys. *)
Fixpoint get_path (v : value) (keys : list string) : option value :=
  match keys with
  | [] => Some v
  | k :: keys => match v with VMap m => m !! k ≫= (fun v => get_path v keys) | _ => None end
  end.

(** Merging a nested map in sets the value at its path, by merging it into what
    is there, *)
Lemma get_path_merge_nest keys v dst :
  get_path (merge_value (nest keys v) dst) keys = Some (over v (get_path dst keys)).
Proof.
  revert dst. induction keys as [|k keys IH]; intros dst; [done|].
  assert (Hn : forall v, get_path (VMap {[k := nest keys v]}) (k :: keys) = Some v).
  { intros w. cbn. rewrite lookup_singleton_eq. cbn.
    clear. induction keys as [|k keys IH]; [done|]. cbn. by rewrite lookup_singleton_eq. }
  cbn [nest]. destruct dst as [| | | | | |d]; try apply Hn.
  rewrite merge_maps. cbn [get_path].
  rewrite recursiveMerge_lookup, lookup_singleton_eq. cbn.
  destruct (d !! k) as [w|]; cbn; [apply IH|].
  specialize (Hn v). cbn in Hn. by rewrite lookup_singleton_eq in Hn.
Qed.

(** and leaves every other path alone. *)
Lemma get_path_nest_other keys v q :
  ~ keys `prefix_of` q -> ~ q `prefix_of` keys -> get_path (nest keys v) q = None.
Proof.
  revert q. induction keys as [|k keys IH]; intros q H1 H2.
  { destruct H1. apply prefix_nil. }
  destruct q as [|k' q]; [destruct H2; apply prefix_nil|]. cbn [nest get_path].
  destruct (decide (k = k')) as [->|Hne].
  - rewrite lookup_singleton_eq. cbn. apply IH; intros ?; [apply H1|apply H2]; by apply prefix_cons.
  - by rewrite lookup_singleton_ne.
Qed.

Lemma get_path_merge_other keys v dst q :
  ~ keys `prefix_of` q -> ~ q `prefix_of` keys ->
  get_path (merge_value (nest keys v) dst) q = get_path dst q.
Proof.
  revert q dst. induction keys as [|k keys IH]; intros q dst H1 H2.
  { destruct H1. apply prefix_nil. }
  destruct q as [|k' q]; [destruct H2; apply prefix_nil|].
  pose proof (get_path_nest_other (k :: keys) v (k' :: q) H1 H2) as Hn.
  cbn [nest] in *. destruct dst as [| | | | | |d]; try exact Hn.
  rewrite merge_maps. cbn [get_path] in *. rewrite recursiveMerge_lookup.
  destruct (decide (k = k')) as [->|Hne].
  - rewrite lookup_singleton_eq in *. cbn [option_bind mbind] in *.
    destruct (d !! k') as [w|]; cbn; [|exact Hn].
    apply IH; intros ?; [apply H1|apply H2]; by apply prefix_cons.
  - by rewrite lookup_singleton_ne.
Qed.

(** ** Arguments *)

Definition arg_path (key : string) : list string := split_on "." (arg_key key).

(** Setting an argument is merging a nested map in, dotted or not. *)
Lemma set_arg_merge config key v :
  VMap (set_arg config key v) = merge_value (nest (split_on "." key) v) (VMap config).
Proof.
  unfold set_arg. destruct (contains_char "." key) eqn:E.
  - destruct (split_on_cons "." key) as (x & l & ->). reflexivity.
  - rewrite (split_on_flat _ _ E). cbn [nest]. rewrite merge_maps. f_equal.
    apply map_eq. intros k. rewrite recursiveMerge_lookup.
    assert (Hins : forall w, w = over v (config !! key) ->
      (<[key:=w]> config : gmap string value) !! k =
      match ({[key := v]} : gmap string value) !! k with
      | Some v => Some (over v (config !! k)) | None => config !! k end).
    { intros w ->. destruct (decide (key = k)) as [->|Hne].
      - by rewrite lookup_insert_eq, lookup_singleton_eq.
      - by rewrite lookup_insert_ne, lookup_singleton_ne. }
    destruct (config !! key) as [[]|] eqn:Ek; try (by apply Hins; destruct v).
    destruct v; by apply Hins.
Qed.

(** The loop, cut before an argument that starts with two dashes. *)
Lemma convert_args_app args rest config :
  match rest with [] => True | arg :: _ => has_prefix "--" arg = true end ->
  convert_args (args ++ rest) config = convert_args rest (convert_args args config).
Proof.
  intros Hrest. revert config. induction args as [args IH] using (induction_ltof1 _ List.length).
  unfold ltof in IH. intros config. destruct args as [|arg args]; [done|].
  cbn [app convert_args]. destruct (has_prefix "--" arg); cbn [negb].
  2: { apply IH. cbn. lia. }
  destruct (cut_at "=" arg) as [[name v]|]; [apply IH; cbn; lia|].
  destruct args as [|v args]; cbn [app].
  - destruct rest as [|arg' rest]; [done|]. by rewrite Hrest.
  - destruct (has_prefix "--" v) eqn:Ev; [|apply IH; cbn; lia].
    apply (IH (v :: args)). cbn. lia.
Qed.

Lemma cut_at_app c key v :
  contains_char c key = false -> cut_at c (key +:+ String c v) = Some (key, v).
Proof.
  induction key as [|d key IH]; intros H.
  - rewrite str_app_nil_l. cbn. by rewrite bool_decide_true.
  - rewrite str_app_cons. cbn in *. apply orb_false_iff in H as [-> H].
    by rewrite IH.
Qed.

Definition assignment (key v : string) : string := "--" +:+ key +:+ String "=" v.

Lemma convert_args_assignment args key v :
  contains_char "=" key = false ->
  VMap (ConvertArgsToVLLMConfig (args ++ [assignment key v])) =
  merge_value (nest (arg_path key) (parse_value v)) (VMap (ConvertArgsToVLLMConfig args)).
Proof.
  intros Hk. unfold ConvertArgsToVLLMConfig, assignment.
  rewrite convert_args_app by apply has_prefix_app.
  cbn [convert_args]. rewrite has_prefix_app. cbn [negb].
  rewrite <- str_app_assoc, cut_at_app.
  - by rewrite trim_prefix_app, set_arg_merge.
  - rewrite !str_app_cons, str_app_nil_l. cbn. exact Hk.
Qed.

(** Property C28: of several assignments the last one decides.  An argument
    --a.b.c=value after any others leaves at the path a, b, c its value, merged
    into what was there when both are maps and instead of it otherwise, and every
    path that neither extends nor starts that one stays as it was. *)
Theorem last_assignment_wins args key v :
  contains_char "=" key = false ->
  let config := VMap (ConvertArgsToVLLMConfig args) in
  let config' := VMap (ConvertArgsToVLLMConfig (args ++ [assignment key v])) in
  let path := arg_path key in
  get_path config' path =
    Some (match parse_value v, get_path config path with
          | VMap src, Some (VMap dst) => VMap (recursiveMerge dst src)
          | new, _ => new
          end) /\
  forall q, ~ path `prefix_of` q -> ~ q `prefix_of` path -> get_path config' q = get_path config q.
Proof.
  intros Hk. cbv zeta. rewrite convert_args_assignment by done. split.
  - rewrite get_path_merge_nest. f_equal.
    destruct (parse_value v), (get_path _ (arg_path key)) as [[]|]; reflexivity.
  - apply get_path_merge_other.
Qed.

Lemma last_assignment_wins_witness :
  let args := ["--compilation-config.level=2"; "--compilation-config.mode=1"] in
  let config := VMap (ConvertArgsToVLLMConfig args) in
  let config' := VMap (ConvertArgsToVLLMConfig (args ++ [assignment "compilation-config.mode" "3"])) in
  let path := ["compilation_config"; "mode"] in
  get_path config' path = Some (VInt 3) /\
  forall q, ~ path `prefix_of` q -> ~ q `prefix_of` path -> get_path config' q = get_path config q.
Proof.
  destruct (last_assignment_wins ["--compilation-config.level=2"; "--compilation-config.mode=1"]
    "compilation-config.mode" "3" ltac:(reflexivity)) as [H1 H2].
  split; [exact H1|exact H2].
Defined.

(** ** The keys of the configuration *)

(** The keys at the root that an argument can set. *)
Definition arg_name (arg : string) : string :=
  arg_key (trim_prefix "--" match cut_at "=" arg with Some (name, _) => name | None => arg end).
Definition names_key (arg k : string) : bool :=
  has_prefix "--" arg &&
  bool_decide (arg_name arg = k \/ head (split_on "." (arg_name arg)) = Some k).

Lemma set_arg_lookup_ne config key v k :
  key <> k -> head (split_on "." key) <> Some k -> set_arg config key v !! k = config !! k.
Proof.
  intros H1 H2. pose proof (set_arg_merge config key v) as E.
  destruct (split_on_cons "." key) as (x & l & Hs). rewrite Hs in *.
  cbn in H2. cbn [nest] in E. rewrite merge_maps in E. injection E as ->.
  rewrite recursiveMerge_lookup, lookup_singleton_ne; congruence.
Qed.

Lemma convert_args_lookup_ne args config k :
  existsb (fun arg => names_key arg k) args = false -> convert_args args config !! k = config !! k.
Proof.
  revert config. induction args as [args IH] using (induction_ltof1 _ List.length).
  unfold ltof in IH. intros config. destruct args as [|arg args]; [done|].
  cbn [existsb convert_args]. intros [Hn Hr]%orb_false_iff. unfold names_key, arg_name in Hn.
  destruct (has_prefix "--" arg); cbn [negb andb] in *; [|apply IH; [cbn; lia|done]].
  apply bool_decide_eq_false in Hn. apply Decidable.not_or in Hn as [Hn1 Hn2].
  destruct (cut_at "=" arg) as [[name v]|].
  { rewrite IH by (cbn; auto with lia). by apply set_arg_lookup_ne. }
  destruct args as [|v args]; [by rewrite lookup_insert_ne|].
  destruct (has_prefix "--" v).
  - rewrite IH by (cbn; auto with lia). by rewrite lookup_insert_ne.
  - cbn in Hr. apply orb_false_iff in Hr as [_ Hr].
    rewrite IH by (cbn; auto with lia). by apply set_arg_lookup_ne.
Qed.

(** Property C33: the configuration is the user's arguments over the defaults, a
    key at the root at a time; a key that no argument names keeps its default.
    In particular vLLM trusts no remote code, and serves the model and the
    revision of the reference, unless an argument says otherwise. *)
Theorem BuildVLLMConfig_spec modelId revision requestGPU gpuCount userArgs k :
  let config := BuildVLLMConfig modelId revision requestGPU gpuCount userArgs in
  let defaults := vllm_defaults modelId revision requestGPU gpuCount in
  config !! k =
    match ConvertArgsToVLLMConfig userArgs !! k with Some v => Some v | None => defaults !! k end /\
  (existsb (fun arg => names_key arg k) userArgs = false -> config !! k = defaults !! k) /\
  defaults !! "trust_remote_code" = Some (VBool false) /\
  defaults !! "model" = Some (VString modelId) /\
  (revision <> EmptyString -> defaults !! "revision" = Some (VString revision)).
Proof.
  cbv zeta. unfold BuildVLLMConfig.
  assert (E : (ConvertArgsToVLLMConfig userArgs ∪ vllm_defaults modelId revision requestGPU gpuCount) !! k
    = match ConvertArgsToVLLMConfig userArgs !! k with
      | Some v => Some v | None => vllm_defaults modelId revision requestGPU gpuCount !! k end).
  { destruct (ConvertArgsToVLLMConfig userArgs !! k) eqn:E;
      [by apply lookup_union_Some_l|by rewrite lookup_union_r]. }
  split; [done|]. split.
  - intros Hk. rewrite E. unfold ConvertArgsToVLLMConfig.
    by rewrite convert_args_lookup_ne, lookup_empty.
  - unfold vllm_defaults. cbv zeta. split; [by rewrite lookup_insert_eq|]. split.
    + rewrite lookup_insert_ne by done. case_bool_decide;
        [rewrite lookup_insert_ne by done|]; by rewrite lookup_insert_eq.
    + intros Hr. rewrite lookup_insert_ne, bool_decide_true by done. by rewrite lookup_insert_eq.
Qed.

Lemma BuildVLLMConfig_spec_witness :
  let config := BuildVLLMConfig "org/model" "main" true 2 ["--dtype=half"; "--max-model-len"; "4096"] in
  config !! "trust_remote_code" = Some (VBool false) /\
  config !! "revision" = Some (VString "main") /\ config !! "dtype" = Some (VString "half").
Proof.
  cbv zeta.
  destruct (BuildVLLMConfig_spec "org/model" "main" true 2
              ["--dtype=half"; "--max-model-len"; "4096"] "trust_remote_code")
    as (_ & H1 & D1 & _ & D2).
  destruct (BuildVLLMConfig_spec "org/model" "main" true 2
              ["--dtype=half"; "--max-model-len"; "4096"] "revision") as (_ & H2 & _).
  destruct (BuildVLLMConfig_spec "org/model" "main" true 2
              ["--dtype=half"; "--max-model-len"; "4096"] "dtype") as (H3 & _).
  rewrite H1, H2, H3, D1, D2 by (done || reflexivity).
  split; [done|]. split; [done|]. vm_compute. reflexivity.
Defined.

(** The default for trust_remote_code is only a default: the flag
    turns it on for every model. *)
Theorem trust_remote_code_overridable modelId revision requestGPU gpuCount userArgs :
  BuildVLLMConfig modelId revision requestGPU gpuCount (userArgs ++ ["--trust-remote-code"])
    !! "trust_remote_code" = Some (VBool true).
Proof.
  unfold BuildVLLMConfig, ConvertArgsToVLLMConfig. rewrite convert_args_app by reflexivity.
  apply lookup_union_Some_l. cbn [convert_args].
  change (has_prefix "--" "--trust-remote-code") with true.
  change (cut_at "=" "--trust-remote-code") with (@None (string * string)).
  cbn [negb]. change (arg_key _) with "trust_remote_code". by rewrite lookup_insert_eq.
Qed.

(** A dotted flag without a value does not nest: it is a key with a dot. *)
Lemma dotted_flag_stays_flat args key :
  contains_char "=" key = false ->
  ConvertArgsToVLLMConfig (args ++ ["--" +:+ key]) = <[arg_key key := VBool true]>
    (ConvertArgsToVLLMConfig args).
Proof.
  intros Hk. unfold ConvertArgsToVLLMConfig. rewrite convert_args_app by apply has_prefix_app.
  cbn [convert_args]. rewrite has_prefix_app, trim_prefix_app. cbn [negb].
  assert (E : cut_at "=" ("--" +:+ key) = None); [|by rewrite E].
  rewrite !str_app_cons, str_app_nil_l. cbn.
  enough (cut_at "=" key = None) as -> by done.
  induction key as [|c key IH]; cbn in *; [done|].
  apply orb_false_iff in Hk as [-> Hk]. by rewrite IH.
Qed.

(** The examples of the function's comment. *)
Example flat_args :
  let config := ConvertArgsToVLLMConfig ["--dtype=float16"; "--max-model-len=4096"] in
  config !! "dtype" = Some (VString "float16") /\ config !! "max_model_len" = Some (VInt 4096).
Proof. split; vm_compute; reflexivity. Qed.

Example nested_args :
  get_path (VMap (ConvertArgsToVLLMConfig
    ["serve"; "--enforce-eager"; "--max-model-len"; "2048"; "--x.y.z"; "0.5"; "--x={}"]))
    ["x"; "y"; "z"] = Some (VFloat "0.5").
Proof. vm_compute. reflexivity. Qed.
