(* ===== verification/EngineAdapters.v ===== *)
(** * Deployments, services and config maps of an engine

    The embedded templates llmengine/<engine>/{deployment,service}.yaml (the
    fields the API records of Api.v have), assets/assets.go that loads them, and
    the adapters of adapters/ that fill them in. *)

From S2P Require Import Prelude Naming Api Kube Machinery StorageDiscovery Backend StorageProvider Jobs.
From S2P Require Import MemServer EngineStorage GoStd EngineConfig VllmConfig.

(** ** Templates *)

Definition placeholder_labels : gmap string string :=
  {["app" := "placeholder"; "model" := "placeholder"]}.

(** What the two deployments share, and where they differ. *)
Definition deployment_template (engineType image : string) (args : list string) (port : Z)
    (envs : list EnvVar) (mounts : list VolumeMount) (volumes : list Volume) : Deployment :=
  let labels : gmap string string := <["engine-type" := engineType]> placeholder_labels in
  {| dep_Meta := meta_with_Labels labels (meta_with_Name "placeholder" meta_empty);
     dep_Replicas := Some 1%Z;
     dep_MatchLabels := placeholder_labels;
     dep_TemplateLabels := labels;
     dep_Pod := {|
       pod_Containers := [mkContainer "llm-engine" image [] args
         [mkContainerPort "http" port "TCP"] envs mounts
         (mkResources (quantities "8" "16Gi") (quantities "4" "8Gi"))
         (Some (mkSecurityContext false false ["ALL"]))];
       pod_Volumes := volumes; pod_NodeSelector := ∅; pod_NodeAffinity := None;
       pod_Tolerations := []; pod_HostIPC := false; pod_RestartPolicy := "Always" |};
     dep_ReadyReplicas := 0 |}.

Definition missing_manifest (engineType fileName : string) : gerror :=
  errorf ("failed to read llmengine/" +:+ engineType +:+ "/" +:+ fileName +:+
          ": open llmengine/" +:+ engineType +:+ "/" +:+ fileName +:+ ": file does not exist").

Definition ollama_template : Deployment :=
  deployment_template "ollama" "ollama/ollama:latest" ["serve"] 11434
    [env "OLLAMA_HOME" "/tmp/ollama-home"]
    [mkVolumeMount "ollama-home" "/tmp/ollama-home" false]
    [mkVolume "ollama-home" (EmptyDirVolume EmptyString EmptyString)].

Definition vllm_template : Deployment :=
  deployment_template "vllm" "vllm/vllm-openai:latest" [] 8000
    [env "HF_HOME" "/data/models"; env "HF_HUB_OFFLINE" "1"; env "TRANSFORMERS_OFFLINE" "1";
     env "HF_HUB_DISABLE_SYMLINKS_WARNING" "1"; env "TMPDIR" "/tmp/vllm-cache";
     env "BITSANDBYTES_CACHE" "/tmp/vllm-cache/bnb"; env "VLLM_CACHE_ROOT" "/tmp/vllm-cache/kernels"]
    [mkVolumeMount "vllm-cache-root" "/tmp/vllm-cache" false; mkVolumeMount "shm" "/dev/shm" false;
     mkVolumeMount "vllm-config" "/etc/vllm" true]
    [mkVolume "vllm-cache-root" (EmptyDirVolume EmptyString "2Gi");
     mkVolume "shm" (EmptyDirVolume "Memory" "2Gi");
     mkVolume "vllm-config" (ConfigMapVolume "placeholder-vllm-config")].

Definition LoadLLMEngineDeploymentManifest (engineType : string) : result Deployment :=
  if bool_decide (engineType = "ollama") then Ok ollama_template
  else if bool_decide (engineType = "vllm") then Ok vllm_template
  else Err (missing_manifest engineType "deployment.yaml").

(** The two service templates are equal. *)
Definition service_template : Service :=
  mkService (meta_with_Labels placeholder_labels (meta_with_Name "placeholder" meta_empty))
    "ClusterIP" placeholder_labels [mkServicePort "http" 8080 (FromString "http") "TCP"].

Definition LoadLLMEngineServiceManifest (engineType : string) : result Service :=
  if bool_decide (engineType = "ollama" \/ engineType = "vllm") then Ok service_template
  else Err (missing_manifest engineType "service.yaml").

(** ** Context *)

(** LLMEngineContext without the client and the scheme *)
Record LLMEngineContext := mkEngineContext {
  ctx_LLMEngine : LLMEngine;
  ctx_ModelRepo : ModelRepository;
  ctx_Namespace : string;
  ctx_ModelPVCName : string;
}.

(** client.Object, as far as the component framework is given objects *)
Inductive Object : Type :=
| DeploymentObject (o : Deployment)
| ServiceObject (o : Service)
| ConfigMapObject (o : ConfigMap).

(** ** AdaptDeployment *)

Definition engine_match_labels (engineName modelName : string) : gmap string string :=
  {["app" := engineName; "model" := modelName]}.

Definition deployment_labels (engineName modelName engineType : string) : gmap string string :=
  <["engine-type" := engineType]> (engine_match_labels engineName modelName).

Definition setDeploymentLabels (deployment : Deployment) (engineName modelName engineType : string) :
    Deployment :=
  let labels := deployment_labels engineName modelName engineType in
  mkDeployment (meta_with_Labels (overlay (meta_Labels (dep_Meta deployment)) labels) (dep_Meta deployment))
    (dep_Replicas deployment) (engine_match_labels engineName modelName)
    (overlay (dep_TemplateLabels deployment) labels) (dep_Pod deployment) (dep_ReadyReplicas deployment).

Definition buildVLLMArgs (port : Z) : list string :=
  ["--config"; VLLMConfigFilePath; "--host"; "0.0.0.0"; "--port"; fmt_d port].

(** The defaults for images, environments and arguments. *)
Definition engine_image (llmEngine : LLMEngine) : string :=
  if bool_decide (les_Image (le_Spec llmEngine) <> EmptyString) then les_Image (le_Spec llmEngine)
  else if bool_decide (les_EngineType (le_Spec llmEngine) = LLMEngineTypeOllama) then DefaultOllamaImage
  else DefaultVLLMImage.

Definition engine_env `{GoRange} (llmEngine : LLMEngine) (modelRepo : ModelRepository)
    (requestGPU : bool) : list EnvVar :=
  if bool_decide (les_EngineType (le_Spec llmEngine) = LLMEngineTypeOllama)
  then BuildOllamaEnv llmEngine modelRepo requestGPU
  else BuildVLLMEnv llmEngine modelRepo requestGPU.

Definition engine_args (llmEngine : LLMEngine) (podPort : Z) (template : list string) : list string :=
  if bool_decide (les_EngineType (le_Spec llmEngine) = LLMEngineTypeVLLM) then buildVLLMArgs podPort
  else if bool_decide (les_Args (le_Spec llmEngine) <> []) then les_Args (le_Spec llmEngine)
  else template.

Definition engine_resources `{Machinery} (llmEngine : LLMEngine) (requestGPU : bool)
    (template : ResourceRequirements) : ResourceRequirements :=
  let res :=
    match les_Resources (le_Spec llmEngine) with
    | Some r => MergeResourceRequirements template r
    | None => template
    end in
  match requestGPU, les_GPU (le_Spec llmEngine) with
  | true, Some gpu => MergeResourceRequirements res (BuildGPUResources gpu)
  | _, _ => res
  end.

(** The loop that names the config map: the first volume of that name that is a
    config map. *)
Fixpoint set_config_volume (configMapName : string) (volumes : list Volume) : list Volume :=
  match volumes with
  | [] => []
  | v :: volumes =>
      match vol_Source v with
      | ConfigMapVolume _ =>
          if bool_decide (vol_Name v = "vllm-config")
          then mkVolume (vol_Name v) (ConfigMapVolume configMapName) :: volumes
          else v :: set_config_volume configMapName volumes
      | _ => v :: set_config_volume configMapName volumes
      end
  end.

(** The node selector: the storage's node, then the GPU's. *)
Definition engine_node_selector (llmEngine : LLMEngine) (modelRepo : ModelRepository)
    (requestGPU : bool) : gmap string string :=
  let nodeSelector : gmap string string :=
    if RequiresNodeAffinity modelRepo && bool_decide (GetBoundNodeName modelRepo <> EmptyString)
    then {["kubernetes.io/hostname" := GetBoundNodeName modelRepo]} else ∅ in
  match requestGPU, les_GPU (le_Spec llmEngine) with
  | true, Some gpu => nodeSelector ∪ BuildGPUNodeSelector gpu llmEngine
  | _, _ => nodeSelector
  end.

(** The container: the template's first.  The template has a port. *)
Definition adapt_engine_container `{Machinery, GoRange} (ctx : LLMEngineContext) (c : Container) :
    outcome Container :=
  let llmEngine := ctx_LLMEngine ctx in
  let modelRepo := ctx_ModelRepo ctx in
  let podPort := GetPodPort llmEngine in
  let requestGPU := DetectGPURequest llmEngine in
  match c_Ports c with
  | [] => Panicked "index out of range"
  | port :: ports =>
      Done (mkContainer (c_Name c) (engine_image llmEngine) (c_Command c)
              (engine_args llmEngine podPort (c_Args c))
              (mkContainerPort (cp_Name port) podPort (cp_Protocol port) :: ports)
              (MergeEnvVars (c_Env c) (engine_env llmEngine modelRepo requestGPU))
              (c_VolumeMounts c ++
                 [mkVolumeMount "model-storage" (GetStoragePaths llmEngine modelRepo).1 true])
              (engine_resources llmEngine requestGPU (c_Resources c))
              (c_SecurityContext c))
  end.

Definition adapt_engine_pod (ctx : LLMEngineContext) (pod : PodSpec) (containers : list Container) :
    PodSpec :=
  let llmEngine := ctx_LLMEngine ctx in
  let modelRepo := ctx_ModelRepo ctx in
  let requestGPU := DetectGPURequest llmEngine in
  let volumes :=
    pod_Volumes pod ++ [mkVolume "model-storage" (PVCVolume (ctx_ModelPVCName ctx) true)] in
  let nodeSelector := engine_node_selector llmEngine modelRepo requestGPU in
  {|
    pod_Containers := containers;
    pod_Volumes :=
      if bool_decide (les_EngineType (le_Spec llmEngine) = LLMEngineTypeVLLM)
      then set_config_volume (GetVLLMConfigMapName (le_Name llmEngine) (mr_Name modelRepo)) volumes
      else volumes;
    pod_NodeSelector := if bool_decide (nodeSelector <> ∅) then nodeSelector else pod_NodeSelector pod;
    pod_NodeAffinity := pod_NodeAffinity pod;
    pod_Tolerations :=
      match requestGPU, les_GPU (le_Spec llmEngine) with
      | true, Some gpu => BuildGPUTolerations gpu
      | _, _ => pod_Tolerations pod
      end;
    pod_HostIPC := les_HostIPC (le_Spec llmEngine) || pod_HostIPC pod;
    pod_RestartPolicy := pod_RestartPolicy pod |}.

Definition AdaptDeployment `{Machinery, GoRange} (ctx : LLMEngineContext) (deployment : Deployment) :
    outcome (result Deployment) :=
  let llmEngine := ctx_LLMEngine ctx in
  let modelRepo := ctx_ModelRepo ctx in
  name ← ComponentName (le_Name llmEngine) (mr_Name modelRepo);
  let deployment :=
    setDeploymentLabels deployment (le_Name llmEngine) (mr_Name modelRepo)
      (les_EngineType (le_Spec llmEngine)) in
  match pod_Containers (dep_Pod deployment) with
  | [] => Panicked "index out of range"
  | container :: containers =>
      container ← adapt_engine_container ctx container;
      Done (Ok {|
        dep_Meta := meta_with_Name name (dep_Meta deployment);
        dep_Replicas :=
          match les_Replicas (le_Spec llmEngine) with
          | Some n => Some n
          | None => dep_Replicas deployment
          end;
        dep_MatchLabels := dep_MatchLabels deployment;
        dep_TemplateLabels := dep_TemplateLabels deployment;
        dep_Pod := adapt_engine_pod ctx (dep_Pod deployment) (container :: containers);
        dep_ReadyReplicas := dep_ReadyReplicas deployment |})
  end.

(** ** AdaptService *)

Definition AdaptService (ctx : LLMEngineContext) (service : Service) : outcome (result Service) :=
  let llmEngine := ctx_LLMEngine ctx in
  let modelRepo := ctx_ModelRepo ctx in
  let labels := engine_match_labels (le_Name llmEngine) (mr_Name modelRepo) in
  name ← ComponentName (le_Name llmEngine) (mr_Name modelRepo);
  match svc_Ports service with
  | [] => Panicked "index out of range"
  | port :: ports =>
      Done (Ok (mkService (meta_with_Labels labels (meta_with_Name name (svc_Meta service)))
                  (svc_Type service) labels
                  (mkServicePort (sp_Name port) (GetServicePort llmEngine)
                     (FromInt (GetPodPort llmEngine)) (sp_Protocol port) :: ports)))
  end.

(** ** AdaptVLLMConfigMap *)

(** The revision of the first reference to the repository. *)
Fixpoint ref_revision (refs : list ModelReference) (repo : string) : string :=
  match refs with
  | [] => EmptyString
  | ref :: refs => if bool_decide (ref_Name ref = repo) then ref_Revision ref else ref_revision refs repo
  end.

(** The GPUs vLLM shards the model over: 0 without a GPU. *)
Definition config_gpu_count (llmEngine : LLMEngine) : Z :=
  match DetectGPURequest llmEngine, les_GPU (le_Spec llmEngine) with
  | true, Some gpu => gpu_count_or_default (gpu_Count gpu)
  | _, _ => 0
  end.

Definition engine_vllm_config (llmEngine : LLMEngine) (modelRepo : ModelRepository) : gmap string value :=
  BuildVLLMConfig (src_ModelId (mrs_Source (mr_Spec modelRepo)))
    (ref_revision (les_ModelRefs (le_Spec llmEngine)) (mr_Name modelRepo))
    (DetectGPURequest llmEngine) (config_gpu_count llmEngine) (les_Args (le_Spec llmEngine)).

Definition adapt_config_map `{Yaml} (ctx : LLMEngineContext) (configMap : ConfigMap) : result ConfigMap :=
  let llmEngine := ctx_LLMEngine ctx in
  let modelRepo := ctx_ModelRepo ctx in
  match MarshalVLLMConfig (engine_vllm_config llmEngine modelRepo) with
  | Err err => Err (errorw "failed to marshal vLLM config to YAML: " err)
  | Ok yamlData =>
      let labels := deployment_labels (le_Name llmEngine) (mr_Name modelRepo)
                      (les_EngineType (le_Spec llmEngine)) in
      Ok (mkConfigMap
            (meta_with_Labels (overlay (meta_Labels (cm_Meta configMap)) labels)
               (meta_with_Namespace (le_Namespace llmEngine)
                  (meta_with_Name (GetVLLMConfigMapName (le_Name llmEngine) (mr_Name modelRepo))
                     (cm_Meta configMap))))
            (<[VLLMConfigMapKeyName := yamlData]> (cm_Data configMap)))
  end.

Definition AdaptVLLMConfigMap `{Yaml} (ctx : LLMEngineContext) (obj : Object) : result Object :=
  match obj with
  | ConfigMapObject configMap =>
      match adapt_config_map ctx configMap with
      | Ok configMap => Ok (ConfigMapObject configMap)
      | Err err => Err err
      end
  | DeploymentObject _ => Err (errorf "expected ConfigMap, got *v1.Deployment")
  | ServiceObject _ => Err (errorf "expected ConfigMap, got *v1.Service")
  end.

Definition IsVLLMEngine (ctx : LLMEngineContext) : result bool :=
  Ok (bool_decide (les_EngineType (le_Spec (ctx_LLMEngine ctx)) = "vllm")).

(** ** What the objects of an engine are to look like *)

Definition known_engine (engineType : string) : Prop :=
  engineType = LLMEngineTypeOllama \/ engineType = LLMEngineTypeVLLM.

#[export] Instance known_engine_dec engineType : Decision (known_engine engineType).
Proof. unfold known_engine. apply _. Defined.

(** Where the jobs of the repository put the model. *)
Definition repo_path (modelRepo : ModelRepository) : string :=
  getOrDefaultMountPath (sto_MountPath (mrs_Storage (mr_Spec modelRepo))).

(** The variable that tells the engine where the models are, if it is told. *)
Definition path_variable (llmEngine : LLMEngine) (modelRepo : ModelRepository) : option string :=
  if bool_decide (les_EngineType (le_Spec llmEngine) = LLMEngineTypeOllama) then Some "OLLAMA_MODELS"
  else if bool_decide (src_Origin (mrs_Source (mr_Spec modelRepo)) = ModelOriginHuggingFace)
  then Some "HF_HOME" else None.

(** A pod whose mounts name its volumes, each volume once. *)
Definition well_mounted (pod : PodSpec) : Prop :=
  NoDup (map vol_Name (pod_Volumes pod)) /\
  Forall (fun c => Forall (fun m => vm_Name m ∈ map vol_Name (pod_Volumes pod)) (c_VolumeMounts c))
    (pod_Containers pod).

(** The container serves the model: it listens on the engine's port, mounts the
    model read-only where the jobs put it, and its environment says so and keeps
    what the user set. *)
Record serves_model (ctx : LLMEngineContext) (c : Container) : Prop := {
  serves_port : exists name proto,
    c_Ports c = [mkContainerPort name (GetPodPort (ctx_LLMEngine ctx)) proto];
  serves_mount : mkVolumeMount "model-storage" (repo_path (ctx_ModelRepo ctx)) true ∈ c_VolumeMounts c;
  serves_user_env : forall n e,
    env_lookup (les_Env (le_Spec (ctx_LLMEngine ctx))) n = Some e -> env_lookup (c_Env c) n = Some e;
  serves_path : forall n, path_variable (ctx_LLMEngine ctx) (ctx_ModelRepo ctx) = Some n ->
    env_lookup (les_Env (le_Spec (ctx_LLMEngine ctx))) n = None ->
    env_lookup (c_Env c) n = Some (env n (repo_path (ctx_ModelRepo ctx)));
  serves_env : NoDup (map env_Name (les_Env (le_Spec (ctx_LLMEngine ctx)))) ->
    NoDup (map env_Name (c_Env c));
}.

(** The deployment selects its own pods, which are unprivileged and well formed,
    use no other claim than the engine's read-only one, and run where the storage
    is. *)
Record deployment_for (ctx : LLMEngineContext) (name : string) (d : Deployment) : Prop := {
  deployment_name : meta_Name (dep_Meta d) = name;
  deployment_selects : dep_MatchLabels d ⊆ dep_TemplateLabels d;
  deployment_matches :
    dep_MatchLabels d = engine_match_labels (le_Name (ctx_LLMEngine ctx)) (mr_Name (ctx_ModelRepo ctx));
  deployment_unprivileged : unprivileged (dep_Pod d);
  deployment_mounted : well_mounted (dep_Pod d);
  deployment_claims : forall v n ro, v ∈ pod_Volumes (dep_Pod d) -> vol_Source v = PVCVolume n ro ->
    v = mkVolume "model-storage" (PVCVolume (ctx_ModelPVCName ctx) true);
  deployment_claim :
    mkVolume "model-storage" (PVCVolume (ctx_ModelPVCName ctx) true) ∈ pod_Volumes (dep_Pod d);
  deployment_container : exists c, pod_Containers (dep_Pod d) = [c] /\ serves_model ctx c;
  deployment_node : RequiresNodeAffinity (ctx_ModelRepo ctx) = true ->
    GetBoundNodeName (ctx_ModelRepo ctx) <> EmptyString ->
    pod_NodeSelector (dep_Pod d) !! "kubernetes.io/hostname" = Some (GetBoundNodeName (ctx_ModelRepo ctx));
}.

Section Adapt.
Context `{M : Machinery} `{Rg : GoRange}.

Lemma path_map le mr :
  known_engine (les_EngineType (le_Spec le)) ->
  (GetStoragePaths le mr).2 =
  match path_variable le mr with Some n => {[n := repo_path mr]} | None => ∅ end.
Proof.
  intros Hk. unfold GetStoragePaths, path_variable, repo_path, getOrDefaultMountPath. cbv zeta. cbn.
  destruct Hk as [E|E]; rewrite !E.
  - change (bool_decide (LLMEngineTypeOllama = LLMEngineTypeVLLM)) with false.
    change (bool_decide (LLMEngineTypeOllama = LLMEngineTypeOllama)) with true. cbn.
    repeat case_bool_decide; done.
  - change (bool_decide (LLMEngineTypeVLLM = LLMEngineTypeVLLM)) with true.
    change (bool_decide (LLMEngineTypeVLLM = LLMEngineTypeOllama)) with false. cbn.
    repeat case_bool_decide; done.
Qed.

Lemma path_env le mr :
  known_engine (les_EngineType (le_Spec le)) ->
  sortedEnvFromMap (GetStoragePaths le mr).2 =
  match path_variable le mr with Some n => [env n (repo_path mr)] | None => [] end.
Proof.
  intros Hk. rewrite path_map by done.
  destruct (path_variable le mr); [apply sortedEnv_singleton|apply sortedEnv_empty].
Qed.

(** The environment of the engine before the user's. *)
Definition default_env (le : LLMEngine) (mr : ModelRepository) (gpu : bool) : list EnvVar :=
  let paths := match path_variable le mr with Some n => [env n (repo_path mr)] | None => [] end in
  if bool_decide (les_EngineType (le_Spec le) = LLMEngineTypeOllama) then
    ([env "OLLAMA_HOST" "0.0.0.0"; env "OLLAMA_ORIGINS" "*"; env "OLLAMA_MAX_LOADED_MODELS" "1"] ++ paths) ++
    (if gpu then
       [env "OLLAMA_NUM_PARALLEL" "4"; env "OLLAMA_FLASH_ATTENTION" "1";
        env "CUDA_VISIBLE_DEVICES" "0"; env "OLLAMA_GPU_OVERHEAD" "0.05"]
     else [env "OLLAMA_NUM_PARALLEL" "2"; env "OLLAMA_NUM_GPU" "0"; env "OMP_NUM_THREADS" "8"])
  else
    ([env "VLLM_LOGGING_LEVEL" "WARNING"; env "VLLM_WORKER_MULTIPROC_METHOD" "spawn"] ++
     hub_token_env (mrs_Source (mr_Spec mr)) ++ paths) ++
    (if gpu then [] else [env "OMP_NUM_THREADS" "8"; env "MKL_NUM_THREADS" "8"]).

Lemma engine_env_eq le mr gpu :
  known_engine (les_EngineType (le_Spec le)) ->
  engine_env le mr gpu = MergeEnvVars (default_env le mr gpu) (les_Env (le_Spec le)).
Proof.
  intros Hk. unfold engine_env, BuildOllamaEnv, BuildVLLMEnv, default_env. cbv zeta.
  rewrite !path_env by done. by destruct (bool_decide _).
Qed.

Lemma default_env_path le mr gpu n :
  known_engine (les_EngineType (le_Spec le)) -> path_variable le mr = Some n ->
  env_lookup (default_env le mr gpu) n = Some (env n (repo_path mr)).
Proof.
  intros Hk Hn. unfold default_env. cbv zeta. rewrite Hn. unfold path_variable in Hn.
  destruct Hk as [E|E]; rewrite E in *; cbn in Hn.
  - change (bool_decide (LLMEngineTypeOllama = LLMEngineTypeOllama)) with true in *.
    injection Hn as <-. by destruct gpu.
  - change (bool_decide (LLMEngineTypeVLLM = LLMEngineTypeOllama)) with false in *.
    case_bool_decide as Ho; [injection Hn as <-|done].
    unfold hub_token_env. by case_bool_decide; destruct gpu.
Qed.

Lemma default_env_NoDup le mr gpu :
  known_engine (les_EngineType (le_Spec le)) ->
  NoDup (map env_Name (default_env le mr gpu)).
Proof.
  intros Hk. unfold default_env, path_variable, hub_token_env. cbv zeta.
  destruct Hk as [E|E]; rewrite !E.
  - change (bool_decide (LLMEngineTypeOllama = LLMEngineTypeOllama)) with true.
    destruct gpu; cbn; nodup_tac.
  - change (bool_decide (LLMEngineTypeVLLM = LLMEngineTypeOllama)) with false.
    repeat case_bool_decide; destruct gpu; cbn; nodup_tac.
Qed.

(** The loaded template of a known engine. *)
Lemma deployment_manifest_ok engineType :
  known_engine engineType -> exists t, LoadLLMEngineDeploymentManifest engineType = Ok t /\
    (engineType = LLMEngineTypeOllama /\ t = ollama_template \/
     engineType = LLMEngineTypeVLLM /\ t = vllm_template).
Proof. intros [-> | ->]; eexists; (split; [reflexivity|auto]). Qed.

Lemma deployment_manifest_missing engineType :
  ~ known_engine engineType -> exists e, LoadLLMEngineDeploymentManifest engineType = Err e.
Proof.
  unfold LoadLLMEngineDeploymentManifest, known_engine. intros H.
  rewrite !bool_decide_false by tauto. eauto.
Qed.

(** What the proofs use of a template's container. *)
Lemma template_container t :
  t = ollama_template \/ t = vllm_template ->
  exists c p, pod_Containers (dep_Pod t) = [c] /\ c_Ports c = [mkContainerPort "http" p "TCP"] /\
    NoDup (map env_Name (c_Env c)) /\
    c_SecurityContext c = Some (mkSecurityContext false false ["ALL"]).
Proof. intros [-> | ->]; do 2 eexists; (split_and!; [reflexivity..| |reflexivity]); cbn; nodup_tac. Qed.

Lemma adapt_container_serves ctx t c p :
  known_engine (les_EngineType (le_Spec (ctx_LLMEngine ctx))) ->
  pod_Containers (dep_Pod t) = [c] -> c_Ports c = [mkContainerPort "http" p "TCP"] ->
  NoDup (map env_Name (c_Env c)) ->
  exists c', adapt_engine_container ctx c = Done c' /\ serves_model ctx c' /\
    c_SecurityContext c' = c_SecurityContext c /\
    c_VolumeMounts c' = c_VolumeMounts c ++
      [mkVolumeMount "model-storage" (repo_path (ctx_ModelRepo ctx)) true].
Proof.
  intros Hk Hc Hp Hnd. unfold adapt_engine_container. cbv zeta. rewrite Hp, GetStoragePaths_path.
  eexists. split; [reflexivity|]. split; [|done]. rewrite engine_env_eq by done. constructor; cbn.
  - eauto.
  - apply elem_of_app. right. by left.
  - intros n e Hn. rewrite !env_lookup_merge, Hn. done.
  - intros n Hn Hu. rewrite !env_lookup_merge, Hu. by rewrite (default_env_path _ _ _ n).
  - intros Hu. apply MergeEnvVars_NoDup; [done|].
    apply MergeEnvVars_NoDup; [by apply default_env_NoDup|done].
Qed.

Lemma set_config_volume_names n l : map vol_Name (set_config_volume n l) = map vol_Name l.
Proof.
  induction l as [|v l IH]; cbn; [done|].
  destruct (vol_Source v); [|case_bool_decide|]; cbn; by rewrite ?IH.
Qed.

Lemma set_config_volume_claims n l v c ro :
  vol_Source v = PVCVolume c ro -> v ∈ set_config_volume n l <-> v ∈ l.
Proof.
  intros Hv. induction l as [|w l IH]; cbn; [done|].
  destruct (vol_Source w) eqn:E; [|case_bool_decide|]; rewrite !elem_of_cons, ?IH; try done.
  split; (intros [->|?]; [|by right]); [cbn in Hv|]; congruence.
Qed.

(** The volumes of an adapted pod. *)
Lemma engine_volumes t pvc (b : bool) name :
  t = ollama_template \/ t = vllm_template ->
  let claim := mkVolume "model-storage" (PVCVolume pvc true) in
  let template := pod_Volumes (dep_Pod t) ++ [claim] in
  let volumes := if b then set_config_volume name template else template in
  map vol_Name volumes = map vol_Name template /\ NoDup (map vol_Name volumes) /\
  claim ∈ volumes /\ forall v n ro, v ∈ volumes -> vol_Source v = PVCVolume n ro -> v = claim.
Proof.
  intros Ht claim template volumes.
  assert (Hn : map vol_Name volumes = map vol_Name template).
  { unfold volumes. destruct b; [apply set_config_volume_names|done]. }
  assert (Hin : forall v n ro, vol_Source v = PVCVolume n ro -> v ∈ volumes <-> v ∈ template).
  { intros v n ro Hv. unfold volumes. destruct b; [by eapply set_config_volume_claims|done]. }
  split; [done|]. split; [rewrite Hn; destruct Ht as [-> | ->]; cbn; nodup_tac|]. split.
  - apply (Hin _ pvc true); [done|]. apply elem_of_app. right. by left.
  - intros v n ro Hv Hs. apply (Hin _ n ro Hs) in Hv. apply elem_of_app in Hv as [Hv|Hv].
    + exfalso. destruct Ht as [-> | ->]; cbn in Hv; rewrite !elem_of_cons in Hv;
        destruct_or! Hv; subst; try discriminate; by apply elem_of_nil in Hv.
    + by apply list_elem_of_singleton in Hv.
Qed.

Lemma template_mounts t c m :
  t = ollama_template \/ t = vllm_template -> pod_Containers (dep_Pod t) = [c] ->
  m ∈ c_VolumeMounts c -> vm_Name m ∈ map vol_Name (pod_Volumes (dep_Pod t)).
Proof.
  intros [-> | ->] [= <-]; cbn; rewrite !elem_of_cons; intros Hm; destruct_or! Hm; subst; cbn;
    try (by apply elem_of_nil in Hm); tauto.
Qed.

Lemma labels_select base le mr t :
  engine_match_labels le mr ⊆ overlay base (deployment_labels le mr t).
Proof.
  unfold overlay, deployment_labels. etransitivity; [|apply map_union_subseteq_l].
  by apply insert_subseteq.
Qed.

Lemma node_selector_bound le mr gpu :
  RequiresNodeAffinity mr = true -> GetBoundNodeName mr <> EmptyString ->
  engine_node_selector le mr gpu !! "kubernetes.io/hostname" = Some (GetBoundNodeName mr).
Proof.
  intros Hr Hb. unfold engine_node_selector. cbv zeta. rewrite Hr, (bool_decide_true _ Hb). cbn [andb].
  destruct gpu; [destruct (les_GPU (le_Spec le))|]; try apply lookup_singleton_eq.
  apply lookup_union_Some_l, lookup_singleton_eq.
Qed.

(** Adapting a template, with any meta (the framework sets the namespace). *)
Lemma adapt_deployment_with ctx name x :
  known_engine (les_EngineType (le_Spec (ctx_LLMEngine ctx))) ->
  ComponentName (le_Name (ctx_LLMEngine ctx)) (mr_Name (ctx_ModelRepo ctx)) = Done name ->
  exists template d,
    LoadLLMEngineDeploymentManifest (les_EngineType (le_Spec (ctx_LLMEngine ctx))) = Ok template /\
    AdaptDeployment ctx (dep_with_Meta x template) = Done (Ok d) /\ deployment_for ctx name d /\
    meta_Namespace (dep_Meta d) = meta_Namespace x.
Proof.
  intros Hk Hname. destruct (deployment_manifest_ok _ Hk) as (t & Ht & Hcase).
  assert (Htt : t = ollama_template \/ t = vllm_template) by (destruct Hcase as [[]|[]]; auto).
  destruct (template_container t Htt) as (c & p & Hc & Hp & Hnd & Hsec).
  destruct (adapt_container_serves ctx t c p Hk Hc Hp Hnd) as (c' & Hc' & Hs & Hsec' & Hm).
  exists t. unfold AdaptDeployment. cbv zeta. rewrite Hname. cbn [mbind outcome_bind].
  cbn [setDeploymentLabels dep_with_Meta dep_Pod]. rewrite Hc. cbn [mbind outcome_bind]. rewrite Hc'.
  cbn [mbind outcome_bind]. eexists. split; [done|]. split; [reflexivity|].
  pose proof (engine_volumes t (ctx_ModelPVCName ctx)
    (bool_decide (les_EngineType (le_Spec (ctx_LLMEngine ctx)) = LLMEngineTypeVLLM))
    (GetVLLMConfigMapName (le_Name (ctx_LLMEngine ctx)) (mr_Name (ctx_ModelRepo ctx))) Htt)
    as (Hvn & Hvnd & Hvin & Hvo).
  split; [|done]. constructor; cbn.
  - done.
  - apply labels_select.
  - done.
  - constructor; [|constructor]. rewrite Hsec', Hsec. eexists. split_and!; [done..|by left].
  - split; [exact Hvnd|]. constructor; [|constructor]. rewrite Hm.
    apply Forall_app. split; [|repeat constructor]; cbn.
    + apply Forall_forall. intros m Hin. rewrite Hvn, map_app. apply elem_of_app. left.
      by eapply template_mounts.
    + rewrite Hvn, map_app. apply elem_of_app. right. by left.
  - exact Hvo.
  - exact Hvin.
  - eauto.
  - intros Hr Hb. pose proof (node_selector_bound (ctx_LLMEngine ctx) _
      (DetectGPURequest (ctx_LLMEngine ctx)) Hr Hb) as Hn.
    rewrite bool_decide_true; [done|]. intros He. by rewrite He in Hn.
Qed.

Lemma adapt_deployment_for ctx name :
  known_engine (les_EngineType (le_Spec (ctx_LLMEngine ctx))) ->
  ComponentName (le_Name (ctx_LLMEngine ctx)) (mr_Name (ctx_ModelRepo ctx)) = Done name ->
  exists template d,
    LoadLLMEngineDeploymentManifest (les_EngineType (le_Spec (ctx_LLMEngine ctx))) = Ok template /\
    AdaptDeployment ctx template = Done (Ok d) /\ deployment_for ctx name d.
Proof.
  intros Hk Hn. destruct (deployment_manifest_ok _ Hk) as (t & Ht & _).
  destruct (adapt_deployment_with ctx name (dep_Meta t) Hk Hn) as (t' & d & Ht' & Hd & Hfor & _).
  rewrite Ht in Ht'. injection Ht' as <-. exists t, d. by destruct t.
Qed.

(** The service and the config map made for the same context. *)
Lemma adapt_service_with ctx name x :
  known_engine (les_EngineType (le_Spec (ctx_LLMEngine ctx))) ->
  ComponentName (le_Name (ctx_LLMEngine ctx)) (mr_Name (ctx_ModelRepo ctx)) = Done name ->
  LoadLLMEngineServiceManifest (les_EngineType (le_Spec (ctx_LLMEngine ctx))) = Ok service_template /\
  AdaptService ctx (svc_with_Meta x service_template) = Done (Ok (mkService
    (meta_with_Labels (engine_match_labels (le_Name (ctx_LLMEngine ctx)) (mr_Name (ctx_ModelRepo ctx)))
       (meta_with_Name name x)) "ClusterIP"
    (engine_match_labels (le_Name (ctx_LLMEngine ctx)) (mr_Name (ctx_ModelRepo ctx)))
    [mkServicePort "http" (GetServicePort (ctx_LLMEngine ctx))
       (FromInt (GetPodPort (ctx_LLMEngine ctx))) "TCP"])).
Proof.
  intros Hk Hn. split.
  - unfold LoadLLMEngineServiceManifest. by rewrite bool_decide_true.
  - unfold AdaptService. cbv zeta. by rewrite Hn.
Qed.

(** In the pod of a vLLM engine: the volume of the configuration. *)
Lemma vllm_config_volume ctx x d :
  les_EngineType (le_Spec (ctx_LLMEngine ctx)) = LLMEngineTypeVLLM ->
  AdaptDeployment ctx (dep_with_Meta x vllm_template) = Done (Ok d) ->
  mkVolume "vllm-config" (ConfigMapVolume
    (GetVLLMConfigMapName (le_Name (ctx_LLMEngine ctx)) (mr_Name (ctx_ModelRepo ctx))))
    ∈ pod_Volumes (dep_Pod d) /\
  exists c, pod_Containers (dep_Pod d) = [c] /\
    mkVolumeMount "vllm-config" VLLMConfigMountPath true ∈ c_VolumeMounts c /\
    c_Args c = buildVLLMArgs (GetPodPort (ctx_LLMEngine ctx)).
Proof.
  intros He. unfold AdaptDeployment. cbv zeta. destruct (ComponentName _ _) as [name|]; [|done].
  cbn [mbind outcome_bind setDeploymentLabels dep_with_Meta dep_Pod vllm_template deployment_template
       pod_Containers].
  unfold adapt_engine_container. cbn [c_Ports mbind outcome_bind]. intros [= <-].
  unfold adapt_engine_pod. cbn. rewrite He, bool_decide_true by done. cbn. split.
  - set_solver.
  - eexists. split; [reflexivity|]. cbn. split; [set_solver|].
    unfold engine_args. by rewrite He.
Qed.

End Adapt.

(** ** Properties *)

(** Property C22: adapting the deployment template of a known engine never fails,
    and panics only if its name does.  The deployment selects its own pods; the
    pod is well formed and unprivileged, mounts the engine's read-only claim where
    the repository's jobs put the model and no other claim, tells the engine that
    path unless the user set the variable, keeps the user's environment, and runs
    on the node the storage is bound to. *)
Theorem AdaptDeployment_spec `{Machinery, GoRange} ctx name :
  known_engine (les_EngineType (le_Spec (ctx_LLMEngine ctx))) ->
  ComponentName (le_Name (ctx_LLMEngine ctx)) (mr_Name (ctx_ModelRepo ctx)) = Done name ->
  exists template d,
    LoadLLMEngineDeploymentManifest (les_EngineType (le_Spec (ctx_LLMEngine ctx))) = Ok template /\
    AdaptDeployment ctx template = Done (Ok d) /\ deployment_for ctx name d.
Proof. apply adapt_deployment_for. Qed.

(** An engine of [engineType] for the repository llama, with a GPU. *)
Definition witness_engine_of (engineType : string) (gpu : option GPUConfig) : LLMEngine :=
  mkLLMEngine (meta_with_Namespace "default" (meta_with_Name "chat" meta_empty))
    (mkLLMEngineSpec engineType [mkModelReference "llama" "main" "Manual"] EmptyString []
       [env "OMP_NUM_THREADS" "16"] 0 0 None {["zone" := "a"]} None gpu false)
    (mkLLMEngineStatus EmptyString [] []).

Definition witness_engine_context (engineType : string) : LLMEngineContext :=
  mkEngineContext (witness_engine_of engineType (Some (mkGPUConfig true 2 EmptyString ∅ [])))
    (witness_model_repo None) "default" "chat-llama-models".

Lemma AdaptDeployment_spec_witness :
  let M := Reference.machinery in
  let R := witness_range in
  exists template d,
    LoadLLMEngineDeploymentManifest "vllm" = Ok template /\
    AdaptDeployment (witness_engine_context "vllm") template = Done (Ok d) /\
    deployment_for (witness_engine_context "vllm") "chat-llama" d.
Proof.
  intros M R. apply (@AdaptDeployment_spec M R (witness_engine_context "vllm") "chat-llama");
    [right; reflexivity|vm_compute; reflexivity].
Defined.

(** Property C27: the objects of an engine and a repository fit together.  The
    deployment and the service have one name; the service selects the pods of the
    deployment and sends to the port they listen on; and for vLLM the
    configuration file is in the config map that is made, under the key that,
    where its volume is mounted, is the file the arguments name. *)
Theorem engine_objects_agree `{Machinery, GoRange, Yaml} ctx name :
  known_engine (les_EngineType (le_Spec (ctx_LLMEngine ctx))) ->
  ComponentName (le_Name (ctx_LLMEngine ctx)) (mr_Name (ctx_ModelRepo ctx)) = Done name ->
  exists dt d st s c port,
    LoadLLMEngineDeploymentManifest (les_EngineType (le_Spec (ctx_LLMEngine ctx))) = Ok dt /\
    LoadLLMEngineServiceManifest (les_EngineType (le_Spec (ctx_LLMEngine ctx))) = Ok st /\
    AdaptDeployment ctx dt = Done (Ok d) /\ AdaptService ctx st = Done (Ok s) /\
    meta_Name (svc_Meta s) = meta_Name (dep_Meta d) /\
    svc_Selector s ⊆ dep_TemplateLabels d /\
    pod_Containers (dep_Pod d) = [c] /\ c_Ports c = [port] /\
    map sp_TargetPort (svc_Ports s) = [FromInt (cp_ContainerPort port)] /\
    (les_EngineType (le_Spec (ctx_LLMEngine ctx)) = LLMEngineTypeVLLM ->
     forall cm, AdaptVLLMConfigMap ctx (ConfigMapObject (mkConfigMap meta_empty ∅)) = Ok (ConfigMapObject cm) ->
       mkVolume "vllm-config" (ConfigMapVolume (meta_Name (cm_Meta cm))) ∈ pod_Volumes (dep_Pod d) /\
       mkVolumeMount "vllm-config" VLLMConfigMountPath true ∈ c_VolumeMounts c /\
       "--config" :: [VLLMConfigMountPath +:+ "/" +:+ VLLMConfigMapKeyName] `prefix_of` c_Args c /\
       exists yaml, cm_Data cm = {[VLLMConfigMapKeyName := yaml]} /\
         yaml_Marshal (engine_vllm_config (ctx_LLMEngine ctx) (ctx_ModelRepo ctx)) = Ok yaml).
Proof.
  intros Hk Hn. destruct (adapt_deployment_for ctx name Hk Hn) as (dt & d & Hdt & Hd & Hfor).
  destruct (adapt_service_with ctx name (svc_Meta service_template) Hk Hn) as [Hst Hs].
  destruct (deployment_container _ _ _ Hfor) as (c & Hc & Hserves).
  destruct (serves_port _ _ Hserves) as (pn & proto & Hport).
  exists dt, d, service_template. do 3 eexists. split; [done|]. split; [done|]. split; [done|].
  split; [exact Hs|]. cbn. split; [by rewrite (deployment_name _ _ _ Hfor)|].
  split; [rewrite <- (deployment_matches _ _ _ Hfor); apply Hfor|].
  split; [done|]. split; [done|]. split; [done|].
  intros Hv cm Hcm. assert (dt = vllm_template) as ->.
  { rewrite Hv in Hdt. by injection Hdt as <-. }
  destruct (vllm_config_volume ctx (dep_Meta vllm_template) d Hv Hd) as (V1 & c2 & Hc2 & V2 & V3).
  rewrite Hc in Hc2. injection Hc2 as <-.
  unfold AdaptVLLMConfigMap, adapt_config_map, MarshalVLLMConfig in Hcm. cbv zeta in Hcm.
  destruct (yaml_Marshal _) as [yaml|]; [|done]. injection Hcm as <-. cbn.
  split; [done|]. split; [done|]. rewrite V3.
  split; [by exists ["--host"; "0.0.0.0"; "--port"; fmt_d (GetPodPort (ctx_LLMEngine ctx))]|].
  by exists yaml.
Qed.

Lemma engine_objects_agree_witness :
  let M := Reference.machinery in
  let R := witness_range in
  let ctx := witness_engine_context "vllm" in
  exists dt d st s c port,
    LoadLLMEngineDeploymentManifest "vllm" = Ok dt /\ LoadLLMEngineServiceManifest "vllm" = Ok st /\
    AdaptDeployment ctx dt = Done (Ok d) /\ AdaptService ctx st = Done (Ok s) /\
    meta_Name (svc_Meta s) = meta_Name (dep_Meta d) /\ svc_Selector s ⊆ dep_TemplateLabels d /\
    pod_Containers (dep_Pod d) = [c] /\ c_Ports c = [port] /\
    map sp_TargetPort (svc_Ports s) = [FromInt (cp_ContainerPort port)].
Proof.
  intros M R ctx.
  destruct (@engine_objects_agree M R {| yaml_Marshal := fun _ => Ok EmptyString |} ctx "chat-llama"
    ltac:(right; reflexivity) ltac:(vm_compute; reflexivity))
    as (dt & d & st & s & c & port & H1 & H2 & H3 & H4 & H5 & H6 & H7 & H8 & H9 & _).
  exists dt, d, st, s, c, port. split_and!; assumption.
Defined.

(** Without a GPU request the engine's nodeSelector is ignored: the
    pods of two engines that differ only in it are equal, so they run anywhere
    unless the storage is bound to a node. *)
Theorem node_selector_needs_gpu `{Machinery, GoRange} ctx template d :
  DetectGPURequest (ctx_LLMEngine ctx) = false -> RequiresNodeAffinity (ctx_ModelRepo ctx) = false ->
  LoadLLMEngineDeploymentManifest (les_EngineType (le_Spec (ctx_LLMEngine ctx))) = Ok template ->
  AdaptDeployment ctx template = Done (Ok d) -> pod_NodeSelector (dep_Pod d) = ∅.
Proof.
  intros Hg Hr Ht Hd.
  assert (Hts : pod_NodeSelector (dep_Pod template) = ∅ /\
                exists c, pod_Containers (dep_Pod template) = [c]).
  { revert Ht. unfold LoadLLMEngineDeploymentManifest. repeat case_bool_decide; intros [= <-]; eauto. }
  destruct Hts as [Hts [c Hc]]. revert Hd. unfold AdaptDeployment. cbv zeta.
  destruct (ComponentName _ _) as [name|]; [|done]. cbn [mbind outcome_bind setDeploymentLabels dep_Pod].
  rewrite Hc. destruct (adapt_engine_container ctx c) as [c'|]; [|done].
  cbn [mbind outcome_bind]. intros [= <-]. cbn.
  unfold engine_node_selector. rewrite Hg, Hr. cbn. by rewrite bool_decide_false by (intros H'; by apply H').
Qed.

Lemma node_selector_needs_gpu_witness :
  let M := Reference.machinery in
  let R := witness_range in
  let ctx := mkEngineContext (witness_engine_of "ollama" None) (witness_model_repo None) "default" "pvc" in
  les_NodeSelector (le_Spec (ctx_LLMEngine ctx)) !! "zone" = Some "a" /\
  exists d, AdaptDeployment ctx ollama_template = Done (Ok d) /\ pod_NodeSelector (dep_Pod d) = ∅.
Proof.
  intros M R ctx. split; [reflexivity|].
  assert (Hd : exists d, AdaptDeployment ctx ollama_template = Done (Ok d)).
  { destruct (@adapt_deployment_for M R ctx "chat-llama") as (t & d & Ht & Hd & _);
      [left; reflexivity|vm_compute; reflexivity|].
    assert (t = ollama_template) as -> by (symmetry; by injection Ht). by exists d. }
  destruct Hd as [d Hd]. exists d. split; [done|].
  by apply (@node_selector_needs_gpu M R ctx ollama_template d).
Defined.
