(* ===== verification/Workload.v ===== *)
(** * The component framework

    component/builder.go, component/workload.go and
    adapters/llmengine_component.go: a component is a deployment, a service and
    further manifests for one engine and one repository, each loaded, adapted,
    owned by the engine and applied. *)

From S2P Require Import Prelude Naming Api Kube Machinery MemServer StorageDiscovery Backend.
From S2P Require Import StorageProvider Jobs EngineStorage GoStd EngineConfig VllmConfig EngineAdapters.

Local Open Scope go_scope.

(** ** Objects *)

Definition obj_Meta (obj : Object) : ObjectMeta :=
  match obj with
  | DeploymentObject o => dep_Meta o
  | ServiceObject o => svc_Meta o
  | ConfigMapObject o => cm_Meta o
  end.
Definition cm_with_Meta (x : ObjectMeta) (c : ConfigMap) : ConfigMap := mkConfigMap x (cm_Data c).
Definition obj_with_Meta (x : ObjectMeta) (obj : Object) : Object :=
  match obj with
  | DeploymentObject o => DeploymentObject (dep_with_Meta x o)
  | ServiceObject o => ServiceObject (svc_with_Meta x o)
  | ConfigMapObject o => ConfigMapObject (cm_with_Meta x o)
  end.
Definition SetNamespace (ns : string) (obj : Object) : Object :=
  obj_with_Meta (meta_with_Namespace ns (obj_Meta obj)) obj.

(** ** Components *)

Record ManifestAdapter := mkManifestAdapter {
  ma_create : option Object;
  ma_adapt : option (LLMEngineContext -> Object -> outcome (result Object));
  ma_predicate : option (LLMEngineContext -> result bool);
}.

Definition NewManifestAdapterWithPredicate createFn adaptFn predicateFn : ManifestAdapter :=
  mkManifestAdapter (Some createFn) (Some adaptFn) (Some predicateFn).

(** The same, for a manifest that is always wanted. *)
Definition NewManifestAdapter createFn adaptFn : ManifestAdapter :=
  mkManifestAdapter (Some createFn) (Some adaptFn) None.

Record ComponentBuilder := mkBuilder {
  b_name : string;
  b_adaptDeployment : option (LLMEngineContext -> Deployment -> outcome (result Deployment));
  b_adaptService : option (LLMEngineContext -> Service -> outcome (result Service));
  b_manifestAdapters : gmap string ManifestAdapter;
  b_predicate : option (LLMEngineContext -> result bool);
}.

Definition NewLLMEngineComponent (name : string) : ComponentBuilder := mkBuilder name None None ∅ None.
Definition WithDeploymentAdapter fn (b : ComponentBuilder) : ComponentBuilder :=
  mkBuilder (b_name b) (Some fn) (b_adaptService b) (b_manifestAdapters b) (b_predicate b).
Definition WithServiceAdapter fn (b : ComponentBuilder) : ComponentBuilder :=
  mkBuilder (b_name b) (b_adaptDeployment b) (Some fn) (b_manifestAdapters b) (b_predicate b).
Definition WithManifestAdapter manifestName adapter (b : ComponentBuilder) : ComponentBuilder :=
  mkBuilder (b_name b) (b_adaptDeployment b) (b_adaptService b)
    (<[manifestName := adapter]> (b_manifestAdapters b)) (b_predicate b).
Definition WithPredicate fn (b : ComponentBuilder) : ComponentBuilder :=
  mkBuilder (b_name b) (b_adaptDeployment b) (b_adaptService b) (b_manifestAdapters b) (Some fn).

(** What it builds, with the same fields. *)
Record llmEngineWorkload := mkWorkload {
  w_name : string;
  w_adaptDeployment : option (LLMEngineContext -> Deployment -> outcome (result Deployment));
  w_adaptService : option (LLMEngineContext -> Service -> outcome (result Service));
  w_manifestAdapters : gmap string ManifestAdapter;
  w_predicate : option (LLMEngineContext -> result bool);
}.

Definition Build (b : ComponentBuilder) : llmEngineWorkload :=
  mkWorkload (b_name b) (b_adaptDeployment b) (b_adaptService b) (b_manifestAdapters b) (b_predicate b).

Section Reconcile.
Context `{M : Machinery} `{Rg : GoRange} `{Y : Yaml}.

Definition NewModelComponent (llmEngine : LLMEngine) (modelRepo : ModelRepository) :
    outcome llmEngineWorkload :=
  componentName ← ComponentName (le_Name llmEngine) (mr_Name modelRepo);
  let builder := WithServiceAdapter AdaptService
                   (WithDeploymentAdapter AdaptDeployment (NewLLMEngineComponent componentName)) in
  Done (Build (if bool_decide (les_EngineType (le_Spec llmEngine) = LLMEngineTypeVLLM) then
          WithManifestAdapter "vllm-config"
            (NewManifestAdapterWithPredicate (ConfigMapObject (mkConfigMap meta_empty ∅))
               (fun ctx obj => Done (AdaptVLLMConfigMap ctx obj)) IsVLLMEngine) builder
        else builder)).

(** Of the objects the framework makes, the scheme knows the kinds and the
    conversion to unstructured does not fail. *)
Definition serverSideApply (obj : Object) : prog err_opt :=
  match obj with
  | DeploymentObject o => call (ApplyDeployment o)
  | ServiceObject o => call (ApplyService o)
  | ConfigMapObject o => call (ApplyConfigMap o)
  end.

(** Owning and applying an adapted object, as the three functions end;
    [subject] is what their messages call it. *)
Definition own_and_apply (ctx : LLMEngineContext) (what subject : string) (obj : Object) : prog err_opt :=
  match SetControllerReference (le_Meta (ctx_LLMEngine ctx)) (obj_Meta obj) with
  | Err err => Ret (Some (errorw ("failed to set owner reference for " +:+ what +:+ ": ") err))
  | Ok meta =>
      let! e := serverSideApply (obj_with_Meta meta obj) in
      match e with
      | Some err => Ret (Some (errorw ("failed to apply " +:+ subject +:+ ": ") err))
      | None => Ret None
      end
  end.

(** Calling an adapter that may be nil. *)
Definition adapt_with {O} (adapt : option (LLMEngineContext -> O -> outcome (result O)))
    (ctx : LLMEngineContext) (o : O) : outcome (result O) :=
  match adapt with
  | Some f => f ctx o
  | None => Done (Ok o)
  end.

Definition reconcileDeployment (w : llmEngineWorkload) (ctx : LLMEngineContext) : prog err_opt :=
  match LoadLLMEngineDeploymentManifest (les_EngineType (le_Spec (ctx_LLMEngine ctx))) with
  | Err err => Ret (Some (errorw ("failed to load deployment manifest for " +:+ w_name w +:+ ": ") err))
  | Ok deployment =>
      let deployment :=
        dep_with_Meta (meta_with_Namespace (ctx_Namespace ctx) (dep_Meta deployment)) deployment in
      let! r := lift (adapt_with (w_adaptDeployment w) ctx deployment) in
      match r with
      | Err err => Ret (Some (errorw ("failed to adapt deployment for " +:+ w_name w +:+ ": ") err))
      | Ok deployment => own_and_apply ctx ("deployment " +:+ w_name w)
                           ("deployment for " +:+ w_name w) (DeploymentObject deployment)
      end
  end.

Definition reconcileService (w : llmEngineWorkload) (ctx : LLMEngineContext) : prog err_opt :=
  match LoadLLMEngineServiceManifest (les_EngineType (le_Spec (ctx_LLMEngine ctx))) with
  | Err err => Ret (Some (errorw ("failed to load service manifest for " +:+ w_name w +:+ ": ") err))
  | Ok service =>
      let service :=
        svc_with_Meta (meta_with_Namespace (ctx_Namespace ctx) (svc_Meta service)) service in
      let! r := lift (adapt_with (w_adaptService w) ctx service) in
      match r with
      | Err err => Ret (Some (errorw ("failed to adapt service for " +:+ w_name w +:+ ": ") err))
      | Ok service => own_and_apply ctx ("service " +:+ w_name w)
                        ("service for " +:+ w_name w) (ServiceObject service)
      end
  end.

(** The body of the loop over the manifests: [inl] to go on, [inr] to return. *)
Definition reconcile_manifest (ctx : LLMEngineContext) (manifestName : string)
    (adapter : ManifestAdapter) : prog (unit + err_opt) :=
  let enabled :=
    match ma_predicate adapter with Some p => p ctx | None => Ok true end in
  match enabled with
  | Err err => Ret (inr (Some (errorw ("predicate failed for manifest " +:+ manifestName +:+ ": ") err)))
  | Ok false => Ret (inl tt)
  | Ok true =>
      match ma_create adapter with
      | None => Ret (inr (Some (errorf ("manifest adapter " +:+ manifestName +:+ " missing create function"))))
      | Some manifest =>
          let! r := lift (adapt_with (ma_adapt adapter) ctx (SetNamespace (ctx_Namespace ctx) manifest)) in
          match r with
          | Err err => Ret (inr (Some (errorw ("failed to adapt manifest " +:+ manifestName +:+ ": ") err)))
          | Ok manifest =>
              let! e := own_and_apply ctx ("manifest " +:+ manifestName)
                          ("manifest " +:+ manifestName) manifest in
              match e with Some err => Ret (inr (Some err)) | None => Ret (inl tt) end
          end
      end
  end.

Definition reconcileManifests (w : llmEngineWorkload) (ctx : LLMEngineContext) : prog err_opt :=
  let! r := for_each (range_map (w_manifestAdapters w)) tt (fun _ ma => reconcile_manifest ctx ma.1 ma.2) in
  match r with
  | inl _ => Ret None
  | inr e => Ret e
  end.

Definition updateResources (w : llmEngineWorkload) (ctx : LLMEngineContext) : prog err_opt :=
  let! e := reconcileManifests w ctx in
  match e with
  | Some err => Ret (Some err)
  | None =>
      let! e := reconcileDeployment w ctx in
      match e with
      | Some err => Ret (Some err)
      | None => reconcileService w ctx
      end
  end.

Definition deleteResources (w : llmEngineWorkload) (ctx : LLMEngineContext) : prog err_opt :=
  let ignore_missing (what : string) (e : err_opt) : err_opt :=
    match e with
    | Some err => if IsNotFound err then None
                  else Some (errorw ("failed to delete " +:+ what +:+ " " +:+ w_name w +:+ ": ") err)
    | None => None
    end in
  let! e := call (DeleteDeployment (ctx_Namespace ctx) (w_name w)) in
  match ignore_missing "deployment" e with
  | Some err => Ret (Some err)
  | None =>
      let! e := call (DeleteService (ctx_Namespace ctx) (w_name w)) in
      Ret (ignore_missing "service" e)
  end.

Definition Reconcile (w : llmEngineWorkload) (ctx : LLMEngineContext) : prog err_opt :=
  match w_predicate w with
  | None => updateResources w ctx
  | Some predicate =>
      match predicate ctx with
      | Err err => Ret (Some (errorw ("predicate failed for component " +:+ w_name w +:+ ": ") err))
      | Ok false => deleteResources w ctx
      | Ok true => updateResources w ctx
      end
  end.

End Reconcile.

(** ** What reconciling a component may do

    It applies the config map (for vLLM), then the deployment, then the service,
    each only right after the one before it was applied, in the engine's
    namespace and owned by the engine. *)
Section Spec.
Context `{M : Machinery} `{Rg : GoRange} `{Y : Yaml}.

Definition owned (ctx : LLMEngineContext) (m : ObjectMeta) : Prop :=
  meta_Namespace m = ctx_Namespace ctx /\
  exists m0, SetControllerReference (le_Meta (ctx_LLMEngine ctx)) m0 = Ok m.

Definition is_vllm (ctx : LLMEngineContext) : Prop :=
  les_EngineType (le_Spec (ctx_LLMEngine ctx)) = LLMEngineTypeVLLM.

Record config_map_for (ctx : LLMEngineContext) (cm : ConfigMap) : Prop := {
  config_map_vllm : is_vllm ctx;
  config_map_name :
    meta_Name (cm_Meta cm) = GetVLLMConfigMapName (le_Name (ctx_LLMEngine ctx)) (mr_Name (ctx_ModelRepo ctx));
  config_map_data : exists yaml, cm_Data cm = {[VLLMConfigMapKeyName := yaml]} /\
    yaml_Marshal (engine_vllm_config (ctx_LLMEngine ctx) (ctx_ModelRepo ctx)) = Ok yaml;
  config_map_owned : meta_Namespace (cm_Meta cm) = le_Namespace (ctx_LLMEngine ctx) /\
    exists m0, SetControllerReference (le_Meta (ctx_LLMEngine ctx)) m0 = Ok (cm_Meta cm);
}.

Definition service_for (ctx : LLMEngineContext) (d : Deployment) (s : Service) : Prop :=
  owned ctx (svc_Meta s) /\ meta_Name (svc_Meta s) = meta_Name (dep_Meta d) /\
  svc_Selector s ⊆ dep_TemplateLabels d /\
  map sp_TargetPort (svc_Ports s) = [FromInt (GetPodPort (ctx_LLMEngine ctx))].

Definition workload_guard (ctx : LLMEngineContext) (h : trace) (r : req) : Prop :=
  match r with
  | ApplyConfigMap cm => config_map_for ctx cm
  | ApplyDeployment d =>
      ComponentName (le_Name (ctx_LLMEngine ctx)) (mr_Name (ctx_ModelRepo ctx)) = Done (meta_Name (dep_Meta d)) /\
      owned ctx (dep_Meta d) /\ deployment_for ctx (meta_Name (dep_Meta d)) d /\
      (is_vllm ctx -> exists cm, just_answered h (ApplyConfigMap cm) None /\ config_map_for ctx cm /\
         mkVolume "vllm-config" (ConfigMapVolume (meta_Name (cm_Meta cm))) ∈ pod_Volumes (dep_Pod d))
  | ApplyService s =>
      exists d, just_answered h (ApplyDeployment d) None /\ service_for ctx d s /\
        deployment_for ctx (meta_Name (dep_Meta d)) d
  | _ => False
  end.

(** Success means that the service, the last object, was just applied; a
    component that was made does not panic. *)
Definition workload_done (h : trace) (o : outcome err_opt) : Prop :=
  match o with
  | Done None => exists s, just_answered h (ApplyService s) None
  | Done (Some _) => True
  | Panicked _ => False
  end.

Context {L : MachineryLaws M}.

Definition apply_req (obj : Object) : req :=
  match obj with
  | DeploymentObject o => ApplyDeployment o
  | ServiceObject o => ApplyService o
  | ConfigMapObject o => ApplyConfigMap o
  end.
Definition applied (h : trace) (obj : Object) : Prop :=
  match obj with
  | DeploymentObject o => just_answered h (ApplyDeployment o) None
  | ServiceObject o => just_answered h (ApplyService o) None
  | ConfigMapObject o => just_answered h (ApplyConfigMap o) None
  end.

(** Owning and applying an object the guard allows. *)
Lemma own_and_apply_wp ctx what subject obj h (Q : trace -> outcome err_opt -> Prop) :
  (forall m', SetControllerReference (le_Meta (ctx_LLMEngine ctx)) (obj_Meta obj) = Ok m' ->
     workload_guard ctx h (apply_req (obj_with_Meta m' obj)) /\
     forall h', applied h' (obj_with_Meta m' obj) -> Q h' (Done None)) ->
  (forall h' e, Q h' (Done (Some e))) ->
  wp (workload_guard ctx) (own_and_apply ctx what subject obj) h Q.
Proof.
  intros H1 H2. unfold own_and_apply. destruct (SetControllerReference _ _) as [m'|e]; [|apply H2].
  destruct (H1 m' eq_refl) as [HG HQ].
  destruct obj; cbn in *; (split; [done|]); intros [e|]; cbn; auto; apply HQ; auto with go.
Qed.

(** The three objects. *)
Lemma reconcileDeployment_wp w ctx name h (Q : trace -> outcome err_opt -> Prop) :
  w_adaptDeployment w = Some AdaptDeployment ->
  known_engine (les_EngineType (le_Spec (ctx_LLMEngine ctx))) ->
  ComponentName (le_Name (ctx_LLMEngine ctx)) (mr_Name (ctx_ModelRepo ctx)) = Done name ->
  (is_vllm ctx -> exists cm, just_answered h (ApplyConfigMap cm) None /\ config_map_for ctx cm) ->
  (forall h' d, just_answered h' (ApplyDeployment d) None -> meta_Name (dep_Meta d) = name ->
     deployment_for ctx name d -> Q h' (Done None)) ->
  (forall h' e, Q h' (Done (Some e))) ->
  wp (workload_guard ctx) (reconcileDeployment w ctx) h Q.
Proof.
  intros Hw Hk Hn Hcm HQ He. unfold reconcileDeployment.
  destruct (deployment_manifest_ok _ Hk) as (t & Ht & _). rewrite Ht. cbv zeta.
  destruct (adapt_deployment_with ctx name
    (meta_with_Namespace (ctx_Namespace ctx) (dep_Meta t)) Hk Hn) as (t' & d & Ht' & Hd & Hfor & Hns).
  rewrite Ht in Ht'. injection Ht' as <-.
  rewrite Hw. cbn [adapt_with]. rewrite Hd. cbn [lift prog_bind].
  apply own_and_apply_wp; [|done]. intros m' Hm'. destruct (owner_rest _ _ _ Hm') as [Hmn Hmns].
  cbn in Hmn, Hmns.
  assert (Hfor' : deployment_for ctx name (dep_with_Meta m' d)).
  { destruct Hfor. constructor; cbn; try done. congruence. }
  split; cbn.
  - rewrite Hmn, (deployment_name _ _ _ Hfor). split; [done|]. split; [split; [by rewrite Hmns|eauto]|].
    split; [done|]. intros Hv. destruct (Hcm Hv) as (cm & Hj & Hcmf). exists cm. split; [done|].
    split; [done|]. rewrite (config_map_name _ _ Hcmf).
    assert (t = vllm_template) as ->. { rewrite Hv in Ht. by injection Ht as <-. }
    by destruct (vllm_config_volume ctx _ d Hv Hd).
  - intros h' Ha. eapply HQ; [exact Ha| |done]. cbn. rewrite Hmn. apply Hfor.
Qed.

Lemma reconcileService_wp w ctx name d h (Q : trace -> outcome err_opt -> Prop) :
  w_adaptService w = Some AdaptService ->
  known_engine (les_EngineType (le_Spec (ctx_LLMEngine ctx))) ->
  ComponentName (le_Name (ctx_LLMEngine ctx)) (mr_Name (ctx_ModelRepo ctx)) = Done name ->
  just_answered h (ApplyDeployment d) None -> meta_Name (dep_Meta d) = name ->
  deployment_for ctx name d ->
  (forall h' s, just_answered h' (ApplyService s) None -> Q h' (Done None)) ->
  (forall h' e, Q h' (Done (Some e))) ->
  wp (workload_guard ctx) (reconcileService w ctx) h Q.
Proof.
  intros Hw Hk Hn Hj Hdn Hfor HQ He. unfold reconcileService.
  destruct (adapt_service_with ctx name (meta_with_Namespace (ctx_Namespace ctx)
    (svc_Meta service_template)) Hk Hn) as [Ht Hs].
  rewrite Ht, Hw. cbv zeta. cbn [adapt_with]. rewrite Hs. cbn [lift prog_bind].
  apply own_and_apply_wp; [|done]. intros m' Hm'. destruct (owner_rest _ _ _ Hm') as [Hmn Hmns].
  cbn in Hmn, Hmns. split; cbn; [|intros h' Ha; by eapply HQ].
  exists d. split; [done|]. rewrite Hdn. split; [|done].
  split; [split; cbn; [by rewrite Hmns|eauto]|]. cbn. rewrite Hmn, Hdn. split; [done|].
  split; [|done]. rewrite <- (deployment_matches _ _ _ Hfor). apply Hfor.
Qed.

Lemma adapt_empty_config_map ctx ns :
  exists x, meta_Name x = GetVLLMConfigMapName (le_Name (ctx_LLMEngine ctx)) (mr_Name (ctx_ModelRepo ctx)) /\
    meta_Namespace x = le_Namespace (ctx_LLMEngine ctx) /\ meta_OwnerReferences x = [] /\
    AdaptVLLMConfigMap ctx (SetNamespace ns (ConfigMapObject (mkConfigMap meta_empty ∅))) =
    match yaml_Marshal (engine_vllm_config (ctx_LLMEngine ctx) (ctx_ModelRepo ctx)) with
    | Ok yaml => Ok (ConfigMapObject (mkConfigMap x {[VLLMConfigMapKeyName := yaml]}))
    | Err e => Err (errorw "failed to marshal vLLM config to YAML: "
                      (errorw "failed to marshal vLLM config to YAML: " e))
    end.
Proof.
  eexists. split; [|split; [|split]].
  4: { unfold AdaptVLLMConfigMap, adapt_config_map, MarshalVLLMConfig, SetNamespace. cbn. cbv zeta.
       destruct (yaml_Marshal _); reflexivity. }
  all: reflexivity.
Qed.

Lemma config_map_wp ctx h (Q : trace -> outcome (unit + err_opt) -> Prop) :
  ctx_Namespace ctx = le_Namespace (ctx_LLMEngine ctx) ->
  (is_vllm ctx -> forall h' cm, just_answered h' (ApplyConfigMap cm) None -> config_map_for ctx cm ->
     Q h' (Done (inl tt))) ->
  (~ is_vllm ctx -> Q h (Done (inl tt))) ->
  (forall h' e, Q h' (Done (inr (Some e)))) ->
  wp (workload_guard ctx) (reconcile_manifest ctx "vllm-config"
    (NewManifestAdapterWithPredicate (ConfigMapObject (mkConfigMap meta_empty ∅))
       (fun ctx obj => Done (AdaptVLLMConfigMap ctx obj)) IsVLLMEngine)) h Q.
Proof.
  intros Hns H1 H2 He. unfold reconcile_manifest, IsVLLMEngine.
  cbn [ma_predicate NewManifestAdapterWithPredicate ma_create ma_adapt adapt_with].
  case_bool_decide as Hv; [|by apply H2]. cbn [lift prog_bind].
  destruct (adapt_empty_config_map ctx (ctx_Namespace ctx)) as (x & Hx & Hxns & _ & ->).
  destruct (yaml_Marshal _) as [yaml|e] eqn:Ey; [|apply He].
  apply wp_bind, own_and_apply_wp.
  - intros m' Hm'. destruct (owner_rest _ _ _ Hm') as [Hmn Hmns]. cbn in Hmn, Hmns.
    assert (Hcm : config_map_for ctx (mkConfigMap m' {[VLLMConfigMapKeyName := yaml]})).
    { constructor; cbn; [done|by rewrite Hmn|by exists yaml|]. split; [by rewrite Hmns|eauto]. }
    split; [exact Hcm|]. intros h' Ha. cbn. exact (H1 Hv _ _ Ha Hcm).
  - intros h' e. cbn. apply He.
Qed.

(** A component made for an engine and a repository. *)
Lemma Reconcile_known_wp ctx w h :
  known_engine (les_EngineType (le_Spec (ctx_LLMEngine ctx))) ->
  ctx_Namespace ctx = le_Namespace (ctx_LLMEngine ctx) ->
  NewModelComponent (ctx_LLMEngine ctx) (ctx_ModelRepo ctx) = Done w ->
  wp (workload_guard ctx) (Reconcile w ctx) h workload_done.
Proof.
  intros Hk Hns Hw. unfold NewModelComponent in Hw.
  destruct (ComponentName _ _) as [name|] eqn:Hn; [|done]. cbn [mbind outcome_bind] in Hw.
  injection Hw as <-. unfold Reconcile. set (w := Build (if bool_decide _ then _ else _)).
  assert (Hwp : w_predicate w = None) by (unfold w; by destruct (bool_decide _)).
  assert (Hwd : w_adaptDeployment w = Some AdaptDeployment) by (unfold w; by destruct (bool_decide _)).
  assert (Hws : w_adaptService w = Some AdaptService) by (unfold w; by destruct (bool_decide _)).
  rewrite Hwp. unfold updateResources.
  assert (Hrest : forall h, (is_vllm ctx ->
      exists cm, just_answered h (ApplyConfigMap cm) None /\ config_map_for ctx cm) ->
    wp (workload_guard ctx) (let! e := reconcileDeployment w ctx in
      match e with Some err => Ret (Some err) | None => reconcileService w ctx end) h workload_done).
  { intros h' Hcm. apply wp_bind. eapply reconcileDeployment_wp; [done..| |done].
    intros h'' d Hj Hdn Hfor. cbn. eapply (reconcileService_wp w ctx name d); try done.
    intros h3 s Hs. by exists s. }
  apply wp_bind. unfold reconcileManifests. apply wp_bind. unfold w at 1.
  case_bool_decide as Hv; cbn [w_manifestAdapters Build b_manifestAdapters WithManifestAdapter WithServiceAdapter
    WithDeploymentAdapter NewLLMEngineComponent].
  - rewrite insert_empty, range_map_singleton. cbn [for_each]. apply wp_bind.
    apply config_map_wp; [done|..].
    + intros _ h' cm Hj Hcm. cbn. apply Hrest. eauto.
    + done.
    + done.
  - rewrite range_map_empty. cbn. apply Hrest. done.
Qed.

(** Of another type of engine there is no template. *)
Lemma Reconcile_component_wp ctx w h :
  ctx_Namespace ctx = le_Namespace (ctx_LLMEngine ctx) ->
  NewModelComponent (ctx_LLMEngine ctx) (ctx_ModelRepo ctx) = Done w ->
  wp (workload_guard ctx) (Reconcile w ctx) h workload_done.
Proof.
  intros Hns Hw. destruct (decide (known_engine (les_EngineType (le_Spec (ctx_LLMEngine ctx))))) as [Hk|Hk];
    [by apply Reconcile_known_wp|].
  destruct (deployment_manifest_missing _ Hk) as [e He]. unfold NewModelComponent in Hw.
  destruct (ComponentName _ _) as [name|]; [|done]. cbn [mbind outcome_bind] in Hw.
  rewrite bool_decide_false in Hw by (intros E; apply Hk; by right). injection Hw as <-.
  unfold Reconcile, updateResources, reconcileManifests, reconcileDeployment. rewrite He.
  cbn [w_predicate w_manifestAdapters Build b_predicate b_manifestAdapters WithServiceAdapter WithDeploymentAdapter NewLLMEngineComponent].
  by rewrite range_map_empty.
Qed.

End Spec.

(** Property C24: reconciling the component of an engine and a repository, on every
    API server, only applies objects of the engine's namespace that the engine
    owns: the config map with the configuration file of a vLLM engine, then, right
    after that was applied, the deployment, under the component's name, then, right after that, the service
    that selects its pods.  It reports success only when the service was applied,
    and does not panic. *)
Theorem component_applies_in_order `{MachineryLaws, GoRange, Yaml} {W} (srv : server W) ctx component
    w t o w' :
  ctx_Namespace ctx = le_Namespace (ctx_LLMEngine ctx) ->
  NewModelComponent (ctx_LLMEngine ctx) (ctx_ModelRepo ctx) = Done component ->
  run srv (Reconcile component ctx) w = (t, o, w') ->
  guarded (workload_guard ctx) [] t /\ workload_done t o.
Proof. intros Hns Hc. eapply wp_run, Reconcile_component_wp; eauto. Qed.

Definition witness_yaml : Yaml := {| yaml_Marshal := fun _ => Ok "dtype: auto" |}.

Definition witness_component : llmEngineWorkload :=
  let M := Reference.machinery in
  let R := witness_range in
  let Y := witness_yaml in
  Build (WithManifestAdapter "vllm-config"
    (NewManifestAdapterWithPredicate (ConfigMapObject (mkConfigMap meta_empty ∅))
       (fun ctx obj => Done (AdaptVLLMConfigMap ctx obj)) IsVLLMEngine)
    (WithServiceAdapter AdaptService
      (WithDeploymentAdapter AdaptDeployment (NewLLMEngineComponent "chat-llama")))).

Definition witness_component_run : trace * outcome err_opt * cluster :=
  let M := Reference.machinery in
  let R := witness_range in
  run mem (Reconcile witness_component (witness_engine_context "vllm")) empty_cluster.

Lemma component_applies_in_order_witness :
  let M := Reference.machinery in
  let Y := witness_yaml in
  witness_component_run.1.2 = Done None /\ List.length witness_component_run.1.1 = 3%nat /\
  guarded (workload_guard (witness_engine_context "vllm")) [] witness_component_run.1.1 /\
  workload_done witness_component_run.1.1 witness_component_run.1.2.
Proof.
  intros M Y. split; [vm_compute; reflexivity|]. split; [vm_compute; reflexivity|].
  apply (@component_applies_in_order M Reference.laws witness_range Y cluster mem
    (witness_engine_context "vllm") witness_component empty_cluster _ _ witness_component_run.2).
  - reflexivity.
  - unfold NewModelComponent.
    assert (E : ComponentName "chat" "llama" = Done "chat-llama") by (vm_compute; reflexivity).
    cbn [ctx_LLMEngine witness_engine_context witness_engine_of le_Name le_Meta meta_Name
      meta_with_Namespace meta_with_Name ctx_ModelRepo witness_model_repo mr_Name mr_Meta].
    rewrite E. reflexivity.
  - unfold witness_component_run. by destruct (run _ _ _) as [[??]?].
Defined.
