(* ===== verification/EngineStatus.v ===== *)
(** * The status of an engine

    The status helpers of llmengine_controller.go: syncStatus, setNotReady, the
    Phase derived from the conditions. *)

From S2P Require Import Prelude Api Kube Machinery MemServer.

Local Open Scope go_scope.

Section Status.
Context `{M : Machinery}.

Definition deriveLLMEnginePhase (conditions : list Condition) : string :=
  match FindStatusCondition conditions LLMEngineConditionReady with
  | None => "Pending"
  | Some ready =>
      if bool_decide (cond_Status ready = ConditionTrue) then "Running"
      else if bool_decide (cond_Reason ready = LLMEngineReasonDeploymentsCreated) then "Starting"
      else if bool_decide (cond_Reason ready = LLMEngineReasonStoragePending \/
                           cond_Reason ready = LLMEngineReasonWaitingForModels \/
                           cond_Reason ready = LLMEngineReasonNoModelsFound \/
                           cond_Reason ready = LLMEngineReasonGPUNotAvailable) then "Pending"
      else "Error"
  end.

(** The mutation is a program, since SetStatusCondition reads the clock. *)
Definition engine_sync_attempt (llmEngine : LLMEngine)
    (mutate : LLMEngineStatus -> prog LLMEngineStatus) : prog err_opt :=
  let! r := call (GetLLMEngine (le_Namespace llmEngine) (le_Name llmEngine)) in
  match r with
  | Err err => Ret (Some err)
  | Ok fresh =>
      let! status := mutate (le_Status fresh) in
      if DeepEqualLLMEngineStatus (le_Status fresh) status then Ret None
      else call (UpdateLLMEngineStatus (le_with_Status status fresh))
  end.

Definition syncStatus (llmEngine : LLMEngine)
    (mutate : LLMEngineStatus -> prog LLMEngineStatus) : prog err_opt :=
  RetryOnConflict (engine_sync_attempt llmEngine mutate).

(** The closures: set some conditions in turn, and derive the phase. *)
Fixpoint set_conditions (conditions : list Condition) (cs : list Condition) : prog (list Condition) :=
  match cs with
  | [] => Ret conditions
  | c :: cs =>
      let! now := call Now in
      set_conditions (SetStatusCondition now conditions c) cs
  end.

Definition mutate_conditions (cs : list Condition) (s : LLMEngineStatus) : prog LLMEngineStatus :=
  let! conditions := set_conditions (lst_Conditions s) cs in
  Ret (lst_with_Phase (deriveLLMEnginePhase conditions) (lst_with_Conditions conditions s)).

(** Errors are logged. *)
Definition setNotReady (llmEngine : LLMEngine) (reason message : string) : prog unit :=
  let! _ := syncStatus llmEngine
              (mutate_conditions [condition LLMEngineConditionReady ConditionFalse reason message]) in
  Ret tt.

(** The same conditions without the clock: what a status says. *)
Fixpoint conditions_after (conditions : list Condition) (steps : list (Z * Condition)) : list Condition :=
  match steps with
  | [] => conditions
  | (now, c) :: steps => conditions_after (SetStatusCondition now conditions c) steps
  end.

(** [s'] is [s] with the conditions set, at some times. *)
Definition by_conditions (cs : list Condition) (s s' : LLMEngineStatus) : Prop :=
  exists steps, map snd steps = cs /\
    s' = lst_with_Phase (deriveLLMEnginePhase (conditions_after (lst_Conditions s) steps))
           (lst_with_Conditions (conditions_after (lst_Conditions s) steps) s).

(** ** What syncStatus does *)
Section SyncSpec.
Context (le : LLMEngine) (R : LLMEngineStatus -> LLMEngineStatus -> Prop).

Definition engine_sync_guard (h : trace) (r : req) : Prop :=
  match r with
  | GetLLMEngine ns n => ns = le_Namespace le /\ n = le_Name le
  | Now => True
  | UpdateLLMEngineStatus o =>
      exists fresh st, answered h (GetLLMEngine (le_Namespace le) (le_Name le)) (Ok fresh) /\
        o = le_with_Status st fresh /\ R (le_Status fresh) st /\ st <> le_Status fresh
  | _ => False
  end.

Definition engine_synced (h : trace) (o : outcome err_opt) : Prop :=
  match o with
  | Done None =>
      exists fresh st, answered h (GetLLMEngine (le_Namespace le) (le_Name le)) (Ok fresh) /\
        R (le_Status fresh) st /\
        (st = le_Status fresh \/ answered h (UpdateLLMEngineStatus (le_with_Status st fresh)) None)
  | Done (Some _) => True
  | Panicked _ => False
  end.

Definition engine_mutates (mutate : LLMEngineStatus -> prog LLMEngineStatus) : Prop :=
  forall s h, wp (fun _ r => r = Now) (mutate s) h
    (fun _ o => match o with Done s' => R s s' | Panicked _ => False end).

Context {L : MachineryLaws M}.

Lemma engine_sync_attempt_wp mutate h :
  engine_mutates mutate -> wp engine_sync_guard (engine_sync_attempt le mutate) h engine_synced.
Proof.
  intros Hm. unfold engine_sync_attempt. apply wp_call; [done|]. intros [fresh|e]; [|done].
  apply wp_bind. eapply wp_mono; [..|apply Hm]; cbn; [by intros ? ? ->|].
  intros h' [st|m] HR; [|done].
  assert (Hget : answered
            ((h ++ [Ev (GetLLMEngine (le_Namespace le) (le_Name le)) (Ok fresh)]) ++ h')
            (GetLLMEngine (le_Namespace le) (le_Name le)) (Ok fresh)) by auto with go.
  wp_step; cbn.
  - apply DeepEqualLLMEngineStatus_spec in Heqb. exists fresh, st. auto.
  - split.
    + exists fresh, st. repeat (split; [done|]). intros ->.
      by rewrite (proj2 (DeepEqualLLMEngineStatus_spec _ _) eq_refl) in Heqb.
    + intros [e|]; [done|]. exists fresh, st. auto with go.
Qed.

Lemma engine_syncStatus_wp mutate h :
  engine_mutates mutate -> wp engine_sync_guard (syncStatus le mutate) h engine_synced.
Proof.
  intros Hm. eapply wp_conseq.
  - apply (wp_RetryOnConflict _ _ _ (fun _ => True) engine_synced); [done|]. intros h' _.
    eapply wp_conseq; [by apply engine_sync_attempt_wp|]. auto.
  - by intros h' o [_ H].
Qed.

End SyncSpec.

Lemma set_conditions_wp conditions cs h :
  wp (fun _ r => r = Now) (set_conditions conditions cs) h (fun _ o =>
    exists steps, map snd steps = cs /\ o = Done (conditions_after conditions steps)).
Proof.
  revert conditions h. induction cs as [|c cs IH]; intros conditions h; cbn.
  - by exists [].
  - split; [done|]. intros now. eapply wp_conseq; [apply IH|].
    intros h' o (steps & <- & ->). by exists ((now, c) :: steps).
Qed.

Lemma mutate_conditions_mutates cs : engine_mutates (by_conditions cs) (mutate_conditions cs).
Proof.
  intros s h. unfold mutate_conditions. apply wp_bind. eapply wp_conseq; [apply set_conditions_wp|].
  intros h' o (steps & Hs & ->). cbn. by exists steps.
Qed.

Lemma setNotReady_wp {L : MachineryLaws M} le reason message h :
  wp (engine_sync_guard le
        (by_conditions [condition LLMEngineConditionReady ConditionFalse reason message]))
     (setNotReady le reason message) h (fun _ o => o = Done tt).
Proof.
  unfold setNotReady. apply wp_bind. eapply wp_conseq;
    [apply engine_syncStatus_wp, mutate_conditions_mutates; exact L|].
  by intros h' [e|m].
Qed.

End Status.

(** ** The phase *)
Section Phase.
Context `{L : MachineryLaws}.

Lemma conditions_after_app conditions steps1 steps2 :
  conditions_after conditions (steps1 ++ steps2) =
  conditions_after (conditions_after conditions steps1) steps2.
Proof.
  revert conditions. induction steps1 as [|[now c] steps1 IH]; intros conditions; [done|apply IH].
Qed.

Lemma conditions_after_other conditions steps t :
  t ∉ map (fun p => cond_Type p.2) steps ->
  FindStatusCondition (conditions_after conditions steps) t = FindStatusCondition conditions t.
Proof.
  revert conditions. induction steps as [|[now c] steps IH]; intros conditions Ht; [done|]. cbn in *.
  apply not_elem_of_cons in Ht as [Hc Ht]. rewrite IH by done. by apply Find_Set_ne.
Qed.

(** With distinct types each of the conditions set stands, *)
Lemma conditions_after_each conditions steps c :
  NoDup (map (fun p => cond_Type p.2) steps) -> c ∈ map snd steps ->
  exists d, FindStatusCondition (conditions_after conditions steps) (cond_Type c) = Some d /\
    same_condition c d.
Proof.
  revert conditions. induction steps as [|[now c'] steps IH]; intros conditions Hnd Hc; cbn in *;
    [by apply elem_of_nil in Hc|]. apply NoDup_cons in Hnd as [Hn Hnd].
  apply elem_of_cons in Hc as [->|Hc]; [|by apply IH].
  rewrite conditions_after_other by done. apply Find_Set_eq.
Qed.

(** and setting what stands changes nothing. *)
Lemma conditions_after_same conditions steps :
  (forall c, c ∈ map snd steps ->
     exists d, FindStatusCondition conditions (cond_Type c) = Some d /\ same_condition c d) ->
  conditions_after conditions steps = conditions.
Proof.
  induction steps as [|[now c] steps IH]; intros Hc; [done|]. cbn.
  destruct (Hc c) as (d & Hd & Hs); [by left|].
  rewrite (Set_same now conditions c d) by done. apply IH. intros c' Hc'. apply Hc. by right.
Qed.

(** The phase that the Ready condition calls for. *)
Definition engine_phase_of (status reason : string) : string :=
  if bool_decide (status = ConditionTrue) then "Running"
  else if bool_decide (reason = LLMEngineReasonDeploymentsCreated) then "Starting"
  else if bool_decide (reason = LLMEngineReasonStoragePending \/
                       reason = LLMEngineReasonWaitingForModels \/
                       reason = LLMEngineReasonNoModelsFound \/
                       reason = LLMEngineReasonGPUNotAvailable) then "Pending"
  else "Error".

(** A change whose last condition is a true Ready makes the engine Running. *)
Lemma by_conditions_running cs reason message s s' :
  by_conditions (cs ++ [condition LLMEngineConditionReady ConditionTrue reason message]) s s' ->
  lst_Phase s' = "Running" /\ lst_ModelRepositories s' = lst_ModelRepositories s.
Proof.
  intros (steps & Hsteps & ->). split; [|done]. cbn.
  destruct steps as [|[now c] steps _] using rev_ind; [by destruct cs|].
  rewrite map_app in Hsteps. apply app_inj_tail in Hsteps as [_ Hc]. cbn in Hc. subst c.
  rewrite conditions_after_app. cbn. unfold deriveLLMEnginePhase.
  destruct (Find_Set_eq now (conditions_after (lst_Conditions s) steps)
    (condition LLMEngineConditionReady ConditionTrue reason message)) as (d & Hd & _ & Hs & _).
  change (cond_Type _) with LLMEngineConditionReady in Hd. rewrite Hd. by rewrite bool_decide_true.
Qed.

(** A status change of the controller, which sets conditions of which
    Ready is the last, leaves the list of repositories alone, makes Ready say what
    was asked and keeps the conditions of other types than it sets; the Phase is
    the one Ready calls for, so Running exactly when Ready is true; and the same
    change made again, at any later time, changes nothing. *)
Theorem engine_conditions_spec cs status reason message s s' :
  let ready := condition LLMEngineConditionReady status reason message in
  Forall (fun c => cond_Type c <> LLMEngineConditionReady) cs -> NoDup (map cond_Type cs) ->
  by_conditions (cs ++ [ready]) s s' ->
  lst_ModelRepositories s' = lst_ModelRepositories s /\
  (exists d, FindStatusCondition (lst_Conditions s') LLMEngineConditionReady = Some d /\
     same_condition ready d) /\
  (forall t, t ∉ map cond_Type (cs ++ [ready]) ->
     FindStatusCondition (lst_Conditions s') t = FindStatusCondition (lst_Conditions s) t) /\
  lst_Phase s' = engine_phase_of status reason /\
  (lst_Phase s' = "Running" <-> status = ConditionTrue) /\
  forall s'', by_conditions (cs ++ [ready]) s' s'' -> s'' = s'.
Proof.
  intros ready Hcs Hnd (steps & Hsteps & ->).
  assert (Htypes : map (fun p => cond_Type p.2) steps = map cond_Type (cs ++ [ready])).
  { rewrite <- Hsteps, map_map. done. }
  assert (Hnd' : NoDup (map (fun p => cond_Type p.2) steps)).
  { rewrite Htypes, map_app. apply NoDup_app. split; [done|]. split; [|apply NoDup_singleton].
    intros t Ht ->%list_elem_of_singleton. apply list_elem_of_fmap in Ht as (c & Hc & Hin).
    by apply (proj1 (Forall_forall _ _) Hcs c). }
  assert (Heach : forall c, c ∈ cs ++ [ready] -> exists d,
            FindStatusCondition (conditions_after (lst_Conditions s) steps) (cond_Type c) = Some d /\
            same_condition c d).
  { intros c Hc. apply conditions_after_each; [done|]. by rewrite Hsteps. }
  destruct (Heach ready) as (d & Hd & Hs); [apply elem_of_app; right; by left|].
  change (cond_Type ready) with LLMEngineConditionReady in Hd.
  assert (Hphase : deriveLLMEnginePhase (conditions_after (lst_Conditions s) steps) =
            engine_phase_of status reason).
  { unfold deriveLLMEnginePhase. rewrite Hd. destruct Hs as (_ & <- & <- & _). done. }
  cbn. split; [done|]. split; [by eauto|]. split.
  { intros t Ht. apply conditions_after_other. by rewrite Htypes. }
  split; [done|]. split.
  { rewrite Hphase. unfold engine_phase_of. repeat case_bool_decide; naive_solver. }
  intros s'' (steps' & Hsteps' & ->). cbn. rewrite conditions_after_same; [done|].
  by rewrite Hsteps'.
Qed.

End Phase.

Lemma engine_conditions_spec_witness :
  let M := Reference.machinery in
  let ready := condition LLMEngineConditionReady ConditionFalse LLMEngineReasonStoragePending "x" in
  let s := mkLLMEngineStatus EmptyString [] [] in
  let s' := lst_with_Phase "Pending" (lst_with_Conditions (SetStatusCondition 7 [] ready) s) in
  lst_Phase s' = engine_phase_of ConditionFalse LLMEngineReasonStoragePending /\
  forall s'', by_conditions [ready] s' s'' -> s'' = s'.
Proof.
  intros M ready s s'.
  destruct (@engine_conditions_spec M Reference.laws [] ConditionFalse LLMEngineReasonStoragePending "x"
    s s') as (_ & _ & _ & H1 & _ & H2).
  - apply Forall_nil. exact I.
  - apply NoDup_nil. exact I.
  - exists [(7%Z, ready)]. split; reflexivity.
  - split; [exact H1|exact H2].
Defined.
