(* ===== verification/EngineController.v ===== *)
(** * The LLMEngine controller

    llmengine_controller.go: Reconcile and everything it calls, as programs over
    the API. *)

From S2P Require Import Prelude Naming Api Kube Machinery MemServer StorageDiscovery Backend.
From S2P Require Import EngineStorage StorageProvider Jobs RepoController GoStd EngineConfig.
From S2P Require Import VllmConfig EngineAdapters Workload EngineStatus.

Local Open Scope go_scope.

(** fmt.Sprintf("%v", m) of a map: the keys are sorted. *)
Definition fmt_v_map (m : gmap string string) : string :=
  "map[" +:+ str_join " " (map (fun k => k +:+ ":" +:+ mget m k)
                             (sort_strings (map fst (map_to_list m)))) +:+ "]".

Section Controller.
Context `{M : Machinery} `{Rg : GoRange} `{Y : Yaml}.

(** The repositories of the references, in order. *)
Definition fetchModelRepositories (llmEngine : LLMEngine) : prog (result (list ModelRepository)) :=
  let! r := for_each (les_ModelRefs (le_Spec llmEngine)) [] (fun modelRepos modelRef =>
    let! r := call (GetModelRepository (ref_Name modelRef)) in
    match r with
    | Err err =>
        if IsNotFound err
        then Ret (inr (errorf ("ModelRepository " +:+ ref_Name modelRef +:+ " not found")))
        else Ret (inr err)
    | Ok modelRepo => Ret (inl (modelRepos ++ [modelRepo]))
    end) in
  match r with
  | inl modelRepos => Ret (Ok modelRepos)
  | inr err => Ret (Err err)
  end.

(** *** GPU validation *)

Definition allocatable (node : Node) (gpuType : string) : string :=
  default QuantityZero (node_Allocatable node !! gpuType).

(** The first key of the selector, in the order of the map, that the node's
    labels do not have with that value. *)
Definition selector_mismatch (node : Node) (nodeSelector : gmap string string) :
    option (string * string) :=
  List.find (fun kv => negb (bool_decide (mget (meta_Labels (node_Meta node)) kv.1 = kv.2)))
    (range_map nodeSelector).

Definition validate_required_node (gpuConfig : GPUConfig) (requiredNodeName : string) : prog err_opt :=
  let gpuType := gpu_type_or_default (gpu_Type gpuConfig) in
  let requestedGPUs := gpu_count_or_default (gpu_Count gpuConfig) in
  let! r := call (GetNode requiredNodeName) in
  match r with
  | Err err => Ret (Some (errorw ("failed to get required node " +:+ requiredNodeName +:+ ": ") err))
  | Ok node =>
      let gpuCapacity := allocatable node gpuType in
      if QuantityIsZero gpuCapacity then
        Ret (Some (errorf ("required node " +:+ requiredNodeName +:+
          " (due to storage constraints) does not have GPU resources of type " +:+ gpuType +:+
          ". Storage requires node affinity, but this node lacks GPUs. " +:+
          "Either use ReadWriteMany storage or ensure the storage node has GPUs")))
      else
        let availableGPUs := QuantityValue gpuCapacity in
        if (availableGPUs <? requestedGPUs)%Z then
          Ret (Some (errorf ("required node " +:+ requiredNodeName +:+ " has only " +:+
            fmt_d availableGPUs +:+ " GPUs of type " +:+ gpuType +:+ ", but " +:+ fmt_d requestedGPUs +:+
            " requested. Storage requires node affinity to this node")))
        else
          match selector_mismatch node (gpu_NodeSelector gpuConfig) with
          | Some (key, value) =>
              Ret (Some (errorf ("required node " +:+ requiredNodeName +:+
                " (due to storage) does not match GPU node selector " +:+ key +:+ "=" +:+ value +:+
                ". Storage node binding conflicts with GPU requirements")))
          | None => Ret None
          end
  end.

(** Nodes with GPUs of the type, and those among them that also match the
    selector and have enough. *)
Definition is_gpu_node (gpuType : string) (node : Node) : bool :=
  negb (QuantityIsZero (allocatable node gpuType)).
Definition is_suitable_node (gpuConfig : GPUConfig) (node : Node) : bool :=
  let gpuType := gpu_type_or_default (gpu_Type gpuConfig) in
  is_gpu_node gpuType node &&
  match selector_mismatch node (gpu_NodeSelector gpuConfig) with Some _ => false | None => true end &&
  (gpu_count_or_default (gpu_Count gpuConfig) <=? QuantityValue (allocatable node gpuType))%Z.

Definition validate_cluster (gpuConfig : GPUConfig) : prog err_opt :=
  let gpuType := gpu_type_or_default (gpu_Type gpuConfig) in
  let requestedGPUs := gpu_count_or_default (gpu_Count gpuConfig) in
  let! r := call ListNodes in
  match r with
  | Err err => Ret (Some (errorw "failed to list nodes: " err))
  | Ok nodes =>
      let gpuNodes := map (fun n => meta_Name (node_Meta n)) (List.filter (is_gpu_node gpuType) nodes) in
      let suitableNodes :=
        map (fun n => meta_Name (node_Meta n)) (List.filter (is_suitable_node gpuConfig) nodes) in
      if bool_decide (gpuNodes = []) then
        Ret (Some (errorf ("no nodes with GPU resources (" +:+ gpuType +:+
          ") found in cluster. Total nodes checked: " +:+ fmt_d (Z.of_nat (length nodes)))))
      else if bool_decide (suitableNodes = []) then
        Ret (Some (errorf ("found " +:+ fmt_d (Z.of_nat (length gpuNodes)) +:+ " GPU nodes (" +:+
          fmt_v_list gpuNodes +:+ ") but none have sufficient resources (need " +:+
          fmt_d requestedGPUs +:+ " GPUs of type " +:+ gpuType +:+ ") or match node selector " +:+
          fmt_v_map (gpu_NodeSelector gpuConfig))))
      else Ret None
  end.

Definition validateGPUAvailability (llmEngine : LLMEngine) (requiredNodeName : string) : prog err_opt :=
  match les_GPU (le_Spec llmEngine) with
  | None => Ret None
  | Some gpuConfig =>
      if negb (gpu_Enabled gpuConfig) then Ret None
      else if bool_decide (requiredNodeName <> EmptyString)
      then validate_required_node gpuConfig requiredNodeName
      else validate_cluster gpuConfig
  end.

(** The node of the first repository that is bound to one. *)
Fixpoint required_node (modelRepos : list ModelRepository) : string :=
  match modelRepos with
  | [] => EmptyString
  | modelRepo :: modelRepos =>
      if RequiresNodeAffinity modelRepo && bool_decide (GetBoundNodeName modelRepo <> EmptyString)
      then GetBoundNodeName modelRepo
      else required_node modelRepos
  end.

(** *** References *)

(** The engines, not being deleted, that reference a repository: the keys
    "namespace/name" of a set. *)
Definition engine_keys (engines : list LLMEngine) (repo : string) : gmap string unit :=
  foldl (fun s engine =>
    if bool_decide (meta_DeletionTimestamp (le_Meta engine) = None) && references repo engine
    then <[le_Namespace engine +:+ "/" +:+ le_Name engine := tt]> s else s) ∅ engines.

Definition referenced_str (engines : list LLMEngine) (repo : string) : string :=
  str_join "," (sort_strings (map fst (range_map (engine_keys engines repo)))).

Definition update_referenced (repoName referencedStr : string) : prog err_opt :=
  let! r := call (GetModelRepository repoName) in
  match r with
  | Err err => Ret (if IsNotFound err then None else Some err)
  | Ok modelRepo =>
      if bool_decide (mst_ReferencedEngines (mr_Status modelRepo) = referencedStr) then Ret None
      else call (UpdateModelRepositoryStatus
                   (mr_with_Status (mst_with_ReferencedEngines referencedStr (mr_Status modelRepo))
                      modelRepo))
  end.

(** Errors are logged. *)
Definition updateReferencedEngines (modelRepoNames : list string) : prog unit :=
  let! r := call ListLLMEngines in
  match r with
  | Err _ => Ret tt
  | Ok allEngines =>
      let! _ := for_each (B := unit) modelRepoNames tt (fun _ repoName =>
        let! _ := RetryOnConflict (update_referenced repoName (referenced_str allEngines repoName)) in
        Ret (inl tt)) in
      Ret tt
  end.

(** *** Deletion *)

Definition remove_engine_finalizer (llmEngine : LLMEngine) : prog err_opt :=
  let! r := call (GetLLMEngine (le_Namespace llmEngine) (le_Name llmEngine)) in
  match r with
  | Err err => Ret (Some err)
  | Ok fresh =>
      let! r := call (UpdateLLMEngine
                        (le_with_Meta (RemoveFinalizer (le_Meta fresh) LLMEngineFinalizer) fresh)) in
      Ret match r with Ok _ => None | Err err => Some err end
  end.

Definition handleDeletion (llmEngine : LLMEngine) : prog err_opt :=
  let refs := les_ModelRefs (le_Spec llmEngine) in
  let! _ := for_each (B := unit) refs tt (fun _ ref =>
    let! _ := CleanupLLMEngineStorage llmEngine (ref_Name ref) in Ret (inl tt)) in
  let! _ := updateReferencedEngines (map ref_Name refs) in
  RetryOnConflict (remove_engine_finalizer llmEngine).

(** *** Reconcile *)

(** Waiting for a repository that is not ready. *)
Definition wait_for (llmEngine : LLMEngine) (modelRepo : ModelRepository) : prog (Result * err_opt) :=
  let msg := "Waiting for ModelRepository " +:+ mr_Name modelRepo +:+ " (phase: " +:+
             mst_Phase (mr_Status modelRepo) +:+ ")" in
  let! _ := syncStatus llmEngine (mutate_conditions
    [condition LLMEngineConditionModelsAvailable ConditionFalse LLMEngineReasonWaitingForModels msg;
     condition LLMEngineConditionReady ConditionFalse LLMEngineReasonWaitingForModels msg]) in
  Ret (requeue_after 30, None).

(** The storage of every repository: the results by name. *)
Definition ensure_storage (llmEngine : LLMEngine) (modelRepos : list ModelRepository) :
    prog (gmap string LLMEngineStorageResult + (Result * err_opt)) :=
  for_each modelRepos ∅ (fun storageResults modelRepo =>
    let! r := EnsureLLMEngineStorage llmEngine modelRepo in
    match r with
    | Err err =>
        let! _ := setNotReady llmEngine LLMEngineReasonStoragePending
          ("Preparing storage for model " +:+ mr_Name modelRepo +:+ ": " +:+ emsg err) in
        Ret (inr (requeue_after 30, None))
    | Ok result => Ret (inl (<[mr_Name modelRepo := result]> storageResults))
    end).

(** The component of one repository: [inl] the number of ready deployments. *)
Definition reconcile_model (llmEngine : LLMEngine) (storageResults : gmap string LLMEngineStorageResult)
    (totalReady : Z) (modelRepo : ModelRepository) : prog (Z + (Result * err_opt)) :=
  let! comp := lift (NewModelComponent llmEngine modelRepo) in
  match storageResults !! mr_Name modelRepo with
  | None => Crash "nil pointer dereference"
  | Some result =>
      let compCtx := mkEngineContext llmEngine modelRepo (le_Namespace llmEngine) (PVCName result) in
      let! e := Workload.Reconcile comp compCtx in
      match e with
      | Some err =>
          let! _ := setNotReady llmEngine LLMEngineReasonReconcileFailed
            ("Failed to reconcile model " +:+ mr_Name modelRepo +:+ ": " +:+ emsg err) in
          Ret (inr (no_requeue, None))
      | None =>
          let deploymentName := le_Name llmEngine +:+ "-" +:+ mr_Name modelRepo in
          let! r := call (GetDeployment (le_Namespace llmEngine) deploymentName) in
          match r with
          | Ok deployment =>
              Ret (inl (if (0 <? dep_ReadyReplicas deployment)%Z then (totalReady + 1)%Z else totalReady))
          | Err _ => Ret (inl totalReady)
          end
      end
  end.

(** The status once the components are reconciled. *)
Definition models_available : Condition :=
  condition LLMEngineConditionModelsAvailable ConditionTrue LLMEngineReasonModelsReady
    "All referenced models are available".

Definition report_deployments (llmEngine : LLMEngine) (modelNames : list string) (totalReady : Z) :
    prog (Result * err_opt) :=
  let totalDeployments := Z.of_nat (length modelNames) in
  let ready :=
    if (totalReady =? totalDeployments)%Z then
      condition LLMEngineConditionReady ConditionTrue LLMEngineReasonDeploymentsReady
        ("All " +:+ fmt_d totalDeployments +:+ " model deployments ready")
    else
      condition LLMEngineConditionReady ConditionFalse LLMEngineReasonDeploymentsCreated
        (fmt_d totalReady +:+ "/" +:+ fmt_d totalDeployments +:+ " deployments ready") in
  let! _ := syncStatus llmEngine (fun s =>
    mutate_conditions [models_available; ready] (lst_with_ModelRepositories modelNames s)) in
  Ret (no_requeue, None).

(** From the storage on. *)
Definition deploy_models (llmEngine : LLMEngine) (modelRepos : list ModelRepository) :
    prog (Result * err_opt) :=
  let! r := ensure_storage llmEngine modelRepos in
  match r with
  | inr early => Ret early
  | inl storageResults =>
      let! r := for_each modelRepos 0%Z (reconcile_model llmEngine storageResults) in
      match r with
      | inr early => Ret early
      | inl totalReady =>
          let modelNames := map mr_Name modelRepos in
          let! _ := updateReferencedEngines modelNames in
          report_deployments llmEngine modelNames totalReady
      end
  end.

(** With the finalizer there. *)
Definition reconcile_engine (llmEngine : LLMEngine) : prog (Result * err_opt) :=
  let! r := fetchModelRepositories llmEngine in
  match r with
  | Err err =>
      let! _ := setNotReady llmEngine LLMEngineReasonModelRepositoryFetchFailed (emsg err) in
      Ret (no_requeue, None)
  | Ok modelRepos =>
      if bool_decide (modelRepos = []) then
        let! _ := setNotReady llmEngine LLMEngineReasonNoModelsFound "No ModelRepository resources found" in
        Ret (requeue_after 30, None)
      else
        match List.find (fun mr => negb (bool_decide (mst_Phase (mr_Status mr) = DownloadPhaseReady)))
                modelRepos with
        | Some modelRepo => wait_for llmEngine modelRepo
        | None =>
            if DetectGPURequest llmEngine then
              let! e := validateGPUAvailability llmEngine (required_node modelRepos) in
              match e with
              | Some err =>
                  let! _ := setNotReady llmEngine LLMEngineReasonGPUNotAvailable (emsg err) in
                  Ret (requeue_after 60, None)
              | None => deploy_models llmEngine modelRepos
              end
            else deploy_models llmEngine modelRepos
        end
  end.

Definition Reconcile (ns name : string) : prog (Result * err_opt) :=
  let! r := call (GetLLMEngine ns name) in
  match r with
  | Err err => Ret (no_requeue, if IsNotFound err then None else Some err)
  | Ok llmEngine =>
      if bool_decide (meta_DeletionTimestamp (le_Meta llmEngine) <> None) then
        let! e := handleDeletion llmEngine in Ret (no_requeue, e)
      else if negb (ContainsFinalizer (le_Meta llmEngine) LLMEngineFinalizer) then
        let! r := call (UpdateLLMEngine
                    (le_with_Meta (AddFinalizer (le_Meta llmEngine) LLMEngineFinalizer) llmEngine)) in
        match r with
        | Err err => Ret (no_requeue, Some err)
        | Ok llmEngine => reconcile_engine llmEngine
        end
      else reconcile_engine llmEngine
  end.

(** *** Events *)

(** The engines to reconcile when a repository changes. *)
Definition modelRepositoryToLLMEngine (modelRepo : ModelRepository) : prog (list (string * string)) :=
  let! r := call ListLLMEngines in
  match r with
  | Err _ => Ret []
  | Ok engines =>
      Ret (map (fun e => (le_Namespace e, le_Name e)) (List.filter (references (mr_Name modelRepo)) engines))
  end.

End Controller.
