(* ===== verification/EngineLife.v ===== *)
(** * Engines on the in-memory API server

    The LLMEngine controller run against MemServer.v: the life of an engine, what
    goes wrong with long names and with failing deletions, and the runs that
    EngineSafety.v uses as witnesses. *)

From S2P Require Import Prelude Naming Api Kube Machinery MemServer StorageDiscovery Backend.
From S2P Require Import EngineStorage StorageProvider Jobs RepoController RepoSafety GoStd EngineConfig.
From S2P Require Import VllmConfig EngineAdapters Workload EngineStatus EngineController.

Local Open Scope go_scope.

(** The engine [name] in [team], for the repository [repo], with a GPU or not. *)
Definition life_engine (name repo : string) (gpu : option GPUConfig) : LLMEngine :=
  mkLLMEngine (meta_with_Namespace "team" (meta_with_Name name meta_empty))
    (mkLLMEngineSpec LLMEngineTypeVLLM [mkModelReference repo EmptyString EmptyString]
       EmptyString [] [] 0 0 None ∅ None gpu false)
    (mkLLMEngineStatus EmptyString [] []).

(** A repository that is ready, on an NFS volume. *)
Definition life_repo (repo : string) : ModelRepository :=
  mkModelRepository (meta_with_Name repo meta_empty) witness_repo_spec
    (mkModelRepositoryStatus DownloadPhaseReady
       [condition ModelRepoConditionReady ConditionTrue ModelRepoReasonAllRevisionsReady "All revisions downloaded successfully"]
       (Some witness_storage_status) [] EmptyString).

Definition engine_cluster (name repo : string) (gpu : option GPUConfig) : cluster :=
  set_engines {[("team", name) := life_engine name repo gpu]}
    (set_repos {[repo := life_repo repo]} empty_cluster).

Abbreviation engine_run := (trace * outcome (Result * err_opt) * cluster)%type.

Definition reconcile_on (srv : server cluster) (name : string) (c : cluster) : engine_run :=
  run srv (@EngineController.Reconcile Reference.machinery witness_range witness_yaml "team" name) c.

(** The volume binder binds every claim; every deployment gets a ready pod;
    somebody deletes the engine. *)
Definition bind_claims (c : cluster) : cluster :=
  set_pvcs (fmap (fun p => mkPVC (pvc_Meta p) (pvc_AccessModes p) (pvc_Request p)
    (pvc_StorageClassName p) (pvc_VolumeName p) ClaimBound (Some (pvc_Request p))) (cl_pvcs c)) c.
Definition start_pods (c : cluster) : cluster :=
  set_deployments (fmap (fun d => mkDeployment (dep_Meta d) (dep_Replicas d) (dep_MatchLabels d)
    (dep_TemplateLabels d) (dep_Pod d) 1) (cl_deployments c)) c.
Definition delete_engine (name : string) (c : cluster) : cluster :=
  set_engines (st_delete le_Meta le_with_Meta 7 ("team", name) (cl_engines c)).2 c.

(** The phase of the engine (if there is one), the numbers of volumes, claims,
    config maps, deployments and services, what the repository reports, and how
    many writes a pass made. *)
Definition engine_summary (name repo : string) (r : engine_run) :
    option string * list nat * option string * nat :=
  let '(t, _, c) := r in
  ((fun e => lst_Phase (le_Status e)) <$> cl_engines c !! ("team", name),
   [size (cl_pvs c); size (cl_pvcs c); size (cl_configmaps c); size (cl_deployments c);
    size (cl_services c)],
   (fun mr => mst_ReferencedEngines (mr_Status mr)) <$> cl_repos c !! repo,
   writes t).

(** The life of an engine, reconciled on the in-memory API server.
    The first pass protects the engine, creates the volume and the claim and
    reports Pending; once the claim is bound the next one applies config map,
    deployment and service, tells the repository and reports Starting; once a pod
    is ready the next one reports Running, and the one after that only applies the
    three objects again.  Deleted, the engine goes in one pass with its volume and
    its claim, and the repository no longer reports it. *)
Theorem engine_life :
  let step c := reconcile_on mem "chat" c in
  let r1 := step (engine_cluster "chat" "llama" None) in
  let r2 := step (bind_claims r1.2) in
  let r3 := step (start_pods r2.2) in
  let r4 := step r3.2 in
  let r5 := step (delete_engine "chat" r4.2) in
  map (engine_summary "chat" "llama") [r1; r2; r3; r4; r5] =
    [(Some "Pending", [1; 1; 0; 0; 0], Some "", 4);
     (Some "Starting", [1; 1; 1; 1; 1], Some "team/chat", 5);
     (Some "Running", [1; 1; 1; 1; 1], Some "team/chat", 4);
     (Some "Running", [1; 1; 1; 1; 1], Some "team/chat", 3);
     (None, [0; 0; 1; 1; 1], Some "", 6)]%nat.
Proof. vm_compute. reflexivity. Qed.

(** ** Long names *)

(** The names of the deployments a pass applied, and of those it looked up. *)
Definition applied_names (t : trace) : list string :=
  omap (fun ev => match ev with Ev (ApplyDeployment d) _ => Some (meta_Name (dep_Meta d)) | _ => None end) t.
Definition looked_up_names (t : trace) : list string :=
  omap (fun ev => match ev with Ev (GetDeployment _ n) _ => Some n | _ => None end) t.

Definition long_engine : string := "production-chat-assistant-europe".
Definition long_repo : string := "llama-3-70b-instruct-awq".

(** Reconcile looks a deployment up under the engine's and the repository's names
    joined by a dash; ComponentName, under which it applies it, cuts a name of more
    than 52 bytes.  Here the deployment the pass applied has a ready pod, the one it
    looks up does not exist, and the engine stays Starting (LongNames.v proves that
    it always does). *)
Theorem long_names_run :
  let step c := reconcile_on mem long_engine c in
  let r1 := step (engine_cluster long_engine long_repo None) in
  let r2 := step (bind_claims r1.2) in
  let r3 := step (start_pods r2.2) in
  map (engine_summary long_engine long_repo) [r1; r2; r3] =
    [(Some "Pending", [1; 1; 0; 0; 0], Some "", 4);
     (Some "Starting", [1; 1; 1; 1; 1], Some (String.append "team/" long_engine), 5);
     (Some "Starting", [1; 1; 1; 1; 1], Some (String.append "team/" long_engine), 3)]%nat /\
  looked_up_names r3.1.1 = [long_engine +:+ "-" +:+ long_repo] /\
  exists n, applied_names r3.1.1 = [n] /\ ComponentName long_engine long_repo = Done n /\
    dep_ReadyReplicas <$> cl_deployments r3.2 !! ("team", n) = Some 1%Z.
Proof.
  split; [vm_compute; reflexivity|]. split; [vm_compute; reflexivity|].
  eexists. split; [vm_compute; reflexivity|]. split; vm_compute; reflexivity.
Qed.

(** ** Failing deletions *)

(** An API server that refuses to update claims. *)
Definition no_claim_updates : server cluster := fun r c =>
  match r as r return resp r * cluster with
  | UpdatePVC _ => (Some (fail Other "forbidden"), c)
  | r => mem r c
  end.

(** An engine that runs, and has been asked to go. *)
Definition running_cluster : cluster :=
  let step c := reconcile_on mem "chat" c in
  (step (start_pods (step (bind_claims (step (engine_cluster "chat" "llama" None)).2)).2)).2.
Definition leaving_cluster : cluster := delete_engine "chat" running_cluster.

(** A failed cleanup is forgotten.  When the claim can not be
    updated, deleting the engine reports success and removes the engine, while the
    claim and the volume stay, with the finalizer that only the cleanup of this
    engine removes; and later passes find no engine and do nothing. *)
Theorem failed_cleanup_is_forgotten :
  let r1 := reconcile_on no_claim_updates "chat" leaving_cluster in
  let r2 := reconcile_on mem "chat" r1.2 in
  r1.1.2 = Done (no_requeue, None) /\ cl_engines r1.2 !! ("team", "chat") = None /\
  writes r2.1.1 = 0%nat /\
  (exists pvc, cl_pvcs r2.2 !! ("team", "le-chat-llama") = Some pvc /\
     LLMEngineStorageFinalizer ∈ meta_Finalizers (pvc_Meta pvc)) /\
  (exists pv, cl_pvs r2.2 !! "le-chat-llama" = Some pv /\
     LLMEngineStorageFinalizer ∈ meta_Finalizers (pv_Meta pv)).
Proof.
  cbv zeta. split; [vm_compute; reflexivity|]. split; [vm_compute; reflexivity|].
  split; [vm_compute; reflexivity|]. split.
  - eexists. split; [vm_compute; reflexivity|]. cbn. by left.
  - eexists. split; [vm_compute; reflexivity|]. cbn. by left.
Qed.

Definition witness_pass : engine_run := reconcile_on mem "chat" running_cluster.
Definition witness_leaving : engine_run := reconcile_on mem "chat" leaving_cluster.

Lemma run_parts {W A} (srv : server W) (p : prog A) w :
  run srv p w = ((run srv p w).1.1, (run srv p w).1.2, (run srv p w).2).
Proof. by destruct (run srv p w) as [[??]?]. Qed.
