(* ===== verification/EngineProgress.v ===== *)
(** * What a pass over an engine achieves

    The LLMEngine controller against the in-memory API server, step by step, with
    the rules of Leads.v: for an arbitrary engine that can be served ([live]), a
    pass makes a claim that is missing, or deploys every repository, or finds all
    of them started and reports Running.  EngineConvergence.v repeats it. *)

From S2P Require Import Prelude Naming Api Kube Machinery MemServer Frames Leads StorageDiscovery Backend.
From S2P Require Import EngineStorage StorageProvider Jobs RepoController GoStd EngineConfig.
From S2P Require Import VllmConfig EngineAdapters Workload EngineStatus EngineController EngineLife.

Local Open Scope go_scope.

Section Pass.
Context `{L : MachineryLaws} `{Rg : GoRange} `{Y : Yaml}.
Context (ns name : string) (spec : LLMEngineSpec).

Definition repo_names : list string := map ref_Name (les_ModelRefs spec).
Definition workload_name (r : string) : string := name +:+ "-" +:+ r.

(** What has to hold of the engine for it to run at all: a known type, some
    repository, and names that the generated ones have room for (see
    [long_names_never_ready] and [names_can_panic]). *)
Record deployable_spec : Prop := {
  spec_type : known_engine (les_EngineType spec);
  spec_repos : repo_names <> [];
  spec_volume r : r ∈ repo_names -> exists n, llmEnginePVName name r = Done n;
  spec_fits r : r ∈ repo_names -> (len (workload_name r) <= 52)%Z;
}.

(** An engine with this spec. *)
Definition this_engine (e : LLMEngine) : Prop :=
  le_Namespace e = ns /\ le_Name e = name /\ le_Spec e = spec.

(** A repository that is ready, on storage an engine can mount. *)
Record ready_repo (r : string) (mr : ModelRepository) : Prop := {
  ready_name : mr_Name mr = r;
  ready_alive : meta_DeletionTimestamp (mr_Meta mr) = None;
  ready_phase : mst_Phase (mr_Status mr) = DownloadPhaseReady;
  ready_storage : exists st ref q src hp, mst_Storage (mr_Status mr) = Some st /\
    ss_BackendRef st = Some ref /\ ParseQuantity (ss_Capacity st) = Ok q /\
    read_only_volume ref = Ok (src, hp);
  ready_config e : this_engine e -> les_EngineType spec = LLMEngineTypeVLLM ->
    exists y, yaml_Marshal (engine_vllm_config e mr) = Ok y;
}.

(** *** The cluster, as far as this engine is concerned *)

(** (The claim has the name of the volume.) *)
Definition claim_of (c : cluster) (r : string) : option PersistentVolumeClaim :=
  match llmEnginePVName name r with
  | Done n => cl_pvcs c !! (ns, n)
  | Panicked _ => None
  end.
Definition volume_of (c : cluster) (r : string) : option PersistentVolume :=
  match llmEnginePVName name r with
  | Done n => cl_pvs c !! n
  | Panicked _ => None
  end.
Definition deployment_of (c : cluster) (r : string) : option Deployment :=
  cl_deployments c !! (ns, workload_name r).

Definition bound (c : cluster) (r : string) : Prop :=
  exists pvc, claim_of c r = Some pvc /\ pvc_Phase pvc = ClaimBound.
Definition started (c : cluster) (r : string) : Prop :=
  exists d, deployment_of c r = Some d /\ (0 < dep_ReadyReplicas d)%Z.
Definition running (c : cluster) : Prop :=
  exists e, cl_engines c !! (ns, name) = Some e /\ lst_Phase (le_Status e) = "Running" /\
    lst_ModelRepositories (le_Status e) = repo_names.

(** The GPUs the engine asks for are there. *)
Definition has_gpus (c : cluster) : Prop :=
  forall gpu, les_GPU spec = Some gpu -> gpu_Enabled gpu = true ->
    (exists node, node ∈ cl_nodes c /\ is_suitable_node gpu node = true) /\
    forall r mr, r ∈ repo_names -> cl_repos c !! r = Some mr ->
      RequiresNodeAffinity mr = true -> GetBoundNodeName mr <> EmptyString ->
      exists node, (mem (GetNode (GetBoundNodeName mr)) c).1 = Ok node /\ is_suitable_node gpu node = true.

(** The engine can be served: it is there and stays, its repositories are ready,
    a claim of its has a volume, and there are the GPUs. *)
Definition present (c : cluster) : Prop :=
  exists e, cl_engines c !! (ns, name) = Some e /\ this_engine e /\
    meta_DeletionTimestamp (le_Meta e) = None.

Record live (c : cluster) : Prop := {
  live_engine : present c;
  live_repos r : r ∈ repo_names -> exists mr, cl_repos c !! r = Some mr /\ ready_repo r mr;
  live_storage r : r ∈ repo_names -> is_Some (claim_of c r) -> is_Some (volume_of c r);
  live_gpus : has_gpus c;
}.

(** The claims there are have been bound. *)
Definition settled (c : cluster) : Prop :=
  forall r, r ∈ repo_names -> is_Some (claim_of c r) -> bound c r.

(** What a pass keeps: claims and volumes stay as they are, deployments keep
    their ready pods, repositories only report differently, and what the engine
    has nothing to do with stays. *)
Record grows (c c' : cluster) : Prop := {
  grows_claims : cl_pvcs c ⊆ cl_pvcs c';
  grows_volumes : cl_pvs c ⊆ cl_pvs c';
  grows_deployments k d : cl_deployments c !! k = Some d ->
    exists d', cl_deployments c' !! k = Some d' /\ dep_ReadyReplicas d' = dep_ReadyReplicas d;
  grows_repos : all_retold (cl_repos c) (cl_repos c');
  grows_rest : cl_jobs c' = cl_jobs c /\ cl_nodes c' = cl_nodes c /\ cl_classes c' = cl_classes c;
}.

#[local] Instance grows_preorder : PreOrder grows.
Proof.
  split.
  - intros c. split; [done..|eauto|reflexivity|done].
  - intros c1 c2 c3 [A1 A2 A3 A4 A5] [B1 B2 B3 B4 B5]. split; [by etrans..| |by etrans|intuition congruence].
    intros k d (d' & H' & Hd)%A3. destruct (B3 _ _ H') as (d'' & H'' & Hd'). exists d''.
    split; [done|congruence].
Qed.

(** One step of a pass. *)
Definition advances (c c' : cluster) : Prop := live c' /\ grows c c'.

Lemma advances_trans c1 c2 c3 : advances c1 c2 -> advances c2 c3 -> advances c1 c3.
Proof. intros [_ H1] [H2 H3]. split; [done|by etrans]. Qed.

Lemma grows_bound c c' r : grows c c' -> bound c r -> bound c' r.
Proof.
  intros Hg (pvc & Hc & Hb). exists pvc. split; [|done]. unfold claim_of in *.
  destruct (llmEnginePVName name r); [|done]. by eapply lookup_weaken, Hg.
Qed.

Lemma grows_started c c' r : grows c c' -> started c r -> started c' r.
Proof.
  intros Hg (d & Hd & Hr). destruct (grows_deployments _ _ Hg _ _ Hd) as (d' & Hd' & E).
  exists d'. by rewrite E.
Qed.

Lemma grows_deployed c c' r : grows c c' -> is_Some (deployment_of c r) -> is_Some (deployment_of c' r).
Proof. intros Hg [d Hd]. destruct (grows_deployments _ _ Hg _ _ Hd) as (d' & Hd' & _). by exists d'. Qed.

(** A change of the engine that keeps what it is, or of a repository that keeps
    it ready. *)
Definition wrote_engine (c : cluster) (e : LLMEngine) (c' : cluster) : Prop :=
  this_engine e /\ meta_DeletionTimestamp (le_Meta e) = None /\
  exists t, c' = set_clock t (set_engines (<[(ns, name) := e]> (cl_engines c)) c).

Lemma wrote_engine_grows c e c' : wrote_engine c e c' -> grows c c'.
Proof. intros (_ & _ & t & ->). split; [done..|cbn; eauto|cbn; reflexivity|done]. Qed.

Lemma wrote_engine_present c e c' : wrote_engine c e c' -> present c'.
Proof. intros (He & Hd & t & ->). exists e. cbn. by rewrite lookup_insert_eq. Qed.

Lemma wrote_engine_advances c e c' : live c -> wrote_engine c e c' -> advances c c'.
Proof.
  intros Hc Hw. split; [|by eapply wrote_engine_grows]. split; [by eapply wrote_engine_present|..];
    destruct Hw as (_ & _ & t & ->); apply Hc.
Qed.

Lemma live_set_repo c r mr mr' :
  live c -> cl_repos c !! r = Some mr -> ready_repo r mr' -> retold mr mr' ->
  RequiresNodeAffinity mr' = RequiresNodeAffinity mr -> GetBoundNodeName mr' = GetBoundNodeName mr ->
  advances c (set_repos (<[r := mr']> (cl_repos c)) c).
Proof.
  intros Hc Hmr Hr Ht Ha Hb. split; [|by split; [done..|eauto|by eapply all_retold_insert|]].
  split; [apply Hc|..|apply Hc|].
  - intros r' Hr'. cbn. destruct (decide (r' = r)) as [->|Hn].
    + exists mr'. rewrite lookup_insert_eq. done.
    + rewrite lookup_insert_ne by done. by apply Hc.
  - intros gpu Hg He. destruct (live_gpus _ Hc gpu Hg He) as [H1 H2]. split; [done|].
    intros r' mr'' Hr' Hl Hra Hbn. cbn in Hl. destruct (decide (r' = r)) as [->|Hn].
    + rewrite lookup_insert_eq in Hl. injection Hl as <-. rewrite Hb in *.
      apply (H2 r mr); [done..|congruence|done].
    + rewrite lookup_insert_ne in Hl by done. by apply (H2 r' mr'').
Qed.

(** ** The steps of a pass *)

(** The repositories of the engine, as they are read. *)
Definition read_repo (c : cluster) (mr : ModelRepository) : Prop :=
  cl_repos c !! mr_Name mr = Some mr /\ ready_repo (mr_Name mr) mr.
Definition read_repos (c : cluster) (mrs : list ModelRepository) : Prop :=
  map mr_Name mrs = repo_names /\ Forall (read_repo c) mrs.

Lemma read_repos_in c mrs mr :
  read_repos c mrs -> mr ∈ mrs -> mr_Name mr ∈ repo_names /\ read_repo c mr.
Proof.
  intros [<- H] Hmr. split; [by apply list_elem_of_fmap_2|]. by eapply Forall_forall in H.
Qed.

(** As they are fetched, ready or not. *)
Definition fetchable (c : cluster) : Prop :=
  forall r, r ∈ repo_names -> exists mr, cl_repos c !! r = Some mr /\ mr_Name mr = r.
Definition fetched (c : cluster) (mrs : list ModelRepository) : Prop :=
  map mr_Name mrs = repo_names /\ Forall (fun mr => cl_repos c !! mr_Name mr = Some mr) mrs.

Lemma fetch_any_leads c e :
  fetchable c -> this_engine e ->
  leads mem (fetchModelRepositories e) c (fun r c' => c' = c /\ exists mrs, r = Ok mrs /\ fetched c mrs).
Proof.
  intros Hc (_ & _ & He). unfold fetchModelRepositories. apply leads_bind.
  apply (leads_for_each mem _ _ _ _ (fun pre mrs w => w = c /\
    map mr_Name mrs = map ref_Name pre /\ Forall (fun mr => cl_repos c !! mr_Name mr = Some mr) mrs)).
  - done.
  - intros pre ref mrs w [post Hp] (-> & Hn & Hmrs). rewrite He in Hp.
    destruct (Hc (ref_Name ref)) as (mr & Hmr & Hrn).
    { unfold repo_names. rewrite Hp, !map_app. apply elem_of_app. left. apply elem_of_app. right. by left. }
    eapply leads_call; [reflexivity|]. unfold st_get. rewrite Hmr. cbn. split; [done|].
    split; [rewrite !map_app, Hn; cbn; by rewrite Hrn|].
    apply Forall_app. split; [done|]. constructor; [|done]. by rewrite Hrn.
  - intros mrs w (-> & Hn & Hmrs). cbn. split; [done|]. exists mrs. split; [done|]. by rewrite He in Hn.
Qed.

Lemma live_fetchable c : live c -> fetchable c.
Proof. intros Hc r Hr. destruct (live_repos _ Hc r Hr) as (mr & Hmr & [Hn _ _ _ _]). eauto. Qed.

Lemma fetch_leads c e :
  live c -> this_engine e ->
  leads mem (fetchModelRepositories e) c (fun r c' => c' = c /\ exists mrs, r = Ok mrs /\ read_repos c mrs).
Proof.
  intros Hc He. eapply leads_conseq; [apply fetch_any_leads; [by apply live_fetchable|done]|].
  intros r c' (-> & mrs & -> & Hn & Hl). split; [done|]. exists mrs. split; [done|]. split; [done|].
  apply Forall_forall. intros mr Hmr. pose proof (proj1 (Forall_forall _ _) Hl _ Hmr) as Hlk. split; [done|].
  destruct (live_repos _ Hc (mr_Name mr)) as (mr' & Hmr' & Hready); [|congruence].
  rewrite <- Hn. by apply list_elem_of_fmap_2.
Qed.

(** Setting conditions reads the clock only. *)
Lemma set_conditions_leads conditions cs c (Q : list Condition -> cluster -> Prop) :
  (forall steps t, map snd steps = cs -> Q (conditions_after conditions steps) (set_clock t c)) ->
  leads mem (set_conditions conditions cs) c Q.
Proof.
  revert conditions c Q. induction cs as [|k cs IH]; intros conditions c Q HQ; cbn.
  - specialize (HQ [] (cl_clock c) eq_refl). by destruct c.
  - apply IH. intros steps t Hs. by apply (HQ ((cl_clock c, k) :: steps)); cbn; rewrite Hs.
Qed.

(** A change of the status of the engine. *)
Lemma sync_present c e f cs :
  present c -> this_engine e ->
  leads mem (syncStatus e (fun s => mutate_conditions cs (f s))) c (fun r c' => r = None /\
    exists old new, cl_engines c !! (ns, name) = Some old /\ wrote_engine c new c' /\
      by_conditions cs (f (le_Status old)) (le_Status new)).
Proof.
  intros (fresh & Hl & Hfresh & Fd) (Hns & Hn & _). unfold syncStatus. apply (leads_RetryOnConflict mem (L := L)).
  pose proof Hfresh as (Fns & Fn & Fs). unfold engine_sync_attempt. rewrite Hns, Hn.
  eapply leads_call; [reflexivity|]. unfold st_get. rewrite Hl.
  unfold mutate_conditions. do 2 apply leads_bind. apply set_conditions_leads. intros steps t Hs.
  set (st := lst_with_Phase _ _). cbn [leads].
  assert (Hby : by_conditions cs (f (le_Status fresh)) st) by by exists steps.
  destruct (DeepEqualLLMEngineStatus _ _) eqn:Eq.
  - apply DeepEqualLLMEngineStatus_spec in Eq. cbn. split; [done|]. exists fresh, fresh. split; [done|].
    split; [|clearbody st; by subst st]. split; [done|]. split; [done|]. exists t.
    rewrite insert_id by done. by destruct c.
  - cbn [leads call mem]. unfold meta_key. cbn [le_Meta le_with_Status].
    unfold le_Namespace, le_Name in *. rewrite Fns, Fn.
    rewrite (st_update_fresh le_Meta le_with_Meta) with (old := fresh); [|done..]. cbn [fst snd leads to_opt].
    set (new := bump _ _ _). split; [done|]. exists fresh, new. split; [done|]. split; [|exact Hby].
    split; [done|]. split; [done|]. by exists t.
Qed.

Definition status_changed (R : LLMEngineStatus -> LLMEngineStatus -> Prop) (c c' : cluster) : Prop :=
  exists e e', cl_engines c !! (ns, name) = Some e /\ cl_engines c' !! (ns, name) = Some e' /\
    R (le_Status e) (le_Status e').

Lemma sync_leads c e f cs :
  live c -> this_engine e ->
  leads mem (syncStatus e (fun s => mutate_conditions cs (f s))) c (fun r c' => r = None /\
    advances c c' /\ status_changed (fun s s' => by_conditions cs (f s) s') c c').
Proof.
  intros Hc He. eapply leads_conseq; [apply sync_present; [apply Hc|done]|].
  intros r c' (-> & old & new & Hold & Hw & Hby). split; [done|]. split; [by eapply wrote_engine_advances|].
  exists old, new. split; [done|]. split; [|done]. destruct Hw as (_ & _ & t & ->). apply lookup_insert_eq.
Qed.

Lemma setNotReady_leads c e reason message :
  live c -> this_engine e ->
  leads mem (setNotReady e reason message) c (fun _ c' => advances c c').
Proof.
  intros Hc He. unfold setNotReady. apply leads_bind. eapply leads_conseq.
  - apply (sync_leads c e (fun s => s)); done.
  - by intros r c' (_ & H & _).
Qed.

(** Telling the repositories. *)
Lemma ready_repo_retold r mr mr' : ready_repo r mr -> retold mr mr' -> ready_repo r mr'.
Proof. intros [Hn Ha Hp Hs Hy] (s & v & ->). by split. Qed.

Lemma update_referenced_leads c r s :
  live c -> r ∈ repo_names ->
  leads mem (update_referenced r s) c (fun e c' => e = None /\ advances c c').
Proof.
  intros Hc Hr. unfold update_referenced. destruct (live_repos _ Hc r Hr) as (mr & Hmr & Hready).
  eapply leads_call; [reflexivity|]. unfold st_get. rewrite Hmr. case_bool_decide.
  - cbn. split; [done|]. split; [done|reflexivity].
  - cbn [leads call mem]. unfold mr_Name. cbn [mr_Meta mr_with_Status].
    pose proof (ready_name _ _ Hready) as Hn. unfold mr_Name in Hn. rewrite Hn.
    rewrite (st_update_fresh mr_Meta mr_with_Meta) with (old := mr); [|done..|apply Hready].
    cbn [fst snd leads to_opt]. split; [done|]. set (mr' := bump _ _ _).
    assert (Ht : retold mr mr') by (exists s; by eexists).
    apply (live_set_repo c r mr); [done|done|by eapply ready_repo_retold|done..].
Qed.

Lemma updateReferencedEngines_leads c names :
  live c -> (forall n, n ∈ names -> n ∈ repo_names) ->
  leads mem (updateReferencedEngines names) c (fun _ c' => advances c c').
Proof.
  intros Hc Hn. unfold updateReferencedEngines. eapply leads_call; [reflexivity|]. cbn beta iota.
  apply leads_bind. apply (leads_for_each mem _ _ _ _ (fun _ _ c' => advances c c')).
  - split; [done|reflexivity].
  - intros pre r [] c1 [post Hp] Ha. apply leads_bind. eapply leads_conseq.
    + apply (leads_RetryOnConflict mem (L := L)), update_referenced_leads; [apply Ha|]. apply Hn. rewrite Hp.
      apply elem_of_app. left. apply elem_of_app. right. by left.
    + intros e c2 [-> H2]. cbn. by eapply advances_trans.
  - done.
Qed.

(** *** GPUs *)

Lemma required_node_cases mrs :
  required_node mrs = EmptyString \/
  exists mr, mr ∈ mrs /\ RequiresNodeAffinity mr = true /\ required_node mrs = GetBoundNodeName mr.
Proof.
  induction mrs as [|mr mrs IH]; [by left|]. cbn. destruct (_ && _) eqn:E.
  - right. exists mr. bool_hyps. split; [by left|done].
  - destruct IH as [IH|(mr' & Hin & IH)]; [by left|]. right. exists mr'. split; [by right|done].
Qed.

Lemma suitable_valid gpu n node c :
  (mem (GetNode n) c).1 = Ok node -> is_suitable_node gpu node = true ->
  leads mem (validate_required_node gpu n) c (fun e c' => e = None /\ c' = c).
Proof.
  intros Hn Hs. unfold validate_required_node. cbv zeta. cbn [call prog_bind leads].
  rewrite Hn. change (mem (GetNode n) c).2 with c.
  unfold is_suitable_node, is_gpu_node in Hs. cbv zeta in Hs. bool_hyps.
  rewrite H. destruct (selector_mismatch _ _); [done|].
  replace (_ <? _)%Z with false; [done|]. symmetry. apply Z.ltb_ge. by apply Z.leb_le.
Qed.

Lemma filter_map_nonempty {A} (f : A -> bool) (g : A -> string) x l :
  x ∈ l -> f x = true -> map g (List.filter f l) <> [].
Proof.
  intros Hx Hf H. apply list_elem_of_In in Hx.
  assert (Hin : In x (List.filter f l)) by by apply filter_In.
  destruct (List.filter f l); [by apply in_nil in Hin|done].
Qed.

Lemma suitable_somewhere gpu node c :
  node ∈ cl_nodes c -> is_suitable_node gpu node = true ->
  leads mem (validate_cluster gpu) c (fun e c' => e = None /\ c' = c).
Proof.
  intros Hin Hs. unfold validate_cluster. cbv zeta. eapply leads_call; [reflexivity|]. cbn beta iota.
  assert (Hg : is_gpu_node (gpu_type_or_default (gpu_Type gpu)) node = true).
  { unfold is_suitable_node in Hs. cbv zeta in Hs. by bool_hyps. }
  rewrite !bool_decide_false; [done|by eapply filter_map_nonempty..].
Qed.

Lemma validate_leads c e mrs :
  live c -> this_engine e -> read_repos c mrs ->
  leads mem (validateGPUAvailability e (required_node mrs)) c (fun r c' => r = None /\ c' = c).
Proof.
  intros Hc (_ & _ & Hs) Hm. unfold validateGPUAvailability. rewrite Hs.
  destruct (les_GPU spec) as [gpu|] eqn:Eg; [|done]. destruct (gpu_Enabled gpu) eqn:Ee; [|done].
  destruct (live_gpus _ Hc gpu Eg Ee) as [(node & Hin & Hsn) Hb]. cbn [negb].
  case_bool_decide as Hr; [|by eapply suitable_somewhere].
  destruct (required_node_cases mrs) as [E|(mr & Hmr & Ha & E)]; [done|].
  rewrite E in *.
  destruct (read_repos_in _ _ _ Hm Hmr) as (H1 & H2 & _).
  destruct (Hb _ _ H1 H2 Ha Hr) as (node' & Hn & Hs'). by eapply suitable_valid.
Qed.

(** *** Storage *)

Lemma live_add_volume c n pv :
  live c -> cl_pvs c !! n = None -> advances c (set_pvs (<[n := pv]> (cl_pvs c)) c).
Proof.
  intros Hc Hn. split.
  - split; [apply Hc..| |apply Hc]. intros r Hr Hs. destruct (live_storage _ Hc r Hr Hs) as [v Hv].
    unfold volume_of in *. cbn. destruct (llmEnginePVName name r) as [m|]; [|done].
    destruct (decide (m = n)) as [->|Hne]; [by rewrite lookup_insert_eq|]. by rewrite lookup_insert_ne.
  - split; cbn; [done|by apply insert_subseteq|eauto|reflexivity|done].
Qed.

Lemma live_add_claim c n pvc :
  live c -> cl_pvcs c !! (ns, n) = None -> is_Some (cl_pvs c !! n) ->
  advances c (set_pvcs (<[(ns, n) := pvc]> (cl_pvcs c)) c).
Proof.
  intros Hc Hn Hv. split.
  - split; [apply Hc..| |apply Hc]. intros r Hr Hs. unfold claim_of, volume_of in *. cbn in *.
    pose proof (live_storage _ Hc r Hr) as Hst. unfold claim_of, volume_of in Hst.
    destruct (llmEnginePVName name r) as [m|]; [|done].
    destruct (decide (m = n)) as [->|Hne]; [done|]. apply Hst.
    by rewrite lookup_insert_ne in Hs by congruence.
  - split; cbn; [by apply insert_subseteq|done|eauto|reflexivity|done].
Qed.

Lemma ensure_bound_leads c e mr pvc :
  live c -> this_engine e -> mr_Name mr ∈ repo_names -> ready_repo (mr_Name mr) mr ->
  claim_of c (mr_Name mr) = Some pvc -> pvc_Phase pvc = ClaimBound ->
  leads mem (EnsureLLMEngineStorage e mr) c (fun r c' => c' = c /\ exists res, r = Ok res).
Proof.
  intros Hc (Hns & Hn & _) Hr Hready Hpvc Hb.
  destruct (live_storage _ Hc _ Hr) as [pv Hpv]; [by eexists|].
  destruct (ready_storage _ _ Hready) as (st & ref & q & src & hp & H1 & H2 & H3 & H4).
  unfold claim_of, volume_of in *. destruct (llmEnginePVName name (mr_Name mr)) as [n|] eqn:En; [|done].
  rewrite <- Hn in En. apply leads_of_run.
  erewrite (ensure_bound (L := L) e mr st ref n n q src hp H1 H2 En En H3 H4); [|done|by rewrite Hns|done].
  split; [done|]. by eexists.
Qed.

(** The claim is missing: it is made, with the volume if that is missing too, and
    the pass is over. *)
Lemma ensure_pvc_missing e mr st q n c :
  this_engine e -> ParseQuantity (ss_Capacity st) = Ok q ->
  live c -> cl_pvcs c !! (ns, n) = None -> is_Some (cl_pvs c !! n) ->
  leads mem (ensure_engine_pvc e mr st n n) c (fun r c' => (exists err, r = Err err) /\
    advances c c' /\ is_Some (cl_pvcs c' !! (ns, n))).
Proof.
  intros (Hns & _) Hq Hc Hn Hv. unfold ensure_engine_pvc. rewrite (MustParse_ok _ _ Hq), Hns.
  cbn [lift prog_bind]. eapply leads_call; [reflexivity|]. unfold st_get. rewrite Hn.
  change (IsNotFound (fail NotFound "not found")) with true. cbn [negb call prog_bind leads mem].
  unfold engine_pvc, meta_key. cbn [pvc_Meta].
  rewrite !(proj1 (AddFinalizer_name _ _)), !(proj2 (AddFinalizer_name _ _)). cbn.
  rewrite Hns. unfold st_create. rewrite Hn. cbn. split; [by eexists|].
  split; [by apply live_add_claim|]. by rewrite lookup_insert_eq.
Qed.

Lemma ensure_missing_leads c e mr :
  live c -> this_engine e -> deployable_spec -> mr_Name mr ∈ repo_names -> ready_repo (mr_Name mr) mr ->
  claim_of c (mr_Name mr) = None ->
  leads mem (EnsureLLMEngineStorage e mr) c (fun r c' => (exists err, r = Err err) /\
    advances c c' /\ is_Some (claim_of c' (mr_Name mr))).
Proof.
  intros Hc He Hspec Hr Hready Hnone. destruct (spec_volume Hspec _ Hr) as [n Hn].
  destruct (ready_storage _ _ Hready) as (st & ref & q & src & hp & H1 & H2 & H3 & H4).
  destruct (build_ok (L := L) st ref q src hp H3 H4) as [pvspec Hb].
  unfold claim_of in *. rewrite Hn in *. unfold EnsureLLMEngineStorage. rewrite H1, H2.
  pose proof He as (_ & Hen & _). unfold llmEnginePVCName, llmEnginePVName in *. rewrite Hen, Hn, Hb.
  cbn [lift prog_bind]. eapply leads_call; [reflexivity|]. unfold st_get.
  destruct (cl_pvs c !! n) as [v|] eqn:Ev.
  - by apply (ensure_pvc_missing e mr st q n c).
  - change (IsNotFound (fail NotFound "not found")) with true. cbn [negb call prog_bind leads mem].
    assert (Hk : meta_Name (pv_Meta (engine_pv e mr n n pvspec)) = n)
      by exact (proj1 (AddFinalizer_name _ _)).
    rewrite Hk. unfold st_create. rewrite Ev. cbn [fst snd].
    pose proof (live_add_volume c n (engine_pv e mr n n pvspec) Hc Ev) as Ha.
    eapply leads_conseq.
    + apply (ensure_pvc_missing e mr st q n); [done..|apply Ha|done|]. cbn. by rewrite lookup_insert_eq.
    + intros r c' (H5 & H6 & H7). split; [done|]. split; [by eapply advances_trans|done].
Qed.

(** The storage of every repository: all of it is there, or the first claim that
    is missing is made. *)
Lemma ensure_storage_leads c e mrs :
  live c -> settled c -> this_engine e -> deployable_spec -> read_repos c mrs ->
  leads mem (ensure_storage e mrs) c (fun r c' => match r with
    | inl results => c' = c /\ Forall (bound c) repo_names /\
        Forall (fun mr => is_Some (results !! mr_Name mr)) mrs
    | inr early => early.2 = None /\ advances c c' /\
        exists n, n ∈ repo_names /\ claim_of c n = None /\ is_Some (claim_of c' n)
    end).
Proof.
  intros Hc Hset He Hspec Hm. unfold ensure_storage.
  apply (leads_for_each mem _ _ _ _ (fun pre results w => w = c /\
    Forall (fun mr => is_Some (results !! mr_Name mr) /\ bound c (mr_Name mr)) pre)).
  - done.
  - intros pre mr results w [post Hp] [-> Hpre].
    destruct (read_repos_in c mrs mr Hm) as (Hin & Hl & Hready).
    { rewrite Hp. apply elem_of_app. left. apply elem_of_app. right. by left. }
    apply leads_bind. destruct (claim_of c (mr_Name mr)) as [pvc|] eqn:Ec.
    + destruct (Hset _ Hin) as (pvc' & Hpvc & Hb); [by eexists|].
      eapply leads_conseq; [by eapply (ensure_bound_leads c e mr pvc')|].
      intros r c' (-> & res & ->). cbn. split; [done|]. apply Forall_app. split.
      * eapply Forall_impl; [exact Hpre|]. intros mr' [H1 H2]. split; [|done].
        destruct (decide (mr_Name mr = mr_Name mr')) as [->|Hne];
          [by rewrite lookup_insert_eq|by rewrite lookup_insert_ne].
      * repeat constructor; [by rewrite lookup_insert_eq|by exists pvc'].
    + eapply leads_conseq; [by eapply ensure_missing_leads|].
      intros r c1 ([err ->] & Ha & Hs). apply leads_bind.
      eapply leads_conseq; [apply setNotReady_leads; [apply Ha|done]|]. intros u c2 Ha2. cbn in *.
      split; [done|]. split; [by eapply advances_trans|]. exists (mr_Name mr). split; [done|]. split; [done|].
      unfold claim_of in *. destruct (llmEnginePVName name (mr_Name mr)); [|by destruct Hs].
      destruct Hs as [v Hv]. exists v. by eapply lookup_weaken, Ha2.
  - intros results w [-> H]. split; [done|]. destruct Hm as [<- _]. split.
    + apply Forall_fmap. eapply Forall_impl; [exact H|]. by intros mr [_ ?].
    + eapply Forall_impl; [exact H|]. by intros mr [? _].
Qed.

(** *** The component of a repository *)

(** The objects of the templates belong to nobody yet. *)
Lemma deployment_template_unowned t d :
  LoadLLMEngineDeploymentManifest t = Ok d -> meta_OwnerReferences (dep_Meta d) = [].
Proof. unfold LoadLLMEngineDeploymentManifest. repeat case_bool_decide; by intros [= <-]. Qed.

Lemma adapted_owners ctx d d' :
  AdaptDeployment ctx d = Done (Ok d') ->
  meta_OwnerReferences (dep_Meta d') = meta_OwnerReferences (dep_Meta d).
Proof.
  unfold AdaptDeployment. cbv zeta. destruct (ComponentName _ _) as [n|]; [|done]. cbn.
  destruct (pod_Containers _) as [|k ks]; [by intros [= <-]|].
  destruct (adapt_engine_container ctx k); [|done]. cbn. by intros [= <-].
Qed.

Lemma live_workloads c dm sm cm :
  live c -> live (set_deployments dm (set_services sm (set_configmaps cm c))).
Proof. intros Hc. split; apply Hc. Qed.

(** Owning and applying an object of the engine's namespace: only workload
    objects change, and deployments keep their pods. *)
Lemma own_leads ctx what subject obj c :
  live c -> meta_OwnerReferences (obj_Meta obj) = [] ->
  meta_Namespace (obj_Meta obj) = le_Namespace (ctx_LLMEngine ctx) ->
  leads mem (own_and_apply ctx what subject obj) c (fun r c' => r = None /\ advances c c' /\
    match obj with
    | DeploymentObject d => is_Some (cl_deployments c' !! meta_key (dep_Meta d))
    | _ => True
    end).
Proof.
  intros Hc Ho Hns. unfold own_and_apply.
  destruct (SetControllerReference_new (le_Meta (ctx_LLMEngine ctx)) (obj_Meta obj) Ho (or_introl Hns)) as [m' Hm'].
  rewrite Hm'. destruct (owner_rest _ _ _ Hm') as [Hn1 Hn2]. apply leads_bind.
  destruct obj as [d|sv|cm]; cbn in *; (split; [done|]); (split; [|try done]).
  - split; [exact (live_workloads c _ (cl_services c) (cl_configmaps c) Hc)|]. split; cbn; [done..| |reflexivity|done].
    intros k d0 Hd0. destruct (decide (k = meta_key m')) as [->|Hne].
    + rewrite lookup_insert_eq. eexists. split; [done|]. cbn. by rewrite Hd0.
    + rewrite lookup_insert_ne by done. eauto.
  - unfold meta_key. rewrite Hn1, Hn2, lookup_insert_eq. by eexists.
  - split; [exact (live_workloads c (cl_deployments c) _ (cl_configmaps c) Hc)|]. split; cbn; [done..|eauto|reflexivity|done].
  - split; [exact (live_workloads c (cl_deployments c) (cl_services c) _ Hc)|]. split; cbn; [done..|eauto|reflexivity|done].
Qed.

Section Component.
Context (ctx : LLMEngineContext) (e : LLMEngine) (mr : ModelRepository) (cname : string).
Context (He : this_engine e) (Hctx : ctx_LLMEngine ctx = e) (Hmr : ctx_ModelRepo ctx = mr).
Context (Hns : ctx_Namespace ctx = ns) (Hready : ready_repo (mr_Name mr) mr).
Context (Hknown : known_engine (les_EngineType spec)).
Context (Hname : ComponentName name (mr_Name mr) = Done cname).

Lemma ctx_type : les_EngineType (le_Spec (ctx_LLMEngine ctx)) = les_EngineType spec.
Proof. destruct He as (_ & _ & Hs). by rewrite Hctx, Hs. Qed.

Lemma ctx_known : known_engine (les_EngineType (le_Spec (ctx_LLMEngine ctx))).
Proof. by rewrite ctx_type. Qed.

Lemma ctx_namespace : ns = le_Namespace (ctx_LLMEngine ctx).
Proof. destruct He as (H & _). by rewrite Hctx. Qed.

Lemma ctx_name : ComponentName (le_Name (ctx_LLMEngine ctx)) (mr_Name (ctx_ModelRepo ctx)) = Done cname.
Proof. destruct He as (_ & H & _). by rewrite Hctx, Hmr, H. Qed.

Lemma deployment_leads w c :
  live c -> w_adaptDeployment w = Some AdaptDeployment ->
  leads mem (reconcileDeployment w ctx) c (fun r c' => r = None /\ advances c c' /\
    is_Some (cl_deployments c' !! (ns, cname))).
Proof.
  intros Hc Hw. unfold reconcileDeployment.
  destruct (deployment_manifest_ok _ ctx_known) as (t & Ht & _). rewrite Ht. cbv zeta.
  destruct (adapt_deployment_with ctx cname (meta_with_Namespace (ctx_Namespace ctx) (dep_Meta t))
    ctx_known ctx_name) as (t' & d & Ht' & Hd & Hfor & Hdns).
  rewrite Ht in Ht'. injection Ht' as <-. rewrite Hw. cbn [adapt_with]. rewrite Hd.
  cbn [lift prog_bind]. pose proof (adapted_owners _ _ _ Hd) as Ho. cbn in Ho, Hdns.
  eapply leads_conseq.
  - apply own_leads; [done| |].
    + cbn. rewrite Ho. by apply deployment_template_unowned in Ht.
    + cbn. rewrite Hdns, Hns. apply ctx_namespace.
  - cbn. intros r c' (-> & Ha & Hs). split; [done|]. split; [done|].
    unfold meta_key in Hs. by rewrite Hdns, Hns, (deployment_name _ _ _ Hfor) in Hs.
Qed.

Lemma service_leads w c :
  live c -> w_adaptService w = Some AdaptService ->
  leads mem (reconcileService w ctx) c (fun r c' => r = None /\ advances c c').
Proof.
  intros Hc Hw. unfold reconcileService.
  destruct (adapt_service_with ctx cname (meta_with_Namespace (ctx_Namespace ctx)
    (svc_Meta service_template)) ctx_known ctx_name) as [Ht Hs].
  rewrite Ht, Hw. cbv zeta. cbn [adapt_with]. rewrite Hs. cbn [lift prog_bind].
  eapply leads_conseq; [apply own_leads; [done|done|]|].
  - cbn. rewrite Hns. apply ctx_namespace.
  - cbn. by intros r c' (-> & Ha & _).
Qed.

(** For vLLM, the manifest with the configuration. *)
Lemma config_map_leads c :
  live c -> leads mem (reconcile_manifest ctx "vllm-config"
    (NewManifestAdapterWithPredicate (ConfigMapObject (mkConfigMap meta_empty ∅))
       (fun ctx obj => Done (AdaptVLLMConfigMap ctx obj)) IsVLLMEngine)) c
    (fun r c' => r = inl tt /\ advances c c').
Proof.
  intros Hc. unfold reconcile_manifest, IsVLLMEngine.
  cbn [ma_predicate NewManifestAdapterWithPredicate ma_create ma_adapt adapt_with].
  case_bool_decide as Hv; [|by split; [|split]]. cbn [lift prog_bind].
  destruct (adapt_empty_config_map ctx (ctx_Namespace ctx)) as (x & _ & Hxns & Hxo & ->).
  rewrite Hmr, Hctx. destruct (ready_config _ _ Hready e He) as [y Hy]; [by rewrite <- ctx_type|].
  rewrite Hy. cbn [prog_bind]. apply leads_bind. eapply leads_conseq; [by apply own_leads|].
  cbn. by intros r c' (-> & Ha & _).
Qed.

(** The whole component. *)
Lemma component_leads w c :
  live c -> NewModelComponent e mr = Done w ->
  leads mem (Workload.Reconcile w ctx) c (fun r c' => r = None /\ advances c c' /\
    is_Some (cl_deployments c' !! (ns, cname))).
Proof.
  intros Hc Hw. unfold NewModelComponent in Hw.
  pose proof ctx_name as Hcn. rewrite Hctx, Hmr in Hcn. rewrite Hcn in Hw.
  cbn [mbind outcome_bind] in Hw. injection Hw as <-. unfold Workload.Reconcile.
  set (w := Build (if bool_decide _ then _ else _)).
  assert (Hwp : w_predicate w = None) by (unfold w; by destruct (bool_decide _)).
  assert (Hwd : w_adaptDeployment w = Some AdaptDeployment) by (unfold w; by destruct (bool_decide _)).
  assert (Hws : w_adaptService w = Some AdaptService) by (unfold w; by destruct (bool_decide _)).
  rewrite Hwp. unfold updateResources. apply leads_bind.
  eapply (leads_conseq _ _ _ (fun r c' => r = None /\ advances c c')).
  - unfold reconcileManifests. apply leads_bind. unfold w.
    case_bool_decide as Hv; cbn [w_manifestAdapters Build b_manifestAdapters WithManifestAdapter WithServiceAdapter
      WithDeploymentAdapter NewLLMEngineComponent].
    + rewrite insert_empty, range_map_singleton. cbn [for_each]. apply leads_bind.
      eapply leads_conseq; [by apply config_map_leads|]. by intros r c' [-> Ha].
    + rewrite range_map_empty. cbn. split; [done|]. split; [done|reflexivity].
  - intros r c1 [-> H1]. apply leads_bind.
    eapply leads_conseq; [apply deployment_leads; [apply H1|done]|].
    intros r c2 (-> & H2 & Hs). eapply leads_conseq; [apply service_leads; [apply H2|done]|].
    intros r c3 [-> H3]. split; [done|]. split; [by do 2 (eapply advances_trans; [done|])|].
    destruct Hs as [d Hd]. destruct (grows_deployments _ _ (proj2 H3) _ _ Hd) as (d' & Hd' & _).
    by exists d'.
Qed.

End Component.

(** *** The deployments *)

Lemma workload_name_fits r :
  deployable_spec -> r ∈ repo_names -> ComponentName name r = Done (workload_name r).
Proof.
  intros Hspec Hr. pose proof (spec_fits Hspec _ Hr) as Hf. unfold ComponentName, workload_name in *.
  destruct (TruncatedName_cases 52 EmptyString name r) as [(_ & ->)|[(Hl & _)|(Hl & _)]]; [done..| |];
    unfold full_name in Hl; rewrite bool_decide_true in Hl by done; lia.
Qed.

(** The component of one repository: its deployment is there afterwards, and it
    is counted if it had a ready pod. *)
Lemma reconcile_model_leads c e results n mr :
  live c -> this_engine e -> deployable_spec -> mr_Name mr ∈ repo_names ->
  ready_repo (mr_Name mr) mr -> is_Some (results !! mr_Name mr) ->
  leads mem (reconcile_model e results n mr) c (fun r c' => exists n', r = inl n' /\
    advances c c' /\ is_Some (deployment_of c' (mr_Name mr)) /\
    (started c (mr_Name mr) -> n' = (n + 1)%Z)).
Proof.
  intros Hc He Hspec Hr Hready [res Hres]. unfold reconcile_model.
  pose proof (workload_name_fits _ Hspec Hr) as Hcn. pose proof He as (Hns & Hn & _).
  assert (exists w, NewModelComponent e mr = Done w) as [w Hw].
  { unfold NewModelComponent. rewrite Hn, Hcn. by eexists. }
  rewrite Hw, Hres. cbn [lift prog_bind]. cbv zeta. rewrite Hns. apply leads_bind.
  eapply leads_conseq.
  - eapply (component_leads (mkEngineContext e mr ns (PVCName res)) e mr (workload_name (mr_Name mr)));
      try done. apply Hspec.
  - intros r c1 (-> & Ha & [d Hd]). rewrite Hn. eapply leads_call; [reflexivity|].
    unfold st_get. unfold workload_name in Hd. rewrite Hd. cbn [leads]. eexists. split; [done|].
    split; [done|]. split; [by exists d|]. intros Hs.
    destruct (grows_started _ _ _ (proj2 Ha) Hs) as (d' & Hd' & Hp). unfold deployment_of, workload_name in Hd'.
    assert (d' = d) as -> by congruence. by rewrite (proj2 (Z.ltb_lt _ _) Hp).
Qed.

Definition all_started (c : cluster) : Prop := Forall (started c) repo_names.

Lemma reconcile_models_leads c e results mrs :
  live c -> this_engine e -> deployable_spec -> map mr_Name mrs = repo_names ->
  Forall (fun mr => ready_repo (mr_Name mr) mr) mrs ->
  Forall (fun mr => is_Some (results !! mr_Name mr)) mrs ->
  leads mem (for_each mrs 0%Z (reconcile_model e results)) c (fun r c' => exists n, r = inl n /\
    advances c c' /\ Forall (fun r => is_Some (deployment_of c' r)) repo_names /\
    (all_started c -> n = Z.of_nat (length mrs))).
Proof.
  intros Hc He Hspec Hnames Hready Hres.
  apply (leads_for_each mem _ _ _ _ (fun pre n w => advances c w /\
    Forall (fun mr => is_Some (deployment_of w (mr_Name mr))) pre /\
    (all_started c -> n = Z.of_nat (length pre)))).
  - split; [split; [done|reflexivity]|done].
  - intros pre mr n w [post Hp] (Ha & Hd & Hn).
    assert (Hin : mr ∈ mrs).
    { rewrite Hp. apply elem_of_app. left. apply elem_of_app. right. by left. }
    assert (Hr : mr_Name mr ∈ repo_names) by (rewrite <- Hnames; by apply list_elem_of_fmap_2).
    eapply leads_conseq.
    + apply (reconcile_model_leads w e results n mr); [apply Ha|done..| |];
        [exact (proj1 (Forall_forall _ _) Hready _ Hin)|exact (proj1 (Forall_forall _ _) Hres _ Hin)].
    + intros r w' (n' & -> & Ha' & Hd' & Hn'). split; [by eapply advances_trans|]. split.
      * apply Forall_app. split; [|by constructor]. eapply Forall_impl; [exact Hd|].
        intros mr' H. eapply grows_deployed; [apply Ha'|exact H].
      * intros Hall. rewrite length_app. cbn. rewrite Hn', Hn; [lia|done|].
        eapply grows_started; [apply Ha|]. by eapply Forall_forall in Hall.
  - intros n w (Ha & Hd & Hn). exists n. split; [done|]. split; [done|]. split; [|done].
    rewrite <- Hnames. by apply Forall_fmap.
Qed.

(** *** The end of the pass *)

Lemma report_leads c e n :
  live c -> this_engine e ->
  leads mem (report_deployments e repo_names n) c (fun r c' => r = (no_requeue, None) /\ advances c c' /\
    (n = Z.of_nat (length repo_names) -> running c')).
Proof.
  intros Hc He. unfold report_deployments. apply leads_bind.
  set (ready := if (n =? _)%Z then _ else _).
  eapply leads_conseq; [apply (sync_leads c e (lst_with_ModelRepositories repo_names)
    [models_available; ready]); done|].
  intros r c' (-> & Ha & (e0 & e' & _ & He' & Hby)). cbn. split; [done|]. split; [done|]. intros Hn.
  exists e'. split; [done|]. unfold ready in Hby. rewrite (proj2 (Z.eqb_eq _ _) Hn) in Hby.
  by apply (by_conditions_running [models_available]) in Hby as [H1 H2].
Qed.

(** What a pass achieves, from [c]. *)
Record pass_from (c c' : cluster) : Prop := {
  pass_advances : advances c c';
  pass_claims : ~ Forall (bound c) repo_names ->
    exists r, r ∈ repo_names /\ claim_of c r = None /\ is_Some (claim_of c' r);
  pass_deploys : Forall (bound c) repo_names ->
    Forall (fun r => is_Some (deployment_of c' r)) repo_names;
  pass_runs : Forall (bound c) repo_names -> all_started c -> running c';
}.

Lemma deploy_leads c e mrs :
  live c -> settled c -> this_engine e -> deployable_spec -> read_repos c mrs ->
  leads mem (deploy_models e mrs) c (fun r c' => r.2 = None /\ pass_from c c').
Proof.
  intros Hc Hset He Hspec Hm. unfold deploy_models. apply leads_bind.
  eapply leads_conseq; [by apply ensure_storage_leads|]. intros [results|early] c1.
  - intros (-> & Hb & Hres). apply leads_bind. destruct Hm as [Hnames Hready].
    eapply leads_conseq; [apply (reconcile_models_leads c e results mrs); try done|].
    { eapply Forall_impl; [exact Hready|]. by intros mr [_ ?]. }
    intros r c1 (n & -> & H1 & Hd & Hn). rewrite Hnames. cbn beta iota zeta. apply leads_bind.
    eapply leads_conseq; [apply updateReferencedEngines_leads; [apply H1|done]|]. intros u c2 H2. cbn beta in *.
    eapply leads_conseq; [apply report_leads; [apply H2|done]|]. intros r c3 (-> & H3 & Hrun).
    split; [done|]. split; [by do 2 (eapply advances_trans; [done|])|done| |].
    + intros _. eapply Forall_impl; [exact Hd|]. intros r' H.
      eapply grows_deployed; [apply H3|]. eapply grows_deployed; [apply H2|exact H].
    + intros _ Hall. apply Hrun. rewrite (Hn Hall), <- Hnames. by rewrite length_map.
  - intros (Herr & Ha & r & Hr & Hnone & Hsome).
    assert (Hnot : ~ Forall (bound c) repo_names).
    { intros H. eapply Forall_forall in H as (pvc & Hp & _); [|exact Hr]. congruence. }
    cbn. split; [done|]. split; [done|by eauto|by intros ?%Hnot..].
Qed.

Lemma reconcile_engine_leads c e :
  live c -> settled c -> this_engine e -> deployable_spec ->
  leads mem (reconcile_engine e) c (fun r c' => r.2 = None /\ pass_from c c').
Proof.
  intros Hc Hset He Hspec. unfold reconcile_engine. apply leads_bind.
  eapply leads_conseq; [by apply fetch_leads|]. intros r c1 (-> & mrs & -> & Hm).
  rewrite bool_decide_false.
  2: { intros ->. by apply (spec_repos Hspec); destruct Hm as [<- _]. }
  destruct (List.find _ mrs) as [mr|] eqn:Ef.
  - apply find_some in Ef as [Hin Hp]. apply list_elem_of_In in Hin.
    destruct (read_repos_in _ _ _ Hm Hin) as (_ & _ & Hready).
    by rewrite (bool_decide_true _ (ready_phase _ _ Hready)) in Hp.
  - destruct (DetectGPURequest e); [|by apply deploy_leads]. apply leads_bind.
    eapply leads_conseq; [by apply validate_leads|]. intros r c1 [-> ->]. by apply deploy_leads.
Qed.

(** A pass, with the finalizer put on first if it is not there. *)
Lemma wrote_engine_already c e : cl_engines c !! (ns, name) = Some e -> this_engine e ->
  meta_DeletionTimestamp (le_Meta e) = None -> wrote_engine c e c.
Proof.
  intros He Ht Hd. split; [done|]. split; [done|]. exists (cl_clock c). rewrite insert_id by done. by destruct c.
Qed.

Lemma wrote_engine_again c1 e2 c2 e3 c3 : wrote_engine c1 e2 c2 -> wrote_engine c2 e3 c3 -> wrote_engine c1 e3 c3.
Proof.
  intros (_ & _ & t & ->) (H1 & H2 & t' & ->). split; [done|]. split; [done|]. exists t'. cbn.
  unfold set_clock, set_engines. cbn. by rewrite insert_insert_eq.
Qed.

Lemma pass_head c Q :
  present c ->
  (forall e c1, wrote_engine c e c1 -> leads mem (reconcile_engine e) c1 Q) ->
  leads mem (EngineController.Reconcile ns name) c Q.
Proof.
  intros (e & He & Hthis & Hd) HQ. unfold EngineController.Reconcile.
  eapply leads_call; [reflexivity|]. unfold st_get. rewrite He. cbn beta iota.
  rewrite bool_decide_false by (by rewrite Hd; intros []).
  destruct (ContainsFinalizer _ _); cbn [negb]; [by apply HQ, wrote_engine_already|].
  pose proof Hthis as (Hns & Hn & Hs).
  pose proof (AddFinalizer_rest (le_Meta e) LLMEngineFinalizer) as Hrest.
  destruct (same_but_finalizers_name _ _ Hrest) as (Hn' & Hns' & _).
  destruct (same_but_finalizers_version _ _ Hrest) as [Hv' Hd'].
  cbn [call prog_bind leads mem]. unfold meta_key. cbn [le_Meta le_with_Meta].
  unfold le_Namespace, le_Name in Hns, Hn. rewrite Hn', Hns', Hns, Hn.
  rewrite (st_update_fresh le_Meta le_with_Meta) with (old := e);
    [|first [done|cbn; congruence]..]. cbn [fst snd].
  set (e1 := bump _ _ _). apply HQ. split.
  - unfold e1, this_engine, le_Namespace, le_Name. cbn. by rewrite Hn', Hns'.
  - split; [unfold e1; cbn; by rewrite Hd'|]. by exists (cl_clock c).
Qed.

Lemma Reconcile_leads c :
  live c -> settled c -> deployable_spec ->
  leads mem (EngineController.Reconcile ns name) c (fun r c' => r.2 = None /\ pass_from c c').
Proof.
  intros Hc Hset Hspec. apply pass_head; [apply Hc|]. intros e c1 Hw.
  pose proof (wrote_engine_advances _ _ _ Hc Hw) as Ha. destruct Hw as (He & _ & t & ->).
  eapply leads_conseq; [apply (reconcile_engine_leads _ e); [apply Ha|exact Hset|done..]|].
  intros r c' [Hr [H1 H2 H3 H4]]. split; [done|]. split; [by eapply advances_trans|done..].
Qed.

End Pass.
