(* ===== verification/EngineConvergence.v ===== *)
(** * Engines converge

    Reconciled again and again on the in-memory API server, with the rest of the
    cluster binding claims and starting pods in between, every engine that can be
    served ends up Running, and stays so.  EngineLife.v plays one such life; here
    the engine, its repositories and the cluster are arbitrary. *)

From S2P Require Import Prelude Naming Api Kube Machinery MemServer Frames Leads StorageDiscovery Backend.
From S2P Require Import EngineStorage StorageProvider Jobs RepoController GoStd EngineConfig.
From S2P Require Import VllmConfig EngineAdapters Workload EngineStatus EngineController EngineLife.
From S2P Require Import EngineProgress.

Local Open Scope go_scope.

Section Convergence.
Context `{L : MachineryLaws} `{Rg : GoRange} `{Y : Yaml}.
Context (ns name : string) (spec : LLMEngineSpec).

#[local] Abbreviation repo_names := (repo_names spec).
#[local] Abbreviation deployable_spec := (deployable_spec name spec).
#[local] Abbreviation claim_of := (claim_of ns name).
#[local] Abbreviation deployment_of := (deployment_of ns name).
#[local] Abbreviation bound := (bound ns name).
#[local] Abbreviation started := (started ns name).
#[local] Abbreviation all_started := (all_started ns name spec).
#[local] Abbreviation running := (running ns name spec).
#[local] Abbreviation live := (live ns name spec).
#[local] Abbreviation settled := (settled ns name spec).
#[local] Abbreviation pass_from := (pass_from ns name spec).

(** ** Rounds

    After a pass, the rest of the cluster may do anything that leaves the engine
    servable, takes no claim away and binds those there are, and starts the pods
    of the deployments there are. *)
Record helps (c c' : cluster) : Prop := {
  helps_live : live c';
  helps_claims r : r ∈ repo_names -> is_Some (claim_of c r) -> is_Some (claim_of c' r);
  helps_settled : settled c';
  helps_pods r : r ∈ repo_names -> is_Some (deployment_of c r) -> started c' r;
}.

(** The repositories without a claim: the variant. *)
Definition missing (c : cluster) : list string := filter (fun r => claim_of c r = None) repo_names.

Lemma filter_length_mono {A} (P Q : A -> Prop) `{!forall x, Decision (P x), !forall x, Decision (Q x)} l :
  (forall x, x ∈ l -> Q x -> P x) -> length (filter Q l) <= length (filter P l) /\
  ((exists x, x ∈ l /\ P x /\ ~ Q x) -> length (filter Q l) < length (filter P l)).
Proof.
  induction l as [|x l IH]; intros Hl; [split; [done|by intros (x & Hx%elem_of_nil & _)]|].
  destruct IH as [IH1 IH2]; [intros y Hy; apply Hl; by right|].
  rewrite !filter_cons. pose proof (Hl x ltac:(by left)) as Hx.
  split; repeat case_decide; cbn; try lia; try tauto.
  all: intros (y & [->|Hy]%elem_of_cons & HP & HQ); try tauto; specialize (IH2 ltac:(eauto)); lia.
Qed.

Lemma missing_none c : settled c -> missing c = [] -> Forall (bound c) repo_names.
Proof.
  intros Hset Hm. apply Forall_forall. intros r Hr. apply Hset; [done|].
  destruct (claim_of c r) eqn:E; [by eexists|]. exfalso.
  assert (Hin : r ∈ missing c) by by apply list_elem_of_filter. rewrite Hm in Hin. by apply elem_of_nil in Hin.
Qed.

(** One round makes a missing claim, or else deploys everything. *)
Lemma round_progress c c1 c' :
  pass_from c c1 -> settled c -> helps c1 c' ->
  (length (missing c') <= length (missing c))%nat /\
  (missing c <> [] -> (length (missing c') < length (missing c))%nat) /\
  (missing c = [] -> all_started c').
Proof.
  intros Hp Hset Hh. destruct (filter_length_mono (fun r => claim_of c r = None)
    (fun r => claim_of c' r = None) repo_names) as [H1 H2].
  { intros r Hr Hnone. destruct (claim_of c r) as [pvc|] eqn:E; [|done]. exfalso.
    assert (Hs : is_Some (claim_of c1 r)).
    { exists pvc. unfold claim_of in *. destruct (llmEnginePVName name r); [|done].
      eapply lookup_weaken; [exact E|]. apply (pass_advances _ _ _ _ _ Hp). }
    destruct (helps_claims _ _ Hh r Hr Hs) as [? ?]. congruence. }
  split; [exact H1|]. split.
  - intros Hm. apply H2. destruct (pass_claims _ _ _ _ _ Hp) as (r & Hr & Hnone & Hs).
    + intros Hall. destruct (missing c) as [|r l] eqn:E; [done|].
      assert (Hin : r ∈ missing c) by (rewrite E; by left). apply list_elem_of_filter in Hin as [Hnone Hr].
      eapply Forall_forall in Hall as (pvc & Hpvc & _); [|exact Hr]. congruence.
    + exists r. split; [done|]. split; [done|]. destruct (helps_claims _ _ Hh r Hr Hs) as [? ?]. congruence.
  - intros Hm. apply Forall_forall. intros r Hr. apply (helps_pods _ _ Hh r Hr).
    pose proof (pass_deploys _ _ _ _ _ Hp (missing_none _ Hset Hm)) as Hd. by eapply Forall_forall in Hd.
Qed.

(** *** Any number of rounds *)
Section Rounds.
Context (cs : nat -> cluster).
Context (Hspec : deployable_spec) (Hlive : live (cs 0%nat)) (Hset : settled (cs 0%nat)).
Context (Hround : forall i, helps (run mem (EngineController.Reconcile ns name) (cs i)).2 (cs (S i))).

Lemma rounds_live i : live (cs i) /\ settled (cs i).
Proof. destruct i as [|i]; [done|]. split; apply (Hround i). Qed.

Lemma rounds_pass i : exists t res c',
  run mem (EngineController.Reconcile ns name) (cs i) = (t, Done (res, None), c') /\
  pass_from (cs i) c' /\ helps c' (cs (S i)).
Proof.
  destruct (rounds_live i) as [H1 H2].
  destruct (leads_run _ _ _ _ (Reconcile_leads ns name spec _ H1 H2 Hspec)) as (t & [res e] & c' & Hrun & He & Hp).
  cbn in He. subst e. exists t, res, c'. split; [done|]. split; [done|].
  pose proof (Hround i) as Hr. by rewrite Hrun in Hr.
Qed.

Lemma rounds_missing i : (length (missing (cs i)) <= length repo_names - i)%nat.
Proof.
  induction i as [|i IH].
  - rewrite Nat.sub_0_r. apply length_filter.
  - destruct (rounds_pass i) as (t & res & c' & _ & Hp & Hh).
    destruct (round_progress _ _ _ Hp (proj2 (rounds_live i)) Hh) as (H1 & H2 & _).
    destruct (missing (cs i)) as [|r l]; cbn in *; [lia|]. specialize (H2 ltac:(done)). lia.
Qed.

Lemma rounds_running k : (length repo_names < k)%nat ->
  exists t res c', run mem (EngineController.Reconcile ns name) (cs k) = (t, Done (res, None), c') /\ running c'.
Proof.
  intros Hk. destruct k as [|k]; [lia|].
  assert (Hnone : forall i, (length repo_names <= i)%nat -> missing (cs i) = []).
  { intros i Hi. pose proof (rounds_missing i) as Hm. apply nil_length_inv. lia. }
  destruct (rounds_pass (S k)) as (t & res & c' & Hrun & Hp & _). exists t, res, c'. split; [done|].
  apply (pass_runs _ _ _ _ _ Hp).
  - apply missing_none; [apply rounds_live|]. apply Hnone. lia.
  - destruct (rounds_pass k) as (t' & res' & c1 & _ & Hp1 & Hh).
    apply (round_progress _ _ _ Hp1 (proj2 (rounds_live k)) Hh). apply Hnone. lia.
Qed.

End Rounds.

(** The volume binder and the kubelet of EngineLife.v are such a rest. *)
Lemma claim_of_bind c r :
  claim_of (start_pods (bind_claims c)) r =
    (fun p => mkPVC (pvc_Meta p) (pvc_AccessModes p) (pvc_Request p) (pvc_StorageClassName p)
                (pvc_VolumeName p) ClaimBound (Some (pvc_Request p))) <$> claim_of c r.
Proof. unfold claim_of. destruct (llmEnginePVName name r); [|done]. cbn. apply lookup_fmap. Qed.

Lemma binder_and_kubelet_help c : live c -> helps c (start_pods (bind_claims c)).
Proof.
  intros Hc. split.
  - split; [apply Hc..| |apply Hc]. intros r Hr [p Hp]. rewrite claim_of_bind in Hp.
    apply (live_storage _ _ _ _ Hc r Hr). destruct (claim_of c r); [by eexists|done].
  - intros r _ [p Hp]. rewrite claim_of_bind, Hp. by eexists.
  - intros r _ [p Hp]. exists p. split; [done|]. rewrite claim_of_bind in Hp.
    destruct (claim_of c r); [|done]. by injection Hp as <-.
  - intros r _ [d Hd]. eexists. split; [|shelve]. unfold deployment_of. cbn.
    rewrite lookup_fmap. unfold deployment_of in Hd. rewrite Hd. reflexivity.
    Unshelve. cbn. lia.
Qed.

Definition round (c : cluster) : cluster :=
  start_pods (bind_claims (run mem (EngineController.Reconcile ns name) c).2).

Lemma round_helps c :
  live c -> settled c -> deployable_spec ->
  helps (run mem (EngineController.Reconcile ns name) c).2 (round c).
Proof.
  intros H1 H2 H3. unfold round.
  destruct (leads_run _ _ _ _ (Reconcile_leads ns name spec _ H1 H2 H3)) as (t & res & c' & -> & _ & Hp).
  apply binder_and_kubelet_help, (pass_advances _ _ _ _ _ Hp).
Qed.

Lemma rounds_ok c i :
  live c -> settled c -> deployable_spec -> live (Nat.iter i round c) /\ settled (Nat.iter i round c).
Proof.
  intros H1 H2 H3. induction i as [|i [IH1 IH2]]; [done|]. cbn.
  split; [apply (helps_live _ _ (round_helps _ IH1 IH2 H3))|apply (helps_settled _ _ (round_helps _ IH1 IH2 H3))].
Qed.

End Convergence.

(** Property C4: engines converge.  On the in-memory API server take any engine of
    a known type with names that fit, whose repositories are all ready on storage
    that can be mounted (and GPUs if it asks for them), on any cluster where its
    claims are bound, even one with none of its objects.  Let it be reconciled
    again and again, where between two passes the rest of the cluster does
    anything that leaves this so, takes no claim of the engine away, binds those
    there are and starts the pods of its deployments.  Then no pass fails, and
    every pass after as many as there are references ends with the engine
    Running, reporting all of its repositories. *)
Theorem engine_converges `{L : MachineryLaws} `{Rg : GoRange} `{Y : Yaml} ns name spec (cs : nat -> cluster) :
  deployable_spec name spec -> live ns name spec (cs 0%nat) -> settled ns name spec (cs 0%nat) ->
  (forall i, helps ns name spec (run mem (EngineController.Reconcile ns name) (cs i)).2 (cs (S i))) ->
  (forall i, exists t res c',
     run mem (EngineController.Reconcile ns name) (cs i) = (t, Done (res, None), c')) /\
  forall k, (length (les_ModelRefs spec) < k)%nat ->
    running ns name spec (run mem (EngineController.Reconcile ns name) (cs k)).2.
Proof.
  intros Hspec Hlive Hset Hround. split.
  - intros i. destruct (rounds_pass ns name spec cs Hspec Hlive Hset Hround i) as (t & res & c' & H & _).
    by exists t, res, c'.
  - intros k Hk. destruct (rounds_running ns name spec cs Hspec Hlive Hset Hround k) as (t & res & c' & H & Hr).
    + unfold repo_names. by rewrite length_map.
    + by rewrite H.
Qed.

(** A vLLM engine for two repositories that asks for two GPUs. *)
Definition pair_spec : LLMEngineSpec :=
  mkLLMEngineSpec LLMEngineTypeVLLM
    [mkModelReference "llama" EmptyString EmptyString; mkModelReference "mistral" EmptyString EmptyString]
    EmptyString [] [] 0 0 None ∅ None (Some (mkGPUConfig true 2 EmptyString ∅ [])) false.
Definition pair_node : Node :=
  mkNode (meta_with_Name "node-1" meta_empty) {["nvidia.com/gpu" := "4"]}.
Definition pair_cluster : cluster :=
  set_nodes [pair_node]
    (set_engines {[("team", "chat") :=
        mkLLMEngine (meta_with_Namespace "team" (meta_with_Name "chat" meta_empty)) pair_spec
          (mkLLMEngineStatus EmptyString [] [])]}
      (set_repos {["llama" := life_repo "llama"; "mistral" := life_repo "mistral"]} empty_cluster)).

Section Pair.
#[local] Instance pair_machinery : Machinery := Reference.machinery.
#[local] Instance pair_range : GoRange := witness_range.
#[local] Instance pair_yaml : Yaml := witness_yaml.

Lemma pair_names r : r ∈ repo_names pair_spec -> r = "llama" \/ r = "mistral".
Proof. cbn. set_solver. Qed.

Lemma pair_spec_deployable : deployable_spec "chat" pair_spec.
Proof.
  split; [by right|done|..]; intros r [-> | ->]%pair_names;
    [eexists; vm_compute; reflexivity|eexists; vm_compute; reflexivity|by vm_compute|by vm_compute].
Qed.

Lemma pair_repo_ready r : r = "llama" \/ r = "mistral" -> ready_repo "team" "chat" pair_spec r (life_repo r).
Proof.
  intros _. split; [done..| |by eexists].
  eexists _, _, _, _, _. split_and!; reflexivity.
Qed.

Lemma pair_cluster_repo r mr :
  r ∈ repo_names pair_spec -> cl_repos pair_cluster !! r = Some mr -> mr = life_repo r.
Proof. intros [-> | ->]%pair_names; cbn; by intros [= <-]. Qed.

Lemma pair_cluster_unclaimed r : claim_of "team" "chat" pair_cluster r = None.
Proof. unfold claim_of. destruct (llmEnginePVName _ _); [|done]. apply lookup_empty. Qed.

Lemma pair_cluster_settled : settled "team" "chat" pair_spec pair_cluster.
Proof. intros r _. rewrite pair_cluster_unclaimed. by intros []. Qed.

Lemma pair_cluster_live : live "team" "chat" pair_spec pair_cluster.
Proof.
  split.
  - eexists. split; [reflexivity|]. done.
  - intros r [-> | ->]%pair_names; eexists; (split; [reflexivity|]); apply pair_repo_ready; auto.
  - intros r _. rewrite pair_cluster_unclaimed. by intros [].
  - intros gpu [= <-] _. split; [exists pair_node; split; [by left|reflexivity]|].
    intros r mr Hr ->%pair_cluster_repo Ha; [|done]. done.
Qed.

End Pair.

Lemma engine_converges_witness :
  let M := Reference.machinery in
  let R := witness_range in
  let Y := witness_yaml in
  running "team" "chat" pair_spec
    (run mem (EngineController.Reconcile "team" "chat") (Nat.iter 3 (round "team" "chat") pair_cluster)).2.
Proof.
  intros M R Y.
  apply (proj2 (engine_converges (L := Reference.laws) "team" "chat" pair_spec
    (fun i => Nat.iter i (round "team" "chat") pair_cluster)
    pair_spec_deployable pair_cluster_live pair_cluster_settled
    (fun i => round_helps (L := Reference.laws) "team" "chat" pair_spec _
       (proj1 (rounds_ok (L := Reference.laws) "team" "chat" pair_spec _ i pair_cluster_live pair_cluster_settled pair_spec_deployable))
       (proj2 (rounds_ok (L := Reference.laws) "team" "chat" pair_spec _ i pair_cluster_live pair_cluster_settled pair_spec_deployable))
       pair_spec_deployable)) 3%nat).
  cbn. lia.
Defined.
