(* ===== verification/EngineSafety.v ===== *)
(** * Safety of the LLMEngine controller

    One guard, [engine_guard], says what every request of a Reconcile needs in its
    past; [Reconcile_wp] proves that every request has it, whatever the API server
    answers.  The properties below are read off it. *)

From S2P Require Import Prelude Naming Api Kube Machinery MemServer StorageDiscovery Backend.
From S2P Require Import EngineStorage StorageProvider Jobs RepoController RepoSafety GoStd EngineConfig.
From S2P Require Import VllmConfig EngineAdapters Workload EngineStatus EngineController EngineLife.

Local Open Scope go_scope.

(** ** The guard *)
Section Guard.
Context `{M : Machinery} `{Rg : GoRange} `{Y : Yaml}.
Context (ns name : string).

(** The API server gave this engine for the one that is reconciled: when it was
    read, or when the finalizer was added to it. *)
Definition seen_engine (h : trace) (le : LLMEngine) : Prop :=
  answered h (GetLLMEngine ns name) (Ok le) \/
  exists le0, answered h (GetLLMEngine ns name) (Ok le0) /\
    answered h (UpdateLLMEngine
      (le_with_Meta (AddFinalizer (le_Meta le0) LLMEngineFinalizer) le0)) (Ok le).

(** The engine was read with a deletion timestamp. *)
Definition engine_deleted (h : trace) : Prop :=
  exists le, answered h (GetLLMEngine ns name) (Ok le) /\ meta_DeletionTimestamp (le_Meta le) <> None.

(** A node, as the API server returned it, on which the engine's GPUs are: the
    one its storage is bound to when there is one. *)
Definition gpu_available (h : trace) (le : LLMEngine) (requiredNodeName : string) : Prop :=
  DetectGPURequest le = true ->
  exists gpu node, les_GPU (le_Spec le) = Some gpu /\ is_suitable_node gpu node = true /\
    if bool_decide (requiredNodeName <> EmptyString)
    then answered h (GetNode requiredNodeName) (Ok node)
    else exists nodes, answered h ListNodes (Ok nodes) /\ node ∈ nodes.

(** An engine all of whose repositories were read, ready, and whose GPUs were
    found. *)
Record deployable (h : trace) (le : LLMEngine) (mrs : list ModelRepository) : Prop := {
  dep_engine : seen_engine h le;
  dep_fetched : Forall2 (fun ref mr => answered h (GetModelRepository (ref_Name ref)) (Ok mr))
    (les_ModelRefs (le_Spec le)) mrs;
  dep_some : mrs <> [];
  dep_ready : Forall (fun mr => mst_Phase (mr_Status mr) = DownloadPhaseReady) mrs;
  dep_gpu : gpu_available h le (required_node mrs);
}.

(** The engine's claim for a repository, which was bound. *)
Definition claim_bound (h : trace) (le : LLMEngine) (repo claim : string) : Prop :=
  llmEnginePVCName (le_Name le) repo = Done claim /\
  exists pvc, answered h (GetPVC (le_Namespace le) claim) (Ok pvc) /\ pvc_Phase pvc = ClaimBound.

Definition all_bound (h : trace) (le : LLMEngine) (mrs : list ModelRepository) : Prop :=
  Forall (fun mr => exists claim, claim_bound h le (mr_Name mr) claim) mrs.

(** The deployment the controller looks up for a repository has a ready pod. *)
Definition deployment_ready (h : trace) (le : LLMEngine) (mr : ModelRepository) : Prop :=
  exists d, answered h (GetDeployment (le_Namespace le) (le_Name le +:+ "-" +:+ mr_Name mr)) (Ok d) /\
    (0 < dep_ReadyReplicas d)%Z.

Definition all_deployed (h : trace) (le : LLMEngine) : Prop :=
  exists mrs, deployable h le mrs /\ all_bound h le mrs /\ Forall (deployment_ready h le) mrs.

(** A change of the engine's status that the past justifies. *)
Definition engine_justified (h : trace) (le : LLMEngine) (s s' : LLMEngineStatus) : Prop :=
  exists cs s0, by_conditions cs s0 s' /\
    (s0 = s \/ exists mrs, deployable h le mrs /\ s0 = lst_with_ModelRepositories (map mr_Name mrs) s) /\
    forall c, c ∈ cs -> cond_Type c = LLMEngineConditionReady -> cond_Status c = ConditionTrue ->
      all_deployed h le.

Definition engine_guard (h : trace) (r : req) : Prop :=
  match r with
  | UpdateLLMEngine o =>
      (exists le, answered h (GetLLMEngine ns name) (Ok le) /\
         meta_DeletionTimestamp (le_Meta le) = None /\
         o = le_with_Meta (AddFinalizer (le_Meta le) LLMEngineFinalizer) le) \/
      (engine_deleted h /\ exists ns' n fresh, answered h (GetLLMEngine ns' n) (Ok fresh) /\
         o = le_with_Meta (RemoveFinalizer (le_Meta fresh) LLMEngineFinalizer) fresh)
  | UpdateLLMEngineStatus o =>
      exists le fresh st, seen_engine h le /\
        answered h (GetLLMEngine (le_Namespace le) (le_Name le)) (Ok fresh) /\
        o = le_with_Status st fresh /\ st <> le_Status fresh /\ engine_justified h le (le_Status fresh) st
  | UpdateModelRepositoryStatus o =>
      exists n mr engines, answered h (GetModelRepository n) (Ok mr) /\
        answered h ListLLMEngines (Ok engines) /\
        mst_ReferencedEngines (mr_Status mr) <> referenced_str engines n /\
        o = mr_with_Status (mst_with_ReferencedEngines (referenced_str engines n) (mr_Status mr)) mr
  | CreatePV _ | CreatePVC _ =>
      exists le mrs mr, deployable h le mrs /\ mr ∈ mrs /\ ensure_guard le mr h r
  | UpdatePV _ | DeletePV _ | UpdatePVC _ | DeletePVC _ _ =>
      engine_deleted h /\ exists le repo, cleanup_guard le repo h r
  | ApplyConfigMap _ | ApplyDeployment _ | ApplyService _ =>
      exists le mrs mr claim, deployable h le mrs /\ all_bound h le mrs /\ mr ∈ mrs /\
        claim_bound h le (mr_Name mr) claim /\
        workload_guard (mkEngineContext le mr (le_Namespace le) claim) h r
  | _ => is_read r = true
  end.

(** What a panic can come from: a name, or the capacity a ready repository has
    recorded. *)
Definition engine_panics (m : string) : Prop :=
  (exists length prefix a b, TruncatedName length prefix a b = Panicked m) \/
  (exists q, MustParse q = Panicked m).

Definition epost {A} (P : trace -> A -> Prop) (h : trace) (o : outcome A) : Prop :=
  match o with Done a => P h a | Panicked m => engine_panics m end.

(** *** A longer past justifies more *)
Section Mono.
Context (h h' : trace).

Lemma seen_engine_app le : seen_engine h le -> seen_engine (h ++ h') le.
Proof. intros [Hn|(o & H1 & H2)]; [left|right; exists o]; auto with go. Qed.

Lemma engine_deleted_app : engine_deleted h -> engine_deleted (h ++ h').
Proof. intros (le & H1 & H2). exists le. auto with go. Qed.

Lemma gpu_available_app le n : gpu_available h le n -> gpu_available (h ++ h') le n.
Proof.
  intros Hg Hd. destruct (Hg Hd) as (gpu & node & H1 & H2 & H3). exists gpu, node.
  split; [done|]. split; [done|]. destruct (bool_decide _); [auto with go|].
  destruct H3 as (nodes & H3 & H4). exists nodes. auto with go.
Qed.

Lemma deployable_app le mrs : deployable h le mrs -> deployable (h ++ h') le mrs.
Proof.
  intros []. constructor; try done.
  - by apply seen_engine_app.
  - eapply Forall2_impl; [done|]. auto with go.
  - by apply gpu_available_app.
Qed.

Lemma claim_bound_app le repo claim : claim_bound h le repo claim -> claim_bound (h ++ h') le repo claim.
Proof. intros (H1 & pvc & H2 & H3). split; [done|]. exists pvc. auto with go. Qed.

Lemma all_bound_app le mrs : all_bound h le mrs -> all_bound (h ++ h') le mrs.
Proof. intros H. eapply Forall_impl; [done|]. intros mr [c Hc]. exists c. by apply claim_bound_app. Qed.

Lemma deployment_ready_app le mr : deployment_ready h le mr -> deployment_ready (h ++ h') le mr.
Proof. intros (d & H1 & H2). exists d. auto with go. Qed.

Lemma all_deployed_app le : all_deployed h le -> all_deployed (h ++ h') le.
Proof.
  intros (mrs & H1 & H2 & H3). exists mrs. split; [by apply deployable_app|].
  split; [by apply all_bound_app|]. eapply Forall_impl; [done|]. intros mr. apply deployment_ready_app.
Qed.

Lemma engine_justified_app le s s' : engine_justified h le s s' -> engine_justified (h ++ h') le s s'.
Proof.
  intros (cs & s0 & H1 & H2 & H3). exists cs, s0. split; [done|]. split.
  - destruct H2 as [->|(mrs & H2 & ->)]; [by left|right]. exists mrs.
    split; [by apply deployable_app|done].
  - intros c Hc Ht Hs. by apply all_deployed_app, (H3 c).
Qed.

End Mono.

(** *** The pieces the handlers are made of *)
Context {L : MachineryLaws M}.

Lemma engine_sync_ok {A} le R (p : prog A) h Q :
  seen_engine h le ->
  (forall s s', R s s' -> engine_justified h le s s') ->
  wp (engine_sync_guard le R) p h Q -> wp engine_guard p h Q.
Proof.
  intros Hseen HR. apply wp_weaken; [|done]. intros h' r. destruct r; try done.
  intros (fresh & st & H1 & H2 & H3 & H4). exists le, fresh, st. split; [by apply seen_engine_app|].
  repeat (split; [done|]). by apply engine_justified_app, HR.
Qed.

Lemma setNotReady_ok le reason message h :
  seen_engine h le -> wp engine_guard (setNotReady le reason message) h (fun _ o => o = Done tt).
Proof.
  intros Hseen. eapply engine_sync_ok; [done| |apply setNotReady_wp]. intros s s' Hs. eexists _, s. split; [exact Hs|].
  split; [by left|]. by intros c ->%list_elem_of_singleton.
Qed.

(** Ending a handler with a status that is not ready. *)
Lemma not_ready_then {A} le reason message (a : A) h (Q : trace -> outcome A -> Prop) :
  seen_engine h le -> (forall h', Q h' (Done a)) ->
  wp engine_guard (let! _ := setNotReady le reason message in Ret a) h Q.
Proof. intros Hseen HQ. apply wp_bind. eapply wp_conseq; [by apply setNotReady_ok|]. intros h' o ->. apply HQ. Qed.

Lemma fetchModelRepositories_ok le h :
  wp engine_guard (fetchModelRepositories le) h (epost (fun h' r => match r with
    | Ok mrs => Forall2 (fun ref mr => answered h' (GetModelRepository (ref_Name ref)) (Ok mr))
                  (les_ModelRefs (le_Spec le)) mrs
    | Err _ => True
    end)).
Proof.
  unfold fetchModelRepositories. apply wp_bind.
  apply (wp_for_each_prefix _ _ _ _ _ (fun h' refs mrs =>
    Forall2 (fun ref mr => answered h' (GetModelRepository (ref_Name ref)) (Ok mr)) refs mrs)).
  - constructor.
  - intros h' pre mrs ref _ HI. apply wp_call; [done|]. intros [mr|e]; cbn.
    + apply Forall2_app.
      * eapply Forall2_impl; [done|]. auto with go.
      * constructor; [auto with go|constructor].
    + by destruct (IsNotFound e).
  - done.
Qed.

(** *** GPU validation *)

Lemma validate_required_node_ok gpu n h :
  wp engine_guard (validate_required_node gpu n) h (epost (fun h' e => e = None ->
    exists node, is_suitable_node gpu node = true /\ answered h' (GetNode n) (Ok node))).
Proof.
  unfold validate_required_node. cbv zeta. repeat (wp_step; try done); cbn; try done.
  intros _. exists a. split; [|auto with go]. unfold is_suitable_node, is_gpu_node. cbv zeta.
  bool_hyps. rewrite Heqb, Heqo. cbn. apply Z.leb_le. apply Z.ltb_ge in Heqb0. lia.
Qed.

Lemma filter_nonempty {A} (f : A -> bool) (g : A -> string) l :
  map g (List.filter f l) <> [] <-> exists x, x ∈ l /\ f x = true.
Proof.
  split.
  - intros H. destruct (List.filter f l) as [|x l'] eqn:E; [done|]. exists x.
    rewrite list_elem_of_In. apply filter_In. rewrite E. by left.
  - intros (x & Hx & Hf) H. apply list_elem_of_In in Hx.
    destruct (List.filter f l) as [|y l'] eqn:E; [|done].
    by assert (Hin : In x (List.filter f l)) by (by apply filter_In); rewrite E in Hin.
Qed.

Lemma validate_cluster_ok gpu h :
  wp engine_guard (validate_cluster gpu) h (epost (fun h' e => e = None ->
    exists node, is_suitable_node gpu node = true /\
      exists nodes, answered h' ListNodes (Ok nodes) /\ node ∈ nodes)).
Proof.
  unfold validate_cluster. cbv zeta. repeat (wp_step; try done); cbn; try done.
  intros _. bool_hyps. apply filter_nonempty in Heqb0 as (node & Hin & Hs).
  exists node. split; [done|]. exists a. auto with go.
Qed.

Lemma validateGPUAvailability_ok le n h :
  wp engine_guard (validateGPUAvailability le n) h (epost (fun h' e =>
    e = None -> gpu_available h' le n)).
Proof.
  unfold validateGPUAvailability, gpu_available, DetectGPURequest.
  destruct (les_GPU (le_Spec le)) as [gpu|]; [|done].
  destruct (gpu_Enabled gpu); cbn [negb]; [|done].
  case_bool_decide as Hn.
  - eapply wp_conseq; [apply validate_required_node_ok|]. intros h' [e|m] He; [|done]. cbn in *.
    intros He' _. destruct (He He') as (node & H1 & H2). exists gpu, node. done.
  - eapply wp_conseq; [apply validate_cluster_ok|]. intros h' [e|m] He; [|done]. cbn in *.
    intros He' _. destruct (He He') as (node & H1 & H2). exists gpu, node. done.
Qed.

(** *** Storage *)

Lemma EnsureLLMEngineStorage_panics le mr h :
  wp (fun _ _ => True) (EnsureLLMEngineStorage le mr) h
    (fun _ o => match o with Panicked m => engine_panics m | Done _ => True end).
Proof.
  assert (Hpvc : forall st pvName pvcName h, wp (fun _ _ => True)
      (ensure_engine_pvc le mr st pvName pvcName) h
      (fun _ o => match o with Panicked m => engine_panics m | Done _ => True end)).
  { intros. unfold ensure_engine_pvc. repeat (wp_step; try done). right. eauto. }
  unfold EnsureLLMEngineStorage. repeat (wp_step; try done); try apply Hpvc.
  - right. unfold buildReadOnlyPVSpec in *. cbv zeta in *.
    match goal with H : context [MustParse ?q] |- _ => exists q; destruct (MustParse q) as [q'|w] end;
      cbn in *; [|congruence]. by destruct (read_only_volume _) as [[? ?]|].
  - left. do 4 eexists. eassumption.
  - left. do 4 eexists. eassumption.
Qed.

Lemma EnsureLLMEngineStorage_ok le mrs mr h :
  deployable h le mrs -> mr ∈ mrs ->
  wp engine_guard (EnsureLLMEngineStorage le mr) h (epost (fun h' r => match r with
    | Ok res => claim_bound h' le (mr_Name mr) (PVCName res)
    | Err _ => True
    end)).
Proof.
  intros Hd Hin. eapply wp_weaken;
    [..|apply (wp_conj _ _ _ _ _ _ (EnsureLLMEngineStorage_wp le mr h)
                 (EnsureLLMEngineStorage_panics le mr h))].
  - intros h' r [Hg _].
    assert (He : exists le mrs mr, deployable (h ++ h') le mrs /\ mr ∈ mrs /\ ensure_guard le mr (h ++ h') r).
    { exists le, mrs, mr. split; [by apply deployable_app|done]. }
    destruct r; try done.
  - intros h' [[res|e]|m] [Hs Hp]; try done. cbn in *. destruct Hs as (H1 & _ & pvc & [h0 H2] & H3).
    split; [done|]. exists pvc. rewrite H2. auto with go.
Qed.

Lemma CleanupLLMEngineStorage_panics le repo h :
  wp (fun _ _ => True) (CleanupLLMEngineStorage le repo) h
    (fun _ o => match o with Panicked m => engine_panics m | Done _ => True end).
Proof.
  unfold CleanupLLMEngineStorage, cleanup_engine_pvc, cleanup_engine_pv.
  repeat (wp_step; try done); left; do 4 eexists; eassumption.
Qed.

Lemma CleanupLLMEngineStorage_ok le repo h :
  engine_deleted h ->
  wp engine_guard (CleanupLLMEngineStorage le repo) h (epost (fun _ _ => True)).
Proof.
  intros Hd. eapply wp_weaken;
    [..|apply (wp_conj _ _ _ _ _ _ (CleanupLLMEngineStorage_wp le repo h)
                 (CleanupLLMEngineStorage_panics le repo h))].
  - intros h' r [Hg _].
    assert (He : engine_deleted (h ++ h') /\ exists le repo, cleanup_guard le repo (h ++ h') r).
    { split; [by apply engine_deleted_app|]. by exists le, repo. }
    destruct r; try done.
  - by intros h' [r|m] [_ Hp].
Qed.

(** The storage of all repositories: every one has a result, a bound claim. *)
Definition results_for (h : trace) (le : LLMEngine) (mrs : list ModelRepository)
    (results : gmap string LLMEngineStorageResult) : Prop :=
  Forall (fun mr => is_Some (results !! mr_Name mr)) mrs /\
  map_Forall (fun n res => claim_bound h le n (PVCName res)) results.

Lemma results_for_app h h' le mrs results :
  results_for h le mrs results -> results_for (h ++ h') le mrs results.
Proof.
  intros [H1 H2]. split; [done|]. eapply map_Forall_impl; [done|]. intros. by apply claim_bound_app.
Qed.

Lemma results_bound h le mrs results : results_for h le mrs results -> all_bound h le mrs.
Proof.
  intros [H1 H2]. eapply Forall_impl; [done|]. intros mr [res Hres].
  exists (PVCName res). by apply H2.
Qed.

Lemma ensure_storage_ok le mrs h :
  deployable h le mrs ->
  wp engine_guard (ensure_storage le mrs) h (epost (fun h' r => match r with
    | inl results => deployable h' le mrs /\ results_for h' le mrs results
    | inr _ => True
    end)).
Proof.
  intros Hd. unfold ensure_storage.
  apply (wp_for_each_prefix _ _ _ _ _ (fun h' pre results =>
    deployable h' le mrs /\ results_for h' le pre results)).
  - split; [done|]. split; [constructor|apply map_Forall_empty].
  - intros h' pre results mr Hpre [Hd' [Hr1 Hr2]]. apply wp_bind.
    assert (Hin : mr ∈ mrs).
    { destruct Hpre as [post ->]. apply elem_of_app. left. apply elem_of_app. right. by left. }
    eapply wp_conseq; [by apply (EnsureLLMEngineStorage_ok le mrs)|].
    intros h'' [[res|e]|m] Hs; cbn in *;
      [|apply not_ready_then; [by apply seen_engine_app, (dep_engine _ _ _ Hd')|done]|done].
    split; [by apply deployable_app|]. split.
    + apply Forall_app. split.
      * eapply Forall_impl; [done|]. intros mr' Hs'. apply lookup_insert_is_Some'. by right.
      * constructor; [|constructor]. apply lookup_insert_is_Some'. by left.
    + apply map_Forall_insert_2; [done|]. eapply map_Forall_impl; [done|].
      intros. by apply claim_bound_app.
  - done.
Qed.

(** *** Components *)

Lemma NewModelComponent_panics le mr m :
  NewModelComponent le mr = Panicked m -> engine_panics m.
Proof.
  unfold NewModelComponent. destruct (ComponentName _ _) eqn:E; [done|]. intros [= <-].
  left. do 4 eexists. exact E.
Qed.

Lemma component_ok le mrs mr claim w h :
  deployable h le mrs -> all_bound h le mrs -> mr ∈ mrs -> claim_bound h le (mr_Name mr) claim ->
  NewModelComponent le mr = Done w ->
  wp engine_guard (Workload.Reconcile w (mkEngineContext le mr (le_Namespace le) claim)) h
    (epost (fun _ _ => True)).
Proof.
  intros Hd Hb Hin Hc Hw. set (ctx := mkEngineContext _ _ _ _).
  eapply wp_weaken; [..|by apply (Reconcile_component_wp ctx w h)].
  - intros h' r Hg.
    assert (He : exists le mrs mr claim, deployable (h ++ h') le mrs /\ all_bound (h ++ h') le mrs /\
              mr ∈ mrs /\ claim_bound (h ++ h') le (mr_Name mr) claim /\
              workload_guard (mkEngineContext le mr (le_Namespace le) claim) (h ++ h') r).
    { exists le, mrs, mr, claim. split; [by apply deployable_app|]. split; [by apply all_bound_app|].
      split; [done|]. split; [by apply claim_bound_app|done]. }
    destruct r; try done.
  - by intros h' [r|m].
Qed.

(** The loop over the repositories: [totalReady] counts the deployments that were
    seen with a ready pod. *)
Definition counted (h : trace) (le : LLMEngine) (mrs : list ModelRepository)
    (results : gmap string LLMEngineStorageResult) (pre : list ModelRepository) (totalReady : Z) : Prop :=
  deployable h le mrs /\ results_for h le mrs results /\
  (totalReady <= Z.of_nat (length pre))%Z /\
  (totalReady = Z.of_nat (length pre) -> Forall (deployment_ready h le) pre).

Lemma counted_snoc h h' le mrs results pre mr n n' :
  counted h le mrs results pre n ->
  (n' = n \/ n' = (n + 1)%Z /\ deployment_ready (h ++ h') le mr) ->
  counted (h ++ h') le mrs results (pre ++ [mr]) n'.
Proof.
  intros (Hd & Hr & Hle & Hall) Hn'. split; [by apply deployable_app|].
  split; [by apply results_for_app|]. rewrite length_app. cbn.
  split; [destruct Hn' as [->|[-> _]]; lia|]. intros Heq.
  destruct Hn' as [->|[-> Hready]]; [lia|]. apply Forall_app. split; [|by constructor].
  eapply Forall_impl; [apply Hall; lia|]. intros. by apply deployment_ready_app.
Qed.

Lemma reconcile_model_ok le mrs results pre n mr h :
  counted h le mrs results pre n -> mr ∈ mrs ->
  wp engine_guard (reconcile_model le results n mr) h (fun h' o => match o with
    | Done (inl n') => counted h' le mrs results (pre ++ [mr]) n'
    | Done (inr _) => True
    | Panicked m => engine_panics m
    end).
Proof.
  intros Hc Hin. unfold reconcile_model. apply wp_lift; [|intros m; apply NewModelComponent_panics].
  intros w Hw. destruct Hc as (Hd & Hr & Hn).
  destruct (proj1 (Forall_forall _ _) (proj1 Hr) mr Hin) as [res Hres]. rewrite Hres.
  assert (Hclaim : claim_bound h le (mr_Name mr) (PVCName res)) by (by apply (proj2 Hr)).
  apply wp_bind. eapply wp_conseq.
  { eapply component_ok; [done|by eapply results_bound|done..]. }
  intros h' [[e|]|m] He; cbn in He;
    [apply not_ready_then; [by apply seen_engine_app, (dep_engine _ _ _ Hd)|done]| |done].
  apply wp_call; [done|].
  assert (Hc' : counted (h ++ h') le mrs results pre n).
  { destruct Hn as [Hle Hall]. split; [by apply deployable_app|]. split; [by apply results_for_app|].
    split; [done|]. intros Heq. eapply Forall_impl; [by apply Hall|]. intros. by apply deployment_ready_app. }
  intros [d|e]; cbn; (eapply counted_snoc; [exact Hc'|]); [|by left].
  destruct (0 <? dep_ReadyReplicas d)%Z eqn:Ed; [right|by left]. split; [done|].
  exists d. split; [apply answered_snoc|by apply Z.ltb_lt].
Qed.

(** *** References, and the status in the end *)

Lemma update_referenced_ok engines n h :
  answered h ListLLMEngines (Ok engines) ->
  wp engine_guard (update_referenced n (referenced_str engines n)) h
    (fun h' o => answered h' ListLLMEngines (Ok engines) /\ epost (fun _ _ => True) h' o).
Proof.
  intros Hl. unfold update_referenced. apply wp_call; [done|]. intros [mr|e].
  - case_bool_decide as Heq; [split; [auto with go|done]|]. cbn [wp call]. split.
    + exists n, mr, engines. auto with go.
    + intros e. split; [auto with go|done].
  - split; [auto with go|done].
Qed.

Lemma updateReferencedEngines_ok names h :
  wp engine_guard (updateReferencedEngines names) h (epost (fun _ _ => True)).
Proof.
  unfold updateReferencedEngines. apply wp_call; [done|]. intros [engines|e]; [|done].
  apply wp_bind, (wp_for_each _ _ _ _ _ (fun h' _ => answered h' ListLLMEngines (Ok engines))).
  - apply answered_snoc.
  - intros h' [] n _ Hl. apply wp_bind. eapply wp_conseq.
    + apply (wp_RetryOnConflict _ _ _ (fun h => answered h ListLLMEngines (Ok engines))
               (epost (fun _ _ => True))); [done|].
      intros h'' Hl'. by apply update_referenced_ok.
    + by intros h'' [e|m] [Hl' He].
  - done.
Qed.

Lemma report_deployments_ok le mrs n h :
  deployable h le mrs -> all_bound h le mrs ->
  (n = Z.of_nat (length mrs) -> Forall (deployment_ready h le) mrs) ->
  wp engine_guard (report_deployments le (map mr_Name mrs) n) h (epost (fun _ _ => True)).
Proof.
  intros Hd Hb Hall. unfold report_deployments. rewrite length_map. apply wp_bind.
  set (ready := if (n =? _)%Z then _ else _).
  apply (engine_sync_ok le (fun s s' => by_conditions [models_available; ready]
                                   (lst_with_ModelRepositories (map mr_Name mrs) s) s')).
  - by apply (dep_engine _ _ _ Hd).
  - intros s s' Hs. eexists _, _. split; [exact Hs|]. split.
    { right. by exists mrs. }
    intros c Hc Ht Hst. apply elem_of_cons in Hc as [->|Hc]; [done|]. apply list_elem_of_singleton in Hc as ->.
    exists mrs. split; [done|]. split; [done|]. apply Hall. unfold ready in Hst.
    destruct (Z.eqb_spec n (Z.of_nat (length mrs))); [done|]. done.
  - eapply wp_conseq; [apply engine_syncStatus_wp|].
    + exact L.
    + intros s h'. apply (mutate_conditions_mutates [models_available; ready]).
    + by intros h' [e|m].
Qed.

Lemma deploy_models_ok le mrs h :
  deployable h le mrs -> wp engine_guard (deploy_models le mrs) h (epost (fun _ _ => True)).
Proof.
  intros Hd. unfold deploy_models. apply wp_bind. eapply wp_conseq; [by apply ensure_storage_ok|].
  intros h1 [[results|early]|m] Hs; cbn in Hs; [|done..]. destruct Hs as [Hd1 Hr1].
  apply wp_bind.
  apply (wp_for_each_prefix _ _ _ _ _ (fun h pre n => counted h le mrs results pre n)).
  - split; [done|]. split; [done|]. by split.
  - intros h2 pre n mr Hpre Hc. eapply wp_conseq.
    + apply reconcile_model_ok; [done|]. destruct Hpre as [post ->].
      apply elem_of_app. left. apply elem_of_app. right. by left.
    + by intros h' [[n'|early]|m] Ho.
  - intros h2 n (Hd2 & Hr2 & Hn & Hall). apply wp_bind.
    eapply wp_conseq; [apply updateReferencedEngines_ok|]. intros h3 [u|m] Hu; [|done].
    apply report_deployments_ok; [by apply deployable_app| |].
    + apply all_bound_app. by eapply results_bound.
    + intros Hn'. eapply Forall_impl; [by apply Hall|]. intros. by apply deployment_ready_app.
Qed.

(** *** Deletion, and the whole *)

Lemma remove_engine_finalizer_ok le h :
  engine_deleted h -> wp engine_guard (remove_engine_finalizer le) h
    (fun h' o => engine_deleted h' /\ epost (fun _ _ => True) h' o).
Proof.
  intros Hd. unfold remove_engine_finalizer. apply wp_call; [done|]. intros [fresh|e].
  - apply wp_call.
    + right. split; [by apply engine_deleted_app|]. exists (le_Namespace le), (le_Name le), fresh.
      auto with go.
    + intros [o|e]; cbn; (split; [do 2 apply engine_deleted_app; done|done]).
  - cbn. split; [by apply engine_deleted_app|done].
Qed.

Lemma handleDeletion_engine_ok le h :
  engine_deleted h -> wp engine_guard (handleDeletion le) h (epost (fun _ _ => True)).
Proof.
  intros Hd. unfold handleDeletion. apply wp_bind.
  apply (wp_for_each _ _ _ _ _ (fun h' _ => engine_deleted h')); [done|..].
  - intros h' [] ref _ Hd'. apply wp_bind. eapply wp_conseq; [by apply CleanupLLMEngineStorage_ok|].
    intros h'' [e|m] He; [|done]. by apply engine_deleted_app.
  - intros h' [] Hd'. apply wp_bind. eapply wp_conseq; [apply updateReferencedEngines_ok|].
    intros h'' [u|m] Hu; [|done].
    eapply wp_conseq.
    + apply (wp_RetryOnConflict _ _ _ engine_deleted (epost (fun _ _ => True)));
        [by apply engine_deleted_app|]. intros h3 Hd3. by apply remove_engine_finalizer_ok.
    + by intros h3 o [_ Ho].
Qed.

Lemma wait_for_ok le mr h :
  seen_engine h le -> wp engine_guard (wait_for le mr) h (epost (fun _ _ => True)).
Proof.
  intros Hseen. unfold wait_for. cbv zeta. apply wp_bind.
  eapply engine_sync_ok; [done| |eapply wp_conseq; [apply engine_syncStatus_wp, mutate_conditions_mutates; exact L|]].
  - intros s s' Hs. eexists _, s. split; [exact Hs|]. split; [by left|].
    intros c Hc _ Hst. apply elem_of_cons in Hc as [->|Hc]; [done|].
    by apply list_elem_of_singleton in Hc as ->.
  - by intros h' [e|m].
Qed.

Lemma reconcile_engine_ok le h :
  seen_engine h le -> wp engine_guard (reconcile_engine le) h (epost (fun _ _ => True)).
Proof.
  intros Hseen. unfold reconcile_engine. apply wp_bind.
  eapply wp_conseq; [apply fetchModelRepositories_ok|]. intros h1.
  pose proof (seen_engine_app _ h1 _ Hseen) as Hseen1.
  intros [[mrs|e]|m] Hf; cbn in Hf; [|by apply not_ready_then|done].
  case_bool_decide as Hne; [by apply not_ready_then|].
  destruct (List.find _ mrs) as [mr|] eqn:Ef; [by apply wait_for_ok|].
  assert (Hready : Forall (fun mr => mst_Phase (mr_Status mr) = DownloadPhaseReady) mrs).
  { apply Forall_forall. intros mr Hin. apply list_elem_of_In in Hin.
    pose proof (List.find_none _ _ Ef mr Hin) as Hn. cbn in Hn. by bool_hyps. }
  assert (Hd : forall h', gpu_available ((h ++ h1) ++ h') le (required_node mrs) ->
                 deployable ((h ++ h1) ++ h') le mrs).
  { intros h' Hg. constructor; try done.
    - by do 2 apply seen_engine_app.
    - eapply Forall2_impl; [done|]. auto with go. }
  destruct (DetectGPURequest le) eqn:Eg.
  - apply wp_bind. eapply wp_conseq; [apply validateGPUAvailability_ok|].
    intros h2 [[e|]|m] Hg; cbn in Hg; [apply not_ready_then; [by apply seen_engine_app|done]| |done].
    by apply deploy_models_ok, Hd, Hg.
  - apply deploy_models_ok. rewrite <- (app_nil_r (h ++ h1)). apply Hd. intros Hg. congruence.
Qed.

Lemma engine_Reconcile_wp h :
  wp engine_guard (EngineController.Reconcile ns name) h (epost (fun _ _ => True)).
Proof.
  unfold EngineController.Reconcile. apply wp_call; [done|]. intros [le|e]; [|by destruct (IsNotFound e)].
  wp_step; bool_hyps.
  - apply wp_bind. eapply wp_conseq; [apply handleDeletion_engine_ok|].
    + exists le. auto with go.
    + by intros h' [e|m].
  - destruct (negb _).
    + apply wp_call.
      * left. exists le. auto with go.
      * intros [le'|e]; [|done]. apply reconcile_engine_ok. right. exists le. auto with go.
    + apply reconcile_engine_ok. left. apply answered_snoc.
Qed.

End Guard.

(** ** Properties *)
Section Properties.
Context `{L : MachineryLaws} `{Rg : GoRange} `{Y : Yaml} {W : Type} (srv : server W).
Context (ns name : string).

(** Property C9: whatever the API server answers, a Reconcile of an engine applies
    objects only for an engine all of whose repositories it read and found Ready,
    all of whose read-only claims were reported bound, and whose GPUs were found on
    a node, the one the storage is bound to if there is one; each is the config
    map, deployment or service of one of the repositories, made for that claim, in
    that order. *)
Theorem engine_deploys_only_ready w t o w' :
  run srv (EngineController.Reconcile ns name) w = (t, o, w') ->
  guarded (fun h r => match r with
    | ApplyConfigMap _ | ApplyDeployment _ | ApplyService _ =>
        exists le mrs mr claim, deployable ns name h le mrs /\ all_bound h le mrs /\ mr ∈ mrs /\
          claim_bound h le (mr_Name mr) claim /\
          workload_guard (mkEngineContext le mr (le_Namespace le) claim) h r
    | _ => True
    end) [] t.
Proof.
  intros Hrun. destruct (wp_run _ _ _ [] _ _ _ _ _ (engine_Reconcile_wp ns name []) Hrun) as [HG _].
  eapply guarded_weaken; [|exact HG]. intros h r. by destruct r.
Qed.

(** Property C11: whatever the API server answers, every status of the engine a
    Reconcile writes is that of the engine it reconciles, as just read, really
    changed, and honest: the Ready condition becomes true only when every repository
    of that engine was Ready, every claim
    bound, and the deployment looked up for each repository had a ready pod; and
    of a repository it changes only the list of engines, to the one computed from
    a list of all engines. *)
Theorem engine_status_honest w t o w' :
  run srv (EngineController.Reconcile ns name) w = (t, o, w') ->
  guarded (fun h r => match r with
    | UpdateLLMEngineStatus o =>
        exists le fresh st, seen_engine ns name h le /\
          answered h (GetLLMEngine (le_Namespace le) (le_Name le)) (Ok fresh) /\
          o = le_with_Status st fresh /\ st <> le_Status fresh /\
          engine_justified ns name h le (le_Status fresh) st
    | UpdateModelRepositoryStatus o =>
        exists n mr engines, answered h (GetModelRepository n) (Ok mr) /\
          answered h ListLLMEngines (Ok engines) /\
          mst_ReferencedEngines (mr_Status mr) <> referenced_str engines n /\
          o = mr_with_Status (mst_with_ReferencedEngines (referenced_str engines n) (mr_Status mr)) mr
    | UpdateModelRepository _ => False
    | _ => True
    end) [] t.
Proof.
  intros Hrun. destruct (wp_run _ _ _ [] _ _ _ _ _ (engine_Reconcile_wp ns name []) Hrun) as [HG _].
  eapply guarded_weaken; [|exact HG]. intros h r. by destruct r.
Qed.

(** What giving up an object of the engine needs: an engine that is being
    deleted.  Nothing else is ever deleted. *)
Definition engine_consent (h : trace) (r : req) : Prop :=
  match r with
  | UpdatePV _ | DeletePV _ | UpdatePVC _ | DeletePVC _ _ =>
      engine_deleted ns name h /\ exists le repo, cleanup_guard le repo h r
  | UpdateLLMEngine o =>
      engine_deleted ns name h \/
      exists le, answered h (GetLLMEngine ns name) (Ok le) /\
        forall f, f ∈ meta_Finalizers (le_Meta le) -> f ∈ meta_Finalizers (le_Meta o)
  | DeleteDeployment _ _ | DeleteService _ _ | DeleteJob _ _ => False
  | _ => True
  end.

(** Property C21: whatever the API server answers, a Reconcile of an engine gives
    up nothing of an engine that lives: it strips or deletes a volume or a claim,
    or drops a finalizer of the engine, only after it read the engine with a
    deletion timestamp, and deletes nothing else. *)
Theorem engine_deletes_only_when_deleted w t o w' :
  run srv (EngineController.Reconcile ns name) w = (t, o, w') -> guarded engine_consent [] t.
Proof.
  intros Hrun. destruct (wp_run _ _ _ [] _ _ _ _ _ (engine_Reconcile_wp ns name []) Hrun) as [HG _].
  eapply guarded_weaken; [|exact HG]. intros h r. destruct r; try done.
  intros [(le & Hle & _ & ->)|[Hd _]]; [right|by left]. exists le. split; [done|].
  intros f Hf. cbn. apply AddFinalizer_spec. by right.
Qed.

(** Whatever the API server answers, a Reconcile of an engine ends
    with a result or an error, never in a panic, unless a name panics or a
    recorded capacity is not a quantity: no template lacks a container or a port,
    and no storage result is missing. *)
Theorem engine_panics_only_on_names_and_capacities w t o w' :
  run srv (EngineController.Reconcile ns name) w = (t, o, w') ->
  match o with
  | Done _ => True
  | Panicked m =>
      (exists length prefix a b, TruncatedName length prefix a b = Panicked m) \/
      (exists q, MustParse q = Panicked m)
  end.
Proof.
  intros Hrun. destruct (wp_run _ _ _ [] _ _ _ _ _ (engine_Reconcile_wp ns name []) Hrun) as [_ Ho].
  by destruct o.
Qed.

End Properties.

(** *** GPU validation *)
Section GPU.
Context `{M : Machinery} `{Rg : GoRange}.

(** A node serves a GPU request: it has enough of the type and the labels the
    selector asks for. *)
Definition serves_gpu (gpu : GPUConfig) (node : Node) : Prop :=
  let q := allocatable node (gpu_type_or_default (gpu_Type gpu)) in
  QuantityIsZero q = false /\ (gpu_count_or_default (gpu_Count gpu) <= QuantityValue q)%Z /\
  map_Forall (fun k v => mget (meta_Labels (node_Meta node)) k = v) (gpu_NodeSelector gpu).

Lemma selector_mismatch_None node sel :
  selector_mismatch node sel = None <->
  map_Forall (fun k v => mget (meta_Labels (node_Meta node)) k = v) sel.
Proof.
  unfold selector_mismatch. split.
  - intros Hf k v Hk. assert (Hin : In (k, v) (range_map sel)).
    { apply list_elem_of_In. rewrite range_map_perm. by apply elem_of_map_to_list. }
    pose proof (List.find_none _ _ Hf _ Hin) as Hn. cbn in Hn. by bool_hyps.
  - intros Hall. destruct (List.find _ _) as [[k v]|] eqn:E; [exfalso|done].
    apply List.find_some in E as [Hin Hn]. cbn in Hn. bool_hyps. apply Hn, Hall.
    apply list_elem_of_In in Hin. rewrite range_map_perm in Hin. by apply elem_of_map_to_list in Hin.
Qed.

Lemma is_suitable_spec gpu node : is_suitable_node gpu node = true <-> serves_gpu gpu node.
Proof.
  unfold is_suitable_node, is_gpu_node, serves_gpu. cbv zeta.
  rewrite !andb_true_iff, negb_true_iff, Z.leb_le, <- selector_mismatch_None.
  destruct (selector_mismatch _ _); naive_solver.
Qed.

Lemma validate_cluster_run {W} (srv : server W) gpu w :
  exists t e w', run srv (validate_cluster gpu) w = (t, Done e, w') /\
    match (srv ListNodes w).1 with
    | Ok nodes => e = None <-> exists node, node ∈ nodes /\ serves_gpu gpu node
    | Err _ => e <> None
    end.
Proof.
  unfold validate_cluster. cbn [prog_bind call run]. cbv zeta.
  destruct (srv ListNodes w) as [[nodes|e] w'] eqn:Es; cbn [prog_bind run fst]; [|by do 3 eexists].
  set (gpuNodes := map _ (List.filter (is_gpu_node _) nodes)).
  set (suitable := map _ (List.filter (is_suitable_node _) nodes)).
  assert (Hs : suitable <> [] <-> exists node, node ∈ nodes /\ serves_gpu gpu node).
  { unfold suitable. rewrite filter_nonempty.
    split; intros (x & H1 & H2); exists x; (split; [done|]); by apply is_suitable_spec. }
  assert (Hg : suitable <> [] -> gpuNodes <> []).
  { unfold suitable, gpuNodes. rewrite !filter_nonempty. intros (x & H1 & H2). exists x.
    split; [done|]. unfold is_suitable_node in H2. by apply andb_true_iff in H2 as [[? _]%andb_true_iff _]. }
  destruct (decide (gpuNodes = [])) as [E1|E1]; [|destruct (decide (suitable = [])) as [E2|E2]].
  - rewrite (bool_decide_true _ E1). do 3 eexists. split; [reflexivity|]. split; [done|].
    intros Hex%Hs%Hg. done.
  - rewrite (bool_decide_false _ E1), (bool_decide_true _ E2). do 3 eexists.
    split; [reflexivity|]. split; [done|]. by intros Hex%Hs.
  - rewrite (bool_decide_false _ E1), (bool_decide_false _ E2). do 3 eexists.
    split; [reflexivity|]. by rewrite <- Hs.
Qed.

Lemma validate_required_run {W} (srv : server W) gpu n w :
  exists t e w', run srv (validate_required_node gpu n) w = (t, Done e, w') /\
    match (srv (GetNode n) w).1 with
    | Ok node => e = None <-> serves_gpu gpu node
    | Err _ => e <> None
    end.
Proof.
  unfold validate_required_node. cbn [prog_bind call run]. cbv zeta.
  destruct (srv (GetNode n) w) as [[node|e] w'] eqn:Es; cbn [prog_bind run fst]; [|by do 3 eexists].
  pose proof (selector_mismatch_None node (gpu_NodeSelector gpu)) as Hm. unfold serves_gpu. cbv zeta.
  destruct (QuantityIsZero _); [do 3 eexists; split; [reflexivity|]; naive_solver|].
  destruct (Z.ltb_spec (QuantityValue (allocatable node (gpu_type_or_default (gpu_Type gpu))))
              (gpu_count_or_default (gpu_Count gpu))) as [Hlt|Hge].
  { do 3 eexists. split; [reflexivity|]. split; [done|]. intros (_ & ? & _). lia. }
  destruct (selector_mismatch _ _) as [[k v]|]; do 3 eexists; (split; [reflexivity|]); naive_solver.
Qed.

(** Property C29: GPU validation accepts exactly when a node serves the request:
    without a required node, one of the nodes of the cluster; with one, that node.
    It accepts an engine that asks for no GPU without looking.  The order in which
    Go ranges over the selector does not matter. *)
Theorem validateGPUAvailability_spec {W} (srv : server W) le n w :
  exists t e w', run srv (validateGPUAvailability le n) w = (t, Done e, w') /\
    match les_GPU (le_Spec le) with
    | None => t = [] /\ e = None
    | Some gpu =>
        if gpu_Enabled gpu then
          if bool_decide (n = EmptyString) then
            match (srv ListNodes w).1 with
            | Ok nodes => e = None <-> exists node, node ∈ nodes /\ serves_gpu gpu node
            | Err _ => e <> None
            end
          else
            match (srv (GetNode n) w).1 with
            | Ok node => e = None <-> serves_gpu gpu node
            | Err _ => e <> None
            end
        else t = [] /\ e = None
    end.
Proof.
  unfold validateGPUAvailability. destruct (les_GPU (le_Spec le)) as [gpu|]; [|by do 3 eexists].
  destruct (gpu_Enabled gpu); cbn [negb]; [|by do 3 eexists].
  destruct (decide (n = EmptyString)) as [Hn|Hn].
  - rewrite (bool_decide_true _ Hn), bool_decide_false by (by intros H). apply validate_cluster_run.
  - rewrite (bool_decide_false _ Hn), bool_decide_true by done. apply validate_required_run.
Qed.

End GPU.

(** *** The engines a repository reports *)
Section References.
Context `{Rg : GoRange}.

(** The engine counts as a reference to the repository, under this key. *)
Definition reported (repo k : string) (e : LLMEngine) : Prop :=
  meta_DeletionTimestamp (le_Meta e) = None /\ references repo e = true /\
  k = le_Namespace e +:+ "/" +:+ le_Name e.

Lemma engine_keys_lookup engines repo k :
  is_Some (engine_keys engines repo !! k) <-> exists e, e ∈ engines /\ reported repo k e.
Proof.
  unfold engine_keys.
  enough (H : forall s : gmap string unit, is_Some (foldl (fun s engine =>
      if bool_decide (meta_DeletionTimestamp (le_Meta engine) = None) && references repo engine
      then <[le_Namespace engine +:+ "/" +:+ le_Name engine := tt]> s else s) s engines !! k) <->
    is_Some (s !! k) \/ exists e, e ∈ engines /\ reported repo k e).
  { rewrite H, lookup_empty. split; [intros [[? [=]]|?]; done|by right]. }
  induction engines as [|e engines IH]; intros s; cbn [foldl].
  - split; [by left|]. intros [?|(e & He & _)]; [done|by apply elem_of_nil in He].
  - assert (Hex : (exists e0, e0 ∈ e :: engines /\ reported repo k e0) <->
              reported repo k e \/ exists e0, e0 ∈ engines /\ reported repo k e0).
    { setoid_rewrite elem_of_cons. split.
      - intros (e0 & [->|Hin] & HP); [by left|right; eauto].
      - intros [HP|(e0 & Hin & HP)]; eauto. }
    rewrite Hex, IH. clear Hex IH. rewrite <- Logic.or_assoc. apply or_iff_compat_r. unfold reported.
    destruct (bool_decide _) eqn:Ed; bool_hyps; cbn [andb]; [|intuition congruence].
    destruct (references repo e); [|intuition congruence].
    rewrite lookup_insert_is_Some'. intuition congruence.
Qed.

(** The keys as Go hands them over, in whatever order. *)
Lemma reported_keys engines repo :
  NoDup (map fst (range_map (engine_keys engines repo))) /\
  forall k, k ∈ map fst (range_map (engine_keys engines repo)) <-> exists e, e ∈ engines /\ reported repo k e.
Proof.
  split; [change (map fst ?l) with (l.*1); rewrite range_map_perm; apply NoDup_fst_map_to_list|].
  intros k. rewrite <- engine_keys_lookup, list_elem_of_fmap. split.
  - intros ([k' u] & -> & Hin). rewrite range_map_perm in Hin. apply elem_of_map_to_list in Hin. by eexists.
  - intros [u Hu]. exists (k, u). split; [done|]. rewrite range_map_perm. by apply elem_of_map_to_list.
Qed.

End References.

(** Lists with the same engines report the same. *)
Lemma referenced_str_ext (R R' : GoRange) engines engines' repo :
  (forall k, (exists e, e ∈ engines /\ reported repo k e) <-> exists e, e ∈ engines' /\ reported repo k e) ->
  @referenced_str R engines repo = @referenced_str R' engines' repo.
Proof.
  intros He. unfold referenced_str. f_equal. apply sort_strings_unique.
  destruct (reported_keys (Rg := R) engines repo) as [Hnd Hin].
  destruct (reported_keys (Rg := R') engines' repo) as [Hnd' Hin'].
  apply NoDup_Permutation; [done..|]. intros k. by rewrite Hin, Hin'.
Qed.

(** Property C34: the list of engines that updateReferencedEngines writes names
    each engine that is not being deleted and references the repository exactly
    once, in order, and nothing else; it does not depend on the order of the list
    of engines or of Go's map iteration. *)
Theorem referenced_str_spec `{Rg : GoRange} engines repo :
  exists l, referenced_str engines repo = str_join "," l /\ StronglySorted String.le l /\ NoDup l /\
    (forall k, k ∈ l <-> exists e, e ∈ engines /\ reported repo k e) /\
    forall (R : GoRange) engines', engines' ≡ₚ engines ->
      @referenced_str R engines' repo = referenced_str engines repo.
Proof.
  destruct (reported_keys engines repo) as [Hnd Hin].
  exists (sort_strings (map fst (range_map (engine_keys engines repo)))).
  split; [done|]. split; [apply sort_strings_sorted|]. split; [by rewrite sort_strings_perm|]. split.
  - intros k. by rewrite sort_strings_perm, Hin.
  - intros R engines' Hp. apply referenced_str_ext. intros k. by setoid_rewrite Hp.
Qed.

(** ** Witnesses *)

Lemma engine_deploys_only_ready_witness :
  let M := Reference.machinery in
  let R := witness_range in
  let Y := witness_yaml in
  List.length (applied_names witness_pass.1.1) = 1%nat /\
  guarded (fun h r => match r with
    | ApplyConfigMap _ | ApplyDeployment _ | ApplyService _ =>
        exists le mrs mr claim, deployable "team" "chat" h le mrs /\ all_bound h le mrs /\ mr ∈ mrs /\
          claim_bound h le (mr_Name mr) claim /\
          workload_guard (mkEngineContext le mr (le_Namespace le) claim) h r
    | _ => True
    end) [] witness_pass.1.1.
Proof.
  intros M R Y. split; [vm_compute; reflexivity|].
  apply (@engine_deploys_only_ready M Reference.laws R Y cluster mem "team" "chat" running_cluster _
    witness_pass.1.2 witness_pass.2).
  unfold witness_pass, reconcile_on. apply run_parts.
Defined.

Lemma engine_status_honest_witness :
  let M := Reference.machinery in
  let R := witness_range in
  guarded (fun h r => match r with
    | UpdateLLMEngineStatus o =>
        exists le fresh st, seen_engine "team" "chat" h le /\
          answered h (GetLLMEngine (le_Namespace le) (le_Name le)) (Ok fresh) /\
          o = le_with_Status st fresh /\ st <> le_Status fresh /\
          engine_justified "team" "chat" h le (le_Status fresh) st
    | UpdateModelRepositoryStatus o =>
        exists n mr engines, answered h (GetModelRepository n) (Ok mr) /\
          answered h ListLLMEngines (Ok engines) /\
          mst_ReferencedEngines (mr_Status mr) <> referenced_str engines n /\
          o = mr_with_Status (mst_with_ReferencedEngines (referenced_str engines n) (mr_Status mr)) mr
    | UpdateModelRepository _ => False
    | _ => True
    end) [] witness_pass.1.1.
Proof.
  intros M R.
  apply (@engine_status_honest M Reference.laws R witness_yaml cluster mem "team" "chat" running_cluster _
    witness_pass.1.2 witness_pass.2).
  unfold witness_pass, reconcile_on. apply run_parts.
Defined.

Lemma engine_deletes_only_when_deleted_witness :
  let M := Reference.machinery in
  writes witness_leaving.1.1 = 6%nat /\
  guarded (engine_consent "team" "chat") [] witness_leaving.1.1.
Proof.
  intros M. split; [vm_compute; reflexivity|].
  apply (@engine_deletes_only_when_deleted M Reference.laws witness_range witness_yaml cluster mem
    "team" "chat" leaving_cluster _ witness_leaving.1.2 witness_leaving.2).
  unfold witness_leaving, reconcile_on. apply run_parts.
Defined.

Lemma engine_panics_only_on_names_and_capacities_witness :
  let M := Reference.machinery in
  match witness_pass.1.2 with
  | Done _ => True
  | Panicked m =>
      (exists length prefix a b, TruncatedName length prefix a b = Panicked m) \/
      (exists q, MustParse q = Panicked m)
  end.
Proof.
  intros M.
  apply (@engine_panics_only_on_names_and_capacities M Reference.laws witness_range witness_yaml cluster
    mem "team" "chat" running_cluster witness_pass.1.1 witness_pass.1.2 witness_pass.2).
  unfold witness_pass, reconcile_on. apply run_parts.
Defined.
