(* ===== verification/EngineDeletion.v ===== *)
(** * What a pass over an engine that is being deleted achieves

    handleDeletion of the LLMEngine controller against the in-memory API server,
    with the rules of Leads.v: it gives the volume and the claim of every
    reference up, tells the repositories, and gives the engine up, whatever the
    engine, its status and the cluster.  Teardown.v goes on from there. *)

From S2P Require Import Prelude Naming Api Kube Machinery MemServer Frames Leads Release StorageDiscovery Backend.
From S2P Require Import EngineStorage StorageRefinement StorageProvider Jobs RepoController GoStd EngineConfig.
From S2P Require Import VllmConfig EngineAdapters Workload EngineStatus EngineController EngineSafety.

Local Open Scope go_scope.

(** Each repository of [rs] reports what [f] says, the rest are as they were. *)
Definition all_told (f : string -> string) (rs : list string) (m m' : gmap string ModelRepository) : Prop :=
  forall r, if decide (r ∈ rs) then option_Forall2 (told (f r)) (m !! r) (m' !! r) else m' !! r = m !! r.

Lemma all_told_app f rs rs' m m1 m2 :
  all_told f rs m m1 -> all_told f rs' m1 m2 -> all_told f (rs ++ rs') m m2.
Proof.
  intros H1 H2 r. specialize (H1 r). specialize (H2 r).
  destruct (decide (r ∈ rs ++ rs')) as [Hin|Hin]; rewrite elem_of_app in Hin;
    destruct (decide (r ∈ rs)), (decide (r ∈ rs')); try tauto; try congruence.
  destruct H1; inversion H2; simplify_eq; constructor. by eapply told_again.
Qed.

Section Pass.
Context `{L : MachineryLaws} `{Rg : GoRange} `{Y : Yaml}.

Lemma tidy_set_repos f rs m c : tidy c -> all_told f rs (cl_repos c) m -> tidy (set_repos m c).
Proof.
  intros Hc Hm. split; [|apply Hc..]. intros n mr Hn. cbn in Hn. specialize (Hm n). rewrite Hn in Hm.
  case_decide.
  - inversion Hm as [mr0 ? [v ->] E|]; subst. destruct (tidy_repos _ Hc _ _ (eq_sym E)). done.
  - by apply (tidy_repos _ Hc).
Qed.

(** ** Telling the repositories *)

Lemma update_referenced_tells r s c :
  tidy c -> leads mem (update_referenced r s) c (fun e c' => e = None /\
    exists m, c' = set_repos m c /\ all_told (fun _ => s) [r] (cl_repos c) m).
Proof.
  intros Hc. unfold update_referenced. eapply leads_call; [reflexivity|]. unfold st_get.
  assert (Hat : forall m, (forall r', r' <> r -> m !! r' = cl_repos c !! r') ->
    option_Forall2 (told s) (cl_repos c !! r) (m !! r) -> all_told (fun _ => s) [r] (cl_repos c) m).
  { intros m Hoff Hon r'. case_decide as Hin; rewrite list_elem_of_singleton in Hin; [by subst r'|by apply Hoff]. }
  destruct (cl_repos c !! r) as [mr|] eqn:E.
  - destruct (tidy_repos _ Hc _ _ E) as [Hn Hd]. case_bool_decide as Hs.
    + cbn. split; [done|]. exists (cl_repos c). split; [by destruct c|]. apply Hat; [done|].
      rewrite E. constructor. subst s. apply told_already.
    + cbn [leads call mem]. unfold mr_Name in *. cbn [mr_Meta mr_with_Status]. rewrite Hn.
      unfold st_update. rewrite E. rewrite bool_decide_true by done. cbv zeta. rewrite bool_decide_false.
      2: { unfold bump. cbn. tauto. }
      cbn [fst snd leads to_opt]. split; [done|]. eexists. split; [reflexivity|]. apply Hat.
      * intros r' Hne. by rewrite lookup_insert_ne.
      * rewrite lookup_insert_eq. constructor. eexists. reflexivity.
  - cbn. split; [done|]. exists (cl_repos c). split; [by destruct c|]. apply Hat; [done|].
    rewrite E. constructor.
Qed.

Lemma updateReferencedEngines_tells rs c :
  tidy c -> leads mem (updateReferencedEngines rs) c (fun _ c' =>
    exists m, c' = set_repos m c /\
      all_told (referenced_str (map_to_list (cl_engines c)).*2) rs (cl_repos c) m).
Proof.
  intros Hc. unfold updateReferencedEngines. eapply leads_call; [reflexivity|]. cbn beta iota.
  apply leads_bind. set (f := referenced_str _).
  apply (leads_for_each mem _ _ _ _ (fun pre _ c' => exists m, c' = set_repos m c /\
    all_told f pre (cl_repos c) m)).
  - exists (cl_repos c). split; [by destruct c|]. intros r. rewrite decide_False; [done|]. apply not_elem_of_nil.
  - intros pre r [] c1 _ (m & -> & Hm). apply leads_bind. eapply leads_conseq.
    + apply (leads_RetryOnConflict mem (L := L)), update_referenced_tells. by eapply tidy_set_repos.
    + intros e c2 [-> (m' & -> & Hm')]. cbn. exists m'. split; [done|]. eapply all_told_app; [done|].
      intros r'. specialize (Hm' r'). case_decide as Hin; [|done].
      apply list_elem_of_singleton in Hin as ->. exact Hm'.
  - intros [] c1 (m & -> & Hm). by exists m.
Qed.

(** ** Giving the engine up *)

Lemma remove_engine_finalizer_leads le e c :
  cl_engines c !! (le_Namespace le, le_Name le) = Some e ->
  meta_key (le_Meta e) = (le_Namespace le, le_Name le) -> meta_DeletionTimestamp (le_Meta e) <> None ->
  leads mem (remove_engine_finalizer le) c (fun r c' => r = None /\
    exists m, c' = set_engines m c /\
      given_up LLMEngineFinalizer le_Meta le_with_Meta [(le_Namespace le, le_Name le)] (cl_engines c) m).
Proof.
  intros He Hkey Hdel. unfold remove_engine_finalizer. eapply leads_call; [reflexivity|]. unfold st_get. rewrite He.
  destruct (st_strip LLMEngineFinalizer le_Meta le_with_Meta (fun _ _ => eq_refl) (fun _ _ _ => eq_refl)
    _ e (fun old new => le_with_Status (le_Status old) new) _ He Hdel) as (new & m & Hu & Hg); [by destruct e|].
  destruct (same_but_finalizers_name _ _ (RemoveFinalizer_rest (le_Meta e) LLMEngineFinalizer)) as (Hn & Hs & _).
  cbn [prog_bind call leads mem]. unfold meta_key in *. cbn [le_Meta le_with_Meta]. rewrite Hn, Hs, Hkey, Hu.
  cbn. split; [done|]. by exists m.
Qed.

(** ** The pass *)

Context (ns name : string).

(** What it leaves. *)
Record engine_left (e : LLMEngine) (volumes : list string) (c c' : cluster) : Prop := {
  left_engine :
    given_up LLMEngineFinalizer le_Meta le_with_Meta [(ns, name)] (cl_engines c) (cl_engines c');
  left_claims :
    given_up LLMEngineStorageFinalizer pvc_Meta pvc_with_Meta (map (pair ns) volumes) (cl_pvcs c) (cl_pvcs c');
  left_volumes :
    given_up LLMEngineStorageFinalizer pv_Meta pv_with_Meta volumes (cl_pvs c) (cl_pvs c');
  left_repos :
    all_told (referenced_str (map_to_list (cl_engines c')).*2) (map ref_Name (les_ModelRefs (le_Spec e)))
      (cl_repos c) (cl_repos c');
  left_rest :
    c' = set_engines (cl_engines c') (set_repos (cl_repos c')
           (set_pvcs (cl_pvcs c') (set_pvs (cl_pvs c') c)));
}.

(** The volumes (and claims) of the references of the engine. *)
Definition volumes_of (e : LLMEngine) (volumes : list string) : Prop :=
  Forall2 (fun ref n => llmEnginePVName name (ref_Name ref) = Done n) (les_ModelRefs (le_Spec e)) volumes.

Lemma cleanup_all_leads e volumes c :
  le_Namespace e = ns -> le_Name e = name -> tidy c -> volumes_of e volumes ->
  leads mem (for_each (B := unit) (les_ModelRefs (le_Spec e)) tt (fun _ ref =>
      let! _ := CleanupLLMEngineStorage e (ref_Name ref) in Ret (inl tt))) c (fun _ c' =>
    exists m v, c' = set_pvs v (set_pvcs m c) /\
      given_up LLMEngineStorageFinalizer pvc_Meta pvc_with_Meta (map (pair ns) volumes) (cl_pvcs c) m /\
      given_up LLMEngineStorageFinalizer pv_Meta pv_with_Meta volumes (cl_pvs c) v).
Proof.
  intros Hns Hn Hc Hvs. apply (leads_for_each mem _ _ _ _ (fun pre _ c' => exists m v,
    c' = set_pvs v (set_pvcs m c) /\
    given_up LLMEngineStorageFinalizer pvc_Meta pvc_with_Meta (map (pair ns) (take (length pre) volumes)) (cl_pvcs c) m /\
    given_up LLMEngineStorageFinalizer pv_Meta pv_with_Meta (take (length pre) volumes) (cl_pvs c) v)).
  - exists (cl_pvcs c), (cl_pvs c). split; [by destruct c|]. split; apply given_up_nil.
  - intros pre ref [] c1 [post Hp] (m & v & -> & Hm & Hv). apply leads_bind.
    assert (Hl : les_ModelRefs (le_Spec e) !! length pre = Some ref).
    { rewrite Hp, lookup_app_l by (rewrite length_app; cbn; lia). by apply list_lookup_middle. }
    destruct (Forall2_lookup_l _ _ _ _ _ Hvs Hl) as (n & Hln & Hname). rewrite <- Hn in Hname.
    eapply leads_conseq.
    + apply (CleanupLLMEngineStorage_leads e _ n n); [exact Hname|exact Hname|..]; cbn.
      * intros pv Hpv. destruct (given_up_from _ _ _ (fun _ _ => eq_refl) _ _ _ _ _ Hv Hpv) as (o & Ho & _ & Hon & _).
        rewrite Hon. by apply (tidy_volumes _ Hc).
      * intros pvc Hpvc.
        destruct (given_up_from _ _ _ (fun _ _ => eq_refl) _ _ _ _ _ Hm Hpvc) as (o & Ho & _ & Hon & Hos).
        unfold meta_key. rewrite Hon, Hos. by apply (tidy_claims _ Hc).
    + intros x c2 [-> (m' & v' & -> & Hm' & Hv')]. cbn in *. exists m', v'. split; [done|].
      rewrite length_app, Nat.add_1_r, (take_S_r _ _ _ Hln), map_app. cbn. rewrite Hns in Hm'.
      split; (eapply given_up_app; [done..|by eauto|by eauto]).
  - intros [] c1 (m & v & -> & Hm & Hv). exists m, v. split; [done|].
    rewrite (Forall2_length _ _ _ Hvs), take_ge in Hm, Hv by lia. done.
Qed.

(** What the engine reported, or not, after it was let go of. *)
Lemma reported_after (k : key) (e : LLMEngine) (m m' : gmap key LLMEngine) (repo s : string) :
  given_up LLMEngineFinalizer le_Meta le_with_Meta [k] m m' -> m !! k = Some e ->
  meta_DeletionTimestamp (le_Meta e) <> None ->
  (exists x, x ∈ (map_to_list m).*2 /\ reported repo s x) <-> exists x, x ∈ (map_to_list m').*2 /\ reported repo s x.
Proof.
  intros Hg Hk Hd.
  assert (Hin : forall (m : gmap key LLMEngine) x, x ∈ (map_to_list m).*2 <-> exists k, m !! k = Some x).
  { intros m0 x. rewrite list_elem_of_fmap. setoid_rewrite <- elem_of_map_to_list. split.
    - intros ([k' x'] & -> & H). by exists k'.
    - intros [k' H]. by exists (k', x). }
  split; intros (x & [k' Hx]%Hin & Hr); exists x; (split; [apply Hin; exists k'|done]).
  - destruct (decide (k' = k)) as [->|Hne]; [exfalso; destruct Hr as (Hr & _); congruence|].
    rewrite (given_up_off _ _ _ _ _ _ _ Hg); [done|set_solver].
  - destruct (decide (k' = k)) as [->|Hne]; [|rewrite (given_up_off _ _ _ _ _ _ _ Hg) in Hx; [done|set_solver]].
    exfalso. pose proof (given_up_on _ _ _ _ _ _ k Hg ltac:(by left)) as Hl. rewrite Hx, Hk in Hl.
    unfold let_go, release in Hl. destruct (others _); [|done]. destruct Hl as (y & [= ->] & Hy & _).
    destruct Hr as (Hr & _). cbn in Hr. unfold slot_of in Hy. injection Hy as _ _ Hy.
    by rewrite bool_decide_eq_true in Hy.
Qed.

Lemma Reconcile_deleted_leads e volumes c :
  tidy c -> cl_engines c !! (ns, name) = Some e -> meta_DeletionTimestamp (le_Meta e) <> None ->
  volumes_of e volumes ->
  leads mem (EngineController.Reconcile ns name) c (fun r c' => r = (no_requeue, None) /\
    engine_left e volumes c c').
Proof.
  intros Hc He Hdel Hvs. unfold Reconcile. eapply leads_call; [reflexivity|]. unfold st_get. rewrite He.
  rewrite bool_decide_true by done. pose proof (tidy_engines _ Hc _ _ He) as Hkey.
  assert (Hns : le_Namespace e = ns /\ le_Name e = name) by (by injection Hkey).
  destruct Hns as [Hns Hn]. unfold handleDeletion. cbv zeta. do 2 apply leads_bind.
  eapply leads_conseq; [by apply cleanup_all_leads|]. intros _ c1 (m & v & -> & Hm & Hv).
  assert (Hc1 : tidy (set_pvs v (set_pvcs m c))).
  { split; [apply Hc|apply Hc|..|apply Hc]; cbn; intros k o Ho.
    - destruct (given_up_from _ _ _ (fun _ _ => eq_refl) _ _ _ _ _ Hm Ho) as (o1 & Ho1 & _ & Hon & Hos).
      unfold meta_key. rewrite Hon, Hos. by apply (tidy_claims _ Hc).
    - destruct (given_up_from _ _ _ (fun _ _ => eq_refl) _ _ _ _ _ Hv Ho) as (o1 & Ho1 & _ & Hon & _).
      rewrite Hon. by apply (tidy_volumes _ Hc). }
  apply leads_bind. eapply leads_conseq; [by apply updateReferencedEngines_tells|].
  intros _ c2 (rs & -> & Hrs). cbn in Hrs. eapply leads_conseq.
  { apply (leads_RetryOnConflict mem (L := L)), (remove_engine_finalizer_leads e e);
      [cbn; by rewrite Hns, Hn|by rewrite Hns, Hn|done]. }
  intros r c3 [-> (es & -> & Hes)]. rewrite Hns, Hn in Hes. cbn in *. split; [done|].
  split; cbn; [done|done|done| |done].
  intros r'. specialize (Hrs r'). case_decide; [|done].
  rewrite (referenced_str_ext Rg Rg _ (map_to_list (cl_engines c)).*2); [done|].
  intros k. symmetry. by eapply reported_after.
Qed.

End Pass.
