(* ===== verification/Teardown.v ===== *)
(** * Engines and repositories that are deleted go

    The end of a life, on the in-memory API server, for arbitrary engines,
    repositories and clusters: EngineDeletion.v and RepoDeletion.v say what one
    pass achieves, here the passes are put together.  A repository waits for the
    engines that reference it (see [blocked_deletion_demotes_engine] for how), so
    its turn comes after theirs. *)

From S2P Require Import Prelude Naming Api Kube Machinery MemServer Frames Leads Release StorageDiscovery Backend.
From S2P Require Import EngineStorage StorageRefinement StorageProvider Jobs RepoStatus RepoController RepoProgress.
From S2P Require Import RepoDeletion RepoSafety GoStd EngineConfig VllmConfig EngineAdapters Workload EngineStatus.
From S2P Require Import EngineController EngineLife EngineSafety EngineDeletion.

Local Open Scope go_scope.

(** ** One engine *)

(** Property C7: a deleted engine leaves.  On the in-memory API server, whatever
    the cluster and whatever state the engine is in, one pass over an engine that
    is being deleted succeeds, and gives up what the engine held: its finalizer
    and, for each reference in its spec, the finalizers of the volume and of the
    claim, which are deleted; each of these objects is gone, unless somebody else
    holds it.  Every referenced repository that there is now reports the engines
    that remain, in the cluster after the pass, and nothing else changes. *)
Theorem deleted_engine_leaves `{L : MachineryLaws} `{Rg : GoRange} `{Y : Yaml} ns name e volumes c :
  tidy c -> cl_engines c !! (ns, name) = Some e -> meta_DeletionTimestamp (le_Meta e) <> None ->
  volumes_of name e volumes ->
  exists t c', run mem (EngineController.Reconcile ns name) c = (t, Done (no_requeue, None), c') /\
    engine_left ns name e volumes c c'.
Proof.
  intros Hc He Hd Hv.
  destruct (leads_run _ _ _ _ (Reconcile_deleted_leads ns name e volumes c Hc He Hd Hv))
    as (t & r & c' & Hrun & -> & Hl).
  by exists t, c'.
Qed.

(** ** All of them, and then the repository *)

(** What a store may lose: objects, and finalizers of objects. *)
Definition fades {K A} `{Countable K} (meta : A -> ObjectMeta) (m m' : gmap K A) : Prop :=
  forall k o', m' !! k = Some o' -> exists o, m !! k = Some o /\ meta_Finalizers (meta o') ⊆ meta_Finalizers (meta o).

Section Teardown.
Context `{L : MachineryLaws} `{Sc : Scripts} `{Rg : GoRange} `{Y : Yaml}.

Lemma fades_refl {K A} `{Countable K} (meta : A -> ObjectMeta) (m : gmap K A) : fades meta m m.
Proof. intros k o Ho. by exists o. Qed.

Lemma fades_trans {K A} `{Countable K} (meta : A -> ObjectMeta) (m1 m2 m3 : gmap K A) :
  fades meta m1 m2 -> fades meta m2 m3 -> fades meta m1 m3.
Proof.
  intros H1 H2 k o3 (o2 & Ho2 & Hf2)%H2. destruct (H1 k o2 Ho2) as (o1 & Ho1 & Hf1).
  exists o1. split; [done|by etrans].
Qed.

Lemma given_up_fades {K A} `{Countable K} f (meta : A -> ObjectMeta) with_meta ks (m m' : gmap K A) :
  (forall x o, meta (with_meta x o) = x) -> given_up f meta with_meta ks m m' -> fades meta m m'.
Proof.
  intros Hm Hg k o' Ho. destruct (given_up_from _ _ _ Hm _ _ _ _ _ Hg Ho) as (o & ? & ? & _). by exists o.
Qed.

Lemma in_concat_map {A B} (f : A -> list B) l x y : x ∈ l -> y ∈ f x -> y ∈ concat (map f l).
Proof. rewrite !list_elem_of_In, in_concat. intros H1 H2. exists (f x). split; [by apply in_map|done]. Qed.

Lemma others_mono f m m' :
  meta_Finalizers m' ⊆ meta_Finalizers m -> others (slot_of f m) = false -> others (slot_of f m') = false.
Proof.
  rewrite <- !not_true_iff_false, !slot_of_others. intros Hs Hn (g & Hg & Hne). apply Hn. exists g.
  split; [by apply Hs|done].
Qed.

(** *** The engines *)
Section Engines.
Context (vols : key -> list string).

(** The engine at [k] is being deleted. *)
Definition going (c : cluster) (k : key) : Prop :=
  exists e, cl_engines c !! k = Some e /\ meta_DeletionTimestamp (le_Meta e) <> None /\
    volumes_of k.2 e (vols k).

Definition claims_of (k : key) : list key := map (pair k.1) (vols k).

(** What the passes over the engines at [ks] leave. *)
Record engines_left (ks : list key) (c c' : cluster) : Prop := {
  eleft_tidy : tidy c';
  eleft_engines : given_up LLMEngineFinalizer le_Meta le_with_Meta ks (cl_engines c) (cl_engines c');
  eleft_claims : given_up LLMEngineStorageFinalizer pvc_Meta pvc_with_Meta (concat (map claims_of ks))
    (cl_pvcs c) (cl_pvcs c');
  eleft_volumes : given_up LLMEngineStorageFinalizer pv_Meta pv_with_Meta (concat (map vols ks))
    (cl_pvs c) (cl_pvs c');
  eleft_repos r mr : cl_repos c !! r = Some mr -> exists s mr', cl_repos c' !! r = Some mr' /\ told s mr mr';
  eleft_rest : c' = set_engines (cl_engines c') (set_repos (cl_repos c')
    (set_pvcs (cl_pvcs c') (set_pvs (cl_pvs c') c)));
}.

Lemma tidy_left ns name e volumes c c' : tidy c -> engine_left ns name e volumes c c' -> tidy c'.
Proof.
  intros Hc [He Hp Hv Hr Hrest]. split.
  - intros n mr Hn. specialize (Hr n). rewrite Hn in Hr. case_decide.
    + inversion Hr as [mr0 ? [v ->] E|]; subst. by destruct (tidy_repos _ Hc _ _ (eq_sym E)).
    + by apply (tidy_repos _ Hc).
  - intros k e' Hk. destruct (given_up_from _ _ _ (fun _ _ => eq_refl) _ _ _ _ _ He Hk) as (o & Ho & _ & Hn & Hs).
    unfold meta_key. rewrite Hn, Hs. by apply (tidy_engines _ Hc).
  - intros k o' Hk. destruct (given_up_from _ _ _ (fun _ _ => eq_refl) _ _ _ _ _ Hp Hk) as (o & Ho & _ & Hn & Hs).
    unfold meta_key. rewrite Hn, Hs. by apply (tidy_claims _ Hc).
  - intros k o' Hk. destruct (given_up_from _ _ _ (fun _ _ => eq_refl) _ _ _ _ _ Hv Hk) as (o & Ho & _ & Hn & _).
    rewrite Hn. by apply (tidy_volumes _ Hc).
  - rewrite Hrest. apply Hc.
Qed.

(** One pass over each, in this order. *)
Fixpoint engine_passes (ks : list key) (c : cluster) : list (outcome (Result * err_opt)) * cluster :=
  match ks with
  | [] => ([], c)
  | k :: ks =>
      let '(_, o, c) := run mem (EngineController.Reconcile k.1 k.2) c in
      let '(os, c) := engine_passes ks c in (o :: os, c)
  end.

Lemma engine_passes_leave ks c :
  tidy c -> NoDup ks -> Forall (going c) ks ->
  Forall (fun o => o = Done (no_requeue, None)) (engine_passes ks c).1 /\
  engines_left ks c (engine_passes ks c).2.
Proof.
  revert c. induction ks as [|k ks IH]; intros c Hc Hnd Hall; cbn [engine_passes].
  { split; [done|]. split; [done|apply given_up_nil..| |by destruct c].
    intros r mr Hr. exists (mst_ReferencedEngines (mr_Status mr)), mr. split; [done|]. apply told_already. }
  apply NoDup_cons in Hnd as [Hk Hnd]. apply Forall_cons in Hall as [(e & He & Hd & Hv) Hall].
  destruct (leads_run _ _ _ _ (Reconcile_deleted_leads k.1 k.2 e (vols k) c Hc
    ltac:(by destruct k) Hd Hv)) as (t & r & c1 & -> & -> & Hl).
  pose proof (tidy_left _ _ _ _ _ _ Hc Hl) as Hc1. destruct Hl as [L1 L2 L3 L4 L5].
  assert (Hpair : (k.1, k.2) = k) by by destruct k. rewrite Hpair in L1.
  destruct (IH c1 Hc1 Hnd) as [Ho Hl2].
  { apply Forall_forall. intros k' Hk'. eapply Forall_forall in Hall as (e' & He' & Hd' & Hv'); [|exact Hk'].
    exists e'. split; [|done]. rewrite (given_up_off _ _ _ _ _ _ _ L1); [done|]. set_solver. }
  destruct (engine_passes ks c1) as [os c2]. cbn [fst snd] in *. destruct Hl2 as [R1 R2 R3 R4 R5 R6].
  split; [by constructor|]. split; [done|..].
  - eapply (given_up_app _ le_Meta le_with_Meta (fun _ _ => eq_refl) (fun _ _ _ => eq_refl) [k] ks); [exact L1|exact R2].
  - cbn. by eapply given_up_app; [done..|exact L2|].
  - cbn. by eapply given_up_app; [done..|exact L3|].
  - intros r mr Hr. specialize (L4 r). rewrite Hr in L4.
    assert (H1 : exists s mr1, cl_repos c1 !! r = Some mr1 /\ told s mr mr1).
    { case_decide; [inversion L4; subst; eauto|]. exists (mst_ReferencedEngines (mr_Status mr)), mr.
      split; [done|]. apply told_already. }
    destruct H1 as (s & mr1 & Hr1 & Hs). destruct (R5 r mr1 Hr1) as (s' & mr2 & Hr2 & Hs').
    exists s', mr2. split; [done|]. by eapply told_again.
  - rewrite R6, L5 at 1. done.
Qed.

End Engines.

(** *** The repository after them *)

Context (OperatorNamespace name : string).
Let ns := operator_namespace OperatorNamespace.

Lemma providable_after ks vols mr s mr' c c' :
  engines_left vols ks c c' -> told s mr mr' -> providable mr c -> providable mr' c'.
Proof.
  intros Hl [v ->] [H1 H2]. split; [exact H1|]. rewrite (eleft_rest _ _ _ _ Hl). exact H2.
Qed.

(** What is left in the end. *)
Record torn_down (vols : key -> list string) (ks : list key) (c c' : cluster) : Prop := {
  torn_engines k : if decide (k ∈ ks) then cl_engines c' !! k = None else cl_engines c' !! k = cl_engines c !! k;
  torn_repo : cl_repos c' !! name = None;
  torn_volumes k n pv : k ∈ ks -> n ∈ vols k -> cl_pvs c !! n = Some pv ->
    others (slot_of LLMEngineStorageFinalizer (pv_Meta pv)) = false -> cl_pvs c' !! n = None;
  torn_claims k n pvc : k ∈ ks -> n ∈ vols k -> cl_pvcs c !! (k.1, n) = Some pvc ->
    others (slot_of LLMEngineStorageFinalizer (pvc_Meta pvc)) = false -> cl_pvcs c' !! (k.1, n) = None;
  torn_claim pvc : cl_pvcs c !! (ns, claim_name name) = Some pvc ->
    others (slot_of StorageProtectionFinalizer (pvc_Meta pvc)) = false ->
    cl_pvcs c' !! (ns, claim_name name) = None;
  torn_jobs : jobs_deleted (map job_key (jobs_of OperatorNamespace name c)) (cl_jobs c) (cl_jobs c');
  torn_nothing_new : fades pv_Meta (cl_pvs c) (cl_pvs c') /\ fades pvc_Meta (cl_pvcs c) (cl_pvcs c');
}.

Lemma teardown_leads vols ks mr c c1 :
  engines_left vols ks c c1 ->
  cl_repos c !! name = Some mr -> meta_DeletionTimestamp (mr_Meta mr) <> None ->
  others (slot_of ModelRepositoryFinalizer (mr_Meta mr)) = false ->
  mrs_ModelName (mr_Spec mr) <> EmptyString -> providable mr c ->
  (forall k e, cl_engines c !! k = Some e -> references name e = true -> k ∈ ks) ->
  (forall k e, k ∈ ks -> cl_engines c !! k = Some e ->
     others (slot_of LLMEngineFinalizer (le_Meta e)) = false) ->
  leads mem (RepoController.Reconcile OperatorNamespace name) c1 (fun r c' =>
    r = (no_requeue, None) /\ torn_down vols ks c c').
Proof.
  intros Hl Hmr Hdel Hours Hmodel Hprov Href Hfree.
  destruct (eleft_repos _ _ _ _ Hl _ _ Hmr) as (s & mr1 & Hmr1 & Hs).
  pose proof (providable_after _ _ _ _ _ _ _ Hl Hs Hprov) as Hprov1. destruct Hs as [v ->].
  pose proof (eleft_engines _ _ _ _ Hl) as He.
  assert (Hgone : forall k, if decide (k ∈ ks) then cl_engines c1 !! k = None
                            else cl_engines c1 !! k = cl_engines c !! k).
  { intros k. case_decide as Hk; [|by apply (given_up_off _ _ _ _ _ _ _ He)].
    destruct (cl_engines c !! k) as [e|] eqn:E; [|by apply (given_up_absent _ _ _ _ _ _ _ He)].
    eapply given_up_gone; [exact He|done|exact E|by eapply Hfree]. }
  eapply leads_conseq.
  { eapply (Repo_Reconcile_deleted_leads OperatorNamespace name); [apply Hl|exact Hmr1|done..|].
    intros k e Hk. specialize (Hgone k). case_decide as Hin; [congruence|].
    apply not_true_iff_false. intros Hr. apply Hin. eapply Href; [|exact Hr]. congruence. }
  intros r c' [-> [R1 R2 R3 R4]]. split; [done|].
  assert (Hpv : cl_pvs c' = cl_pvs c1) by by rewrite R4.
  pose proof (eleft_rest _ _ _ _ Hl) as Hrest.
  assert (Hf1 : fades pvc_Meta (cl_pvcs c) (cl_pvcs c1))
    by exact (given_up_fades _ _ _ _ _ _ (fun _ _ => eq_refl) (eleft_claims _ _ _ _ Hl)).
  assert (Hf2 : fades pvc_Meta (cl_pvcs c1) (cl_pvcs c'))
    by exact (given_up_fades _ _ _ _ _ _ (fun _ _ => eq_refl) R2).
  split.
  - intros k. replace (cl_engines c' !! k) with (cl_engines c1 !! k) by (by rewrite R4). apply Hgone.
  - eapply given_up_gone; [exact R1|by left|exact Hmr1|]. exact Hours.
  - intros k n pv Hk Hn Hpvn Ho. rewrite Hpv. eapply given_up_gone; [apply Hl| |exact Hpvn|done].
    by eapply in_concat_map.
  - intros k n pvc Hk Hn Hpvc Ho.
    destruct (cl_pvcs c' !! (k.1, n)) as [o'|] eqn:E; [|done]. exfalso.
    destruct (Hf2 _ _ E) as (o1 & Ho1 & _).
    assert (Hin : (k.1, n) ∈ concat (map (claims_of vols) ks)).
    { eapply in_concat_map; [exact Hk|]. by apply list_elem_of_fmap_2. }
    by rewrite (given_up_gone _ _ _ _ _ _ _ _ (eleft_claims _ _ _ _ Hl) Hin Hpvc Ho) in Ho1.
  - intros pvc Hpvc Ho. destruct (cl_pvcs c1 !! (ns, claim_name name)) as [o1|] eqn:E.
    + destruct (Hf1 _ _ E) as (o & Ho1 & Hsub). eapply given_up_gone; [exact R2|by left|exact E|].
      eapply others_mono; [exact Hsub|]. congruence.
    + by apply (given_up_absent _ _ _ _ _ _ _ R2).
  - assert (Hj : cl_jobs c1 = cl_jobs c) by (by rewrite Hrest).
    unfold jobs_of in *. by rewrite Hj in R3.
  - rewrite Hpv. split; [|by eapply fades_trans].
    exact (given_up_fades _ _ _ _ _ _ (fun _ _ => eq_refl) (eleft_volumes _ _ _ _ Hl)).
Qed.

End Teardown.

(** Property C6: deleting everything completes.  On the in-memory API server take a
    repository and any number of engines that are all being deleted, the engines
    that reference the repository among them, on any cluster, and let nobody else
    hold the repository and the engines.  Then one pass over each engine, in any
    order, and one over the repository all succeed, and after them the engines,
    the repository, the engines' volumes and claims and the repository's claim
    are gone (those that somebody else holds are left to him), the repository's
    jobs have been deleted, other engines are untouched, and no volume or claim
    was made or got a finalizer.  (The repository needs a name for its model, and a
    provider for its claim: a size and a StorageClass.) *)
Theorem teardown_completes `{L : MachineryLaws} `{Sc : Scripts} `{Rg : GoRange} `{Y : Yaml}
    OperatorNamespace name mr vols ks c :
  tidy c -> NoDup ks -> Forall (going vols c) ks ->
  (forall k e, k ∈ ks -> cl_engines c !! k = Some e -> others (slot_of LLMEngineFinalizer (le_Meta e)) = false) ->
  (forall k e, cl_engines c !! k = Some e -> references name e = true -> k ∈ ks) ->
  cl_repos c !! name = Some mr -> meta_DeletionTimestamp (mr_Meta mr) <> None ->
  others (slot_of ModelRepositoryFinalizer (mr_Meta mr)) = false ->
  mrs_ModelName (mr_Spec mr) <> EmptyString -> providable mr c ->
  Forall (fun o => o = Done (no_requeue, None)) (engine_passes ks c).1 /\
  exists t c', run mem (RepoController.Reconcile OperatorNamespace name) (engine_passes ks c).2 =
      (t, Done (no_requeue, None), c') /\ torn_down OperatorNamespace name vols ks c c'.
Proof.
  intros Hc Hnd Hall Hfree Href Hmr Hdel Hours Hmodel Hprov.
  destruct (engine_passes_leave vols ks c Hc Hnd Hall) as [Ho Hl]. split; [done|].
  destruct (leads_run _ _ _ _ (teardown_leads OperatorNamespace name vols ks mr c _ Hl Hmr Hdel Hours
    Hmodel Hprov Href Hfree)) as (t & r & c' & Hrun & -> & Ht).
  by exists t, c'.
Qed.

(** ** Witnesses *)

(** Two engines of one repository, brought up, and all asked to go; the second
    engine's claim is still used by a pod. *)
Definition parting_repo : ModelRepository :=
  mr_with_Meta (mkMeta "llama" EmptyString ∅ ∅ [ModelRepositoryFinalizer] (Some 7%Z) [] 1) (life_repo "llama").
Definition second_up : cluster :=
  (reconcile_on mem "code" (set_engines (<[("team", "code") := life_engine "code" "llama" None]>
     (cl_engines running_cluster)) running_cluster)).2.
Definition protect_second (pvc : PersistentVolumeClaim) : PersistentVolumeClaim :=
  pvc_with_Meta (meta_with_Finalizers ("kubernetes.io/pvc-protection" :: meta_Finalizers (pvc_Meta pvc))
    (pvc_Meta pvc)) pvc.
Definition parting_job : Job :=
  mkJob (mkMeta "download-llama" (operator_namespace EmptyString) {[name_label := "llama"]} ∅ [] None [] 1)
    ∅ (mkPodSpec [] [] ∅ None [] false EmptyString) 0 0.
Definition parting_claim : PersistentVolumeClaim :=
  mkPVC (mkMeta "llama-storage" (operator_namespace EmptyString) ∅ ∅ [StorageProtectionFinalizer] None [] 1)
    [ReadWriteMany] "10Gi" None EmptyString ClaimBound None.
Definition parting_cluster : cluster :=
  let c := delete_engine "code" (delete_engine "chat" second_up) in
  set_classes [witness_sc "nfs" "nfs.csi.k8s.io"]
    (set_jobs {[meta_key (job_Meta parting_job) := parting_job]}
      (set_repos {["llama" := parting_repo]}
        (set_pvcs (<[meta_key (pvc_Meta parting_claim) := parting_claim]>
                    (alter protect_second ("team", "le-code-llama") (cl_pvcs c))) c))).
Definition parting_vols (k : key) : list string := ["le-" +:+ k.2 +:+ "-llama"].
Definition parting_keys : list key := [("team", "code"); ("team", "chat")].

Section Parting.
#[local] Instance parting_machinery : Machinery := Reference.machinery.
#[local] Instance parting_range : GoRange := witness_range.
#[local] Instance parting_yaml : Yaml := witness_yaml.

(** A property of all objects of a store, one by one. *)
Lemma all_objects {K A} `{Countable K} (P : K -> A -> Prop) (m : gmap K A) :
  Forall (fun kx => P kx.1 kx.2) (map_to_list m) -> forall k x, m !! k = Some x -> P k x.
Proof. intros Hm k x Hk. by eapply Forall_forall in Hm; [|by apply elem_of_map_to_list]. Qed.

Lemma parting_tidy : tidy parting_cluster.
Proof. split; apply all_objects; vm_compute; repeat constructor; congruence. Qed.

Lemma parting_going : Forall (going parting_vols parting_cluster) parting_keys.
Proof.
  repeat constructor; eexists; (split; [vm_compute; reflexivity|]); (split; [done|]);
    repeat constructor; vm_compute; reflexivity.
Qed.

Lemma parting_free k e :
  k ∈ parting_keys -> cl_engines parting_cluster !! k = Some e ->
  others (slot_of LLMEngineFinalizer (le_Meta e)) = false.
Proof.
  intros _. revert k e. apply (all_objects (K := key)). vm_compute. repeat constructor.
Qed.

Lemma parting_references k e :
  cl_engines parting_cluster !! k = Some e -> references "llama" e = true -> k ∈ parting_keys.
Proof.
  intros Hk _. revert k e Hk. apply (all_objects (K := key)). vm_compute. repeat constructor.
Qed.

Lemma parting_providable : providable parting_repo parting_cluster.
Proof. split; [done|]. split; [done|]. right. by left. Qed.

End Parting.

(** The first engine goes, and its storage. *)
Lemma deleted_engine_leaves_witness :
  let M := Reference.machinery in
  let R := witness_range in
  let Y := witness_yaml in
  exists e t c', cl_engines parting_cluster !! ("team", "chat") = Some e /\
    run mem (EngineController.Reconcile "team" "chat") parting_cluster = (t, Done (no_requeue, None), c') /\
    engine_left "team" "chat" e ["le-chat-llama"] parting_cluster c'.
Proof.
  intros M R Y. pose proof parting_going as Hg. apply Forall_cons in Hg as [_ Hg].
  apply Forall_cons in Hg as [(e & He & Hd & Hv) _]. exists e.
  destruct (deleted_engine_leaves (L := Reference.laws) "team" "chat" e ["le-chat-llama"] parting_cluster
    parting_tidy He Hd Hv) as (t & c' & H). exists t, c'. exact (conj He H).
Defined.

Lemma teardown_completes_witness :
  let M := Reference.machinery in
  let S := witness_scripts in
  let R := witness_range in
  let Y := witness_yaml in
  Forall (fun o => o = Done (no_requeue, None)) (engine_passes parting_keys parting_cluster).1 /\
  exists t c', run mem (RepoController.Reconcile EmptyString "llama") (engine_passes parting_keys parting_cluster).2 =
      (t, Done (no_requeue, None), c') /\
    torn_down EmptyString "llama" parting_vols parting_keys parting_cluster c'.
Proof.
  intros M S R Y.
  apply (teardown_completes (L := Reference.laws) EmptyString "llama" parting_repo parting_vols parting_keys
    parting_cluster parting_tidy ltac:(unfold parting_keys; nodup_tac) parting_going parting_free
    parting_references eq_refl ltac:(done) eq_refl ltac:(done) parting_providable).
Defined.
