(* ===== verification/EngineFrame.v ===== *)
(** * What a pass over an engine leaves alone

    Whatever the state of its repositories, and however it ends, a pass over an
    engine that is not being deleted keeps the engine, the claims and the volumes
    there are and the jobs, and changes of the repositories only the engines they
    report.  Read off the guard of EngineSafety.v, as an invariant of the server in
    memory. *)

From S2P Require Import Prelude Naming Api Kube Machinery MemServer Frames Leads StorageDiscovery Backend.
From S2P Require Import EngineStorage StorageProvider Jobs RepoController GoStd EngineConfig.
From S2P Require Import VllmConfig EngineAdapters Workload EngineStatus EngineController EngineSafety.
From S2P Require Import EngineProgress.

Local Open Scope go_scope.

Section Frame.
Context `{L : MachineryLaws} `{Rg : GoRange} `{Y : Yaml}.
Context (ns name : string) (spec : LLMEngineSpec) (c0 : cluster).

#[local] Abbreviation present := (present ns name spec).
#[local] Abbreviation this_engine := (this_engine ns name spec).

(** What the pass keeps of the cluster it started in. *)
Record keeps (c : cluster) : Prop := {
  keeps_present : present c;
  keeps_claims : cl_pvcs c0 ⊆ cl_pvcs c;
  keeps_volumes : cl_pvs c0 ⊆ cl_pvs c;
  keeps_repos : all_retold (cl_repos c0) (cl_repos c);
  keeps_rest : cl_jobs c = cl_jobs c0 /\ cl_nodes c = cl_nodes c0 /\ cl_classes c = cl_classes c0;
}.

(** The requests that do, and the answers that tell the pass to. *)
Definition keeping (r : req) : Prop :=
  match r with
  | UpdateLLMEngine o => this_engine o /\ meta_DeletionTimestamp (le_Meta o) = None
  | UpdateModelRepositoryStatus o => exists n mr0, cl_repos c0 !! n = Some mr0 /\ retold mr0 o
  | UpdateModelRepository _ | CreateJob _ | DeleteJob _ _ | UpdatePVC _ | DeletePVC _ _
  | UpdatePV _ | DeletePV _ => False
  | _ => True
  end.

Definition tells (ev : event) : Prop :=
  match ev with
  | Ev (GetLLMEngine ns' n) (Ok e) =>
      ns' = ns -> n = name -> this_engine e /\ meta_DeletionTimestamp (le_Meta e) = None
  | Ev (GetModelRepository n) (Ok mr) => exists mr0, cl_repos c0 !! n = Some mr0 /\ retold mr0 mr
  | _ => True
  end.

Lemma engine_guard_keeps h r : Forall tells h -> engine_guard ns name h r -> keeping r.
Proof.
  intros Hh.
  assert (He : forall e, answered h (GetLLMEngine ns name) (Ok e) -> this_engine e /\ meta_DeletionTimestamp (le_Meta e) = None).
  { intros e Ha. pose proof (proj1 (Forall_forall _ _) Hh _ Ha) as Ht. by apply Ht. }
  assert (Hno : engine_deleted ns name h -> False).
  { intros (e & Ha & Hd). by destruct (He e Ha). }
  destruct r; cbn; try done; try (by intros [?%Hno _]).
  - intros (n & mr & es & Ha & _ & _ & ->). pose proof (proj1 (Forall_forall _ _) Hh _ Ha) as (mr0 & H0 & Hr).
    exists n, mr0. split; [done|]. etrans; [exact Hr|]. exists (referenced_str es n), (meta_ResourceVersion (mr_Meta mr)).
    by destruct mr as [[] ? ?].
  - intros [(e & Ha & Hd & ->)|[?%Hno _]]; [|done]. destruct (He e Ha) as [(H1 & H2 & H3) H4].
    destruct (same_but_finalizers_name _ _ (AddFinalizer_rest (le_Meta e) LLMEngineFinalizer)) as (Hn & Hs & _).
    destruct (same_but_finalizers_version _ _ (AddFinalizer_rest (le_Meta e) LLMEngineFinalizer)) as [_ Hdel].
    unfold EngineProgress.this_engine, le_Namespace, le_Name in *. cbn. rewrite Hn, Hs, Hdel. done.
Qed.

Lemma all_retold_insert_new m n mr0 mr' :
  all_retold (cl_repos c0) m -> cl_repos c0 !! n = Some mr0 -> retold mr0 mr' ->
  all_retold (cl_repos c0) (<[n := mr']> m).
Proof.
  intros Hm H0 Hr n'. destruct (decide (n' = n)) as [->|Hne].
  - rewrite H0, lookup_insert_eq. by constructor.
  - rewrite lookup_insert_ne by done. apply Hm.
Qed.

Context (Htidy : tidy c0).

(** Reporting: the repository stays, since whoever is being deleted is held. *)
Lemma keeps_told c o : keeps c -> keeping (UpdateModelRepositoryStatus o) ->
  all_retold (cl_repos c0) (st_update mr_Meta mr_with_Meta (fun old new => mr_with_Status (mr_Status new) old)
    (mr_Name o) o (cl_repos c)).2.
Proof.
  intros Hc (n & mr0 & H0 & Hr). destruct (retold_same _ _ Hr) as (Hn & _ & _ & _ & s & Hs).
  destruct (tidy_repos _ Htidy _ _ H0) as [Hn0 Hheld].
  assert (Ho : mr_Name o = n) by congruence. rewrite Ho. unfold st_update.
  destruct (all_retold_lookup _ _ _ _ (keeps_repos _ Hc) H0) as (old & Hold & Hro). rewrite Hold.
  case_bool_decide; [|apply Hc]. destruct Hro as (s' & v & ->). unfold bump. cbn.
  rewrite bool_decide_false by tauto. cbn.
  eapply all_retold_insert_new; [apply Hc|done|]. exists s. rewrite Hs. by eexists.
Qed.

(** Writing the engine, or its status. *)
Lemma keeps_written c m :
  keeps c -> (exists e, m !! (ns, name) = Some e /\ this_engine e /\ meta_DeletionTimestamp (le_Meta e) = None) ->
  keeps (set_engines m c).
Proof. intros [H1 H2 H3 H4 H5] Hm. by split. Qed.

Lemma update_keeps_engine c k o merge :
  keeps c ->
  (forall old, cl_engines c !! (ns, name) = Some old -> this_engine old ->
     meta_DeletionTimestamp (le_Meta old) = None -> k = (ns, name) ->
     this_engine (merge old o) /\ meta_DeletionTimestamp (le_Meta (merge old o)) = None) ->
  keeps (set_engines (st_update le_Meta le_with_Meta merge k o (cl_engines c)).2 c).
Proof.
  intros Hc Hm. apply keeps_written; [done|]. destruct (keeps_present _ Hc) as (e & He & Ht & Hd).
  unfold st_update. destruct (cl_engines c !! k) as [old|] eqn:Ek; [|cbn; eauto].
  case_bool_decide; [|cbn; eauto].
  destruct (decide (k = (ns, name))) as [->|Hne].
  - assert (old = e) as -> by congruence. destruct (Hm e He Ht Hd eq_refl) as [(H1 & H2 & H3) H4].
    rewrite bool_decide_false by (unfold bump; cbn; tauto). cbn. rewrite lookup_insert_eq.
    eexists. split; [done|]. done.
  - case_bool_decide; cbn; [rewrite lookup_delete_ne by done|rewrite lookup_insert_ne by done]; eauto.
Qed.

#[local] Instance mem_keeps : Serves mem keeps keeping tells.
Proof.
  split; intros r c Hc Hr; destruct r; try done; cbn in *.
  - pose proof (keeps_told c o Hc Hr) as Ht. destruct (st_update _ _ _ _ _ _) as [a m]. cbn in *.
    destruct Hc. by split.
  - destruct Hr as [(H1 & H2 & H3) H4].
    pose proof (update_keeps_engine c (meta_key (le_Meta o)) o (fun old new => le_with_Status (le_Status old) new) Hc) as Hk.
    destruct (st_update _ _ _ _ _ _) as [a m]. by apply Hk.
  - pose proof (update_keeps_engine c (meta_key (le_Meta o)) o (fun old new => le_with_Status (le_Status new) old) Hc) as Hk.
    destruct (st_update _ _ _ _ _ _) as [a m]. by apply Hk.
  - unfold st_create. destruct (cl_pvcs c !! _) eqn:E; cbn; destruct Hc as [H1 H2 H3 H4 H5]; split; try done.
    cbn. etrans; [exact H2|]. by apply insert_subseteq.
  - unfold st_create. destruct (cl_pvs c !! _) eqn:E; cbn; destruct Hc as [H1 H2 H3 H4 H5]; split; try done.
    cbn. etrans; [exact H3|]. by apply insert_subseteq.
  - by destruct Hc.
  - unfold st_delete. destruct (cl_deployments c !! _); [case_bool_decide|]; cbn; by destruct Hc.
  - by destruct Hc.
  - unfold st_delete. destruct (cl_services c !! _); [case_bool_decide|]; cbn; by destruct Hc.
  - by destruct Hc.
  - by destruct Hc.
  - unfold st_get. destruct (cl_repos c !! name0) as [mr|] eqn:E; [|done].
    pose proof (keeps_repos _ Hc name0) as Ho. rewrite E in Ho. inversion Ho; eauto.
  - unfold st_get. destruct (cl_engines c !! _) as [e|] eqn:E; [|done]. intros -> ->.
    destruct (keeps_present _ Hc) as (e' & He & Ht & Hd). by simplify_eq.
Qed.

Lemma engine_pass_keeps :
  present c0 -> keeps (run mem (EngineController.Reconcile ns name) c0).2.
Proof.
  intros Hp. destruct (run mem _ c0) as [[t o] c'] eqn:E. cbn.
  assert (Hwp : wp (owes keeping tells) (EngineController.Reconcile ns name) [] (fun _ _ => True)).
  { eapply wp_mono; [|done|exact (engine_Reconcile_wp ns name [])]. intros h' r Hg Hh. by eapply engine_guard_keeps. }
  refine (proj1 (proj2 (proj2 (wp_serves mem keeps keeping tells _ _ _ _ _ _ _ Hwp _ (Forall_nil_2 _) E)))).
  by split.
Qed.

End Frame.
