(* ===== verification/OperatorConvergence.v ===== *)
(** * The operator converges

    An engine and its repositories, brought up together: passes of both
    controllers over them, one after the other in any fair order, on the in-memory
    API server, with the rest of the cluster at work in between.  EngineProgress.v
    and RepoProgress.v say what a pass achieves for its own object; here each
    controller is part of the surroundings of the other. *)

From S2P Require Import Prelude Naming Api Kube Machinery MemServer Frames Leads StorageDiscovery Backend.
From S2P Require Import EngineStorage StorageProvider Jobs RepoStatus RepoController GoStd EngineConfig.
From S2P Require Import VllmConfig EngineAdapters Workload EngineStatus EngineController EngineLife EngineSafety.
From S2P Require RepoProgress RepoConvergence EngineProgress EngineConvergence EngineFrame.

Local Open Scope go_scope.

(** Whose turn it is. *)
Inductive turn := EngineTurn | RepoTurn (r : string).
#[export] Instance turn_eq_dec : EqDecision turn.
Proof. solve_decision. Defined.

Section Together.
Context `{L : MachineryLaws} `{Sc : Scripts} `{Rg : GoRange} `{Y : Yaml}.
Context (OperatorNamespace ns name : string) (spec : LLMEngineSpec) (repos : string -> ModelRepositorySpec).

Definition pass (w : turn) : prog (Result * err_opt) :=
  match w with
  | EngineTurn => EngineController.Reconcile ns name
  | RepoTurn r => RepoController.Reconcile OperatorNamespace r
  end.

#[local] Abbreviation refs := (EngineProgress.repo_names spec).
#[local] Abbreviation this_repo r := (RepoProgress.this_repo r (repos r)).
#[local] Abbreviation claim_in r c := (RepoProgress.claim_in OperatorNamespace r c).
#[local] Abbreviation job_in r c := (RepoProgress.job_in OperatorNamespace r c).
#[local] Abbreviation desired r := (RepoProgress.desired (repos r)).
#[local] Abbreviation entered r c := (RepoProgress.entered OperatorNamespace r c).
#[local] Abbreviation backed r c := (RepoProgress.backed OperatorNamespace r c).
#[local] Abbreviation claim_of := (EngineProgress.claim_of ns name).
#[local] Abbreviation deployment_of := (EngineProgress.deployment_of ns name).
#[local] Abbreviation missing := (EngineConvergence.missing ns name spec).
#[local] Abbreviation all_started := (EngineProgress.all_started ns name spec).

(** What has to hold of the engine and its repositories. *)
Record servable : Prop := {
  servable_engine : EngineProgress.deployable_spec name spec;
  servable_repo r : r ∈ refs -> RepoProgress.downloadable_spec r (repos r);
  servable_config e mr : EngineProgress.this_engine ns name spec e -> mr_Name mr ∈ refs ->
    this_repo (mr_Name mr) mr -> les_EngineType spec = LLMEngineTypeVLLM ->
    exists y, yaml_Marshal (engine_vllm_config e mr) = Ok y;
}.

(** *** The rest of the cluster *)

(** A backend that an engine can mount, with a capacity. *)
Definition mountable (ref : BackendReference) (capacity : string) : Prop :=
  exists q src hp, ParseQuantity capacity = Ok q /\ read_only_volume ref = Ok (src, hp).

(** It has done its part: it has a StorageClass, no cleanup job is in the way,
    the claims there are are bound to volumes that can be mounted, the jobs have
    succeeded, and there are the GPUs. *)
Record fair (c : cluster) : Prop := {
  fair_tidy : tidy c;
  fair_class r : r ∈ refs -> RepoProgress.class_available (repos r) c;
  fair_cleanup r rev n : r ∈ refs -> rev ∈ desired r -> generateJobName "cleanup" r (rev_Name rev) = Done n ->
    cl_jobs c !! (operator_namespace OperatorNamespace, n) = None;
  fair_repo r : r ∈ refs -> RepoProgress.settled OperatorNamespace r (repos r) c;
  fair_backend r pvc ref : r ∈ refs -> backed r c pvc ref -> mountable ref (default EmptyString (pvc_Capacity pvc));
  fair_volume r : r ∈ refs -> is_Some (claim_of c r) -> is_Some (EngineProgress.volume_of name c r);
  fair_engine : EngineProgress.settled ns name spec c;
  fair_gpus : EngineProgress.has_gpus spec c;
}.

(** It does so from [c] to [c'], takes nothing away, starts the pods of the
    deployments there are, and leaves the engine and the repositories (but for what
    they report) to the operator. *)
Record rest (c c' : cluster) : Prop := {
  rest_fair : fair c';
  rest_repos : all_retold (cl_repos c) (cl_repos c');
  rest_engine : cl_engines c' !! (ns, name) = cl_engines c !! (ns, name);
  rest_repo_claim r : r ∈ refs -> is_Some (claim_in r c) -> is_Some (claim_in r c');
  rest_job r rev : r ∈ refs -> rev ∈ desired r -> is_Some (job_in r c rev) -> is_Some (job_in r c' rev);
  rest_claim r : r ∈ refs -> is_Some (claim_of c r) -> is_Some (claim_of c' r);
  rest_pods r : r ∈ refs -> is_Some (deployment_of c r) -> EngineProgress.started ns name c' r;
}.

(** The engine and its repositories are there. *)
Record there (c : cluster) : Prop := {
  there_engine : EngineProgress.present ns name spec c;
  there_repo r : r ∈ refs -> exists mr, cl_repos c !! r = Some mr /\ this_repo r mr;
}.

(** ** A repository, on its way *)

(** It reports Ready, on storage that can be mounted. *)
Definition serving (r : string) (c : cluster) : Prop :=
  exists mr st ref, cl_repos c !! r = Some mr /\ mst_Phase (mr_Status mr) = DownloadPhaseReady /\
    mst_Storage (mr_Status mr) = Some st /\ ss_BackendRef st = Some ref /\ mountable ref (ss_Capacity st).

(** What it has after [k] passes. *)
Record stage (r : string) (k : nat) (c : cluster) : Prop := {
  stage_named : (1 <= k)%nat -> RepoProgress.named r c;
  stage_claim : (2 <= k)%nat -> is_Some (claim_in r c);
  stage_entered : (3 <= k)%nat -> Forall (entered r c) (desired r);
  stage_serving : (4 <= k)%nat -> serving r c;
}.

(** Who takes nothing of it away, *)
Record spares (r : string) (c c' : cluster) : Prop := {
  spares_repo mr : cl_repos c !! r = Some mr -> exists mr', cl_repos c' !! r = Some mr' /\ retold mr mr';
  spares_claim : is_Some (claim_in r c) -> is_Some (claim_in r c');
  spares_job rev : rev ∈ desired r -> is_Some (job_in r c rev) -> is_Some (job_in r c' rev);
}.

(** keeps it where it is. *)
Lemma stage_spared r k c c' : spares r c c' -> stage r k c -> stage r k c'.
Proof.
  intros [Hr Hc Hj] [S1 S2 S3 S4]. split.
  - intros Hk. destruct (S1 Hk) as (mr & Hmr & Hn). destruct (Hr mr Hmr) as (mr' & Hmr' & Hs).
    exists mr'. split; [done|]. by destruct Hs as (s & v & ->).
  - intros Hk. by apply Hc, S2.
  - intros Hk. apply Forall_forall. intros rev Hrev.
    destruct (proj1 (Forall_forall _ _) (S3 Hk) rev Hrev) as (rs & Hrs & Hs). exists rs. split.
    + unfold RepoProgress.entry_in, RepoProgress.status_in in *.
      destruct (cl_repos c !! r) as [mr|] eqn:E; [|done]. destruct (Hr mr eq_refl) as (mr' & -> & s & v & ->). done.
    + destruct Hs as [Hs|Hs]; [by left|right; by apply Hj].
  - intros Hk. destruct (S4 Hk) as (mr & st & ref & Hmr & Hp & Hst & Href & Hm).
    destruct (Hr mr Hmr) as (mr' & Hmr' & s & v & ->). eexists _, st, ref. split; [exact Hmr'|]. done.
Qed.

Lemma job_in_weaken r c c' rev :
  cl_jobs c ⊆ cl_jobs c' -> is_Some (job_in r c rev) -> is_Some (job_in r c' rev).
Proof.
  unfold RepoProgress.job_in. destruct (RepoProgress.job_name r rev); [|done].
  intros Hs [j Hj]. exists j. by eapply lookup_weaken.
Qed.

Lemma rest_spares r c c' : rest c c' -> r ∈ refs -> spares r c c'.
Proof.
  intros Hr Hin. split.
  - intros mr Hmr. by eapply all_retold_lookup; [apply Hr|].
  - by apply Hr.
  - intros rev. by apply Hr.
Qed.

Lemma engine_spares r c c' :
  all_retold (cl_repos c) (cl_repos c') -> cl_pvcs c ⊆ cl_pvcs c' -> cl_jobs c' = cl_jobs c -> spares r c c'.
Proof.
  intros Ht Hp Hj. split.
  - intros mr Hmr. by eapply all_retold_lookup.
  - intros [pvc Hpvc]. exists pvc. by eapply lookup_weaken.
  - intros rev _. apply job_in_weaken. by rewrite Hj.
Qed.

Lemma other_spares r r' c c' :
  r <> r' -> RepoProgress.grows OperatorNamespace r' c c' -> spares r c c'.
Proof.
  intros Hne Hg. split.
  - intros mr Hmr. exists mr. rewrite (RepoProgress.grows_others _ _ _ _ Hg) by done. split; [done|reflexivity].
  - intros [pvc Hpvc]. exists pvc. eapply lookup_weaken; [done|apply Hg].
  - intros rev _. apply job_in_weaken, Hg.
Qed.

(** Its own passes bring it on. *)
Lemma own_stage r k c c' :
  r ∈ refs -> fair c -> RepoProgress.pass_from OperatorNamespace r (repos r) c c' ->
  stage r k c -> stage r (S k) c'.
Proof.
  intros Hr Hf [[_ Hg] P1 P2 P3 P4] [S1 S2 S3 S4]. split; intros Hk.
  - done.
  - apply P2, S1. lia.
  - apply P3; [apply S1|apply S2]; lia.
  - destruct (P4 (S1 ltac:(lia)) (S2 ltac:(lia)) (S3 ltac:(lia))) as ((s & Hs & Hp) & _ & Hrec).
    destruct Hrec as (s' & st & pvc & ref & Hs' & Hst & Href & Hb & Hq).
    unfold RepoProgress.status_in in *. destruct (cl_repos c' !! r) as [mr|] eqn:E; [|done].
    cbn in Hs, Hs'. injection Hs as <-. injection Hs' as <-.
    exists mr, st, ref. split; [done|]. split; [done|]. split; [done|]. split; [done|]. rewrite Hq.
    apply (fair_backend _ Hf r pvc ref Hr). destruct Hb as (B1 & B2 & B3 & pv & B4 & B5).
    destruct (S2 ltac:(lia)) as [pvc0 Hpvc0].
    assert (pvc0 = pvc) as ->.
    { pose proof (lookup_weaken _ _ _ _ Hpvc0 (RepoProgress.grows_claims _ _ _ _ Hg)) as H.
      unfold RepoProgress.claim_in in B1. congruence. }
    destruct (RepoProgress.grows_rest _ _ _ _ Hg) as (_ & Hpv & _). rewrite Hpv in B4.
    split; [done|]. split; [done|]. split; [done|]. by exists pv.
Qed.

(** ** The engine, on its way *)

(** With all of its repositories ready it can be served. *)
Lemma all_serving_live c :
  servable -> there c -> fair c -> (forall r, r ∈ refs -> serving r c) -> EngineProgress.live ns name spec c.
Proof.
  intros Hs Ht Hf Hall. split; [apply Ht| |apply Hf..].
  intros r Hr. destruct (there_repo _ Ht r Hr) as (mr & Hmr & Hthis).
  destruct (Hall r Hr) as (mr' & st & ref & Hmr' & Hp & Hst & Href & q & src & hp & Hq & Hsrc).
  assert (mr' = mr) as -> by congruence. exists mr. split; [done|]. pose proof Hthis as (Hn & _ & Hd & _). split; try done.
  - by exists st, ref, q, src, hp.
  - intros e He Hv. apply (servable_config Hs e mr He); [by rewrite Hn|by rewrite Hn|done].
Qed.

(** What it has after [m] passes with its repositories ready. *)
Record engine_stage (m : nat) (c : cluster) : Prop := {
  estage_missing : (length (missing c) <= length refs - m)%nat;
  estage_started : (length refs < m)%nat -> all_started c;
}.

(** Repositories and the rest keep it where it is. *)
Lemma engine_stage_kept m c c' :
  (forall r, r ∈ refs -> is_Some (claim_of c r) -> is_Some (claim_of c' r)) ->
  (forall r, r ∈ refs -> EngineProgress.started ns name c r -> EngineProgress.started ns name c' r) ->
  engine_stage m c -> engine_stage m c'.
Proof.
  intros Hc Hd [H1 H2]. split.
  - etrans; [|exact H1]. apply EngineConvergence.filter_length_mono. intros r Hr Hnone.
    destruct (claim_of c r) eqn:E; [|done]. destruct (Hc r Hr) as [? ?]; [by eexists|]. congruence.
  - intros Hm. apply Forall_forall. intros r Hr. apply Hd; [done|]. by eapply Forall_forall in H2.
Qed.

(** Its own passes, the rest following, bring it on. *)
Lemma own_engine_stage m c c1 c' :
  EngineProgress.pass_from ns name spec c c1 -> EngineProgress.settled ns name spec c ->
  EngineConvergence.helps ns name spec c1 c' -> engine_stage m c -> engine_stage (S m) c'.
Proof.
  intros Hp Hset Hh [H1 H2].
  destruct (EngineConvergence.round_progress ns name spec c c1 c' Hp Hset Hh) as (P1 & P2 & P3). split.
  - destruct (missing c) as [|r l]; cbn in *; [lia|]. specialize (P2 ltac:(done)). lia.
  - intros Hm. apply P3, nil_length_inv. lia.
Qed.

(** ** A pass, wherever they are *)

Lemma retold_this r mr mr' : retold mr mr' -> this_repo r mr -> this_repo r mr'.
Proof.
  intros Hr (H1 & H2 & H3 & H4). destruct (retold_same _ _ Hr) as (E1 & E2 & E3 & E4 & _).
  unfold RepoProgress.this_repo. rewrite E1, E2, E3, E4. done.
Qed.

Lemma repos_retold c c' :
  there c -> all_retold (cl_repos c) (cl_repos c') -> EngineProgress.present ns name spec c' -> there c'.
Proof.
  intros Hc Ht He. split; [done|]. intros r Hin. destruct (there_repo _ Hc r Hin) as (mr & Hmr & H).
  destruct (all_retold_lookup _ _ _ _ Ht Hmr) as (mr' & Hmr' & Hs). exists mr'. split; [done|]. by eapply retold_this.
Qed.

Lemma there_rest c c' : there c -> rest c c' -> there c'.
Proof.
  intros Hc Hr. apply (repos_retold c); [done|apply Hr|]. destruct (there_engine _ Hc) as (e & He & H).
  exists e. split; [|done]. by rewrite (rest_engine _ _ Hr).
Qed.

(** Of a repository: it never fails. *)
Lemma repo_pass r c :
  servable -> there c -> fair c -> r ∈ refs ->
  exists t res c', run mem (RepoController.Reconcile OperatorNamespace r) c = (t, Done (res, None), c') /\
    RepoProgress.pass_from OperatorNamespace r (repos r) c c' /\ there c'.
Proof.
  intros Hs Ht Hf Hr.
  assert (Hlive : RepoProgress.live OperatorNamespace r (repos r) c).
  { split; [by apply Ht|by apply Hf|]. intros rev n. by apply Hf. }
  destruct (leads_run _ _ _ _ (RepoProgress.Repo_Reconcile_leads OperatorNamespace r (repos r) c Hlive
    (fair_repo _ Hf r Hr) (servable_repo Hs r Hr))) as (t & [res e] & c' & Hrun & He & Hp).
  cbn in He. subst e. exists t, res, c'. split; [done|]. split; [done|]. destruct Hp as [[Hl Hg] _ _ _ _].
  destruct (RepoProgress.grows_rest _ _ _ _ Hg) as (He & _).
  split; [destruct (there_engine _ Ht) as (e & H); exists e; by rewrite He|].
  intros r' Hin. destruct (decide (r' = r)) as [->|Hne]; [apply Hl|].
  rewrite (RepoProgress.grows_others _ _ _ _ Hg) by done. by apply (there_repo _ Ht).
Qed.

(** Of the engine: it leaves the others alone, *)
Lemma engine_pass c :
  there c -> fair c -> let c' := (run mem (EngineController.Reconcile ns name) c).2 in
  EngineFrame.keeps ns name spec c c' /\ there c'.
Proof.
  intros Ht Hf. cbv zeta.
  pose proof (EngineFrame.engine_pass_keeps ns name spec c (fair_tidy _ Hf) (there_engine _ Ht)) as Hk.
  split; [done|]. by apply (repos_retold c); [|apply Hk..].
Qed.

(** and with the repositories up it does not fail either. *)
Lemma ready_engine_pass c :
  servable -> there c -> fair c -> (forall r, r ∈ refs -> serving r c) ->
  exists t res c', run mem (EngineController.Reconcile ns name) c = (t, Done (res, None), c') /\
    EngineProgress.pass_from ns name spec c c'.
Proof.
  intros Hs Ht Hf Hall.
  destruct (leads_run _ _ _ _ (EngineProgress.Reconcile_leads ns name spec c
    (all_serving_live _ Hs Ht Hf Hall) (fair_engine _ Hf) (servable_engine Hs)))
    as (t & [res e] & c' & Hrun & He & Hp).
  cbn in He. subst e. by exists t, res, c'.
Qed.

(** ** Any fair order *)
Section Schedule.
Context (who : nat -> turn) (cs : nat -> cluster).
Context (Hserv : servable) (Hthere : there (cs 0%nat)) (Hfair : fair (cs 0%nat)).
Context (Hwho : forall i r, who i = RepoTurn r -> r ∈ refs).
Context (Hrest : forall i, rest (run mem (pass (who i)) (cs i)).2 (cs (S i))).

(** The turns so far. *)
Fixpoint turns (w : turn) (i : nat) : nat :=
  match i with
  | O => O
  | S i => (if decide (who i = w) then 1 else 0) + turns w i
  end.

Lemma always_fair i : fair (cs i).
Proof. destruct i; [done|]. apply (Hrest i). Qed.

(** *** Turns *)
Lemma repo_turn i r :
  there (cs i) -> who i = RepoTurn r ->
  exists t res c', run mem (pass (who i)) (cs i) = (t, Done (res, None), c') /\
    RepoProgress.pass_from OperatorNamespace r (repos r) (cs i) c' /\ rest c' (cs (S i)) /\ there c'.
Proof.
  intros Ht Hw. pose proof (Hrest i) as Hre.
  destruct (repo_pass r (cs i) Hserv Ht (always_fair i) (Hwho i r Hw)) as (t & res & c' & Hrun & Hp & Hc').
  exists t, res, c'. rewrite Hw in *. cbn [pass] in *. rewrite Hrun in *. done.
Qed.

Lemma engine_turn i :
  there (cs i) -> who i = EngineTurn ->
  let c' := (run mem (pass (who i)) (cs i)).2 in
  EngineFrame.keeps ns name spec (cs i) c' /\ rest c' (cs (S i)) /\ there c'.
Proof.
  intros Ht Hw. pose proof (Hrest i) as Hre. rewrite Hw in *.
  destruct (engine_pass (cs i) Ht (always_fair i)). done.
Qed.

Lemma ready_engine_turn i :
  there (cs i) -> who i = EngineTurn -> (forall r, r ∈ refs -> serving r (cs i)) ->
  exists t res c', run mem (pass (who i)) (cs i) = (t, Done (res, None), c') /\
    EngineProgress.pass_from ns name spec (cs i) c'.
Proof. intros Ht -> Hall. exact (ready_engine_pass (cs i) Hserv Ht (always_fair i) Hall). Qed.

(** *** What holds all the time *)
Lemma always_there i : there (cs i).
Proof.
  induction i as [|i IH]; [done|]. destruct (who i) as [|r] eqn:Hw.
  - destruct (engine_turn i IH Hw) as (_ & Hr & Hc). by eapply there_rest.
  - destruct (repo_turn i r IH Hw) as (t & res & c' & _ & _ & Hr & Hc). by eapply there_rest.
Qed.

Lemma always_stage r i : r ∈ refs -> stage r (turns (RepoTurn r) i) (cs i).
Proof.
  intros Hr. induction i as [|i IH]; [split; cbn; lia|]. pose proof (always_there i) as Ht.
  destruct (who i) as [|r'] eqn:Hw; cbn [turns].
  - destruct (engine_turn i Ht Hw) as (Hk & Hre & _). rewrite decide_False by congruence. cbn [Nat.add].
    apply (stage_spared _ _ _ _ (rest_spares r _ _ Hre Hr)). refine (stage_spared _ _ _ _ _ IH).
    apply engine_spares; apply Hk.
  - destruct (repo_turn i r' Ht Hw) as (t & res & c' & _ & Hp & Hre & _).
    apply (stage_spared _ _ _ _ (rest_spares r _ _ Hre Hr)). destruct (decide (r = r')) as [->|Hne].
    + rewrite decide_True by done. by apply (own_stage r' _ (cs i)); [|apply always_fair|..].
    + rewrite decide_False by congruence. cbn [Nat.add]. refine (stage_spared _ _ _ _ _ IH).
      eapply other_spares; [done|apply Hp].
Qed.

(** *** Once the repositories are up *)
Context (T : nat) (HT : forall r, r ∈ refs -> (4 <= turns (RepoTurn r) T)%nat).

Lemma turns_mono w i j : (i <= j)%nat -> (turns w i <= turns w j)%nat.
Proof. induction 1 as [|j _ IH]; cbn; lia. Qed.

Lemma serving_since i : (T <= i)%nat -> forall r, r ∈ refs -> serving r (cs i).
Proof.
  intros Hi r Hr. apply (stage_serving _ _ _ (always_stage r i Hr)).
  pose proof (turns_mono (RepoTurn r) T i Hi). pose proof (HT r Hr). lia.
Qed.

Lemma rest_helps i c : (T <= S i)%nat -> rest c (cs (S i)) -> EngineConvergence.helps ns name spec c (cs (S i)).
Proof.
  intros Hi Hre. pose proof (always_fair (S i)) as Hf. split; [|by apply Hre|apply Hf|by apply Hre].
  apply all_serving_live; [done|apply always_there|done|by apply serving_since].
Qed.

Lemma engine_since i : (T <= i)%nat -> engine_stage (turns EngineTurn i - turns EngineTurn T) (cs i).
Proof.
  induction 1 as [|i Hi IH].
  - split; [|lia]. rewrite Nat.sub_diag, Nat.sub_0_r. apply length_filter.
  - pose proof (always_there i) as Ht. pose proof (turns_mono EngineTurn T i Hi) as Hm.
    destruct (who i) as [|r] eqn:Hw; cbn [turns].
    + destruct (ready_engine_turn i Ht Hw (serving_since i Hi)) as (t & res & c' & Hrun & Hp).
      rewrite decide_True by done. rewrite Nat.sub_succ_l by done. cbn [Nat.add].
      apply (own_engine_stage _ (cs i) c'); [done|apply always_fair| |done].
      apply rest_helps; [lia|]. pose proof (Hrest i) as Hre. by rewrite Hrun in Hre.
    + destruct (repo_turn i r Ht Hw) as (t & res & c' & _ & [[_ Hg] _ _ _ _] & Hre & _).
      rewrite decide_False by congruence. cbn [Nat.add]. revert IH.
      destruct (RepoProgress.grows_rest _ _ _ _ Hg) as (_ & _ & Hd & _). apply engine_stage_kept.
      * intros r' Hr' [pvc Hpvc]. apply Hre; [done|]. exists pvc. unfold EngineProgress.claim_of in *.
        destruct (llmEnginePVName name r'); [|done]. eapply lookup_weaken; [done|apply Hg].
      * intros r' Hr' (d & Hdep & _). apply Hre; [done|]. exists d. unfold EngineProgress.deployment_of in *. by rewrite Hd.
Qed.

Lemma runs_since i :
  (T <= i)%nat -> who i = EngineTurn -> (length refs < turns EngineTurn i - turns EngineTurn T)%nat ->
  EngineProgress.running ns name spec (run mem (pass (who i)) (cs i)).2.
Proof.
  intros Hi Hw Hm. pose proof (engine_since i Hi) as [H1 H2].
  destruct (ready_engine_turn i (always_there i) Hw (serving_since i Hi)) as (t & res & c' & Hrun & Hp).
  rewrite Hrun. apply (EngineProgress.pass_runs _ _ _ _ _ Hp); [|by apply H2].
  apply EngineConvergence.missing_none; [apply always_fair|]. apply nil_length_inv. lia.
Qed.

End Schedule.
End Together.

(** Property C3: the operator converges.  On the in-memory API server take an engine
    that can be deployed and repositories that can be downloaded, none of them being
    deleted, whatever their statuses say, on any cluster that has a StorageClass and
    the GPUs, even one with nothing else.  Let the two controllers reconcile them in
    any order, where between two passes the rest of the cluster binds the claims to
    volumes an engine can mount, completes the jobs and starts the pods, and takes
    nothing away.  Then no pass over a repository ever fails.  And once every
    repository has been reconciled four times, all of them are Ready for good, no
    pass over the engine fails, and every pass over it after as many more as it has
    references ends with the engine Running, reporting all of its repositories. *)
Theorem operator_converges `{L : MachineryLaws} `{Sc : Scripts} `{Rg : GoRange} `{Y : Yaml}
    OperatorNamespace ns name spec repos (who : nat -> turn) (cs : nat -> cluster) :
  servable ns name spec repos ->
  there ns name spec repos (cs 0%nat) ->
  fair OperatorNamespace ns name spec repos (cs 0%nat) ->
  (forall i r, who i = RepoTurn r -> r ∈ EngineProgress.repo_names spec) ->
  (forall i, rest OperatorNamespace ns name spec repos
     (run mem (pass OperatorNamespace ns name (who i)) (cs i)).2 (cs (S i))) ->
  (forall i r, who i = RepoTurn r ->
     exists t res c', run mem (pass OperatorNamespace ns name (who i)) (cs i) = (t, Done (res, None), c')) /\
  forall T, (forall r, r ∈ EngineProgress.repo_names spec -> (4 <= turns who (RepoTurn r) T)%nat) ->
    (forall i r, (T <= i)%nat -> r ∈ EngineProgress.repo_names spec -> serving r (cs i)) /\
    forall i, (T <= i)%nat -> who i = EngineTurn ->
      (exists t res c', run mem (pass OperatorNamespace ns name (who i)) (cs i) = (t, Done (res, None), c')) /\
      ((length (les_ModelRefs spec) < turns who EngineTurn i - turns who EngineTurn T)%nat ->
       EngineProgress.running ns name spec (run mem (pass OperatorNamespace ns name (who i)) (cs i)).2).
Proof.
  intros Hs Ht Hf Hw Hr. split.
  - intros i r Hi. destruct (repo_turn OperatorNamespace ns name spec repos who cs Hs Hf Hw Hr i r)
      as (t & res & c' & H & _); [by eapply always_there|done|]. by exists t, res, c'.
  - intros T HT. assert (Hserve := serving_since OperatorNamespace ns name spec repos who cs Hs Ht Hf Hw Hr T HT).
    split; [intros i r Hi; by apply Hserve|]. intros i Hi Ei. split.
    + destruct (ready_engine_turn OperatorNamespace ns name spec repos who cs Hs Hf Hr i)
        as (t & res & c' & H & _); [by eapply always_there|done|by apply Hserve|]. by exists t, res, c'.
    + intros Hm. eapply runs_since; try done. unfold EngineProgress.repo_names. by rewrite length_map.
Qed.

(** ** A rest of the cluster that does its part *)

(** It binds every claim to the NFS volume of Backend.v, replaces the engine's
    volume should it be lost, completes the jobs and starts the pods. *)
Definition spare_volume (engine repo : string) : option PersistentVolume :=
  match llmEnginePVName engine repo with
  | Done n => Some (mkPV (meta_with_Name n meta_empty) (pv_Spec witness_nfs_pv))
  | Panicked _ => None
  end.

Definition tend_volumes (c : cluster) : gmap string PersistentVolume :=
  <["pv-1" := witness_nfs_pv]>
    (match spare_volume "chat" "llama" with
     | Some pv => cl_pvs c ∪ {[meta_Name (pv_Meta pv) := pv]}
     | None => cl_pvs c
     end).

Definition tend (c : cluster) : cluster :=
  start_pods (RepoSafety.complete_jobs (set_pvs (tend_volumes c)
    (set_pvcs (fmap (fun p => mkPVC (pvc_Meta p) (pvc_AccessModes p) (pvc_Request p)
       (pvc_StorageClassName p) "pv-1" ClaimBound (Some "10Gi")) (cl_pvcs c)) c))).

(** A vLLM engine for the repository of RepoConvergence.v, which is not ready. *)
Definition solo_spec : LLMEngineSpec :=
  mkLLMEngineSpec LLMEngineTypeVLLM [mkModelReference "llama" EmptyString EmptyString]
    EmptyString [] [] 0 0 None ∅ None None false.
Definition solo_cluster : cluster :=
  set_engines {[("team", "chat") :=
      mkLLMEngine (meta_with_Namespace "team" (meta_with_Name "chat" meta_empty)) solo_spec
        (mkLLMEngineStatus EmptyString [] [])]} RepoConvergence.two_cluster.

(** The controllers take turns. *)
Definition alternate (i : nat) : turn := if Nat.even i then EngineTurn else RepoTurn "llama".

Lemma stored_fmap {K A} `{Countable K} (meta : A -> ObjectMeta) (key_of : ObjectMeta -> K) f m :
  (forall o, meta (f o) = meta o) -> stored meta key_of m -> stored meta key_of (f <$> m).
Proof. intros Hf Hm k o. rewrite lookup_fmap. intros (o' & Ho & ->)%fmap_Some. rewrite Hf. by apply Hm. Qed.

Lemma tend_tidy c : tidy c -> tidy (tend c).
Proof.
  rewrite !tidy_stored. intros (H1 & H2 & H3 & H4 & H5 & H6). cbn. split_and!; try done.
  - by apply stored_fmap.
  - unfold tend_volumes. apply stored_insert; [|done]. unfold spare_volume.
    destruct (llmEnginePVName _ _); [|done]. intros k pv [Hk|[_ Hk]]%lookup_union_Some_raw; [by apply H5|].
    by apply lookup_singleton_Some in Hk as [<- <-].
  - by apply stored_fmap.
Qed.

Section Solo.
#[local] Instance solo_machinery : Machinery := Reference.machinery.
#[local] Instance solo_laws : MachineryLaws solo_machinery := Reference.laws.
#[local] Instance solo_scripts : Scripts := witness_scripts.
#[local] Instance solo_range : GoRange := witness_range.
#[local] Instance solo_yaml : Yaml := witness_yaml.

#[local] Abbreviation servable := (servable "team" "chat" solo_spec (fun _ => RepoConvergence.two_spec)).
#[local] Abbreviation there := (there "team" "chat" solo_spec (fun _ => RepoConvergence.two_spec)).
#[local] Abbreviation fair := (fair EmptyString "team" "chat" solo_spec (fun _ => RepoConvergence.two_spec)).
#[local] Abbreviation rest := (rest EmptyString "team" "chat" solo_spec (fun _ => RepoConvergence.two_spec)).

Fixpoint alternating (i : nat) : cluster :=
  match i with
  | O => solo_cluster
  | S i => tend (run mem (pass EmptyString "team" "chat" (alternate i)) (alternating i)).2
  end.

Lemma solo_name r : r ∈ EngineProgress.repo_names solo_spec -> r = "llama".
Proof. cbn. set_solver. Qed.

Lemma solo_servable : servable.
Proof.
  split.
  - split; [by right|done|..]; intros r ->%solo_name; [eexists; vm_compute; reflexivity|by vm_compute].
  - intros r ->%solo_name. apply RepoConvergence.two_spec_downloadable.
  - by eexists.
Qed.

Lemma solo_there : there solo_cluster.
Proof.
  split.
  - eexists. split; [reflexivity|]. done.
  - intros r ->%solo_name. eexists. split; [reflexivity|]. done.
Qed.

(** What a pass, of either controller, leaves for the rest to do. *)
Record left_over (c : cluster) : Prop := {
  over_tidy : tidy c;
  over_class : RepoProgress.class_available RepoConvergence.two_spec c;
  over_cleanup rev n : rev ∈ RepoProgress.desired RepoConvergence.two_spec ->
    generateJobName "cleanup" "llama" (rev_Name rev) = Done n ->
    cl_jobs c !! (operator_namespace EmptyString, n) = None;
}.

Lemma fair_leaves i c : there c -> fair c ->
  left_over (run mem (pass EmptyString "team" "chat" (alternate i)) c).2 /\
  there (run mem (pass EmptyString "team" "chat" (alternate i)) c).2.
Proof.
  intros Ht Hf. pose proof (run_tidy (pass EmptyString "team" "chat" (alternate i)) c (fair_tidy _ _ _ _ _ _ Hf)) as Htidy.
  unfold alternate in *. destruct (Nat.even i); cbn [pass] in *.
  - destruct (engine_pass _ _ _ _ _ c Ht Hf) as [Hk Hc']. split; [|done].
    destruct (EngineFrame.keeps_rest _ _ _ _ _ Hk) as (Hj & _ & Hcl). split; [done|..].
    + unfold RepoProgress.class_available. rewrite Hcl. apply (fair_class _ _ _ _ _ _ Hf "llama"). by left.
    + intros rev n Hrev Hn. rewrite Hj. apply (fair_cleanup _ _ _ _ _ _ Hf "llama" rev n); [by left|done..].
  - destruct (repo_pass _ _ _ _ _ "llama" c solo_servable Ht Hf) as (t & res & c' & Hrun & Hp & Hc');
      [by left|]. rewrite Hrun in *. cbn [snd] in *. split; [|done]. destruct Hp as [[Hl _] _ _ _ _]. split; [done|apply Hl|].
    intros rev n Hrev Hn. by apply (RepoProgress.live_cleanup _ _ _ _ Hl rev n).
Qed.

(** The claims of the repository and of the engine. *)
Lemma claim_tended ns n c :
  cl_pvcs (tend c) !! (ns, n) = (fun p => mkPVC (pvc_Meta p) (pvc_AccessModes p) (pvc_Request p)
       (pvc_StorageClassName p) "pv-1" ClaimBound (Some "10Gi")) <$> cl_pvcs c !! (ns, n).
Proof. cbn. apply lookup_fmap. Qed.

Lemma volume_tended c : cl_pvs (tend c) !! "pv-1" = Some witness_nfs_pv.
Proof. apply lookup_insert_eq. Qed.

Lemma job_tended r c rev : RepoProgress.job_in EmptyString r (tend c) rev =
  (fun j => mkJob (job_Meta j) (job_TemplateLabels j) (job_Pod j) 1 0) <$> RepoProgress.job_in EmptyString r c rev.
Proof. unfold RepoProgress.job_in. destruct (RepoProgress.job_name _ _); [|done]. cbn. apply lookup_fmap. Qed.

Lemma claim_of_tended c r : EngineProgress.claim_of "team" "chat" (tend c) r =
  (fun p => mkPVC (pvc_Meta p) (pvc_AccessModes p) (pvc_Request p)
       (pvc_StorageClassName p) "pv-1" ClaimBound (Some "10Gi")) <$> EngineProgress.claim_of "team" "chat" c r.
Proof. unfold EngineProgress.claim_of. destruct (llmEnginePVName _ _); [|done]. apply claim_tended. Qed.

Lemma spare_volume_there c : is_Some (EngineProgress.volume_of "chat" (tend c) "llama").
Proof.
  unfold EngineProgress.volume_of. cbn [tend cl_pvs set_pvs start_pods RepoSafety.complete_jobs set_deployments set_jobs].
  unfold tend_volumes, spare_volume. destruct (llmEnginePVName "chat" "llama") as [n|] eqn:E; [|by vm_compute in E].
  destruct (decide (n = "pv-1")) as [->|Hne]; [rewrite lookup_insert_eq; by eexists|].
  rewrite lookup_insert_ne by done. apply lookup_union_is_Some. right. rewrite lookup_singleton_eq. by eexists.
Qed.

Lemma tend_rests c : left_over c -> rest c (tend c).
Proof.
  intros Hc. split; [|reflexivity|reflexivity|..].
  - split.
    + by apply tend_tidy, Hc.
    + intros r ->%solo_name. apply Hc.
    + intros r rev n ->%solo_name Hr Hn. cbn. rewrite lookup_fmap. by rewrite (over_cleanup _ Hc rev n Hr Hn).
    + intros r ->%solo_name. split.
      * intros [p Hp]. unfold RepoProgress.claim_in in Hp. rewrite claim_tended in Hp.
        destruct (cl_pvcs c !! _) as [p0|] eqn:E; [|done]. injection Hp as <-.
        eexists _, _. split; [unfold RepoProgress.claim_in; by rewrite claim_tended, E|].
        split; [done|]. split; [done|]. exists witness_nfs_pv. split; [apply volume_tended|]. reflexivity.
      * intros rev j _. rewrite job_tended. destruct (RepoProgress.job_in _ _ _ _); [|done]. by intros [= <-].
    + intros r pvc ref _ (Hp & _ & _ & pv & Hpv & Href). unfold RepoProgress.claim_in in Hp.
      rewrite claim_tended in Hp. destruct (cl_pvcs c !! _); [|done]. injection Hp as <-.
      rewrite volume_tended in Hpv. injection Hpv as <-. injection Href as <-. cbn [pvc_Capacity default].
      eexists _, _, _. split; reflexivity.
    + intros r ->%solo_name _. apply spare_volume_there.
    + intros r _ [p Hp]. exists p. split; [done|]. rewrite claim_of_tended in Hp.
      destruct (EngineProgress.claim_of _ _ _ _); [|done]. by injection Hp as <-.
    + by intros gpu.
  - intros r _ [p Hp]. unfold RepoProgress.claim_in in *. rewrite claim_tended, Hp. by eexists.
  - intros r rev _ _ [j Hj]. rewrite job_tended, Hj. by eexists.
  - intros r _ [p Hp]. rewrite claim_of_tended, Hp. by eexists.
  - intros r _ [d Hd]. eexists. split; [|shelve]. unfold EngineProgress.deployment_of. cbn.
    rewrite lookup_fmap. unfold EngineProgress.deployment_of in Hd. rewrite Hd. reflexivity.
    Unshelve. cbn. lia.
Qed.

Lemma solo_fair : fair solo_cluster.
Proof.
  split.
  - apply tidy_stored. cbn. split_and!; try (intros ?? H; by rewrite lookup_empty in H).
    + intros k o [<- <-]%lookup_singleton_Some. done.
    + intros k o [<- <-]%lookup_singleton_Some. done.
    + intros k o [<- <-]%lookup_singleton_Some. done.
  - intros r ->%solo_name. split; [done|]. left. reflexivity.
  - intros r rev n _ _ _. apply lookup_empty.
  - intros r ->%solo_name. destruct RepoConvergence.two_cluster_settled as [H1 H2].
    split; [exact H1|exact H2].
  - intros r pvc ref _ (Hp & _). unfold RepoProgress.claim_in in Hp. cbn in Hp. by rewrite lookup_empty in Hp.
  - intros r ->%solo_name [p Hp]. unfold EngineProgress.claim_of in Hp.
    destruct (llmEnginePVName _ _); [|done]. cbn in Hp. by rewrite lookup_empty in Hp.
  - intros r ->%solo_name [p Hp]. unfold EngineProgress.claim_of in Hp.
    destruct (llmEnginePVName _ _); [|done]. cbn in Hp. by rewrite lookup_empty in Hp.
  - by intros gpu.
Qed.

Lemma alternating_ok i : there (alternating i) /\ fair (alternating i).
Proof.
  induction i as [|i [IH1 IH2]]; [split; [exact solo_there|exact solo_fair]|]. cbn [alternating].
  destruct (fair_leaves i _ IH1 IH2) as [Hl Ht]. pose proof (tend_rests _ Hl) as Hr.
  split; [by eapply there_rest|apply Hr].
Qed.

Lemma alternating_rest i :
  rest (run mem (pass EmptyString "team" "chat" (alternate i)) (alternating i)).2 (alternating (S i)).
Proof. destruct (alternating_ok i) as [H1 H2]. apply tend_rests, (fair_leaves i _ H1 H2). Qed.

Lemma alternate_refs i r : alternate i = RepoTurn r -> r ∈ EngineProgress.repo_names solo_spec.
Proof. unfold alternate. destruct (Nat.even i); [done|]. intros [= <-]. by left. Qed.

End Solo.

(** Eight turns bring the repository up, and four more the engine. *)
Lemma operator_converges_witness :
  let M := Reference.machinery in
  let S := witness_scripts in
  let R := witness_range in
  let Y := witness_yaml in
  EngineProgress.running "team" "chat" solo_spec
    (run mem (pass EmptyString "team" "chat" (alternate 12)) (alternating 12)).2.
Proof.
  intros M S R Y.
  refine (proj2 (proj2 (proj2 (operator_converges (L := Reference.laws) EmptyString "team" "chat" solo_spec
    (fun _ => RepoConvergence.two_spec) alternate alternating
    solo_servable solo_there solo_fair alternate_refs alternating_rest) 8%nat _) 12%nat _ _) _).
  - intros r ->%solo_name. by apply Nat.leb_le.
  - lia.
  - reflexivity.
  - by apply Nat.ltb_lt.
Defined.
