(* ===== verification/GoMemory.v ===== *)
(** * Go's memory

    Variables, slices and maps in a heap, with pointers into it: what the
    generated deep copies of DeepCopy.v work on.  A pointer designates a place, a
    variable or a field of one; copying a struct copies the pointers, slices and
    maps it holds, not what they refer to. *)

From S2P Require Import Prelude Jobs.
From stdpp Require Import fin_map_dom.

Local Open Scope nat_scope.

(** ** Values *)

Inductive kind := KString | KInt | KBool.
Inductive base := BString (s : string) | BInt (z : Z) | BBool (b : bool).

Definition kind_of (b : base) : kind :=
  match b with BString _ => KString | BInt _ => KInt | BBool _ => KBool end.

(** Types: a field of a struct has a name; the keys of maps are strings. *)
Inductive ty :=
| TBase (k : kind)
| TStruct (fields : list (string * ty))
| TPtr (t : ty)
| TSlice (t : ty)
| TMap (t : ty).

Abbreviation loc := positive.

(** A place: a cell of an array (a variable is an array of one), and the fields
    that lead to the place from there. *)
Record place := Place { pl_loc : loc; pl_idx : nat; pl_path : list string }.

(** A slice is a window on an array: where it starts, and its length.  [None] is
    nil. *)
Record window := Window { win_loc : loc; win_off : nat; win_len : nat }.

Inductive value :=
| VBase (b : base)
| VStruct (fields : list (string * value))
| VPtr (p : option place)
| VSlice (s : option window)
| VMap (m : option loc).

Inductive object := OCells (vs : list value) | OMap (m : gmap string value).
Abbreviation heap := (gmap loc object).

(** The zero value of a type. *)
Fixpoint zero (t : ty) : value :=
  match t with
  | TBase KString => VBase (BString EmptyString)
  | TBase KInt => VBase (BInt 0)
  | TBase KBool => VBase (BBool false)
  | TStruct fs => VStruct (map (fun '(f, t) => (f, zero t)) fs)
  | TPtr _ => VPtr None
  | TSlice _ => VSlice None
  | TMap _ => VMap None
  end.

(** ** Fields *)

Fixpoint assoc {A} (f : string) (fs : list (string * A)) : option A :=
  match fs with
  | [] => None
  | (g, a) :: fs => if decide (f = g) then Some a else assoc f fs
  end.

Fixpoint assoc_alter {A} (f : string) (u : A -> A) (fs : list (string * A)) : list (string * A) :=
  match fs with
  | [] => []
  | (g, a) :: fs => if decide (f = g) then (g, u a) :: fs else (g, a) :: assoc_alter f u fs
  end.

Fixpoint get_path (path : list string) (v : value) : option value :=
  match path with
  | [] => Some v
  | f :: path => match v with VStruct fs => assoc f fs ≫= get_path path | _ => None end
  end.

Fixpoint put_path (path : list string) (w v : value) : value :=
  match path with
  | [] => w
  | f :: path => match v with VStruct fs => VStruct (assoc_alter f (put_path path w) fs) | _ => v end
  end.

(** &p.f *)
Definition field (p : place) (f : string) : place := Place (pl_loc p) (pl_idx p) (pl_path p ++ [f]).
Notation "p @: f" := (field p f) (at level 8, left associativity) : go_scope.

Definition get (h : heap) (p : place) : option value :=
  match h !! pl_loc p with
  | Some (OCells vs) => vs !! pl_idx p ≫= get_path (pl_path p)
  | _ => None
  end.

Definition object_put (p : place) (w : value) (o : object) : object :=
  match o with OCells vs => OCells (alter (put_path (pl_path p) w) (pl_idx p) vs) | OMap m => OMap m end.

Definition put (p : place) (w : value) (h : heap) : heap := alter (object_put p w) (pl_loc p) h.

Lemma assoc_alter_same {A} f u (fs : list (string * A)) : assoc f (assoc_alter f u fs) = u <$> assoc f fs.
Proof.
  induction fs as [|[g a] fs IH]; [done|]. cbn. destruct (decide (f = g)); cbn; [by rewrite decide_True|].
  by rewrite decide_False.
Qed.

Lemma assoc_alter_compose {A} f u u' (fs : list (string * A)) :
  assoc_alter f u (assoc_alter f u' fs) = assoc_alter f (u ∘ u') fs.
Proof.
  induction fs as [|[g a] fs IH]; [done|]. cbn. destruct (decide (f = g)); cbn.
  - by rewrite decide_True.
  - by rewrite decide_False, IH.
Qed.

Lemma assoc_alter_ext {A} f u u' (fs : list (string * A)) :
  (forall a, u a = u' a) -> assoc_alter f u fs = assoc_alter f u' fs.
Proof. intros Hu. induction fs as [|[g a] fs IH]; [done|]. cbn. destruct (decide _); by rewrite ?Hu, ?IH. Qed.

Lemma get_path_app path f v : get_path (path ++ [f]) v = get_path path v ≫= get_path [f].
Proof.
  revert v. induction path as [|g path IH]; intros v; [done|]. cbn. destruct v; try done.
  destruct (assoc g fields) as [v|]; [|done]. apply IH.
Qed.

Lemma get_put_path path w v v' : get_path path v = Some v' -> get_path path (put_path path w v) = Some w.
Proof.
  revert v. induction path as [|g path IH]; intros v; [done|]. cbn. destruct v; try done.
  rewrite assoc_alter_same. destruct (assoc g fields) as [v|]; [|done]. apply IH.
Qed.

(** Writing a field of what was written. *)
Lemma put_path_field path f w ws v :
  put_path (path ++ [f]) w (put_path path (VStruct ws) v) =
  put_path path (VStruct (assoc_alter f (fun _ => w) ws)) v.
Proof.
  revert v. induction path as [|g path IH]; intros v; [done|]. cbn. destruct v; try done.
  by rewrite assoc_alter_compose, (assoc_alter_ext _ _ _ _ IH).
Qed.

Lemma put_path_same path v0 v : get_path path v0 = Some v -> put_path path v v0 = v0.
Proof.
  revert v0. induction path as [|f path IH]; intros v0; cbn; [by intros [= ->]|].
  destruct v0 as [|fs| | |]; try done. intros H. f_equal.
  induction fs as [|[g a] fs IHfs]; [done|]. cbn in *. destruct (decide (f = g)) as [->|]; [by rewrite IH|by rewrite IHfs].
Qed.

(** ** The heap *)

Lemma get_mono h h' p v : h ⊆ h' -> get h p = Some v -> get h' p = Some v.
Proof.
  intros Hh. unfold get. destruct (h !! pl_loc p) as [o|] eqn:E; [|done].
  by rewrite (lookup_weaken _ _ _ _ E Hh).
Qed.

Lemma get_put h p w v : get h p = Some v -> get (put p w h) p = Some w.
Proof.
  unfold get, put. rewrite lookup_alter_eq. destruct (h !! pl_loc p) as [[vs|]|]; cbn; try done.
  rewrite list_lookup_alter. rewrite decide_True by done. destruct (vs !! pl_idx p) as [v0|]; [|done].
  apply get_put_path.
Qed.

(** Writing what is there. *)
Lemma put_get h p v : get h p = Some v -> put p v h = h.
Proof.
  unfold get, put. intros Hg. apply map_eq. intros l. rewrite lookup_alter. case_decide as Hl; [subst l|done].
  destruct (h !! pl_loc p) as [[vs|]|]; cbn; try done. do 2 f_equal.
  apply list_eq. intros i. rewrite list_lookup_alter. case_decide as Hi; [subst i|done].
  destruct (vs !! pl_idx p) as [v0|]; cbn in *; [|done]. by rewrite (put_path_same _ _ _ Hg).
Qed.

Lemma get_field h p f fs : get h p = Some (VStruct fs) -> get h (field p f) = assoc f fs.
Proof.
  unfold get. cbn. destruct (h !! pl_loc p) as [[vs|]|]; cbn; try done.
  destruct (vs !! pl_idx p) as [v|]; [|done]. cbn. rewrite get_path_app. intros ->. cbn. by destruct (assoc f fs).
Qed.

Lemma get_loc h p v : get h p = Some v -> is_Some (h !! pl_loc p).
Proof. unfold get. by destruct (h !! pl_loc p). Qed.

Lemma put_field h p f w ws :
  put (field p f) w (put p (VStruct ws) h) = put p (VStruct (assoc_alter f (fun _ => w) ws)) h.
Proof.
  unfold put. cbn. apply map_eq. intros l. destruct (decide (pl_loc p = l)) as [<-|Hne].
  - rewrite !lookup_alter_eq. destruct (h !! pl_loc p) as [[vs|]|]; cbn; try done. do 2 f_equal.
    apply list_eq. intros i. rewrite !list_lookup_alter. repeat case_decide; try done.
    destruct (vs !! pl_idx p); cbn; [|done]. by rewrite put_path_field.
  - by rewrite !lookup_alter_ne.
Qed.

Lemma lookup_put_ne h p w l : pl_loc p <> l -> put p w h !! l = h !! l.
Proof. apply lookup_alter_ne. Qed.

Lemma lookup_put_None h p w l : put p w h !! l = None <-> h !! l = None.
Proof. apply lookup_alter_None. Qed.

Lemma put_mono h h' p w : h ⊆ h' -> put p w h ⊆ put p w h'.
Proof.
  intros Hh. apply map_subseteq_spec. intros l o. unfold put. rewrite !lookup_alter. case_decide.
  - intros (o' & Ho & ->)%fmap_Some. by rewrite (lookup_weaken _ _ _ _ Ho Hh).
  - intros Ho. by eapply lookup_weaken.
Qed.

Lemma put_outside h0 h p w : h0 ⊆ h -> h0 !! pl_loc p = None -> h0 ⊆ put p w h.
Proof.
  intros Hh Hp. apply map_subseteq_spec. intros l o Hl. rewrite lookup_put_ne; [by eapply lookup_weaken|]. congruence.
Qed.

Lemma subseteq_insert_new (h h' : heap) l o : h ⊆ h' -> h !! l = None -> h ⊆ <[l := o]> h'.
Proof. intros Hh Hl. by apply insert_subseteq_r. Qed.

Lemma outside_mono (h h' : heap) l : h ⊆ h' -> h' !! l = None -> h !! l = None.
Proof. intros Hh Hl. by eapply lookup_weaken_None. Qed.

(** ** Code that works on the heap *)

(** It panics, or returns and leaves a heap. *)
Definition M (A : Type) : Type := heap -> outcome (A * heap).
#[export] Instance M_ret : MRet M := fun A a h => Done (a, h).
#[export] Instance M_bind : MBind M := fun A B f m h =>
  match m h with Done (a, h) => f a h | Panicked why => Panicked why end.

Definition panic {A} (why : string) : M A := fun _ => Panicked why.
Definition nil_dereference : string := "invalid memory address or nil pointer dereference".

Definition load (p : place) : M value := fun h =>
  match get h p with Some v => Done (v, h) | None => Panicked nil_dereference end.
Definition store (p : place) (w : value) : M () := fun h =>
  match get h p with Some _ => Done (tt, put p w h) | None => Panicked nil_dereference end.

(** *out = *in *)
Definition assign (out inp : place) : M () := v ← load inp; store out v.

Definition alloc (o : object) : M loc := fun h =>
  let l := fresh (dom h) in Done (l, <[l := o]> h).

(** new(T), make([]T, n), make(map[string]T) *)
Definition new_var (t : ty) : M place := l ← alloc (OCells [zero t]); mret (Place l 0 []).
Definition make_slice (t : ty) (n : nat) : M value :=
  l ← alloc (OCells (replicate n (zero t))); mret (VSlice (Some (Window l 0 n))).
Definition make_map : M value := l ← alloc (OMap ∅); mret (VMap (Some l)).

(** &s[i] *)
Definition element (s : window) (i : nat) : place := Place (win_loc s) (win_off s + i) [].
Definition index (v : value) (i : nat) : M place :=
  match v with
  | VSlice (Some s) => if bool_decide (i < win_len s) then mret (element s i) else panic "index out of range"
  | _ => panic "index out of range"
  end.

(** What a slice shows of its array. *)
Definition window_of (s : window) (h : heap) : option (list value) :=
  match h !! win_loc s with
  | Some (OCells vs) =>
      if bool_decide (win_off s + win_len s <= length vs) then Some (take (win_len s) (drop (win_off s) vs)) else None
  | _ => None
  end.

(** copy(dst, src), whose arrays may be the same: the source is read first. *)
Definition copy_window (dst src : window) : M () := fun h =>
  match window_of src h, h !! win_loc dst with
  | Some xs, Some (OCells vs) =>
      Done (tt, <[win_loc dst := OCells (list_inserts (win_off dst) (take (win_len dst) xs) vs)]> h)
  | _, _ => Panicked nil_dereference
  end.
Definition copy_values (dst src : value) : M () :=
  match dst, src with
  | VSlice (Some d), VSlice (Some s) => copy_window d s
  | _, _ => mret tt
  end.

(** m[k] = x *)
Definition map_assign (m : value) (k : string) (x : value) : M () := fun h =>
  match m with
  | VMap (Some l) =>
      match h !! l with
      | Some (OMap m) => Done (tt, <[l := OMap (<[k := x]> m)]> h)
      | _ => Panicked nil_dereference
      end
  | _ => Panicked "assignment to entry in nil map"
  end.

(** for range *)
Fixpoint each {A} (f : A -> M ()) (l : list A) : M () :=
  match l with
  | [] => mret tt
  | x :: l => f x;; each f l
  end.

Definition entries `{GoRange} (v : value) : M (list (string * value)) := fun h =>
  match v with
  | VMap (Some l) =>
      match h !! l with Some (OMap m) => Done (range_map m, h) | _ => Panicked nil_dereference end
  | _ => Done ([], h)
  end.

Definition len_of (v : value) : nat :=
  match v with VSlice (Some s) => win_len s | _ => 0 end.

Definition pointee (v : value) : M place :=
  match v with VPtr (Some p) => mret p | _ => panic nil_dereference end.

Definition is_nil (v : value) : bool :=
  match v with VPtr None | VSlice None | VMap None => true | _ => false end.

(** *** The parts that deep copies are made of

    Each is one [if in.F != nil { in, out := &in.F, &out.F; ... }], with the
    pointers to the two fields. *)

(** *out = make(map[string]T, len( *in)); for key, val := range *in { ( *out)[key] = val } *)
Definition copy_map `{GoRange} (inp out : place) : M () :=
  v ← load inp;
  if is_nil v then mret tt else
  m ← make_map; store out m;;
  kvs ← entries v;
  each (fun '(key, val) => m ← load out; map_assign m key val) kvs.

(** *out = make([]T, len( *in)); copy( *out, *in) *)
Definition copy_slice (t : ty) (inp out : place) : M () :=
  v ← load inp;
  if is_nil v then mret tt else
  s ← make_slice t (len_of v); store out s;;
  dst ← load out; src ← load inp; copy_values dst src.

(** *out = make([]T, len( *in)); for i := range *in { ( *in)[i].DeepCopyInto(&( *out)[i]) } *)
Definition copy_slice_into (t : ty) (DeepCopyInto : place -> place -> M ()) (inp out : place) : M () :=
  v ← load inp;
  if is_nil v then mret tt else
  s ← make_slice t (len_of v); store out s;;
  each (fun i => v ← load inp; s ← load out; x ← index v i; y ← index s i; DeepCopyInto x y) (seq 0 (len_of v)).

(** *out = new(T); **out = **in *)
Definition copy_pointer (t : ty) (inp out : place) : M () :=
  v ← load inp;
  if is_nil v then mret tt else
  y ← new_var t; store out (VPtr (Some y));;
  v ← load inp; x ← pointee v; w ← load out; y ← pointee w; assign y x.

(** *out = new(T); ( *in).DeepCopyInto( *out) *)
Definition copy_pointer_into (t : ty) (DeepCopyInto : place -> place -> M ()) (inp out : place) : M () :=
  v ← load inp;
  if is_nil v then mret tt else
  y ← new_var t; store out (VPtr (Some y));;
  v ← load inp; x ← pointee v; w ← load out; y ← pointee w; DeepCopyInto x y.

(** if in == nil { return nil }; out := new(T); in.DeepCopyInto(out); return out *)
Definition deep_copy (t : ty) (DeepCopyInto : place -> place -> M ()) (inp : option place) : M (option place) :=
  match inp with
  | None => mret None
  | Some inp => out ← new_var t; DeepCopyInto inp out;; mret (Some out)
  end.

(** ** When two values look the same

    [alike X h1 h2 t v1 v2]: following the pointers, [v1] in [h1] and [v2] in [h2]
    are the same value of type [t]; and where [v2] leads is all in [X]. *)

Section Fields.
Context {T : Type} (R : string -> T -> value -> value -> Prop).

Fixpoint fields_related (fs : list (string * T)) (vs ws : list (string * value)) : Prop :=
  match fs, vs, ws with
  | [], [], [] => True
  | (f, t) :: fs, (g, v) :: vs, (g', w) :: ws => g = f /\ g' = f /\ R f t v w /\ fields_related fs vs ws
  | _, _, _ => False
  end.
End Fields.

Section Alike.
Context (X : loc -> Prop) (h1 h2 : heap).

Fixpoint alike (t : ty) (v1 v2 : value) {struct t} : Prop :=
  match t with
  | TBase k => v2 = v1 /\ exists b, v1 = VBase b /\ kind_of b = k
  | TStruct fs => exists vs1 vs2, v1 = VStruct vs1 /\ v2 = VStruct vs2 /\
      fields_related (fun _ (R : value -> value -> Prop) => R) (map (fun '(f, t) => (f, alike t)) fs) vs1 vs2
  | TPtr t => (v1 = VPtr None /\ v2 = VPtr None) \/
      exists p1 p2 x1 x2, v1 = VPtr (Some p1) /\ v2 = VPtr (Some p2) /\ X (pl_loc p2) /\
        get h1 p1 = Some x1 /\ get h2 p2 = Some x2 /\ alike t x1 x2
  | TSlice t => (v1 = VSlice None /\ v2 = VSlice None) \/
      exists s1 s2 xs1 xs2, v1 = VSlice (Some s1) /\ v2 = VSlice (Some s2) /\ X (win_loc s2) /\
        win_len s1 = win_len s2 /\ window_of s1 h1 = Some xs1 /\ window_of s2 h2 = Some xs2 /\
        Forall2 (alike t) xs1 xs2
  | TMap t => (v1 = VMap None /\ v2 = VMap None) \/
      exists l1 l2 m1 m2, v1 = VMap (Some l1) /\ v2 = VMap (Some l2) /\ X l2 /\
        h1 !! l1 = Some (OMap m1) /\ h2 !! l2 = Some (OMap m2) /\
        forall k, option_Forall2 (alike t) (m1 !! k) (m2 !! k)
  end.
End Alike.

(** Anywhere. *)
Definition anywhere : loc -> Prop := fun _ => True.

(** A value of type [t], all there. *)
Definition typed (h : heap) (t : ty) (v : value) : Prop := alike anywhere h h t v v.

(** No pointer, slice or map: the value is all there is. *)
Fixpoint flat (t : ty) : bool :=
  match t with
  | TBase _ => true
  | TStruct fs => forallb (fun '(_, t) => flat t) fs
  | _ => false
  end.

Section TyInd.
Context (P : ty -> Prop) (HB : forall k, P (TBase k)).
Context (HS : forall fs, Forall (fun ft => P ft.2) fs -> P (TStruct fs)).
Context (HP : forall t, P t -> P (TPtr t)) (HL : forall t, P t -> P (TSlice t)) (HM : forall t, P t -> P (TMap t)).

Lemma ty_rect_fields t : P t.
Proof.
  revert t. fix IH 1. intros [k|fs|t|t|t]; [apply HB| |apply HP, IH|apply HL, IH|apply HM, IH].
  apply HS. induction fs as [|[f t] fs IHfs]; constructor; [apply IH|exact IHfs].
Qed.
End TyInd.

(** Whether a value is of a type can be computed. *)
#[export] Instance kind_eq_dec : EqDecision kind.
Proof. solve_decision. Defined.

Fixpoint well_typed (h : heap) (t : ty) (v : value) {struct t} : bool :=
  match t, v with
  | TBase k, VBase b => bool_decide (kind_of b = k)
  | TStruct fs, VStruct vs =>
      (fix go fs vs := match fs, vs with
       | [], [] => true
       | (f, t) :: fs, (g, v) :: vs => bool_decide (g = f) && well_typed h t v && go fs vs
       | _, _ => false
       end) fs vs
  | TPtr t, VPtr (Some p) => match get h p with Some x => well_typed h t x | None => false end
  | TSlice t, VSlice (Some s) => match window_of s h with Some xs => forallb (well_typed h t) xs | None => false end
  | TMap t, VMap (Some l) =>
      match h !! l with
      | Some (OMap m) => forallb (well_typed h t) (map_to_list m).*2
      | _ => false
      end
  | TPtr _, VPtr None | TSlice _, VSlice None | TMap _, VMap None => true
  | _, _ => false
  end.

(** *** Fields *)
Section FieldLemmas.
Context {T : Type}.
Implicit Types (R : string -> T -> value -> value -> Prop) (fs : list (string * T)).

Lemma fields_mono R R' fs vs ws :
  (forall f t v w, (f, t) ∈ fs -> R f t v w -> R' f t v w) ->
  fields_related R fs vs ws -> fields_related R' fs vs ws.
Proof.
  revert vs ws. induction fs as [|[f t] fs IH]; intros [|[]] [|[]] HR; try done. cbn.
  intros (-> & -> & H & Hs). split_and!; try done; [by apply HR; [left|]|]. apply IH; [|done].
  intros g t' v' w' Hin. apply HR. by right.
Qed.

Lemma fields_get R fs vs ws f t :
  fields_related R fs vs ws -> assoc f fs = Some t ->
  exists v w, assoc f vs = Some v /\ assoc f ws = Some w /\ R f t v w.
Proof.
  revert vs ws. induction fs as [|[g t'] fs IH]; intros [|[]] [|[]]; try done. cbn.
  intros (-> & -> & H & Hs). destruct (decide (f = g)) as [->|Hne].
  - intros [= ->]. eauto.
  - by apply IH.
Qed.

Lemma fields_set R R' fs vs ws f t v w' :
  NoDup fs.*1 -> fields_related R fs vs ws -> assoc f fs = Some t -> assoc f vs = Some v -> R' f t v w' ->
  (forall g t v w, g <> f -> R g t v w -> R' g t v w) ->
  fields_related R' fs vs (assoc_alter f (fun _ => w') ws).
Proof.
  revert vs ws. induction fs as [|[g t'] fs IH]; intros [|[? v0]] [|[? w0]]; try done. cbn.
  intros [Hg Hd]%NoDup_cons (-> & -> & H & Hs). destruct (decide (f = g)) as [->|Hne].
  - intros [= ->] [= ->] HR' Hother. split_and!; try done. refine (fields_mono _ _ _ _ _ _ Hs).
    intros f t1 v1 w1 Hin. apply Hother. intros ->. apply Hg. by apply (list_elem_of_fmap_2' fst _ _ _ Hin).
  - intros Ht Hv HR' Hother. cbn. split_and!; try done; [by apply Hother|]. by apply IH.
Qed.

Lemma fields_self R fs vs :
  fields_related R fs vs vs -> fields_related (fun f t v w => w = v /\ R f t v v) fs vs vs.
Proof. revert vs. induction fs as [|[f t] fs IH]; intros [|[]]; try done. cbn. naive_solver. Qed.

Lemma fields_map {U} (g : U -> T) R (fs : list (string * U)) vs ws :
  fields_related R (map (fun '(f, t) => (f, g t)) fs) vs ws <->
  fields_related (fun f t => R f (g t)) fs vs ws.
Proof.
  revert vs ws. induction fs as [|[f t] fs IH]; intros [|[]] [|[]]; try done. cbn. by rewrite IH.
Qed.

End FieldLemmas.

Lemma alike_struct X h1 h2 fs v1 v2 :
  alike X h1 h2 (TStruct fs) v1 v2 <->
  exists vs1 vs2, v1 = VStruct vs1 /\ v2 = VStruct vs2 /\
    fields_related (fun _ t => alike X h1 h2 t) fs vs1 vs2.
Proof. cbn. by setoid_rewrite fields_map. Qed.

(** *** What [alike] depends on *)

Lemma window_mono h h' s xs :
  h ⊆ h' -> window_of s h = Some xs -> window_of s h' = Some xs.
Proof.
  intros Hh. unfold window_of. destruct (h !! win_loc s) eqn:E; [|done]. by rewrite (lookup_weaken _ _ _ _ E Hh).
Qed.

(** Only on the places that are there, and on the right only on those of [X]. *)
Lemma alike_weaken (X X' : loc -> Prop) h1 h1' h2 h2' t v w :
  h1 ⊆ h1' -> (forall l o, X l -> h2 !! l = Some o -> X' l /\ h2' !! l = Some o) ->
  alike X h1 h2 t v w -> alike X' h1' h2' t v w.
Proof.
  intros H1 H2. revert v w. induction t as [k|fs IH|t IH|t IH|t IH] using ty_rect_fields; intros v w.
  - done.
  - rewrite !alike_struct. intros (vs & ws & -> & -> & Hf). exists vs, ws. split_and!; try done.
    refine (fields_mono _ _ _ _ _ _ Hf). intros f t v w Hin. exact (proj1 (Forall_forall _ _) IH _ Hin v w).
  - intros [[-> ->]|(p1 & p2 & x1 & x2 & -> & -> & HX & Hg1 & Hg2 & Hx)]; [by left|right].
    destruct (get_loc _ _ _ Hg2) as [o Ho]. destruct (H2 _ _ HX Ho) as [HX' Ho'].
    exists p1, p2, x1, x2. split_and!; try done; [by eapply get_mono| |by apply IH].
    unfold get in *. rewrite Ho'. by rewrite Ho in Hg2.
  - intros [[-> ->]|(s1 & s2 & xs1 & xs2 & -> & -> & HX & Hl & Hw1 & Hw2 & Hx)]; [by left|right].
    assert (Ho : is_Some (h2 !! win_loc s2)) by (unfold window_of in Hw2; by destruct (h2 !! win_loc s2)).
    destruct Ho as [o Ho]. destruct (H2 _ _ HX Ho) as [HX' Ho'].
    exists s1, s2, xs1, xs2. split_and!; try done; [by eapply window_mono| |].
    + unfold window_of in *. rewrite Ho'. by rewrite Ho in Hw2.
    + by eapply Forall2_impl.
  - intros [[-> ->]|(l1 & l2 & m1 & m2 & -> & -> & HX & Hm1 & Hm2 & Hx)]; [by left|right].
    destruct (H2 _ _ HX Hm2) as [HX' Hm2']. exists l1, l2, m1, m2. split_and!; try done; [by eapply lookup_weaken|].
    intros k. specialize (Hx k). destruct Hx; constructor; by apply IH.
Qed.

(** Nor does a flat value depend on any. *)
Lemma alike_flat X X' h1 h1' h2 h2' t v w :
  flat t = true -> alike X h1 h2 t v w -> w = v /\ alike X' h1' h2' t v v.
Proof.
  revert v w. induction t as [k|fs IH|t IH|t IH|t IH] using ty_rect_fields; intros v w Hf; try done.
  - intros (-> & b & -> & Hk). split; [done|]. split; [done|]. by exists b.
  - rewrite !alike_struct. cbn in Hf. intros (vs & ws & -> & -> & Hr).
    assert (Hs : ws = vs /\ fields_related (fun _ t => alike X' h1' h2' t) fs vs vs); [|by destruct Hs as [-> ?]; eauto 10].
    revert vs ws Hr. induction IH as [|[f t] fs Ht _ IHfs]; intros [|[]] [|[]]; try done. cbn in *.
    apply andb_prop in Hf as [Hf1 Hf2]. intros (-> & -> & H & Hs). destruct (Ht _ _ Hf1 H) as [-> Hv].
    by destruct (IHfs Hf2 _ _ Hs) as [-> ?].
Qed.

Lemma alike_typed_l X h1 h2 t v w : alike X h1 h2 t v w -> typed h1 t v.
Proof.
  revert v w. induction t as [k|fs IH|t IH|t IH|t IH] using ty_rect_fields; intros v w; unfold typed in *.
  - intros (-> & b & -> & Hk). split; [done|]. by exists b.
  - rewrite !alike_struct. intros (vs & ws & -> & -> & Hr). exists vs, vs. split_and!; try done.
    revert vs ws Hr. induction IH as [|[f t] fs Ht _ IHfs]; intros [|[]] [|[]]; try done. cbn in *.
    intros (-> & -> & H & Hs). split_and!; try done; [by eapply Ht|by eapply IHfs].
  - intros [[-> ->]|(p1 & p2 & x1 & x2 & -> & -> & HX & Hg1 & Hg2 & Hx)]; [by left|right].
    exists p1, p1, x1, x1. split_and!; try done. by eapply IH.
  - intros [[-> ->]|(s1 & s2 & xs1 & xs2 & -> & -> & HX & Hl & Hw1 & Hw2 & Hx)]; [by left|right].
    exists s1, s1, xs1, xs1. split_and!; try done. clear -Hx IH. induction Hx; constructor; [by eapply IH|done].
  - intros [[-> ->]|(l1 & l2 & m1 & m2 & -> & -> & HX & Hm1 & Hm2 & Hx)]; [by left|right].
    exists l1, l1, m1, m1. split_and!; try done. intros k. specialize (Hx k). destruct Hx; constructor. by eapply IH.
Qed.

Lemma well_typed_sound h t v : well_typed h t v = true -> typed h t v.
Proof.
  unfold typed. revert v. induction t as [k|fs IH|t IH|t IH|t IH] using ty_rect_fields; intros v.
  - destruct v as [b| | | |]; try done. cbn. intros Hk%bool_decide_eq_true. split; [done|]. by exists b.
  - destruct v as [|vs| | |]; try done. intros Hgo. apply alike_struct. exists vs, vs. split_and!; try done.
    revert vs Hgo. induction IH as [|[f t] fs Ht _ IHfs]; intros [|[g v] vs]; try done. cbn.
    intros [[->%bool_decide_eq_true Hv]%andb_prop Hvs]%andb_prop. split_and!; try done; [by apply Ht|by apply IHfs].
  - destruct v as [| |[p|]| |]; try done; cbn; [|by left]. destruct (get h p) as [x|] eqn:Hg; [|done].
    intros Hx. right. exists p, p, x, x. split_and!; try done. by apply IH.
  - destruct v as [| | |[s|]|]; try done; cbn; [|by left]. destruct (window_of s h) as [xs|] eqn:Hw; [|done].
    intros Hx. right. exists s, s, xs, xs. split_and!; try done. apply Forall_Forall2_diag, Forall_forall.
    intros x Hin. apply IH. rewrite forallb_forall in Hx. apply Hx. by apply list_elem_of_In.
  - destruct v as [| | | |[l|]]; try done; cbn; [|by left]. destruct (h !! l) as [[|m]|] eqn:Hl; try done.
    intros Hx. right. exists l, l, m, m. split_and!; try done. intros k. destruct (m !! k) as [x|] eqn:Hk; constructor.
    apply IH. rewrite forallb_forall in Hx. apply Hx, list_elem_of_In, list_elem_of_fmap. exists (k, x).
    split; [done|]. by apply elem_of_map_to_list.
Qed.

(** *** The same value, from heap to heap *)

Lemma alike_sym h1 h2 t v w : alike anywhere h1 h2 t v w -> alike anywhere h2 h1 t w v.
Proof.
  revert v w. induction t as [k|fs IH|t IH|t IH|t IH] using ty_rect_fields; intros v w.
  - intros (-> & b & -> & Hk). split; [done|]. by exists b.
  - rewrite !alike_struct. intros (vs & ws & -> & -> & Hr). exists ws, vs. split_and!; try done.
    revert vs ws Hr. induction IH as [|[f t] fs Ht _ IHfs]; intros [|[]] [|[]]; try done. cbn in *.
    intros (-> & -> & H & Hs). split_and!; try done; [by apply Ht|by apply IHfs].
  - intros [[-> ->]|(p1 & p2 & x1 & x2 & -> & -> & HX & Hg1 & Hg2 & Hx)]; [by left|right].
    exists p2, p1, x2, x1. split_and!; try done. by apply IH.
  - intros [[-> ->]|(s1 & s2 & xs1 & xs2 & -> & -> & HX & Hl & Hw1 & Hw2 & Hx)]; [by left|right].
    exists s2, s1, xs2, xs1. split_and!; try done. apply Forall2_flip. by eapply Forall2_impl.
  - intros [[-> ->]|(l1 & l2 & m1 & m2 & -> & -> & HX & Hm1 & Hm2 & Hx)]; [by left|right].
    exists l2, l1, m2, m1. split_and!; try done. intros k. specialize (Hx k). destruct Hx; constructor. by apply IH.
Qed.

Lemma alike_trans X Y h1 h2 h3 t u v w :
  alike X h1 h2 t u v -> alike Y h2 h3 t v w -> alike Y h1 h3 t u w.
Proof.
  revert u v w. induction t as [k|fs IH|t IH|t IH|t IH] using ty_rect_fields; intros u v w.
  - intros (-> & b & -> & Hk) (-> & _). split; [done|]. by exists b.
  - rewrite !alike_struct. intros (us & vs & -> & -> & Hr) (vs' & ws & [= <-] & -> & Hr').
    exists us, ws. split_and!; try done.
    revert us vs ws Hr Hr'. induction IH as [|[f t] fs Ht _ IHfs]; intros [|[]] [|[]] [|[]]; try done. cbn in *.
    intros (-> & -> & H & Hs) (_ & -> & H' & Hs'). split_and!; try done; [by eapply Ht|by eapply IHfs].
  - intros [[-> ->]|(p1 & p2 & x1 & x2 & -> & -> & HX & Hg1 & Hg2 & Hx)]
      [[? ->]|(p2' & p3 & x2' & x3 & [= <-] & -> & HX' & Hg2' & Hg3 & Hx')]; try done; [by left|right].
    assert (x2' = x2) as -> by congruence. exists p1, p3, x1, x3. split_and!; try done. by eapply IH.
  - intros [[-> ->]|(s1 & s2 & xs1 & xs2 & -> & -> & HX & Hl & Hw1 & Hw2 & Hx)]
      [[? ->]|(s2' & s3 & xs2' & xs3 & [= <-] & -> & HX' & Hl' & Hw2' & Hw3 & Hx')]; try done; [by left|right].
    assert (xs2' = xs2) as -> by congruence. exists s1, s3, xs1, xs3. split_and!; try done; [congruence|].
    clear -Hx Hx' IH. revert xs3 Hx'. induction Hx; intros xs3 Hx'; inversion Hx'; subst; constructor; eauto.
  - intros [[-> ->]|(l1 & l2 & m1 & m2 & -> & -> & HX & Hm1 & Hm2 & Hx)]
      [[? ->]|(l2' & l3 & m2' & m3 & [= <-] & -> & HX' & Hm2' & Hm3 & Hx')]; try done; [by left|right].
    assert (m2' = m2) as -> by congruence. exists l1, l3, m1, m3. split_and!; try done.
    intros k. specialize (Hx k). specialize (Hx' k). destruct Hx; inversion Hx'; subst; constructor; eauto.
Qed.

(** ** What it is to copy deeply

    Starting in a heap [h] that extends [h0], where the value to copy is, the code
    writes to [out], and otherwise only to what it has allocated; and then [out]
    holds a value like that of [inp], all of whose pointers lead to what is new. *)

Definition outside (h : heap) : loc -> Prop := fun l => h !! l = None.

Definition copied_to (h0 h : heap) (out : place) (t : ty) (v : value) (h' : heap) : Prop :=
  exists w, put out w h ⊆ h' /\ alike (outside h) h0 h' t v w.

Definition copies (t : ty) (DeepCopyInto : place -> place -> M ()) : Prop :=
  forall h0 h inp out v old,
    typed h0 t v -> get h0 inp = Some v -> h0 ⊆ h -> get h out = Some old -> h0 !! pl_loc out = None ->
    exists h', DeepCopyInto inp out h = Done (tt, h') /\ copied_to h0 h out t v h'.

(** The parts of a struct start from [*out = *in]. *)
Definition completes (t : ty) (part : place -> place -> M ()) : Prop :=
  forall h0 h inp out v,
    typed h0 t v -> get h0 inp = Some v -> h0 ⊆ h -> get h out = Some v -> h0 !! pl_loc out = None ->
    exists h', part inp out h = Done (tt, h') /\ copied_to h0 h out t v h'.

Lemma copies_completes t f : copies t f -> completes t f.
Proof. intros Hf h0 h inp out v. by apply Hf. Qed.

(** *** Steps *)

Lemma bind_step {A B} (m : M A) (f : A -> M B) h a h' :
  m h = Done (a, h') -> (m ≫= f) h = f a h'.
Proof. unfold mbind, M_bind. by intros ->. Qed.

Lemma load_step {B} p (f : value -> M B) h v : get h p = Some v -> (load p ≫= f) h = f v h.
Proof. intros Hg. apply bind_step. unfold load. by rewrite Hg. Qed.

Lemma store_step {B} p w (f : () -> M B) h v : get h p = Some v -> (store p w ≫= f) h = f tt (put p w h).
Proof. intros Hg. apply bind_step. unfold store. by rewrite Hg. Qed.

Lemma assign_run out inp h v old :
  get h inp = Some v -> get h out = Some old -> assign out inp h = Done (tt, put out v h).
Proof. intros Hi Ho. unfold assign. erewrite load_step by done. unfold store. by rewrite Ho. Qed.

(** Whatever has been allocated is new. *)
Lemma fresh_outside (h : heap) : outside h (fresh (dom h)).
Proof. apply not_elem_of_dom, is_fresh. Qed.

Lemma new_var_step {B} t (f : place -> M B) h :
  exists l, outside h l /\ (new_var t ≫= f) h = f (Place l 0 []) (<[l := OCells [zero t]]> h).
Proof. exists (fresh (dom h)). split; [apply fresh_outside|done]. Qed.

Lemma make_slice_step {B} t n (f : value -> M B) h :
  exists l, outside h l /\
    (make_slice t n ≫= f) h = f (VSlice (Some (Window l 0 n))) (<[l := OCells (replicate n (zero t))]> h).
Proof. exists (fresh (dom h)). split; [apply fresh_outside|done]. Qed.

Lemma make_map_step {B} (f : value -> M B) h :
  exists l, outside h l /\ (make_map ≫= f) h = f (VMap (Some l)) (<[l := OMap ∅]> h).
Proof. exists (fresh (dom h)). split; [apply fresh_outside|done]. Qed.

(** *out = w, where [w] refers to a new object [o] at [l]. *)
Record referred (h0 h : heap) (inp out : place) (v w : value) (l : loc) (o : object) (h' : heap) : Prop := {
  referred_old : h0 ⊆ h';
  referred_inp : get h' inp = Some v;
  referred_out : get h' out = Some w;
  referred_new : h' !! l = Some o;
  referred_put : put out w h ⊆ delete l h';
  referred_outside l' : outside h' l' -> outside h l';
}.

Lemma refer (h0 h : heap) inp out v u w l o :
  get h0 inp = Some v -> h0 ⊆ h -> get h out = Some u -> h0 !! pl_loc out = None -> outside h l ->
  referred h0 h inp out v w l o (put out w (<[l := o]> h)) /\ get (<[l := o]> h) out = Some u /\ h0 !! l = None.
Proof.
  intros Hi Hh Ho Hout Hl. set (h1 := <[l := o]> h). assert (Hh1 : h ⊆ h1) by by apply insert_subseteq.
  assert (Hne : pl_loc out <> l) by (intros E; destruct (get_loc _ _ _ Ho) as [? Ho']; unfold outside in Hl; congruence).
  assert (Hh2 : h0 ⊆ put out w h1) by (apply put_outside; [by etrans|done]).
  split; [split|split].
  - done.
  - by eapply get_mono.
  - eapply get_put, get_mono; [exact Hh1|exact Ho].
  - rewrite lookup_put_ne by done. apply lookup_insert_eq.
  - apply map_subseteq_spec. intros l' o' Ho'. rewrite lookup_delete_ne.
    + eapply lookup_weaken; [exact Ho'|]. by apply put_mono.
    + intros <-. apply (lookup_put_None h out w) in Hl. congruence.
  - intros l' Hl'%lookup_put_None. by eapply outside_mono.
  - by eapply get_mono.
  - exact (outside_mono _ _ _ Hh Hl).
Qed.

(** What follows changes only the new object. *)
Lemma referred_then h0 h inp out v w l o h' h'' :
  referred h0 h inp out v w l o h' -> delete l h' ⊆ h'' -> put out w h ⊆ h''.
Proof. intros Hr Hd. etrans; [apply (referred_put _ _ _ _ _ _ _ _ _ Hr)|exact Hd]. Qed.

Lemma delete_put (h : heap) l i path w : delete l h ⊆ put (Place l i path) w h.
Proof.
  apply map_subseteq_spec. intros l' o [Hne Ho]%lookup_delete_Some. by rewrite lookup_put_ne.
Qed.

Lemma delete_insert_subseteq (h : heap) l o : delete l h ⊆ <[l := o]> h.
Proof.
  apply map_subseteq_spec. intros l' o' [Hne Ho]%lookup_delete_Some. by rewrite lookup_insert_ne.
Qed.

(** Nothing to do for nil. *)
Lemma nil_copied h0 h out t v :
  get h out = Some v -> is_nil v = true -> typed h0 t v -> copied_to h0 h out t v h.
Proof.
  intros Hg Hn Ht. exists v. split; [by rewrite put_get|].
  destruct t as [k|fs|t|t|t]; cbn in *.
  - by destruct Ht as (_ & b & -> & _).
  - by destruct Ht as (vs & ws & -> & _).
  - destruct Ht as [Hv|(p1 & p2 & x1 & x2 & -> & _)]; [by left|done].
  - destruct Ht as [Hv|(s1 & s2 & x1 & x2 & -> & _)]; [by left|done].
  - destruct Ht as [Hv|(s1 & s2 & x1 & x2 & -> & _)]; [by left|done].
Qed.

(** *** The parts *)

(** A struct that is assigned, with nothing but flat fields. *)
Lemma assign_copies t : flat t = true -> copies t (fun inp out => assign out inp).
Proof.
  intros Hf h0 h inp out v old Ht Hi Hh Ho Hout. exists (put out v h). split.
  - eapply assign_run; [by eapply get_mono|done].
  - exists v. split; [done|]. by destruct (alike_flat _ (outside h) _ h0 _ (put out v h) _ _ _ Hf Ht).
Qed.

Lemma copy_pointer_into_completes t f : copies t f -> completes (TPtr t) (copy_pointer_into t f).
Proof.
  intros Hf h0 h inp out v Ht Hi Hh Ho Hout. unfold copy_pointer_into.
  erewrite load_step by (by eapply get_mono).
  destruct (is_nil v) eqn:Hn; [exists h; split; [done|by apply nil_copied]|].
  destruct Ht as [[-> _]|(p & p' & x & x' & -> & [= <-] & _ & Hx & Hx' & Hxx)]; [done|].
  assert (x' = x) as -> by congruence.
  destruct (new_var_step t (fun y => store out (VPtr (Some y));; v ← load inp; x ← pointee v; w ← load out;
    y ← pointee w; f x y) h) as (l & Hl & ->).
  destruct (refer h0 h inp out _ _ (VPtr (Some (Place l 0 []))) l (OCells [zero t]) Hi Hh Ho Hout Hl) as (Hr & Ho1 & Hl0).
  erewrite store_step by exact Ho1. set (h2 := put out _ _) in *.
  erewrite load_step by apply Hr. cbn [pointee]. erewrite bind_step by done.
  erewrite load_step by apply Hr. cbn [pointee]. erewrite bind_step by done.
  assert (Hg : get h2 (Place l 0 []) = Some (zero t)) by (unfold get; cbn; by rewrite (referred_new _ _ _ _ _ _ _ _ _ Hr)).
  destruct (Hf h0 h2 p (Place l 0 []) x _ Hxx Hx (referred_old _ _ _ _ _ _ _ _ _ Hr) Hg Hl0) as (h3 & -> & w & Hput & Hal).
  exists h3. split; [done|]. eexists. split.
  - eapply referred_then; [exact Hr|]. etrans; [apply delete_put|exact Hput].
  - right. exists p, (Place l 0 []), x, w. split_and!; try done.
    + eapply get_mono; [exact Hput|]. by eapply get_put.
    + eapply alike_weaken; [reflexivity| |exact Hal]. intros l' o Hl' Ho'. split; [|done]. by apply Hr.
Qed.

Lemma copy_pointer_completes t : flat t = true -> completes (TPtr t) (copy_pointer t).
Proof. intros Hf. exact (copy_pointer_into_completes t _ (assign_copies t Hf)). Qed.

(** Slices. *)
Lemma window_length s h xs : window_of s h = Some xs -> length xs = win_len s.
Proof.
  unfold window_of. destruct (h !! win_loc s) as [[vs|]|]; try done. case_bool_decide; [|done].
  intros [= <-]. rewrite length_take, length_drop. lia.
Qed.

Lemma window_element s h xs i x : window_of s h = Some xs -> xs !! i = Some x -> get h (element s i) = Some x.
Proof.
  unfold window_of, get, element. cbn. destruct (h !! win_loc s) as [[vs|]|]; try done. case_bool_decide; [|done].
  intros [= <-] Hx. apply lookup_take_Some in Hx as [Hx _]. rewrite lookup_drop in Hx. by rewrite Hx.
Qed.

Lemma window_all h l xs : h !! l = Some (OCells xs) -> window_of (Window l 0 (length xs)) h = Some xs.
Proof.
  intros Hl. unfold window_of. cbn. rewrite Hl, bool_decide_true by done. by rewrite drop_0, firstn_all.
Qed.

Lemma copy_slice_completes t : flat t = true -> completes (TSlice t) (copy_slice t).
Proof.
  intros Hf h0 h inp out v Ht Hi Hh Ho Hout. unfold copy_slice.
  erewrite load_step by (by eapply get_mono).
  destruct (is_nil v) eqn:Hn; [exists h; split; [done|by apply nil_copied]|].
  destruct Ht as [[-> _]|(s & s' & xs & xs' & -> & [= <-] & _ & _ & Hw & Hw' & Hxx)]; [done|].
  assert (xs' = xs) as -> by congruence. pose proof (window_length _ _ _ Hw) as Hlen. cbn [len_of].
  destruct (make_slice_step t (win_len s) (fun s => store out s;; dst ← load out; src ← load inp; copy_values dst src) h)
    as (l & Hl & ->).
  destruct (refer h0 h inp out _ _ (VSlice (Some (Window l 0 (win_len s)))) l
    (OCells (replicate (win_len s) (zero t))) Hi Hh Ho Hout Hl) as (Hr & Ho1 & Hl0).
  erewrite store_step by exact Ho1. set (h2 := put out _ _) in *.
  erewrite load_step by apply Hr. erewrite load_step by apply Hr. cbn [copy_values].
  unfold copy_window. rewrite (window_mono _ _ _ _ (referred_old _ _ _ _ _ _ _ _ _ Hr) Hw).
  cbn [win_loc win_off win_len]. rewrite (referred_new _ _ _ _ _ _ _ _ _ Hr).
  assert (list_inserts 0 (take (win_len s) xs) (replicate (win_len s) (zero t)) = xs) as ->.
  { rewrite <- Hlen, firstn_all, <- (app_nil_r xs) at 1. rewrite list_inserts_0_l; [done|]. by rewrite length_replicate. }
  eexists. split; [done|]. eexists. split.
  - eapply referred_then; [exact Hr|]. apply delete_insert_subseteq.
  - right. exists s, (Window l 0 (win_len s)), xs, xs. split_and!; try done.
    + rewrite <- Hlen. apply window_all, lookup_insert_eq.
    + eapply Forall2_impl; [exact Hxx|]. intros x y Hxy. by destruct (alike_flat _ (outside h) _ h0 _
        (<[l := OCells xs]> h2) _ _ _ Hf Hxy) as [-> ?].
Qed.

(** Loops. *)
Lemma each_app {A} (f : A -> M ()) (P : list A -> heap -> Prop) l h :
  (forall done x rest h, l = done ++ x :: rest -> P done h -> exists h', f x h = Done (tt, h') /\ P (done ++ [x]) h') ->
  P [] h -> exists h', each f l h = Done (tt, h') /\ P l h'.
Proof.
  intros Hstep. assert (Hgo : forall done rest h, l = done ++ rest -> P done h ->
    exists h', each f rest h = Done (tt, h') /\ P l h'); [|by apply (Hgo [])].
  intros done rest. revert done. induction rest as [|x rest IH]; intros done h' Hl Hd.
  - exists h'. rewrite app_nil_r in Hl. by subst.
  - destruct (Hstep done x rest h' Hl Hd) as (h1 & Hx & Hd1). cbn.
    destruct (IH (done ++ [x]) h1) as (h2 & H2 & Hp); [by rewrite <- app_assoc|done|].
    exists h2. split; [|done]. by rewrite (bind_step _ _ _ _ _ Hx).
Qed.

Lemma each_seq (f : nat -> M ()) (P : nat -> heap -> Prop) n h :
  (forall i h, i < n -> P i h -> exists h', f i h = Done (tt, h') /\ P (S i) h') ->
  P 0 h -> exists h', each f (seq 0 n) h = Done (tt, h') /\ P n h'.
Proof.
  intros Hstep H0. destruct (each_app f (fun done => P (length done)) (seq 0 n) h) as (h' & H1 & H2).
  - intros done i rest h1 Hl Hp. assert (Hi : length done = i /\ i < n).
    { pose proof (f_equal length Hl) as Hlen. rewrite length_seq, length_app in Hlen. cbn in Hlen.
      assert (Hx : seq 0 n !! length done = Some i) by (rewrite Hl; by apply list_lookup_middle).
      apply lookup_seq in Hx. lia. }
    destruct Hi as [<- Hi]. rewrite length_app, Nat.add_1_r. by apply Hstep.
  - done.
  - exists h'. split; [done|]. by rewrite length_seq in H2.
Qed.

Section SliceInto.
Context (t : ty) (f : place -> place -> M ()) (Hf : copies t f).
Context (h0 h1 : heap) (s : window) (l : loc) (xs : list value).
Context (Hxs : Forall (typed h0 t) xs) (Hw : window_of s h0 = Some xs) (Hl : h0 !! l = None) (Hh : h0 ⊆ h1) (Hin : is_Some (h1 !! l)).

(** The first [i] elements are copies, and nothing but what is new has changed. *)
Record copied_up_to (i : nat) (h : heap) : Prop := {
  upto_put : delete l h1 ⊆ h;
  upto_array : exists ws, h !! l = Some (OCells (ws ++ replicate (length xs - i) (zero t))) /\
    Forall2 (alike (outside h1) h0 h t) (take i xs) ws;
}.

Lemma copied_up_to_mono i h : copied_up_to i h -> (h0 : heap) ⊆ h /\ forall l', outside h l' -> outside h1 l'.
Proof.
  intros [Hp (ws & Ha & _)]. split.
  - apply map_subseteq_spec. intros l' o Ho. eapply lookup_weaken; [|exact Hp].
    rewrite lookup_delete_ne; [by eapply lookup_weaken|]. congruence.
  - intros l' Hl'. destruct (decide (l = l')) as [<-|Hne]; [unfold outside in Hl'; congruence|].
    unfold outside in *. rewrite <- (lookup_delete_ne h1 l l') by done. by eapply lookup_weaken_None.
Qed.

Lemma copy_element i h :
  i < length xs -> copied_up_to i h ->
  exists h', f (element s i) (Place l i []) h = Done (tt, h') /\ copied_up_to (S i) h'.
Proof.
  intros Hi Hc. destruct (copied_up_to_mono i h Hc) as [Hh0 Hout]. destruct Hc as [Hp (ws & Ha & Hws)].
  destruct (lookup_lt_is_Some_2 xs i Hi) as [x Hx].
  assert (Hlen : length ws = i) by (rewrite <- (Forall2_length _ _ _ Hws), length_take; lia).
  assert (Hrep : replicate (length xs - i) (zero t) = zero t :: replicate (length xs - S i) (zero t)).
  { by replace (length xs - i) with (S (length xs - S i)) by lia. }
  assert (Hg : get h (Place l i []) = Some (zero t)).
  { unfold get. cbn. rewrite Ha, Hrep, <- Hlen, list_lookup_middle by done. done. }
  destruct (Hf h0 h (element s i) (Place l i []) x (zero t)) as (h' & Hrun & w & Hput & Hal); try done.
  { exact (proj1 (Forall_forall _ _) Hxs x (list_elem_of_lookup_2 _ _ _ Hx)). }
  { by eapply window_element. }
  exists h'. split; [done|]. split.
  - etrans; [|exact Hput]. apply map_subseteq_spec. intros l' o [Hne Ho]%lookup_delete_Some.
    rewrite lookup_put_ne by done. eapply lookup_weaken; [|exact Hp]. by rewrite lookup_delete_ne.
  - exists (ws ++ [w]). split.
    + eapply (lookup_weaken (put (Place l i []) w h)); [|exact Hput].
      unfold put. cbn. rewrite lookup_alter_eq, Ha. cbn. do 2 f_equal.
      rewrite Hrep, <- app_assoc. rewrite <- Hlen at 1. rewrite <- (Nat.add_0_r (length ws)). by rewrite alter_app_r.
    + rewrite (take_S_r _ _ _ Hx). apply Forall2_app.
      * eapply Forall2_impl; [exact Hws|]. intros a b Hab. eapply alike_weaken; [reflexivity| |exact Hab].
        intros l' o Hl' Ho. split; [done|]. eapply lookup_weaken; [|exact Hput].
        rewrite lookup_put_ne; [done|]. cbn. intros <-. unfold outside in Hl'. by rewrite Hl' in Hin; destruct Hin.
      * constructor; [|constructor]. eapply alike_weaken; [reflexivity| |exact Hal]. intros l' o Hl' Ho. eauto.
Qed.
End SliceInto.

Lemma index_step {B} (g : place -> M B) s i h :
  i < win_len s -> (index (VSlice (Some s)) i ≫= g) h = g (element s i) h.
Proof. intros Hi. apply bind_step. unfold index. by rewrite bool_decide_true. Qed.

Lemma Forall2_self {A} (R : A -> A -> Prop) l : Forall2 R l l <-> Forall (fun x => R x x) l.
Proof.
  split.
  - rewrite Forall2_lookup, Forall_lookup. intros H i x Hx. specialize (H i). rewrite Hx in H. by inversion H.
  - intros H. by apply Forall_Forall2_diag.
Qed.

Lemma copy_slice_into_completes t f : copies t f -> completes (TSlice t) (copy_slice_into t f).
Proof.
  intros Hf h0 h inp out v Ht Hi Hh Ho Hout. unfold copy_slice_into.
  erewrite load_step by (by eapply get_mono).
  destruct (is_nil v) eqn:Hn; [exists h; split; [done|by apply nil_copied]|].
  destruct Ht as [[-> _]|(s & s' & xs & xs' & -> & [= <-] & _ & _ & Hw & Hw' & Hxx)]; [done|].
  assert (xs' = xs) as -> by congruence. pose proof (window_length _ _ _ Hw) as Hlen. cbn [len_of].
  destruct (make_slice_step t (win_len s) (fun s' => store out s';;
    each (fun i => v ← load inp; s ← load out; x ← index v i; y ← index s i; f x y) (seq 0 (win_len s))) h) as (l & Hl & ->).
  destruct (refer h0 h inp out _ _ (VSlice (Some (Window l 0 (win_len s)))) l
    (OCells (replicate (win_len s) (zero t))) Hi Hh Ho Hout Hl) as (Hr & Ho1 & Hl0).
  erewrite store_step by exact Ho1. set (h2 := put out _ _) in *. destruct Hr as [R1 R2 R3 R4 R5 R6].
  assert (Hstart : copied_up_to t h0 h2 l xs 0 h2).
  { split; [apply delete_subseteq|]. exists []. split; [|constructor]. by rewrite Nat.sub_0_r, Hlen. }
  assert (Hol : pl_loc out <> l).
  { intros E. destruct (get_loc _ _ _ Ho) as [? Ho']. unfold outside in Hl. congruence. }
  destruct (each_seq (fun i => v ← load inp; s ← load out; x ← index v i; y ← index s i; f x y)
    (copied_up_to t h0 h2 l xs) (win_len s) h2) as (h3 & -> & Hend); [|exact Hstart|].
  { intros i h' Hlt Hc. destruct (copied_up_to_mono t h0 h2 l xs Hl0 R1 i h' Hc) as [Hh0 _].
    erewrite load_step by (by eapply get_mono).
    assert (Hgo : get h' out = Some (VSlice (Some (Window l 0 (win_len s))))).
    { eapply get_mono; [apply Hc|]. unfold get in *. by rewrite lookup_delete_ne by done. }
    erewrite load_step by exact Hgo. rewrite !index_step by done.
    apply (copy_element t f Hf h0 h2 s l xs); try done; [by apply Forall2_self|lia]. }
  exists h3. split; [done|]. destruct Hend as [Hp (ws & Ha & Hws)]. eexists. split; [by etrans|].
  rewrite <- Hlen, Nat.sub_diag, app_nil_r in Ha. rewrite <- Hlen, firstn_all in Hws.
  right. exists s, (Window l 0 (win_len s)), xs, ws. split_and!; try done.
  - rewrite <- Hlen, (Forall2_length _ _ _ Hws). by apply window_all.
  - eapply Forall2_impl; [exact Hws|]. intros x w Hxw. eapply alike_weaken; [reflexivity| |exact Hxw].
    intros l' o Hl' Ho'. split; [by apply R6|done].
Qed.

(** Maps: in whatever order they are ranged over. *)
Lemma copy_map_completes `{GoRange} t : flat t = true -> completes (TMap t) copy_map.
Proof.
  intros Hf h0 h inp out v Ht Hi Hh Ho Hout. unfold copy_map.
  erewrite load_step by (by eapply get_mono).
  destruct (is_nil v) eqn:Hn; [exists h; split; [done|by apply nil_copied]|].
  destruct Ht as [[-> _]|(k & k' & m & m' & -> & [= <-] & _ & Hm & Hm' & Hmm)]; [done|].
  assert (m' = m) as -> by congruence.
  destruct (make_map_step (fun m => store out m;; kvs ← entries (VMap (Some k));
    each (fun '(key, val) => m ← load out; map_assign m key val) kvs) h) as (l & Hl & ->).
  destruct (refer h0 h inp out _ _ (VMap (Some l)) l (OMap ∅) Hi Hh Ho Hout Hl) as (Hr & Ho1 & Hl0).
  erewrite store_step by exact Ho1. set (h2 := put out _ _) in *. pose proof Hr as [R1 R2 R3 R4 R5 R6].
  assert (Hol : pl_loc out <> l).
  { intros E. destruct (get_loc _ _ _ Ho) as [? Ho']. unfold outside in Hl. congruence. }
  rewrite (bind_step (entries (VMap (Some k))) _ h2 (range_map m) h2).
  2: { unfold entries. by rewrite (lookup_weaken _ _ _ _ Hm R1). }
  destruct (each_app (fun '(key, val) => m ← load out; map_assign m key val)
    (fun done h' => h' = <[l := OMap (list_to_map done)]> h2) (range_map m) h2) as (h3 & -> & ->).
  { intros pre [key val] post h' Hsplit ->. erewrite load_step.
    2: { unfold get. rewrite lookup_insert_ne by done. exact R3. }
    unfold map_assign. rewrite lookup_insert_eq, insert_insert_eq. eexists. split; [done|].
    rewrite list_to_map_snoc; [done|].
    assert (Hd : NoDup (range_map m).*1) by (rewrite (range_map_perm m); apply NoDup_fst_map_to_list).
    rewrite Hsplit, fmap_app in Hd. apply NoDup_app in Hd as (_ & Hd & _). cbn in Hd.
    intros Hin. apply (Hd key Hin). by left. }
  { symmetry. apply insert_id. exact R4. }
  assert (Hall : list_to_map (range_map m) = m).
  { rewrite <- (list_to_map_to_list m) at 2. apply list_to_map_proper; [|apply range_map_perm].
    rewrite (range_map_perm m). apply NoDup_fst_map_to_list. }
  eexists. split; [done|]. eexists. split; [eapply referred_then; [exact Hr|apply delete_insert_subseteq]|].
  right. exists k, l, m, m. rewrite Hall. split_and!; try done; [apply lookup_insert_eq|].
  intros key. pose proof (Hmm key) as Hk. destruct (m !! key) as [x|]; constructor. inversion Hk; subst.
  by eapply alike_flat.
Qed.

(** *** Structs *)

Definition parts (inp out : place) : list (string * (place -> place -> M ())) -> M () :=
  fix go ps := match ps with
  | [] => mret tt
  | [(f, part)] => part (field inp f) (field out f)
  | (f, part) :: ps => part (field inp f) (field out f);; go ps
  end.

Section Struct.
Context (fs : list (string * ty)) (h0 h : heap) (inp out : place) (vs : list (string * value)).
Context (Hnd : NoDup fs.*1) (Hh : h0 ⊆ h) (Hout : h0 !! pl_loc out = None) (Hold : is_Some (get h out)).
Context (Hin : get h0 inp = Some (VStruct vs)).

(** The fields of [fields] are copies, the others are still shared. *)
Definition copied_fields (fields : list string) (h' : heap) : Prop :=
  exists ws, put out (VStruct ws) h ⊆ h' /\
    fields_related (fun f t v w => if decide (f ∈ fields) then alike (outside h) h0 h' t v w else w = v /\ typed h0 t v)
      fs vs ws.

Lemma get_parent h' ws : put out (VStruct ws) h ⊆ h' -> get h' out = Some (VStruct ws).
Proof. intros Hp. destruct Hold as [old Ho]. eapply get_mono; [exact Hp|]. by eapply get_put. Qed.

Lemma copy_part fields f t part h' :
  assoc f fs = Some t -> f ∉ fields -> completes t part -> copied_fields fields h' ->
  exists h'', part (field inp f) (field out f) h' = Done (tt, h'') /\ copied_fields (f :: fields) h''.
Proof.
  intros Hf Hnew Hpart (ws & Hput & Hrel).
  destruct (fields_get _ _ _ _ f t Hrel Hf) as (v & w0 & Hv & Hw & Hvw). rewrite decide_False in Hvw by done.
  destruct Hvw as [-> Hty]. pose proof (get_parent _ _ Hput) as Hg.
  destruct (Hpart h0 h' (field inp f) (field out f) v) as (h'' & Hrun & w & Hput' & Hal); try done.
  - by rewrite (get_field _ _ _ _ Hin).
  - etrans; [|exact Hput]. by apply put_outside.
  - by rewrite (get_field _ _ _ _ Hg).
  - exists h''. split; [done|]. exists (assoc_alter f (fun _ => w) ws).
    assert (Hput'' : put out (VStruct (assoc_alter f (fun _ => w) ws)) h ⊆ h'').
    { etrans; [|exact Hput']. rewrite <- (put_field h out f w ws). by apply put_mono. }
    assert (Hdom : forall l, outside h' l -> outside h l).
    { intros l Hl. apply (lookup_put_None h out (VStruct ws)). by eapply outside_mono. }
    split; [done|]. eapply (fields_set _ _ fs vs ws f t v w); try done.
    + rewrite decide_True by (by left). eapply alike_weaken; [reflexivity| |exact Hal]. eauto.
    + intros g t' v' w' Hne. cbn beta. destruct (decide (g ∈ fields)) as [Hg'|Hg']; intros Hr.
      * rewrite decide_True by (by right). eapply alike_weaken; [reflexivity| |exact Hr].
        intros l o Hl Ho. split; [done|]. eapply lookup_weaken; [|exact Hput']. rewrite lookup_put_ne; [done|].
        cbn. intros <-. destruct Hold as [old [o' Ho']%get_loc]. unfold outside in Hl. congruence.
      * rewrite decide_False; [done|]. intros [->|]%elem_of_cons; done.
Qed.

Lemma copy_parts ps fields h' :
  Forall (fun p => exists t, assoc p.1 fs = Some t /\ completes t p.2) ps -> NoDup (ps.*1 ++ fields) ->
  copied_fields fields h' ->
  exists h'', parts inp out ps h' = Done (tt, h'') /\ copied_fields (reverse ps.*1 ++ fields) h''.
Proof.
  intros Hps. revert fields h'. induction Hps as [|[f part] ps (t & Hf & Hpart) Hps IH]; intros fields h' Hd Hc.
  - by exists h'.
  - cbn in Hd. apply NoDup_cons in Hd as [Hnew Hd]. rewrite elem_of_app in Hnew.
    destruct (copy_part fields f t part h' Hf ltac:(tauto) Hpart Hc) as (h1 & Hrun & Hc1).
    destruct (IH (f :: fields) h1) as (h2 & Hrun2 & Hc2); [|done|].
    { rewrite <- Permutation_middle. constructor; [rewrite elem_of_app; tauto|done]. }
    exists h2. rewrite fmap_cons, reverse_cons, <- app_assoc. split; [|exact Hc2].
    destruct ps as [|p ps]; cbn; [by injection Hrun2 as <-|]. by rewrite (bind_step _ _ _ _ _ Hrun).
Qed.

End Struct.

(** A struct is copied deeply when all of its fields that are not flat are. *)
Lemma struct_copies fs ps :
  NoDup fs.*1 -> NoDup ps.*1 -> Forall (fun p => exists t, assoc p.1 fs = Some t /\ completes t p.2) ps ->
  Forall (fun ft => ft.1 ∈ ps.*1 \/ flat ft.2 = true) fs ->
  copies (TStruct fs) (fun inp out => assign out inp;; parts inp out ps).
Proof.
  intros Hnd Hps Hparts Hflat h0 h inp out v old Ht Hi Hh Ho Hout.
  unfold typed in Ht. apply alike_struct in Ht as (vs & vs' & -> & [= <-] & Hty).
  rewrite (bind_step (assign out inp) _ h tt (put out (VStruct vs) h)).
  2: { eapply assign_run; [by eapply get_mono|done]. }
  destruct (copy_parts fs h0 h inp out vs Hnd Hh Hout ltac:(by eexists) Hi ps [] (put out (VStruct vs) h))
    as (h' & -> & ws & Hput & Hrel); [done|by rewrite app_nil_r|..].
  { exists vs. split; [done|]. eapply fields_mono; [|exact (fields_self _ _ _ Hty)]. intros f t v w _ H. exact H. }
  exists h'. split; [done|]. exists (VStruct ws). split; [done|]. apply alike_struct. exists vs, ws.
  split_and!; try done. eapply fields_mono; [|exact Hrel]. intros f t v w Hin H. cbn in H. case_decide as Hd; [done|].
  destruct H as [-> H]. destruct (proj1 (Forall_forall _ _) Hflat _ Hin) as [Hf|Hf].
  - exfalso. apply Hd. rewrite app_nil_r. by apply elem_of_reverse.
  - by eapply alike_flat.
Qed.

(** ** A deep copy is a snapshot

    It returns, changes nothing that was there, and whatever becomes of that
    afterwards, what the copy refers to is new and reads as the original did. *)

(** From [h'] to [h''] nothing changes of what was new in [h']. *)
Definition keeps_new (h h' h'' : heap) : Prop :=
  forall l o, outside h l -> h' !! l = Some o -> h'' !! l = Some o.

Lemma keeps_new_put h h' p w : is_Some (h !! pl_loc p) -> keeps_new h h' (put p w h').
Proof. intros [o Ho] l o' Hl Ho'. unfold outside in Hl. rewrite lookup_put_ne; [done|]. congruence. Qed.

Definition snapshot (t : ty) (DeepCopy : option place -> M (option place)) : Prop :=
  (forall h, DeepCopy None h = Done (None, h)) /\
  forall h inp v, get h inp = Some v -> typed h t v ->
    exists out h', DeepCopy (Some inp) h = Done (Some out, h') /\ h ⊆ h' /\
      forall h'', keeps_new h h' h'' ->
        alike (outside h) h h'' (TPtr t) (VPtr (Some inp)) (VPtr (Some out)).

Lemma deep_copy_snapshot t f : copies t f -> snapshot t (deep_copy t f).
Proof.
  intros Hf. split; [done|]. intros h inp v Hi Ht. unfold deep_copy.
  destruct (new_var_step t (fun out => f inp out;; mret (Some out)) h) as (l & Hl & ->).
  set (h1 := <[l := OCells [zero t]]> h). assert (Hh1 : h ⊆ h1) by by apply insert_subseteq.
  destruct (Hf h h1 inp (Place l 0 []) v (zero t)) as (h2 & Hrun & w & Hput & Hal); try done.
  { unfold get. cbn. unfold h1. by rewrite lookup_insert_eq. }
  exists (Place l 0 []), h2. split; [by rewrite (bind_step _ _ _ _ _ Hrun)|]. split.
  - etrans; [|exact Hput]. by apply put_outside.
  - intros h'' Hkeep. right. exists inp, (Place l 0 []), v, w. split_and!; try done.
    + assert (Hg : get h2 (Place l 0 []) = Some w).
      { eapply get_mono; [exact Hput|]. eapply get_put. unfold get, h1. cbn. by rewrite lookup_insert_eq. }
      destruct (get_loc _ _ _ Hg) as [o Ho].
      unfold get in *. cbn in *. rewrite (Hkeep _ _ Hl Ho). by rewrite Ho in Hg.
    + eapply alike_weaken; [reflexivity| |exact Hal]. intros l' o Hl' Ho.
      assert (Hl'' : outside h l') by by eapply outside_mono. split; [done|]. by apply Hkeep.
Qed.

(** The fields of two structs that look the same do. *)
Lemma alike_field X h1 h2 fs f t p1 p2 :
  alike X h1 h2 (TPtr (TStruct fs)) (VPtr (Some p1)) (VPtr (Some p2)) -> assoc f fs = Some t ->
  exists v w, get h1 (field p1 f) = Some v /\ get h2 (field p2 f) = Some w /\ alike X h1 h2 t v w.
Proof.
  intros [[? _]|(p1' & p2' & x1 & x2 & [= <-] & [= <-] & _ & Hg1 & Hg2 & Hx)] Hf; [done|].
  apply alike_struct in Hx as (vs & ws & -> & -> & Hr).
  destruct (fields_get _ _ _ _ _ _ Hr Hf) as (v & w & Hv & Hw & Hvw). exists v, w.
  by rewrite (get_field _ _ _ _ Hg1), (get_field _ _ _ _ Hg2).
Qed.
