(* ===== verification/DeepCopy.v ===== *)
(** * The generated deep copies

    api/v1/zz_generated.deepcopy.go, on the memory of GoMemory.v: one definition per
    method, and one per type for the fields that api/v1/modelrepository_types.go and
    api/v1/llmengine_types.go declare.  The types of k8s.io/api and
    k8s.io/apimachinery, and their own deep copies, are parameters. *)

From S2P Require Import Prelude Jobs GoMemory.

Local Open Scope go_scope.

(** The types from elsewhere, and what their deep copies promise. *)
Class ExternalTypes := {
  TypeMeta_t : ty; ObjectMeta_t : ty; ListMeta_t : ty; Condition_t : ty;
  EnvVar_t : ty; Toleration_t : ty; ResourceRequirements_t : ty;
  ObjectMeta_DeepCopyInto : place -> place -> M ();
  ListMeta_DeepCopyInto : place -> place -> M ();
  Condition_DeepCopyInto : place -> place -> M ();
  EnvVar_DeepCopyInto : place -> place -> M ();
  Toleration_DeepCopyInto : place -> place -> M ();
  ResourceRequirements_DeepCopyInto : place -> place -> M ();
}.

Class ExternalCopies (E : ExternalTypes) : Prop := {
  TypeMeta_flat : flat TypeMeta_t = true;
  ObjectMeta_copies : copies ObjectMeta_t ObjectMeta_DeepCopyInto;
  ListMeta_copies : copies ListMeta_t ListMeta_DeepCopyInto;
  Condition_copies : copies Condition_t Condition_DeepCopyInto;
  EnvVar_copies : copies EnvVar_t EnvVar_DeepCopyInto;
  Toleration_copies : copies Toleration_t Toleration_DeepCopyInto;
  ResourceRequirements_copies : copies ResourceRequirements_t ResourceRequirements_DeepCopyInto;
}.

#[local] Abbreviation TString := (TBase KString).
#[local] Abbreviation TInt := (TBase KInt).
#[local] Abbreviation TBool := (TBase KBool).

(** ** The types *)

Definition BackendReference_t : ty := TStruct [("Type", TString); ("Details", TMap TString)].

Definition StorageStatus_t : ty :=
  TStruct [("StorageClass", TString); ("AccessMode", TString); ("VolumeMode", TString);
    ("BackendRef", TPtr BackendReference_t); ("BoundNodeName", TString); ("Capacity", TString)].

Definition ModelStorage_t : ty :=
  TStruct [("Size", TString); ("MountPath", TString); ("StorageClass", TString)].

Definition RevisionReference_t : ty := TStruct [("Name", TString); ("Ref", TString)].

Definition RevisionStatus_t : ty :=
  TStruct [("Name", TString); ("CommitHash", TString); ("Status", TString)].

Definition ModelSource_t : ty :=
  TStruct [("Origin", TString); ("ModelId", TString); ("Revision", TString);
    ("Revisions", TSlice RevisionReference_t); ("HFTokenSecret", TString); ("HFTokenSecretKey", TString)].

Definition ModelRepositorySpec_t : ty :=
  TStruct [("ModelName", TString); ("Source", ModelSource_t); ("Storage", ModelStorage_t);
    ("AutoDownload", TBool); ("DownloadImage", TString); ("DownloadScripts", TString);
    ("DeleteScripts", TString); ("NodeSelector", TMap TString)].

Definition ModelReference_t : ty :=
  TStruct [("Name", TString); ("Revision", TString); ("UpdatePolicy", TString)].

Section Types.
Context `{ExternalTypes}.

Definition ModelRepositoryStatus_t : ty :=
  TStruct [("Phase", TString); ("Conditions", TSlice Condition_t); ("Storage", TPtr StorageStatus_t);
    ("AvailableRevisions", TSlice RevisionStatus_t); ("ReferencedEngines", TString)].

Definition ModelRepository_t : ty :=
  TStruct [("TypeMeta", TypeMeta_t); ("ObjectMeta", ObjectMeta_t); ("Spec", ModelRepositorySpec_t);
    ("Status", ModelRepositoryStatus_t)].

Definition ModelRepositoryList_t : ty :=
  TStruct [("TypeMeta", TypeMeta_t); ("ListMeta", ListMeta_t); ("Items", TSlice ModelRepository_t)].

Definition GPUConfig_t : ty :=
  TStruct [("Enabled", TBool); ("Count", TInt); ("Type", TString); ("NodeSelector", TMap TString);
    ("Tolerations", TSlice Toleration_t)].

Definition LLMEngineSpec_t : ty :=
  TStruct [("EngineType", TString); ("ModelRefs", TSlice ModelReference_t); ("Image", TString);
    ("Args", TSlice TString); ("Env", TSlice EnvVar_t); ("Port", TInt); ("ServicePort", TInt);
    ("Replicas", TPtr TInt); ("NodeSelector", TMap TString); ("Resources", TPtr ResourceRequirements_t);
    ("GPU", TPtr GPUConfig_t); ("HostIPC", TBool)].

Definition LLMEngineStatus_t : ty :=
  TStruct [("Phase", TString); ("Conditions", TSlice Condition_t); ("ModelRepositories", TSlice TString)].

Definition LLMEngine_t : ty :=
  TStruct [("TypeMeta", TypeMeta_t); ("ObjectMeta", ObjectMeta_t); ("Spec", LLMEngineSpec_t);
    ("Status", LLMEngineStatus_t)].

Definition LLMEngineList_t : ty :=
  TStruct [("TypeMeta", TypeMeta_t); ("ListMeta", ListMeta_t); ("Items", TSlice LLMEngine_t)].
End Types.

(** ** The methods *)
Section Methods.
Context `{E : ExternalTypes} `{Rg : GoRange}.

Definition BackendReference_DeepCopyInto (inp out : place) : M () :=
  assign out inp;;
  copy_map inp@:"Details" out@:"Details".

Definition BackendReference_DeepCopy := deep_copy BackendReference_t BackendReference_DeepCopyInto.

Definition GPUConfig_DeepCopyInto (inp out : place) : M () :=
  assign out inp;;
  copy_map inp@:"NodeSelector" out@:"NodeSelector";;
  copy_slice_into Toleration_t Toleration_DeepCopyInto inp@:"Tolerations" out@:"Tolerations".

Definition GPUConfig_DeepCopy := deep_copy GPUConfig_t GPUConfig_DeepCopyInto.

Definition ModelReference_DeepCopyInto (inp out : place) : M () := assign out inp.

Definition ModelReference_DeepCopy := deep_copy ModelReference_t ModelReference_DeepCopyInto.

Definition LLMEngineSpec_DeepCopyInto (inp out : place) : M () :=
  assign out inp;;
  copy_slice ModelReference_t inp@:"ModelRefs" out@:"ModelRefs";;
  copy_slice TString inp@:"Args" out@:"Args";;
  copy_slice_into EnvVar_t EnvVar_DeepCopyInto inp@:"Env" out@:"Env";;
  copy_pointer TInt inp@:"Replicas" out@:"Replicas";;
  copy_map inp@:"NodeSelector" out@:"NodeSelector";;
  copy_pointer_into ResourceRequirements_t ResourceRequirements_DeepCopyInto inp@:"Resources" out@:"Resources";;
  copy_pointer_into GPUConfig_t GPUConfig_DeepCopyInto inp@:"GPU" out@:"GPU".

Definition LLMEngineSpec_DeepCopy := deep_copy LLMEngineSpec_t LLMEngineSpec_DeepCopyInto.

Definition LLMEngineStatus_DeepCopyInto (inp out : place) : M () :=
  assign out inp;;
  copy_slice_into Condition_t Condition_DeepCopyInto inp@:"Conditions" out@:"Conditions";;
  copy_slice TString inp@:"ModelRepositories" out@:"ModelRepositories".

Definition LLMEngineStatus_DeepCopy := deep_copy LLMEngineStatus_t LLMEngineStatus_DeepCopyInto.

Definition LLMEngine_DeepCopyInto (inp out : place) : M () :=
  assign out inp;;
  assign out@:"TypeMeta" inp@:"TypeMeta";;
  ObjectMeta_DeepCopyInto inp@:"ObjectMeta" out@:"ObjectMeta";;
  LLMEngineSpec_DeepCopyInto inp@:"Spec" out@:"Spec";;
  LLMEngineStatus_DeepCopyInto inp@:"Status" out@:"Status".

Definition LLMEngine_DeepCopy := deep_copy LLMEngine_t LLMEngine_DeepCopyInto.

Definition LLMEngineList_DeepCopyInto (inp out : place) : M () :=
  assign out inp;;
  assign out@:"TypeMeta" inp@:"TypeMeta";;
  ListMeta_DeepCopyInto inp@:"ListMeta" out@:"ListMeta";;
  copy_slice_into LLMEngine_t LLMEngine_DeepCopyInto inp@:"Items" out@:"Items".

Definition LLMEngineList_DeepCopy := deep_copy LLMEngineList_t LLMEngineList_DeepCopyInto.

Definition ModelSource_DeepCopyInto (inp out : place) : M () :=
  assign out inp;;
  copy_slice RevisionReference_t inp@:"Revisions" out@:"Revisions".

Definition ModelSource_DeepCopy := deep_copy ModelSource_t ModelSource_DeepCopyInto.

Definition ModelStorage_DeepCopyInto (inp out : place) : M () := assign out inp.

Definition ModelStorage_DeepCopy := deep_copy ModelStorage_t ModelStorage_DeepCopyInto.

Definition RevisionReference_DeepCopyInto (inp out : place) : M () := assign out inp.

Definition RevisionReference_DeepCopy := deep_copy RevisionReference_t RevisionReference_DeepCopyInto.

Definition RevisionStatus_DeepCopyInto (inp out : place) : M () := assign out inp.

Definition RevisionStatus_DeepCopy := deep_copy RevisionStatus_t RevisionStatus_DeepCopyInto.

Definition StorageStatus_DeepCopyInto (inp out : place) : M () :=
  assign out inp;;
  copy_pointer_into BackendReference_t BackendReference_DeepCopyInto inp@:"BackendRef" out@:"BackendRef".

Definition StorageStatus_DeepCopy := deep_copy StorageStatus_t StorageStatus_DeepCopyInto.

Definition ModelRepositorySpec_DeepCopyInto (inp out : place) : M () :=
  assign out inp;;
  ModelSource_DeepCopyInto inp@:"Source" out@:"Source";;
  assign out@:"Storage" inp@:"Storage";;
  copy_map inp@:"NodeSelector" out@:"NodeSelector".

Definition ModelRepositorySpec_DeepCopy := deep_copy ModelRepositorySpec_t ModelRepositorySpec_DeepCopyInto.

Definition ModelRepositoryStatus_DeepCopyInto (inp out : place) : M () :=
  assign out inp;;
  copy_slice_into Condition_t Condition_DeepCopyInto inp@:"Conditions" out@:"Conditions";;
  copy_pointer_into StorageStatus_t StorageStatus_DeepCopyInto inp@:"Storage" out@:"Storage";;
  copy_slice RevisionStatus_t inp@:"AvailableRevisions" out@:"AvailableRevisions".

Definition ModelRepositoryStatus_DeepCopy := deep_copy ModelRepositoryStatus_t ModelRepositoryStatus_DeepCopyInto.

Definition ModelRepository_DeepCopyInto (inp out : place) : M () :=
  assign out inp;;
  assign out@:"TypeMeta" inp@:"TypeMeta";;
  ObjectMeta_DeepCopyInto inp@:"ObjectMeta" out@:"ObjectMeta";;
  ModelRepositorySpec_DeepCopyInto inp@:"Spec" out@:"Spec";;
  ModelRepositoryStatus_DeepCopyInto inp@:"Status" out@:"Status".

Definition ModelRepository_DeepCopy := deep_copy ModelRepository_t ModelRepository_DeepCopyInto.

Definition ModelRepositoryList_DeepCopyInto (inp out : place) : M () :=
  assign out inp;;
  assign out@:"TypeMeta" inp@:"TypeMeta";;
  ListMeta_DeepCopyInto inp@:"ListMeta" out@:"ListMeta";;
  copy_slice_into ModelRepository_t ModelRepository_DeepCopyInto inp@:"Items" out@:"Items".

Definition ModelRepositoryList_DeepCopy := deep_copy ModelRepositoryList_t ModelRepositoryList_DeepCopyInto.

(** A runtime.Object: nil, or a pointer and its type. *)
Definition runtime_object : Type := option (string * place).

(** if c := in.DeepCopy(); c != nil { return c }; return nil *)
Definition deep_copy_object (type : string) (DeepCopy : option place -> M (option place))
    (inp : option place) : M runtime_object :=
  c ← DeepCopy inp;
  match c with
  | Some c => mret (Some (type, c))
  | None => mret None
  end.

Definition LLMEngine_DeepCopyObject := deep_copy_object "*v1.LLMEngine" LLMEngine_DeepCopy.
Definition LLMEngineList_DeepCopyObject := deep_copy_object "*v1.LLMEngineList" LLMEngineList_DeepCopy.
Definition ModelRepository_DeepCopyObject := deep_copy_object "*v1.ModelRepository" ModelRepository_DeepCopy.
Definition ModelRepositoryList_DeepCopyObject :=
  deep_copy_object "*v1.ModelRepositoryList" ModelRepositoryList_DeepCopy.

(** All of them. *)
Definition deep_copies : list (ty * (option place -> M (option place))) :=
  [(BackendReference_t, BackendReference_DeepCopy); (GPUConfig_t, GPUConfig_DeepCopy);
   (LLMEngine_t, LLMEngine_DeepCopy); (LLMEngineList_t, LLMEngineList_DeepCopy);
   (LLMEngineSpec_t, LLMEngineSpec_DeepCopy); (LLMEngineStatus_t, LLMEngineStatus_DeepCopy);
   (ModelReference_t, ModelReference_DeepCopy); (ModelRepository_t, ModelRepository_DeepCopy);
   (ModelRepositoryList_t, ModelRepositoryList_DeepCopy); (ModelRepositorySpec_t, ModelRepositorySpec_DeepCopy);
   (ModelRepositoryStatus_t, ModelRepositoryStatus_DeepCopy); (ModelSource_t, ModelSource_DeepCopy);
   (ModelStorage_t, ModelStorage_DeepCopy); (RevisionReference_t, RevisionReference_DeepCopy);
   (RevisionStatus_t, RevisionStatus_DeepCopy); (StorageStatus_t, StorageStatus_DeepCopy)].

End Methods.

(** ** Each copies all of its type *)

Create HintDb deep_copy.
#[local] Hint Resolve copy_map_completes copy_slice_completes copy_slice_into_completes
  copy_pointer_completes copy_pointer_into_completes copies_completes assign_copies : deep_copy.
#[local] Hint Resolve ObjectMeta_copies ListMeta_copies Condition_copies EnvVar_copies Toleration_copies
  ResourceRequirements_copies TypeMeta_flat : deep_copy.
#[local] Hint Extern 1 (flat _ = true) => reflexivity : deep_copy.

(** The fields of the type and of the method, one by one. *)
Ltac by_decision := apply (bool_decide_unpack _); vm_compute; exact I.
Ltac copies_fields ps :=
  refine (struct_copies _ ps _ _ _ _);
  [by_decision|by_decision
  |repeat (apply Forall_cons; split); try apply Forall_nil_2;
   (eexists; split; [reflexivity|eauto with deep_copy])
  |repeat (apply Forall_cons; split); try apply Forall_nil_2;
   first [right; reflexivity|left; by_decision]].

Section Copies.
Context `{C : ExternalCopies} `{Rg : GoRange}.

Lemma BackendReference_copies : copies BackendReference_t BackendReference_DeepCopyInto.
Proof. copies_fields [("Details", copy_map)]. Qed.
#[local] Hint Resolve BackendReference_copies : deep_copy.

Lemma GPUConfig_copies : copies GPUConfig_t GPUConfig_DeepCopyInto.
Proof.
  copies_fields [("NodeSelector", copy_map); ("Tolerations", copy_slice_into Toleration_t Toleration_DeepCopyInto)].
Qed.
#[local] Hint Resolve GPUConfig_copies : deep_copy.

Lemma LLMEngineSpec_copies : copies LLMEngineSpec_t LLMEngineSpec_DeepCopyInto.
Proof.
  copies_fields [("ModelRefs", copy_slice ModelReference_t); ("Args", copy_slice TString);
    ("Env", copy_slice_into EnvVar_t EnvVar_DeepCopyInto); ("Replicas", copy_pointer TInt);
    ("NodeSelector", copy_map);
    ("Resources", copy_pointer_into ResourceRequirements_t ResourceRequirements_DeepCopyInto);
    ("GPU", copy_pointer_into GPUConfig_t GPUConfig_DeepCopyInto)].
Qed.
#[local] Hint Resolve LLMEngineSpec_copies : deep_copy.

Lemma LLMEngineStatus_copies : copies LLMEngineStatus_t LLMEngineStatus_DeepCopyInto.
Proof.
  copies_fields [("Conditions", copy_slice_into Condition_t Condition_DeepCopyInto);
    ("ModelRepositories", copy_slice TString)].
Qed.
#[local] Hint Resolve LLMEngineStatus_copies : deep_copy.

(** (TypeMeta is assigned a second time.) *)
Lemma LLMEngine_copies : copies LLMEngine_t LLMEngine_DeepCopyInto.
Proof.
  copies_fields [("TypeMeta", fun inp out => assign out inp); ("ObjectMeta", ObjectMeta_DeepCopyInto);
    ("Spec", LLMEngineSpec_DeepCopyInto); ("Status", LLMEngineStatus_DeepCopyInto)].
Qed.
#[local] Hint Resolve LLMEngine_copies : deep_copy.

Lemma LLMEngineList_copies : copies LLMEngineList_t LLMEngineList_DeepCopyInto.
Proof.
  copies_fields [("TypeMeta", fun inp out => assign out inp); ("ListMeta", ListMeta_DeepCopyInto);
    ("Items", copy_slice_into LLMEngine_t LLMEngine_DeepCopyInto)].
Qed.

Lemma StorageStatus_copies : copies StorageStatus_t StorageStatus_DeepCopyInto.
Proof. copies_fields [("BackendRef", copy_pointer_into BackendReference_t BackendReference_DeepCopyInto)]. Qed.
#[local] Hint Resolve StorageStatus_copies : deep_copy.

Lemma ModelSource_copies : copies ModelSource_t ModelSource_DeepCopyInto.
Proof. copies_fields [("Revisions", copy_slice RevisionReference_t)]. Qed.
#[local] Hint Resolve ModelSource_copies : deep_copy.

Lemma ModelRepositorySpec_copies : copies ModelRepositorySpec_t ModelRepositorySpec_DeepCopyInto.
Proof.
  copies_fields [("Source", ModelSource_DeepCopyInto); ("Storage", fun inp out => assign out inp);
    ("NodeSelector", copy_map)].
Qed.
#[local] Hint Resolve ModelRepositorySpec_copies : deep_copy.

Lemma ModelRepositoryStatus_copies : copies ModelRepositoryStatus_t ModelRepositoryStatus_DeepCopyInto.
Proof.
  copies_fields [("Conditions", copy_slice_into Condition_t Condition_DeepCopyInto);
    ("Storage", copy_pointer_into StorageStatus_t StorageStatus_DeepCopyInto);
    ("AvailableRevisions", copy_slice RevisionStatus_t)].
Qed.
#[local] Hint Resolve ModelRepositoryStatus_copies : deep_copy.

Lemma ModelRepository_copies : copies ModelRepository_t ModelRepository_DeepCopyInto.
Proof.
  copies_fields [("TypeMeta", fun inp out => assign out inp); ("ObjectMeta", ObjectMeta_DeepCopyInto);
    ("Spec", ModelRepositorySpec_DeepCopyInto); ("Status", ModelRepositoryStatus_DeepCopyInto)].
Qed.
#[local] Hint Resolve ModelRepository_copies : deep_copy.

Lemma ModelRepositoryList_copies : copies ModelRepositoryList_t ModelRepositoryList_DeepCopyInto.
Proof.
  copies_fields [("TypeMeta", fun inp out => assign out inp); ("ListMeta", ListMeta_DeepCopyInto);
    ("Items", copy_slice_into ModelRepository_t ModelRepository_DeepCopyInto)].
Qed.

End Copies.

#[local] Hint Resolve BackendReference_copies GPUConfig_copies LLMEngine_copies LLMEngineList_copies
  LLMEngineSpec_copies LLMEngineStatus_copies ModelRepository_copies ModelRepositoryList_copies
  ModelRepositorySpec_copies ModelRepositoryStatus_copies ModelSource_copies StorageStatus_copies : deep_copy.

(** Property C19: deep copies are snapshots.  Of every type of the API, where the
    types from elsewhere are copied deeply: the copy of nil is nil; and the copy of
    a value, of whatever size and with whatever in it nil, does not panic and
    changes nothing that was there.  Whatever the program then does to anything
    that was there before, the copy goes on reading as the original did when it
    was copied, and nowhere leads to anything but memory of its own. *)
Theorem deep_copies_are_snapshots `{C : ExternalCopies} `{Rg : GoRange} :
  Forall (fun '(t, DeepCopy) => snapshot t DeepCopy) deep_copies.
Proof.
  repeat (apply Forall_cons; split); try apply Forall_nil_2; apply deep_copy_snapshot; eauto with deep_copy.
Qed.

(** As objects: nil is the nil interface, not one that holds a nil pointer. *)
Theorem deep_copies_as_objects `{C : ExternalCopies} `{Rg : GoRange} :
  Forall (fun '(type, t, DeepCopyObject) =>
    (forall h, DeepCopyObject None h = Done (None, h)) /\
    forall h inp v, get h inp = Some v -> typed h t v ->
      exists out h', DeepCopyObject (Some inp) h = Done (Some (type, out), h') /\ h ⊆ h' /\
        forall h'', keeps_new h h' h'' -> alike (outside h) h h'' (TPtr t) (VPtr (Some inp)) (VPtr (Some out)))
    [("*v1.LLMEngine", LLMEngine_t, LLMEngine_DeepCopyObject);
     ("*v1.LLMEngineList", LLMEngineList_t, LLMEngineList_DeepCopyObject);
     ("*v1.ModelRepository", ModelRepository_t, ModelRepository_DeepCopyObject);
     ("*v1.ModelRepositoryList", ModelRepositoryList_t, ModelRepositoryList_DeepCopyObject)].
Proof.
  assert (Hobj : forall type t f, copies t f ->
    (forall h, deep_copy_object type (deep_copy t f) None h = Done (None, h)) /\
    forall h inp v, get h inp = Some v -> typed h t v ->
      exists out h', deep_copy_object type (deep_copy t f) (Some inp) h = Done (Some (type, out), h') /\ h ⊆ h' /\
        forall h'', keeps_new h h' h'' -> alike (outside h) h h'' (TPtr t) (VPtr (Some inp)) (VPtr (Some out))).
  { intros type t f Hf. split; [done|]. intros h inp v Hi Ht.
    destruct (proj2 (deep_copy_snapshot t f Hf) h inp v Hi Ht) as (out & h' & Hrun & H). exists out, h'.
    split; [|done]. unfold deep_copy_object. by rewrite (bind_step _ _ _ _ _ Hrun). }
  repeat (apply Forall_cons; split); try apply Forall_nil_2; apply Hobj; eauto with deep_copy.
Qed.

(** ** In memory

    Types from elsewhere with what the operator uses of them. *)
Definition plain_meta_t : ty := TStruct [("Kind", TString); ("APIVersion", TString)].
Definition plain_object_meta_t : ty :=
  TStruct [("Name", TString); ("Namespace", TString); ("Labels", TMap TString); ("Finalizers", TSlice TString)].
Definition plain_list_meta_t : ty := TStruct [("ResourceVersion", TString)].
Definition plain_condition_t : ty :=
  TStruct [("Type", TString); ("Status", TString); ("Reason", TString); ("Message", TString)].
Definition plain_env_t : ty := TStruct [("Name", TString); ("Value", TString)].
Definition plain_toleration_t : ty := TStruct [("Key", TString); ("TolerationSeconds", TPtr TInt)].
Definition plain_resources_t : ty := TStruct [("Limits", TMap TString); ("Requests", TMap TString)].

Definition plain_types `{GoRange} : ExternalTypes := {|
  TypeMeta_t := plain_meta_t; ObjectMeta_t := plain_object_meta_t; ListMeta_t := plain_list_meta_t;
  Condition_t := plain_condition_t; EnvVar_t := plain_env_t; Toleration_t := plain_toleration_t;
  ResourceRequirements_t := plain_resources_t;
  ObjectMeta_DeepCopyInto inp out :=
    assign out inp;; copy_map inp@:"Labels" out@:"Labels";; copy_slice TString inp@:"Finalizers" out@:"Finalizers";
  ListMeta_DeepCopyInto inp out := assign out inp;
  Condition_DeepCopyInto inp out := assign out inp;
  EnvVar_DeepCopyInto inp out := assign out inp;
  Toleration_DeepCopyInto inp out :=
    assign out inp;; copy_pointer TInt inp@:"TolerationSeconds" out@:"TolerationSeconds";
  ResourceRequirements_DeepCopyInto inp out :=
    assign out inp;; copy_map inp@:"Limits" out@:"Limits";; copy_map inp@:"Requests" out@:"Requests";
|}.

Lemma plain_copies `{GoRange} : ExternalCopies plain_types.
Proof.
  split; [done|..]; try by apply assign_copies.
  - copies_fields [("Labels", copy_map); ("Finalizers", copy_slice TString)].
  - copies_fields [("TolerationSeconds", copy_pointer TInt)].
  - copies_fields [("Limits", copy_map); ("Requests", copy_map)].
Qed.

(** A repository with a condition, a finalizer and a backend. *)
Definition str (s : string) : value := VBase (BString s).
Definition memory : heap :=
  {[1%positive := OCells [VStruct
      [("TypeMeta", VStruct [("Kind", str "ModelRepository"); ("APIVersion", str "v1")]);
       ("ObjectMeta", VStruct [("Name", str "llama"); ("Namespace", str EmptyString); ("Labels", VMap None);
          ("Finalizers", VSlice (Some (Window 2 0 1)))]);
       ("Spec", VStruct
         [("ModelName", str "llama");
          ("Source", VStruct [("Origin", str "huggingface"); ("ModelId", str "meta/llama"); ("Revision", str EmptyString);
             ("Revisions", VSlice None); ("HFTokenSecret", str EmptyString); ("HFTokenSecretKey", str EmptyString)]);
          ("Storage", VStruct [("Size", str "10Gi"); ("MountPath", str EmptyString); ("StorageClass", str "auto")]);
          ("AutoDownload", VBase (BBool true)); ("DownloadImage", str EmptyString);
          ("DownloadScripts", str EmptyString); ("DeleteScripts", str EmptyString); ("NodeSelector", VMap None)]);
       ("Status", VStruct
         [("Phase", str "Downloading"); ("Conditions", VSlice (Some (Window 3 1 1)));
          ("Storage", VPtr (Some (Place 4 0 []))); ("AvailableRevisions", VSlice None);
          ("ReferencedEngines", str EmptyString)])]];
    2%positive := OCells [str "aitrigram.cliver-project.github.io/finalizer"];
    3%positive := OCells [str EmptyString;
      VStruct [("Type", str "Ready"); ("Status", str "False"); ("Reason", str "Downloading"); ("Message", str EmptyString)]];
    4%positive := OCells [VStruct
      [("StorageClass", str "nfs"); ("AccessMode", str "ReadWriteMany"); ("VolumeMode", str "Filesystem");
       ("BackendRef", VPtr (Some (Place 5 0 []))); ("BoundNodeName", str EmptyString); ("Capacity", str "10Gi")]];
    5%positive := OCells [VStruct [("Type", str "nfs"); ("Details", VMap (Some 6%positive))]];
    6%positive := OMap {["server" := str "10.0.0.1"; "exportPath" := str "/x"]}]}.

(** The condition of a repository in memory, whose status is set in place. *)
Definition first_condition (repo : place) (h : heap) : option place :=
  match get h (repo@:"Status"@:"Conditions") with
  | Some (VSlice (Some s)) => Some (element s 0)
  | _ => None
  end.
Definition set_in_place (repo : place) : M () := fun h =>
  match first_condition repo h with Some p => store p@:"Status" (str "True") h | None => Done (tt, h) end.
Definition condition_status (repo : place) (h : heap) : option value :=
  first_condition repo h ≫= fun p => get h p@:"Status".

(** What is seen of it after it is set through the original: of a deep copy, and
    of one that is only assigned. *)
Example deep_and_shallow :
  let R := witness_range in
  let E := plain_types in
  let fresh := Place 1 0 [] in
  let seen copy := match copy (Some fresh) memory with
    | Done (Some existing, h) => match set_in_place fresh h with
      | Done (_, h) => Some (condition_status fresh h, condition_status existing h)
      | Panicked _ => None
      end
    | _ => None
    end in
  seen ModelRepository_DeepCopy = Some (Some (str "True"), Some (str "False")) /\
  seen (deep_copy ModelRepository_t (fun inp out => assign out inp)) = Some (Some (str "True"), Some (str "True")).
Proof. vm_compute. split; reflexivity. Qed.

(** The repository is a value of its type. *)
Lemma memory_typed `{GoRange} :
  exists v, get memory (Place 1 0 []) = Some v /\ typed memory (ModelRepository_t (H := plain_types)) v.
Proof. eexists. split; [reflexivity|]. apply well_typed_sound. vm_compute. reflexivity. Qed.

Lemma deep_copies_are_snapshots_witness :
  let R := witness_range in
  let E := plain_types in
  let fresh := Place 1 0 [] in
  exists existing h', ModelRepository_DeepCopy (Some fresh) memory = Done (Some existing, h') /\
    forall p w, is_Some (memory !! pl_loc p) ->
      alike (outside memory) memory (put p w h') (TPtr ModelRepository_t) (VPtr (Some fresh)) (VPtr (Some existing)).
Proof.
  intros R E fresh. destruct memory_typed as (v & Hv & Ht).
  destruct (proj1 (Forall_forall _ _) (deep_copies_are_snapshots (C := plain_copies))
    (ModelRepository_t, ModelRepository_DeepCopy) ltac:(do 7 right; left)) as [_ Hs].
  destruct (Hs memory fresh v Hv Ht) as (existing & h' & Hrun & _ & Hal). exists existing, h'. split; [exact Hrun|].
  intros p w Hp. apply Hal. by apply keeps_new_put.
Defined.
