(* ===== verification/StatusSync.v ===== *)
(** * Syncing a status in memory

    syncStatus of both controllers as it works on Go's memory: it copies the object
    it has read, hands the status of the original to a mutation that works in place,
    through the slices and pointers the status holds, compares the two with
    equality.Semantic.DeepEqual, and writes the original.  RepoStatus.v and
    EngineStatus.v model the same attempt on values; here it is shown that the one
    is the other, which the deep copy is there for. *)

From S2P Require Import Prelude Api Kube Machinery MemServer Jobs RepoStatus EngineStatus GoMemory DeepCopy.

Local Open Scope go_scope.

(** ** In memory *)
Section Attempt.
Context (DeepCopy : option place -> M (option place)).
(** equality.Semantic.DeepEqual, on values of the type of the status. *)
Context (Semantic_DeepEqual : heap -> value -> value -> bool).

Definition non_nil (p : option place) : M place :=
  match p with Some p => mret p | None => panic nil_dereference end.

Definition same_in_memory (old now : value) : M bool := fun h => Done (Semantic_DeepEqual h old now, h).

(** One attempt, from the object that was read on: the object to write, if the
    status is to be written. *)
Definition sync_in_memory (mutate : place -> M ()) (fresh : place) : M (option place) :=
  existing ← DeepCopy (Some fresh);
  mutate fresh@:"Status";;
  existing ← non_nil existing;
  old ← load existing@:"Status";
  now ← load fresh@:"Status";
  same ← same_in_memory old now;
  if same : bool then mret None else mret (Some fresh).
End Attempt.

(** ** What values in memory say

    A reader gives the value of the model that a value in memory stands for.  Nil
    slices and maps are empty ones. *)
Definition reader (A : Type) : Type := heap -> value -> option A.

(** It reads the same from values that look the same. *)
Definition reads {A} (t : ty) (rd : reader A) : Prop :=
  forall X h1 h2 v1 v2, alike X h1 h2 t v1 v2 -> rd h1 v1 = rd h2 v2.

Definition read_string : reader string := fun _ v =>
  match v with VBase (BString s) => Some s | _ => None end.
Definition read_field {A} (f : string) (rd : reader A) : reader A := fun h v =>
  match v with VStruct fs => assoc f fs ≫= rd h | _ => None end.
Definition read_pointer {A} (rd : reader A) : reader (option A) := fun h v =>
  match v with
  | VPtr None => Some None
  | VPtr (Some p) => Some <$> (get h p ≫= rd h)
  | _ => None
  end.
Definition read_slice {A} (rd : reader A) : reader (list A) := fun h v =>
  match v with
  | VSlice None => Some []
  | VSlice (Some s) => window_of s h ≫= mapM (rd h)
  | _ => None
  end.
(** (All the entries of a map of strings are.) *)
Definition read_map {A} (rd : reader A) : reader (gmap string A) := fun h v =>
  match v with
  | VMap None => Some ∅
  | VMap (Some l) => match h !! l with Some (OMap m) => Some (omap (rd h) m) | _ => None end
  | _ => None
  end.

Lemma reads_string : reads (TBase KString) read_string.
Proof. by intros X h1 h2 v1 v2 [-> _]. Qed.

Lemma reads_field {A} fs f t (rd : reader A) :
  assoc f fs = Some t -> reads t rd -> reads (TStruct fs) (read_field f rd).
Proof.
  intros Hf Hrd X h1 h2 v1 v2 (vs1 & vs2 & -> & -> & Hr)%alike_struct.
  destruct (fields_get _ _ _ _ _ _ Hr Hf) as (v & w & Hv & Hw & Hvw). cbn. rewrite Hv, Hw. cbn.
  by eapply Hrd.
Qed.

Lemma reads_pointer {A} t (rd : reader A) : reads t rd -> reads (TPtr t) (read_pointer rd).
Proof.
  intros Hrd X h1 h2 v1 v2 [[-> ->]|(p1 & p2 & x1 & x2 & -> & -> & _ & Hg1 & Hg2 & Hx)]; [done|].
  cbn. rewrite Hg1, Hg2. cbn. by rewrite (Hrd _ _ _ _ _ Hx).
Qed.

Lemma reads_slice {A} t (rd : reader A) : reads t rd -> reads (TSlice t) (read_slice rd).
Proof.
  intros Hrd X h1 h2 v1 v2 [[-> ->]|(s1 & s2 & xs1 & xs2 & -> & -> & _ & _ & Hw1 & Hw2 & Hx)]; [done|].
  cbn. rewrite Hw1, Hw2. cbn. clear Hw1 Hw2. induction Hx as [|x1 x2 xs1 xs2 Hx _ IH]; [done|].
  cbn. rewrite (Hrd _ _ _ _ _ Hx), IH. done.
Qed.

Lemma reads_map {A} t (rd : reader A) : reads t rd -> reads (TMap t) (read_map rd).
Proof.
  intros Hrd X h1 h2 v1 v2 [[-> ->]|(l1 & l2 & m1 & m2 & -> & -> & _ & Hm1 & Hm2 & Hx)]; [done|].
  cbn. rewrite Hm1, Hm2. f_equal. apply map_eq. intros k. rewrite !lookup_omap. specialize (Hx k).
  destruct Hx as [x1 x2 Hx|]; [|done]. cbn. exact (Hrd _ _ _ _ _ Hx).
Qed.

Lemma reads_bind {A B} t (rd : reader A) (f : A -> reader B) :
  reads t rd -> (forall a, reads t (f a)) -> reads t (fun h v => rd h v ≫= fun a => f a h v).
Proof.
  intros Hrd Hf X h1 h2 v1 v2 Ha. rewrite (Hrd _ _ _ _ _ Ha). destruct (rd h2 v2); [|done]. by eapply Hf.
Qed.

Lemma reads_ret {A} t (a : A) : reads t (fun _ _ => Some a).
Proof. done. Qed.

(** *** The statuses *)

Definition read_revision : reader RevisionStatus := fun h v =>
  name ← read_field "Name" read_string h v;
  hash ← read_field "CommitHash" read_string h v;
  status ← read_field "Status" read_string h v;
  Some (mkRevisionStatus name hash status).

Definition read_backend : reader BackendReference := fun h v =>
  type ← read_field "Type" read_string h v;
  details ← read_field "Details" (read_map read_string) h v;
  Some (mkBackendReference type details).

Definition read_storage : reader StorageStatus := fun h v =>
  class ← read_field "StorageClass" read_string h v;
  access ← read_field "AccessMode" read_string h v;
  volume ← read_field "VolumeMode" read_string h v;
  backend ← read_field "BackendRef" (read_pointer read_backend) h v;
  node ← read_field "BoundNodeName" read_string h v;
  capacity ← read_field "Capacity" read_string h v;
  Some (mkStorageStatus class access volume backend node capacity).

Section Statuses.
(** A condition is of a type from elsewhere. *)
Context (read_condition : reader Condition).

Definition read_repository_status : reader ModelRepositoryStatus := fun h v =>
  phase ← read_field "Phase" read_string h v;
  conditions ← read_field "Conditions" (read_slice read_condition) h v;
  storage ← read_field "Storage" (read_pointer read_storage) h v;
  revisions ← read_field "AvailableRevisions" (read_slice read_revision) h v;
  engines ← read_field "ReferencedEngines" read_string h v;
  Some (mkModelRepositoryStatus phase conditions storage revisions engines).

Definition read_engine_status : reader LLMEngineStatus := fun h v =>
  phase ← read_field "Phase" read_string h v;
  conditions ← read_field "Conditions" (read_slice read_condition) h v;
  repositories ← read_field "ModelRepositories" (read_slice read_string) h v;
  Some (mkLLMEngineStatus phase conditions repositories).
End Statuses.

#[local] Hint Resolve reads_string reads_pointer reads_slice reads_map reads_ret : deep_copy.
Ltac reads_fields :=
  repeat (refine (reads_bind _ (read_field _ _) _ _ _); [eapply reads_field; [reflexivity|]|intros ?]);
  eauto with deep_copy.

Lemma reads_revision : reads RevisionStatus_t read_revision.
Proof. unfold read_revision. reads_fields. Qed.
Lemma reads_backend : reads BackendReference_t read_backend.
Proof. unfold read_backend. reads_fields. Qed.
#[local] Hint Resolve reads_revision reads_backend : deep_copy.
Lemma reads_storage : reads StorageStatus_t read_storage.
Proof. unfold read_storage. reads_fields. Qed.
#[local] Hint Resolve reads_storage : deep_copy.

Section ReadStatuses.
Context `{E : ExternalTypes} (read_condition : reader Condition) (Hc : reads Condition_t read_condition).

Lemma reads_repository_status : reads ModelRepositoryStatus_t (read_repository_status read_condition).
Proof. unfold read_repository_status. reads_fields. Qed.
Lemma reads_engine_status : reads LLMEngineStatus_t (read_engine_status read_condition).
Proof. unfold read_engine_status. reads_fields. Qed.
End ReadStatuses.

(** ** The attempt on values is the one in memory *)

Definition read_at {A} (rd : reader A) (h : heap) (p : place) : option A := get h p ≫= rd h.

Section Refines.
Context {A : Type} (rd : reader A).

(** What is documented of Semantic.DeepEqual: it compares what the values say. *)
Definition compares (Semantic_DeepEqual : heap -> value -> value -> bool) (same : A -> A -> bool) : Prop :=
  forall h v1 v2 s1 s2, rd h v1 = Some s1 -> rd h v2 = Some s2 -> Semantic_DeepEqual h v1 v2 = same s1 s2.

(** The mutation leaves the status [s'] at the place it is given, and reaches
    nothing that was allocated since the object was read but what it allocates
    itself. *)
Definition mutates_to (h : heap) (p : place) (mutate : place -> M ()) (s' : A) : Prop :=
  forall h', h ⊆ h' ->
    exists h'', mutate p h' = Done (tt, h'') /\ keeps_new h h' h'' /\ read_at rd h'' p = Some s'.

Lemma sync_in_memory_run fs status_t f Semantic_DeepEqual same mutate h fresh v s s' :
  copies (TStruct fs) f -> assoc "Status" fs = Some status_t -> reads status_t rd ->
  compares Semantic_DeepEqual same ->
  get h fresh = Some v -> typed h (TStruct fs) v -> read_at rd h fresh@:"Status" = Some s ->
  mutates_to h fresh@:"Status" mutate s' ->
  exists h'', sync_in_memory (deep_copy (TStruct fs) f) Semantic_DeepEqual mutate fresh h =
      Done (if same s s' then None else Some fresh, h'') /\ read_at rd h'' fresh@:"Status" = Some s'.
Proof.
  intros Hcopy Hf Hrd Hsame Hg Ht Hs Hm.
  destruct (proj2 (deep_copy_snapshot _ _ Hcopy) h fresh v Hg Ht) as (existing & h' & Hrun & Hh & Hal).
  destruct (Hm h' Hh) as (h'' & Hmut & Hk & Hs'). exists h''. split; [|done].
  destruct (alike_field _ _ _ _ _ _ _ _ (Hal h'' Hk) Hf) as (before & kept & Hb & Hkept & Hlike).
  unfold read_at in *. rewrite Hb in Hs. cbn in Hs. rewrite (Hrd _ _ _ _ _ Hlike) in Hs.
  destruct (get h'' fresh@:"Status") as [now|] eqn:Hnow; [|done]. cbn in Hs'.
  unfold sync_in_memory. rewrite (bind_step _ _ _ _ _ Hrun), (bind_step _ _ _ _ _ Hmut).
  rewrite (bind_step (non_nil (Some existing)) _ h'' existing h'' eq_refl).
  rewrite (load_step _ _ _ _ Hkept), (load_step _ _ _ _ Hnow).
  rewrite (bind_step _ _ _ (Semantic_DeepEqual h'' kept now) h'' eq_refl).
  rewrite (Hsame _ _ _ _ _ Hs Hs'). by destruct (same s s').
Qed.

End Refines.

Section Sync.
Context `{Mach : Machinery} `{C : ExternalCopies} `{Rg : GoRange}.

(** The two functions, from where the object was read as [fresh]. *)
Definition ModelRepository_syncStatus := sync_in_memory ModelRepository_DeepCopy.
Definition LLMEngine_syncStatus := sync_in_memory LLMEngine_DeepCopy.

(** What the attempt does on the server, given what it does in memory. *)
Definition synced_run {W} (srv : server W) (w : W) (get : event) (t : trace) (update : { r : req & resp r -> err_opt })
    (written : option place) : trace * outcome err_opt * W :=
  match written with
  | None => (get :: t, Done None, w)
  | Some _ =>
      let '(a, w') := srv (projT1 update) w in
      (get :: t ++ [Ev (projT1 update) a], Done (projT2 update a), w')
  end.

(** Property C20: syncStatus writes the status that its caller makes of it, and
    exactly when that is another.  Of the object the server returned, which is in
    memory with a status that reads as the server's, it makes a deep copy, and lets
    its caller mutate the status of the original in place, through whatever slices
    and pointers it holds, as far as they were there before the copy.  What
    Semantic.DeepEqual then compares is the new status with what the old one was,
    and what is written is the new one: on every server, the attempt makes the
    requests, and gives the result, of the attempt on values that RepoStatus.v and
    EngineStatus.v model and every theorem about the controllers is about, for
    repositories and for engines. *)
Theorem syncStatus_refined {W} (srv : server W) (read_condition : reader Condition)
    (mr_DeepEqual le_DeepEqual : heap -> value -> value -> bool) :
  let read_mr := read_repository_status read_condition in
  let read_le := read_engine_status read_condition in
  reads Condition_t read_condition ->
  compares read_mr mr_DeepEqual DeepEqualModelRepositoryStatus ->
  compares read_le le_DeepEqual DeepEqualLLMEngineStatus ->
  (forall h fresh v mutate, get h fresh = Some v -> typed h ModelRepository_t v ->
   forall modelRepo mr f s' w w1 t w2,
     srv (GetModelRepository (mr_Name modelRepo)) w = (Ok mr, w1) ->
     read_at read_mr h fresh@:"Status" = Some (mr_Status mr) ->
     run srv (f (mr_Status mr)) w1 = (t, Done s', w2) ->
     mutates_to read_mr h fresh@:"Status" mutate s' ->
     exists written h', ModelRepository_syncStatus mr_DeepEqual mutate fresh h = Done (written, h') /\
       (written = None \/ written = Some fresh) /\ read_at read_mr h' fresh@:"Status" = Some s' /\
       run srv (RepoStatus.sync_attempt modelRepo f) w =
         synced_run srv w2 (Ev (GetModelRepository (mr_Name modelRepo)) (Ok mr)) t
           (existT (UpdateModelRepositoryStatus (mr_with_Status s' mr)) id) written) /\
  (forall h fresh v mutate, get h fresh = Some v -> typed h LLMEngine_t v ->
   forall llmEngine le f s' w w1 t w2,
     srv (GetLLMEngine (le_Namespace llmEngine) (le_Name llmEngine)) w = (Ok le, w1) ->
     read_at read_le h fresh@:"Status" = Some (le_Status le) ->
     run srv (f (le_Status le)) w1 = (t, Done s', w2) ->
     mutates_to read_le h fresh@:"Status" mutate s' ->
     exists written h', LLMEngine_syncStatus le_DeepEqual mutate fresh h = Done (written, h') /\
       (written = None \/ written = Some fresh) /\ read_at read_le h' fresh@:"Status" = Some s' /\
       run srv (engine_sync_attempt llmEngine f) w =
         synced_run srv w2 (Ev (GetLLMEngine (le_Namespace llmEngine) (le_Name llmEngine)) (Ok le)) t
           (existT (UpdateLLMEngineStatus (le_with_Status s' le)) id) written).
Proof.
  intros read_mr read_le Hc Hmr Hle. split; intros h fresh v mutate Hg Ht obj o f s' w w1 t w2 Hget Hs Hf Hm.
  - destruct (sync_in_memory_run read_mr _ _ _ _ _ _ h fresh v _ _ ModelRepository_copies eq_refl
      (reads_repository_status _ Hc) Hmr Hg Ht Hs Hm) as (h' & Hrun & Hs').
    eexists _, h'. split; [exact Hrun|]. split; [destruct (DeepEqualModelRepositoryStatus _ _); auto|]. split; [done|].
    unfold RepoStatus.sync_attempt. cbn [prog_bind call run]. rewrite Hget, run_bind, Hf.
    destruct (DeepEqualModelRepositoryStatus _ _); cbn; [by rewrite app_nil_r|].
    by destruct (srv _ w2).
  - destruct (sync_in_memory_run read_le _ _ _ _ _ _ h fresh v _ _ LLMEngine_copies eq_refl
      (reads_engine_status _ Hc) Hle Hg Ht Hs Hm) as (h' & Hrun & Hs').
    eexists _, h'. split; [exact Hrun|]. split; [destruct (DeepEqualLLMEngineStatus _ _); auto|]. split; [done|].
    unfold engine_sync_attempt. cbn [prog_bind call run]. rewrite Hget, run_bind, Hf.
    destruct (DeepEqualLLMEngineStatus _ _); cbn; [by rewrite app_nil_r|].
    by destruct (srv _ w2).
Qed.

End Sync.

(** ** Witness

    The condition of the repository of DeepCopy.v is set in place: in the cell that
    the slice of the status refers to. *)
Definition read_plain_condition : reader Condition := fun h v =>
  type ← read_field "Type" read_string h v;
  status ← read_field "Status" read_string h v;
  reason ← read_field "Reason" read_string h v;
  message ← read_field "Message" read_string h v;
  Some (mkCondition type status reason message 0).

Lemma reads_plain_condition : reads plain_condition_t read_plain_condition.
Proof. unfold read_plain_condition. reads_fields. Qed.

Definition same_reading {A} `{EqDecision A} (rd : reader A) (h : heap) (v1 v2 : value) : bool :=
  match rd h v1, rd h v2 with Some a, Some b => bool_decide (a = b) | _, _ => false end.

Lemma same_reading_mr rd : compares rd (same_reading rd) (@DeepEqualModelRepositoryStatus Reference.machinery).
Proof. intros h v1 v2 s1 s2 H1 H2. unfold same_reading. by rewrite H1, H2. Qed.
Lemma same_reading_le rd : compares rd (same_reading rd) (@DeepEqualLLMEngineStatus Reference.machinery).
Proof. intros h v1 v2 s1 s2 H1 H2. unfold same_reading. by rewrite H1, H2. Qed.

Definition make_true (status : place) : M () :=
  conditions ← load status@:"Conditions";
  c ← index conditions 0;
  store c@:"Status" (str "True").

Definition memory_status (status : string) : ModelRepositoryStatus :=
  mkModelRepositoryStatus "Downloading" [mkCondition "Ready" status "Downloading" EmptyString 0]
    (Some (mkStorageStatus "nfs" "ReadWriteMany" "Filesystem"
      (Some (mkBackendReference "nfs" {["server" := "10.0.0.1"; "exportPath" := "/x"]})) EmptyString "10Gi"))
    [] EmptyString.
Definition memory_repo : ModelRepository :=
  mr_with_Status (memory_status "False") witness_status_repo.
Definition memory_cluster : cluster := set_repos {["llama" := memory_repo]} empty_cluster.
Definition make_true_value (s : ModelRepositoryStatus) : prog ModelRepositoryStatus :=
  Ret (mst_with_Conditions (map (fun c => mkCondition (cond_Type c) "True" (cond_Reason c) (cond_Message c)
    (cond_LastTransitionTime c)) (mst_Conditions s)) s).

(** What is read of a value of its type is read of it in a larger heap. *)
Lemma read_at_mono {A} t (rd : reader A) h h' p v :
  reads t rd -> h ⊆ h' -> get h p = Some v -> well_typed h t v = true -> read_at rd h' p = read_at rd h p.
Proof.
  intros Hrd Hh Hg Ht%well_typed_sound. unfold read_at. rewrite Hg, (get_mono _ _ _ _ Hh Hg). cbn. symmetry.
  eapply Hrd, (alike_weaken anywhere anywhere h h h h'); [reflexivity| |exact Ht].
  intros l o _ Ho. split; [done|]. by eapply lookup_weaken.
Qed.

Lemma make_true_mutates :
  let R := witness_range in
  let E := plain_types in
  mutates_to (read_repository_status read_plain_condition) memory (Place 1 0 [])@:"Status" make_true
    (memory_status "True").
Proof.
  intros R E h' Hh. set (c := (element (Window 3 1 1) 0)@:"Status").
  assert (Hload : get h' (Place 1 0 [])@:"Status"@:"Conditions" = Some (VSlice (Some (Window 3 1 1)))).
  { eapply get_mono; [exact Hh|]. vm_compute. reflexivity. }
  assert (Hc : get h' c = Some (str "False")) by (eapply get_mono; [exact Hh|]; vm_compute; reflexivity).
  exists (put c (str "True") h'). split; [|split].
  - unfold make_true. rewrite (load_step _ _ _ _ Hload), index_step by (cbn; lia). fold c.
    unfold store. by rewrite Hc.
  - apply keeps_new_put. by exists (OCells [str EmptyString;
      VStruct [("Type", str "Ready"); ("Status", str "False"); ("Reason", str "Downloading"); ("Message", str EmptyString)]]).
  - etrans; [eapply (read_at_mono ModelRepositoryStatus_t _ (put c (str "True") memory))|].
    + apply reads_repository_status, reads_plain_condition.
    + by apply put_mono.
    + vm_compute. reflexivity.
    + vm_compute. reflexivity.
    + vm_compute. reflexivity.
Qed.

Lemma syncStatus_refined_witness :
  let Mach := Reference.machinery in
  let R := witness_range in
  let E := plain_types in
  let fresh := Place 1 0 [] in
  let rd := read_repository_status read_plain_condition in
  length (run mem (RepoStatus.sync_attempt memory_repo make_true_value) memory_cluster).1.1 = 2%nat /\
  exists written h', ModelRepository_syncStatus (same_reading rd) make_true fresh memory = Done (written, h') /\
    (written = None \/ written = Some fresh) /\ read_at rd h' fresh@:"Status" = Some (memory_status "True") /\
    run mem (RepoStatus.sync_attempt memory_repo make_true_value) memory_cluster =
      synced_run mem memory_cluster (Ev (GetModelRepository "llama") (Ok memory_repo)) []
        (existT (UpdateModelRepositoryStatus (mr_with_Status (memory_status "True") memory_repo)) id) written.
Proof.
  intros Mach R E fresh rd. split; [vm_compute; reflexivity|]. destruct memory_typed as (v & Hv & Ht).
  apply (proj1 (syncStatus_refined (C := plain_copies) mem read_plain_condition (same_reading rd)
    (same_reading (read_engine_status read_plain_condition)) reads_plain_condition
    (same_reading_mr _) (same_reading_le _)) memory fresh v make_true Hv Ht memory_repo memory_repo
    make_true_value (memory_status "True") memory_cluster memory_cluster [] memory_cluster).
  - reflexivity.
  - vm_compute. reflexivity.
  - reflexivity.
  - exact make_true_mutates.
Defined.
