(* ===== verification/E2eUtils.v ===== *)
(** * Helpers of the end-to-end tests

    test/utils/utils.go: running commands in the project's directory, reading what
    they print, and removing comment marks from a file, on the operating system as
    far as they see it.  The programs that are run are a parameter. *)

From S2P Require Import Prelude GoStd.
From Stdlib Require Import Ascii String.

Local Open Scope nat_scope.

(** ** Go's strings, bytes and bufio *)

Definition newline : ascii := "010"%char.
Definition carriage_return : ascii := "013"%char.

(** strings.Index *)
Fixpoint index_of (sub s : string) : option nat :=
  if has_prefix sub s then Some 0
  else match s with
       | EmptyString => None
       | String _ s => S <$> index_of sub s
       end.

(** strings.Replace(s, old, "", -1), for an [old] that is not empty; [skip] bytes
    are part of an occurrence. *)
Fixpoint remove_all (old s : string) (skip : nat) : string :=
  match s with
  | EmptyString => EmptyString
  | String c s' =>
      match skip with
      | S skip => remove_all old s' skip
      | O => if has_prefix old s then remove_all old s' (String.length old - 1)
             else String c (remove_all old s' 0)
      end
  end.

(** bufio.Scanner by lines: a carriage return before the newline is dropped, as is
    an empty last line; a line of 64 KiB or more ends the scan. *)
Definition MaxScanTokenSize : Z := 65536.

Fixpoint drop_cr (s : string) : string :=
  match s with
  | EmptyString => EmptyString
  | String c EmptyString => if bool_decide (c = carriage_return) then EmptyString else s
  | String c s => String c (drop_cr s)
  end.

Fixpoint scan_pieces (pieces : list string) : list string :=
  match pieces with
  | [] => []
  | piece :: rest =>
      if bool_decide (piece = EmptyString /\ rest = []) then []
      else if (MaxScanTokenSize <=? len piece)%Z then []
      else drop_cr piece :: scan_pieces rest
  end.
Definition scan_lines (s : string) : list string := scan_pieces (split_on newline s).

(** ** The operating system

    The current directory, which os.Getwd may fail to tell, the directories there
    are, the files, the environment, and what was printed to GinkgoWriter. *)
Record os := mkOs {
  os_wd : string * err_opt;
  os_dirs : list string;
  os_files : gmap string string;
  os_env : list string;
  os_printed : list string;
}.

Definition print (line : string) (w : os) : os :=
  mkOs (os_wd w) (os_dirs w) (os_files w) (os_env w) (os_printed w ++ [line]).

Definition Getwd (w : os) : string * err_opt := os_wd w.
Definition Chdir (dir : string) (w : os) : err_opt * os :=
  if bool_decide (dir ∈ os_dirs w) then
    (None, mkOs (dir, None) (os_dirs w) (os_files w) (os_env w) (os_printed w))
  else (Some (errorf ("chdir " +:+ dir +:+ ": no such file or directory")), w).
Definition ReadFile (filename : string) (w : os) : result string :=
  match os_files w !! filename with
  | Some content => Ok content
  | None => Err (errorf ("open " +:+ filename +:+ ": no such file or directory"))
  end.
Definition WriteFile (filename content : string) (w : os) : os :=
  mkOs (os_wd w) (os_dirs w) (<[filename := content]> (os_files w)) (os_env w) (os_printed w).

Record Cmd := mkCmd { cmd_Args : list string; cmd_Dir : string; cmd_Env : list string }.
Definition Command (name : string) (args : list string) : Cmd := mkCmd (name :: args) EmptyString [].

(** cmd.CombinedOutput: what a program prints, and what it does to the machine. *)
Class Programs := { CombinedOutput : Cmd -> os -> string * err_opt * os }.

(** ** utils.go *)

Definition prometheusOperatorVersion : string := "v0.77.1".
Definition prometheusOperatorURL (version : string) : string :=
  "https://github.com/prometheus-operator/prometheus-operator/" +:+
  "releases/download/" +:+ version +:+ "/bundle.yaml".

Definition warnError (err : gerror) (w : os) : os := print ("warning: " +:+ emsg err) w.

Definition GetProjectDir (w : os) : string * err_opt :=
  match Getwd w with
  | (wd, Some err) => (wd, Some err)
  | (wd, None) => (remove_all "/test/e2e" wd 0, None)
  end.

Definition GetNonEmptyLines (output : string) : list string :=
  filter (fun element => element <> EmptyString) (split_on newline output).

Section Commands.
Context `{Programs}.

Definition Run (cmd : Cmd) (w : os) : string * err_opt * os :=
  let dir := (GetProjectDir w).1 in
  let w := match Chdir dir w with
           | (Some err, w) => print ("chdir dir: " +:+ emsg err) w
           | (None, w) => w
           end in
  let cmd := mkCmd (cmd_Args cmd) dir (os_env w ++ ["GO111MODULE=on"]) in
  let command := str_join " " (cmd_Args cmd) in
  let w := print ("running: " +:+ command) w in
  match CombinedOutput cmd w with
  | (output, Some err, w) =>
      (output, Some (errorf (command +:+ " failed with error: (" +:+ emsg err +:+ ") " +:+ output)), w)
  | (output, None, w) => (output, None, w)
  end.

Definition InstallPrometheusOperator (w : os) : err_opt * os :=
  let url := prometheusOperatorURL prometheusOperatorVersion in
  let '(_, err, w) := Run (Command "kubectl" ["create"; "-f"; url]) w in (err, w).

Definition UninstallPrometheusOperator (w : os) : os :=
  let url := prometheusOperatorURL prometheusOperatorVersion in
  match Run (Command "kubectl" ["delete"; "-f"; url]) w with
  | (_, Some err, w) => warnError err w
  | (_, None, w) => w
  end.

Definition prometheusCRDs : list string :=
  ["prometheuses.monitoring.coreos.com"; "prometheusrules.monitoring.coreos.com";
   "prometheusagents.monitoring.coreos.com"].

Definition IsPrometheusCRDsInstalled (w : os) : bool * os :=
  match Run (Command "kubectl" ["get"; "crds"; "-o"; "custom-columns=NAME:.metadata.name"]) w with
  | (_, Some _, w) => (false, w)
  | (output, None, w) =>
      let crdList := GetNonEmptyLines output in
      (existsb (fun crd => existsb (fun line => str_contains crd line) crdList) prometheusCRDs, w)
  end.

End Commands.

Definition UncommentCode (filename target prefix : string) (w : os) : err_opt * os :=
  match ReadFile filename w with
  | Err err => (Some err, w)
  | Ok content =>
      match index_of target content with
      | None => (Some (errorf ("unable to find the code " +:+ target +:+ " to be uncomment")), w)
      | Some idx =>
          match scan_lines target with
          | [] => (None, w)
          | lines =>
              let out := str_take idx content +:+
                str_join (String newline EmptyString) (map (trim_prefix prefix) lines) +:+
                str_drop (idx + String.length target) content in
              (None, WriteFile filename out w)
          end
      end
  end.

(** ** Lines *)

(** The first piece decides about what starts the string. *)
Lemma has_prefix_piece sep p s x l :
  contains_char sep p = false -> split_on sep s = x :: l -> has_prefix p x = has_prefix p s.
Proof.
  revert s x l. induction p as [|a p IH]; intros s x l; [done|]. cbn [contains_char].
  intros [Ha%bool_decide_eq_false Hp]%orb_false_iff.
  destruct s as [|c s]; cbn [split_on]; [by intros [= <- <-]|]. case_bool_decide as Hc.
  - subst c. intros [= <- <-]. cbn. by rewrite bool_decide_false by done.
  - destruct (split_on sep s) as [|y l'] eqn:E; [by destruct (split_on_cons sep s) as (? & ? & ?); congruence|].
    intros [= <- <-]. cbn. by rewrite (IH s y l').
Qed.

(** A word without the separator occurs in a string when it occurs in a piece. *)
Lemma contains_in_pieces sep sub s :
  sub <> EmptyString -> contains_char sep sub = false ->
  existsb (fun piece => str_contains sub piece) (split_on sep s) = str_contains sub s.
Proof.
  intros Hne Hsub. induction s as [|c s IH]; [cbn; by rewrite !orb_false_r|]. cbn [split_on].
  case_bool_decide as Hc.
  - subst c. cbn [existsb]. rewrite IH. cbn [str_contains]. destruct sub as [|a sub]; [done|].
    cbn in Hsub. apply orb_false_iff in Hsub as [Ha _]. apply bool_decide_eq_false in Ha. cbn [has_prefix].
    by rewrite bool_decide_false by done.
  - destruct (split_on sep s) as [|x l] eqn:E; [by destruct (split_on_cons sep s) as (? & ? & ?); congruence|].
    cbn [existsb str_contains] in *. rewrite <- IH, orb_assoc. f_equal. f_equal.
    apply (has_prefix_piece sep) with (l := l); [done|]. cbn [split_on]. by rewrite bool_decide_false, E by done.
Qed.

Lemma split_on_app sep s t :
  contains_char sep s = false -> split_on sep (s +:+ String sep t) = s :: split_on sep t.
Proof.
  induction s as [|c s IH]; cbn [contains_char]; [intros _; rewrite str_app_nil_l; cbn [split_on]; by rewrite bool_decide_true|].
  intros [Hc Hs]%orb_false_iff. rewrite str_app_cons. cbn [split_on]. by rewrite Hc, IH.
Qed.

Lemma split_on_join sep ls :
  ls <> [] -> Forall (fun l => contains_char sep l = false) ls ->
  split_on sep (str_join (String sep EmptyString) ls) = ls.
Proof.
  intros Hne Hls. induction Hls as [|l ls Hl Hls IH]; [done|]. destruct ls as [|l' ls].
  - by apply split_on_flat.
  - change (str_join (String sep EmptyString) (l :: l' :: ls))
      with (l +:+ String sep (str_join (String sep EmptyString) (l' :: ls))).
    by rewrite split_on_app, IH.
Qed.

(** GetNonEmptyLines finds the lines that something prints, but for the empty ones. *)
Theorem GetNonEmptyLines_spec ls :
  Forall (fun l => contains_char newline l = false) ls ->
  GetNonEmptyLines (str_join (String newline EmptyString) ls) = filter (fun l => l <> EmptyString) ls.
Proof.
  intros Hls. unfold GetNonEmptyLines. destruct ls as [|l ls]; [done|]. by rewrite split_on_join.
Qed.

(** Filtering the empty lines hides no word. *)
Lemma contains_in_lines sub s :
  sub <> EmptyString -> contains_char newline sub = false ->
  existsb (fun line => str_contains sub line) (GetNonEmptyLines s) = str_contains sub s.
Proof.
  intros Hne Hsub. rewrite <- (contains_in_pieces newline sub s Hne Hsub). unfold GetNonEmptyLines.
  induction (split_on newline s) as [|x l IH]; [done|]. rewrite filter_cons.
  destruct (decide (x <> EmptyString)) as [Hx|Hx]; cbn [existsb]; rewrite IH; [done|].
  assert (x = EmptyString) as -> by by apply dec_stable. by destruct sub.
Qed.

(** Prometheus is installed when the list of CRDs could be had and one of its
    three occurs anywhere in it. *)
Theorem IsPrometheusCRDsInstalled_spec `{Programs} w :
  let '(output, err, w') := Run (Command "kubectl" ["get"; "crds"; "-o"; "custom-columns=NAME:.metadata.name"]) w in
  IsPrometheusCRDsInstalled w =
    (match err with Some _ => false | None => existsb (fun crd => str_contains crd output) prometheusCRDs end, w').
Proof.
  unfold IsPrometheusCRDsInstalled. destruct (Run _ _) as [[output [err|]] w']; [done|]. f_equal.
  unfold prometheusCRDs. cbn [existsb]. by rewrite !contains_in_lines.
Qed.

(** ** Where commands run *)

Lemma remove_all_skip old s t : remove_all old (s +:+ t) (String.length s) = remove_all old t 0.
Proof. induction s as [|c s IH]; [by destruct t|]. exact IH. Qed.

Lemma remove_all_first old p :
  old <> EmptyString -> index_of old (p +:+ old) = Some (String.length p) -> remove_all old (p +:+ old) 0 = p.
Proof.
  intros Hne. induction p as [|c p IH].
  - intros _. rewrite str_app_nil_l. destruct old as [|a old]; [done|].
    cbn [remove_all]. pose proof (has_prefix_app (String a old) EmptyString) as Hp. rewrite str_app_nil_r in Hp.
    rewrite Hp. cbn [String.length]. rewrite Nat.sub_succ, Nat.sub_0_r.
    pose proof (remove_all_skip (String a old) old EmptyString) as Hr. by rewrite str_app_nil_r in Hr.
  - rewrite str_app_cons. cbn [index_of remove_all]. destruct (has_prefix old _); [done|].
    intros Hi. f_equal. apply IH. destruct (index_of old (p +:+ old)); [|done]. cbn in Hi. congruence.
Qed.

(** From the directory of the tests, commands run in that of the project. *)
Theorem GetProjectDir_spec w p :
  os_wd w = (p +:+ "/test/e2e", None) -> index_of "/test/e2e" (p +:+ "/test/e2e") = Some (String.length p) ->
  GetProjectDir w = (p, None).
Proof. intros Hw Hi. unfold GetProjectDir, Getwd. rewrite Hw. by rewrite remove_all_first. Qed.

(** ** Uncommenting *)

(** A line that the scanner gives as it is. *)
Record plain_line (l : string) : Prop := {
  plain_newline : contains_char newline l = false;
  plain_return : drop_cr l = l;
  plain_short : (len l < MaxScanTokenSize)%Z;
}.

Lemma scan_plain ls :
  ls <> [] -> Forall plain_line ls -> last ls <> Some EmptyString ->
  scan_lines (str_join (String newline EmptyString) ls) = ls.
Proof.
  intros Hne Hls Hlast. unfold scan_lines. rewrite split_on_join; [|done|].
  - clear Hne. induction Hls as [|l ls [H1 H2 H3] Hls IH]; [done|]. cbn [scan_pieces].
    rewrite bool_decide_false by (intros [-> ->]; by apply Hlast).
    replace (MaxScanTokenSize <=? len l)%Z with false by (symmetry; apply Z.leb_gt; lia).
    rewrite H2. f_equal. destruct ls as [|l' ls]; [done|]. by apply IH.
  - eapply Forall_impl; [exact Hls|]. by intros l [].
Qed.

Lemma str_take_app s t : str_take (String.length s) (s +:+ t) = s.
Proof. induction s as [|c s IH]; [by destruct t|]. rewrite str_app_cons. cbn. by rewrite IH. Qed.

Lemma str_drop_more s t n : str_drop (String.length s + n) (s +:+ t) = str_drop n t.
Proof. induction s as [|c s IH]; [done|]. rewrite str_app_cons. exact IH. Qed.

(** Commenting some lines and uncommenting them gives the file back: where the
    lines, each with the prefix before it, first occur in the file, they are put
    back without it, and nothing else changes.  The lines are of less than 64 KiB
    and do not end in a carriage return, and the last is not empty. *)
Theorem UncommentCode_uncomments w filename prefix before after ls :
  let commented := str_join (String newline EmptyString) (map (String.append prefix) ls) in
  ls <> [] -> Forall plain_line (map (String.append prefix) ls) ->
  last (map (String.append prefix) ls) <> Some EmptyString ->
  os_files w !! filename = Some (before +:+ commented +:+ after) ->
  index_of commented (before +:+ commented +:+ after) = Some (String.length before) ->
  UncommentCode filename commented prefix w =
    (None, WriteFile filename (before +:+ str_join (String newline EmptyString) ls +:+ after) w).
Proof.
  intros commented Hne Hls Hlast Hfile Hidx. unfold UncommentCode, ReadFile. rewrite Hfile, Hidx.
  unfold commented at 1. rewrite scan_plain by (try done; by destruct ls).
  assert (Hmap : map (trim_prefix prefix) (map (String.append prefix) ls) = ls).
  { rewrite map_map. rewrite <- (map_id ls) at 2. apply map_ext. intros l. apply trim_prefix_app. }
  destruct (map (String.append prefix) ls) as [|l ls'] eqn:E; [by destruct ls|]. rewrite Hmap.
  rewrite str_take_app, str_drop_more. by rewrite <- (Nat.add_0_r (String.length commented)), str_drop_more.
Qed.

(** When the file or the target is not there, it changes nothing. *)
Theorem UncommentCode_fails w filename target prefix :
  (match os_files w !! filename with Some content => index_of target content | None => None end = None) ->
  exists err, UncommentCode filename target prefix w = (Some err, w).
Proof.
  unfold UncommentCode, ReadFile. destruct (os_files w !! filename) as [content|]; [|by eexists].
  intros ->. by eexists.
Qed.

(** The newline that ends a target is lost, with what follows joined on to the
    last line. *)
Example last_newline_lost :
  let nl := String newline EmptyString in
  let file := "//a" +:+ nl +:+ "b" in
  (UncommentCode "f" ("//a" +:+ nl) "//" (mkOs (EmptyString, None) [] {["f" := file]} [] [])).2 =
    mkOs (EmptyString, None) [] {["f" := "ab"]} [] [].
Proof. vm_compute. reflexivity. Qed.
