(* ===== verification/WellFormed.v ===== *)
(** * Well-formed objects

    What the operator promises of every object it writes, as a type of the
    objects: phases follow conditions, revisions are listed once, the volumes and
    claims of engines are read-only, pods that serve or download models are
    unprivileged.  Both controllers are well typed: as long as the API server
    answers with well-formed objects, they write well-formed objects.  A class
    states what an API server owes in return; the server in memory has it. *)

From S2P Require Import Prelude Naming Api Kube Machinery MemServer StorageDiscovery Backend.
From S2P Require Import EngineStorage StorageProvider Jobs RepoStatus RepoController RepoSafety GoStd.
From S2P Require Import EngineConfig VllmConfig EngineAdapters Workload EngineStatus EngineController.
From S2P Require Import EngineLife EngineSafety.

Local Open Scope go_scope.

Section Types.
Context `{M : Machinery}.

(** The phase is the one the Ready condition calls for; an object without the
    condition may have none yet. *)
Definition phase_follows (phase derived : string) (ready : option Condition) : Prop :=
  phase = derived \/ (phase = EmptyString /\ ready = None).

Definition wf_repo_status (s : ModelRepositoryStatus) : Prop :=
  phase_follows (mst_Phase s) (deriveModelRepoPhase (mst_Conditions s))
    (FindStatusCondition (mst_Conditions s) ModelRepoConditionReady) /\
  NoDup (map rs_Name (mst_AvailableRevisions s)).
Definition wf_repo (mr : ModelRepository) : Prop := wf_repo_status (mr_Status mr).

Definition wf_engine_status (s : LLMEngineStatus) : Prop :=
  phase_follows (lst_Phase s) (deriveLLMEnginePhase (lst_Conditions s))
    (FindStatusCondition (lst_Conditions s) LLMEngineConditionReady).
Definition wf_engine (le : LLMEngine) : Prop := wf_engine_status (le_Status le).

(** A source of a volume that an engine may mount: one of the four the operator
    mirrors, read-only where the source can say so. *)
Definition read_only_mount (s : PVSource) : Prop :=
  (exists server path, s = pvs_of_NFS (mkNFS server path true)) \/
  (exists driver handle attrs, s = pvs_of_CSI (mkCSI driver handle true attrs)) \/
  (exists monitors path, s = pvs_of_CephFS (mkCephFS monitors path true)) \/
  (exists path type, s = pvs_of_HostPath (mkHostPath path type)).

(** The volume of an engine, by its finalizer: read-only, kept when released, and
    meant for one claim. *)
Definition wf_pv (pv : PersistentVolume) : Prop :=
  LLMEngineStorageFinalizer ∈ meta_Finalizers (pv_Meta pv) ->
  pvp_AccessModes (pv_Spec pv) = [ReadOnlyMany] /\ pvp_ReclaimPolicy (pv_Spec pv) = "Retain" /\
  is_Some (pvp_ClaimRef (pv_Spec pv)) /\ read_only_mount (pvp_Source (pv_Spec pv)).

(** The claim of an engine: read-only, and on the volume of its own name. *)
Definition wf_pvc (pvc : PersistentVolumeClaim) : Prop :=
  LLMEngineStorageFinalizer ∈ meta_Finalizers (pvc_Meta pvc) ->
  pvc_AccessModes pvc = [ReadOnlyMany] /\ pvc_VolumeName pvc = meta_Name (pvc_Meta pvc).

(** The job of a repository, by its label: unprivileged, with one volume. *)
Definition wf_job (job : Job) : Prop :=
  is_Some (meta_Labels (job_Meta job) !! name_label) ->
  unprivileged (job_Pod job) /\
  exists claim, pod_Volumes (job_Pod job) = [mkVolume "model-storage" (PVCVolume claim false)].

(** The deployment of an engine, by its label: its pods are unprivileged and mount
    claims read-only. *)
Definition wf_deployment (d : Deployment) : Prop :=
  is_Some (meta_Labels (dep_Meta d) !! "engine-type") ->
  unprivileged (dep_Pod d) /\
  forall v claim ro, v ∈ pod_Volumes (dep_Pod d) -> vol_Source v = PVCVolume claim ro -> ro = true.

(** ** Requests and answers *)

Definition wf_req (r : req) : Prop :=
  match r with
  | UpdateModelRepository o | UpdateModelRepositoryStatus o => wf_repo o
  | UpdateLLMEngine o | UpdateLLMEngineStatus o => wf_engine o
  | CreatePV o | UpdatePV o => wf_pv o
  | CreatePVC o | UpdatePVC o => wf_pvc o
  | CreateJob o => wf_job o
  | ApplyDeployment o => wf_deployment o
  | _ => True
  end.

Definition on_ok {A} (P : A -> Prop) (r : result A) : Prop :=
  match r with Ok a => P a | Err _ => True end.

Definition wf_event (ev : event) : Prop :=
  match ev with
  | Ev (GetModelRepository _) r => on_ok wf_repo r
  | Ev (UpdateModelRepository _) r => on_ok wf_repo r
  | Ev (GetLLMEngine _ _) r => on_ok wf_engine r
  | Ev (UpdateLLMEngine _) r => on_ok wf_engine r
  | Ev ListLLMEngines r => on_ok (Forall wf_engine) r
  | Ev (GetPV _) r => on_ok wf_pv r
  | Ev (GetPVC _ _) r => on_ok wf_pvc r
  | Ev (GetJob _ _) r => on_ok wf_job r
  | Ev (ListJobs _ _) r => on_ok (Forall wf_job) r
  | Ev (GetDeployment _ _) r => on_ok wf_deployment r
  | _ => True
  end.

(** A history in which the API server only gave well-formed objects. *)
Definition wf_trace (h : trace) : Prop := Forall wf_event h.

Lemma wf_answered h r a : wf_trace h -> answered h r a -> wf_event (Ev r a).
Proof. intros Hh Ha. by apply (proj1 (Forall_forall _ _) Hh). Qed.

Lemma wf_just_answered h r a : wf_trace h -> just_answered h r a -> wf_event (Ev r a).
Proof. intros Hh [h0 ->]. apply (wf_answered _ _ _ Hh), answered_snoc. Qed.

End Types.

(** ** Changes of status *)
Section Status.
Context `{L : MachineryLaws}.

Lemma wf_apply_condition c now s : wf_repo_status s -> wf_repo_status (apply_condition c now s).
Proof. intros [_ Hn]. split; [by left|done]. Qed.

Lemma derive_other now c cs :
  cond_Type c <> ModelRepoConditionReady ->
  deriveModelRepoPhase (SetStatusCondition now cs c) = deriveModelRepoPhase cs.
Proof. intros Hc. unfold deriveModelRepoPhase. by rewrite Find_Set_ne by congruence. Qed.

Lemma wf_apply_storage st now s : wf_repo_status s -> wf_repo_status (apply_storage st now s).
Proof.
  intros [Hp Hn]. split; [|done]. cbn. rewrite derive_other by done. by rewrite Find_Set_ne.
Qed.

Lemma wf_upsert rs s :
  wf_repo_status s ->
  wf_repo_status (mst_with_AvailableRevisions (upsert_revision (mst_AvailableRevisions s) rs) s).
Proof.
  intros [Hp Hn]. split; [done|]. cbn. rewrite upsert_names.
  destruct (revision_of _ _) eqn:E; [by rewrite app_nil_r|].
  apply NoDup_app. split; [done|]. split; [|apply NoDup_singleton].
  intros n Hin ->%list_elem_of_singleton. by apply revision_of_None in E.
Qed.

Lemma wf_justified ons name h repo s s' :
  justified ons name h repo s s' -> wf_repo_status s -> wf_repo_status s'.
Proof.
  intros [c [now ->] _|rs -> _ _|st now -> _];
    [apply wf_apply_condition|apply wf_upsert|apply wf_apply_storage].
Qed.

Lemma wf_by_conditions cs s s' : by_conditions cs s s' -> wf_engine_status s'.
Proof. intros (steps & _ & ->). by left. Qed.

End Status.

(** ** What the guards say of the written objects *)
Section Written.
Context `{L : MachineryLaws} `{Sc : Scripts} `{Rg : GoRange} `{Y : Yaml}.

Lemma read_only_volume_mount ref src hp : read_only_volume ref = Ok (src, hp) -> read_only_mount src.
Proof.
  unfold read_only_volume, read_only_mount. cbv zeta. repeat case_bool_decide; intros [= <- <-]; eauto 10.
Qed.

Lemma read_only_engine_pv_wf le mr pv : read_only_engine_pv le mr pv -> wf_pv pv.
Proof.
  intros (_ & _ & Ha & Hr & (c & _ & Hc) & (st & ref & hp & _ & _ & Hs)) _.
  rewrite Hc. by eauto 6 using read_only_volume_mount.
Qed.

Lemma read_only_engine_pvc_wf le mr pvc : read_only_engine_pvc le mr pvc -> wf_pvc pvc.
Proof. intros (_ & Hc & Hv & _ & Ha) _. unfold llmEnginePVCName, llmEnginePVName in *. split; congruence. Qed.

Lemma protected_pvc_wf p ns pvc : protected_pvc p ns pvc -> wf_pvc pvc.
Proof. intros (_ & _ & Hf & _) Hin%Hf. discriminate. Qed.

(** An update that only drops finalizers. *)
Lemma stripped_pvc_wf f pvc :
  wf_pvc pvc -> wf_pvc (pvc_with_Meta (RemoveFinalizer (pvc_Meta pvc) f) pvc).
Proof.
  intros Hw Hin. apply RemoveFinalizer_spec in Hin as [_ Hin]. destruct (Hw Hin) as [H1 H2].
  split; [done|]. cbn. rewrite H2. symmetry.
  by destruct (same_but_finalizers_name _ _ (RemoveFinalizer_rest (pvc_Meta pvc) f)) as (-> & _).
Qed.

Lemma created_job_wf ns mr p rev j :
  createRevisionDownloadJob ns mr p rev = Done (Ok j) ->
  unprivileged (job_Pod j) /\
  exists claim, pod_Volumes (job_Pod j) = [mkVolume "model-storage" (PVCVolume claim false)].
Proof.
  unfold createRevisionDownloadJob, AdaptDownloadJob, adaptModelRepositoryJob. intros Hj.
  destruct (generateJobName _ _ _) as [n|]; [|done]. cbn [mbind outcome_bind] in Hj.
  destruct (LoadModelRepositoryJobManifest _ _) as [t|] eqn:Et; [|done].
  destruct (manifest_template _ _ _ Et) as (app & image & command & envs & rq & lm & ->).
  destruct (getOriginConfig _ _ _) as [file path]. cbn [job_Pod job_template pod_Containers] in Hj.
  destruct (if bool_decide _ then _ else _) as [text|]; [|done].
  cbn in Hj. injection Hj as <-. cbn. split; [|by eexists].
  repeat constructor. eexists. split_and!; [done..|by left].
Qed.

Lemma repo_guard_wf ns n h r : wf_trace h -> repo_guard ns n h r -> wf_req r.
Proof.
  intros Hh Hg. destruct r; try done; cbn in *.
  - destruct Hg as [(mr & Ha & Ho)|(mr' & mr & _ & Ha & ->)];
      pose proof (wf_answered _ _ _ Hh Ha) as Hw; [by destruct Ho as [->| ->]|done].
  - destruct Hg as (repo & mr & st & _ & Ha & -> & _ & Hj). eapply wf_justified; [exact Hj|].
    exact (wf_answered _ _ _ Hh Ha).
  - destruct Hg as (mr & p & rev & n' & c & j & _ & _ & _ & _ & _ & _ & _ & Hj & _ & ->).
    intros _. cbn. by eapply created_job_wf.
  - destruct Hg as (p & e & _ & Hp & _). by eapply protected_pvc_wf.
  - destruct Hg as (n' & pvc & _ & Ha & ->). apply stripped_pvc_wf. exact (wf_answered _ _ _ Hh Ha).
Qed.

Lemma deployment_for_wf ctx n d : deployment_for ctx n d -> wf_deployment d.
Proof.
  intros Hd _. split; [apply Hd|]. intros v claim ro Hv Hs.
  pose proof (deployment_claims _ _ _ Hd v claim ro Hv Hs) as ->. cbn in Hs. congruence.
Qed.

Lemma engine_guard_wf ns n h r : wf_trace h -> engine_guard ns n h r -> wf_req r.
Proof.
  intros Hh Hg. destruct r; try done; cbn in *.
  - destruct Hg as (n' & mr & es & Ha & _ & _ & ->). exact (wf_answered _ _ _ Hh Ha).
  - destruct Hg as [(le & Ha & _ & ->)|(_ & ns' & n' & le & Ha & ->)]; exact (wf_answered _ _ _ Hh Ha).
  - destruct Hg as (le & fresh & st & _ & _ & -> & _ & (cs & s0 & Hc & _)). by eapply wf_by_conditions.
  - destruct Hg as (le & mrs & mr & _ & _ & Hp & _). by eapply read_only_engine_pvc_wf.
  - destruct Hg as (_ & le & repo & n' & pvc & Ha & Ho & Hm). rewrite Ho, Hm.
    apply stripped_pvc_wf. exact (wf_just_answered _ _ _ Hh Ha).
  - destruct Hg as (le & mrs & mr & _ & _ & Hp & _). by eapply read_only_engine_pv_wf.
  - destruct Hg as (_ & le & repo & n' & pv & Ha & _ & Hm). intros Hin. rewrite Hm in Hin.
    by apply RemoveFinalizer_spec in Hin as [? _].
  - destruct Hg as (le & mrs & mr & claim & _ & _ & _ & _ & _ & _ & Hd & _). by eapply deployment_for_wf.
Qed.

End Written.

(** ** The server in memory keeps its part *)

Definition wf_cluster `{M : Machinery} (c : cluster) : Prop :=
  map_Forall (fun _ => wf_repo) (cl_repos c) /\ map_Forall (fun _ => wf_engine) (cl_engines c) /\
  map_Forall (fun _ => wf_job) (cl_jobs c) /\ map_Forall (fun _ => wf_pvc) (cl_pvcs c) /\
  map_Forall (fun _ => wf_pv) (cl_pvs c) /\ map_Forall (fun _ => wf_deployment) (cl_deployments c).

(** What the types read of a meta. *)
Definition same_identity (m m' : ObjectMeta) : Prop :=
  meta_Name m' = meta_Name m /\ meta_Labels m' = meta_Labels m /\
  meta_Finalizers m' = meta_Finalizers m /\ meta_Namespace m' = meta_Namespace m.

Section Store.
Context {K A : Type} `{Countable K}.
Context (meta : A -> ObjectMeta) (with_meta : ObjectMeta -> A -> A) (P : K -> A -> Prop).

Lemma st_get_wf k (m : gmap K A) : map_Forall P m -> on_ok (P k) (st_get k m).
Proof. intros Hm. unfold st_get. destruct (m !! k) eqn:E; cbn; [|done]. by eapply Hm. Qed.

Lemma st_list_wf (m : gmap K A) :
  map_Forall P m -> Forall (fun o => exists k, P k o) (map_to_list m).*2.
Proof.
  intros Hm. apply Forall_forall. intros o Ho. apply list_elem_of_fmap in Ho as ([k o'] & -> & Hin).
  apply elem_of_map_to_list in Hin. exists k. by eapply Hm.
Qed.

Lemma st_list_all (Q : A -> Prop) (m : gmap K A) :
  map_Forall (fun _ => Q) m -> Forall Q (map_to_list m).*2.
Proof.
  intros Hm. apply Forall_forall. intros o Ho. apply list_elem_of_fmap in Ho as ([k o'] & -> & Hin).
  apply elem_of_map_to_list in Hin. by eapply Hm.
Qed.

Lemma st_create_wf k o (m : gmap K A) :
  map_Forall P m -> P k o -> map_Forall P (st_create k o m).2.
Proof.
  intros Hm Ho. unfold st_create. destruct (m !! k); cbn; [done|]. by apply map_Forall_insert_2.
Qed.

Lemma st_delete_wf now k (m : gmap K A) :
  (forall x o, same_identity (meta o) x -> P k o -> P k (with_meta x o)) ->
  map_Forall P m -> map_Forall P (st_delete meta with_meta now k m).2.
Proof.
  intros P_meta Hm. unfold st_delete. destruct (m !! k) as [o|] eqn:E; cbn; [|done].
  case_bool_decide; cbn; [by apply map_Forall_delete|].
  apply map_Forall_insert_2; [|done]. apply P_meta; [done|]. by eapply Hm.
Qed.

(** An update that keeps the deletion timestamp. *)
Lemma st_update_wf merge k o (m : gmap K A) :
  (forall x o, same_identity (meta o) x -> meta_DeletionTimestamp x = meta_DeletionTimestamp (meta o) ->
     P k o -> P k (with_meta x o)) ->
  map_Forall P m -> (forall old, P k old -> P k (merge old o)) ->
  map_Forall P (st_update meta with_meta merge k o m).2 /\
  on_ok (P k) (st_update meta with_meta merge k o m).1.
Proof.
  intros P_meta Hm Ho. unfold st_update. destruct (m !! k) as [old|] eqn:E; cbn; [|done].
  case_bool_decide; cbn; [|done].
  assert (Hn : P k (bump meta with_meta (merge old o))).
  { apply P_meta; [done..|]. apply Ho. by eapply Hm. }
  case_bool_decide; cbn; (split; [|done]); [by apply map_Forall_delete|by apply map_Forall_insert_2].
Qed.

End Store.

Section Mem.
Context `{M : Machinery}.

Lemma repo_meta x o : same_identity (mr_Meta o) x -> wf_repo o -> wf_repo (mr_with_Meta x o).
Proof. done. Qed.
Lemma engine_meta x o : same_identity (le_Meta o) x -> wf_engine o -> wf_engine (le_with_Meta x o).
Proof. done. Qed.
Lemma job_meta x o : same_identity (job_Meta o) x -> wf_job o -> wf_job (job_with_Meta x o).
Proof. intros (_ & Hl & _) Hw. unfold wf_job. cbn. by rewrite Hl. Qed.
Lemma pvc_meta x o : same_identity (pvc_Meta o) x -> wf_pvc o -> wf_pvc (pvc_with_Meta x o).
Proof. intros (Hn & _ & Hf & _) Hw. unfold wf_pvc. cbn. by rewrite Hn, Hf. Qed.
Lemma pv_meta x o : same_identity (pv_Meta o) x -> wf_pv o -> wf_pv (pv_with_Meta x o).
Proof. intros (_ & _ & Hf & _) Hw. unfold wf_pv. cbn. by rewrite Hf. Qed.
Lemma deployment_meta x o :
  same_identity (dep_Meta o) x -> wf_deployment o -> wf_deployment (dep_with_Meta x o).
Proof. intros (_ & Hl & _) Hw. unfold wf_deployment. cbn. by rewrite Hl. Qed.

(** A request that reads leaves the cluster alone; one that writes changes one
    store, as the lemmas above say. *)
#[export] Instance mem_well_typed : Serves mem wf_cluster wf_req wf_event.
Proof.
  split; intros r c (H1 & H2 & H3 & H4 & H5 & H6) Hr; destruct r; try done; cbn in *;
    repeat lazymatch goal with
    | H : map_Forall ?P ?m |- context [st_update ?me ?wm ?mg ?k ?o ?m] =>
        let E := fresh in
        pose proof (st_update_wf me wm P mg k o m
          ltac:(cbv beta; eauto using repo_meta, engine_meta, pvc_meta, pv_meta) H ltac:(done)) as E;
        destruct (st_update me wm mg k o m) as [[?|?] ?]; destruct E; cbn in *
    | H : map_Forall ?P ?m |- context [st_create ?k ?o ?m] =>
        let E := fresh in
        pose proof (st_create_wf P k o m H ltac:(assumption)) as E;
        destruct (st_create k o m); cbn in *
    | H : map_Forall ?P ?m |- context [st_delete ?me ?wm ?n ?k ?m] =>
        let E := fresh in
        pose proof (st_delete_wf me wm P n k m
          ltac:(cbv beta; eauto using job_meta, pvc_meta, pv_meta, deployment_meta) H) as E;
        destruct (st_delete me wm n k m); cbn in *
    end;
    try (eapply (st_get_wf (fun _ => _)); eassumption); try (by apply st_list_all); try (by unfold wf_cluster; split_and!);
    try done.
  - unfold wf_cluster. cbn. split_and!; try done. by apply map_Forall_insert_2.
  - by destruct (st_delete _ _ _ _ _).
  - apply Forall_forall. intros j [_ Hj]%list_elem_of_filter.
    by apply (proj1 (Forall_forall _ _) (st_list_all _ _ H3)).
Qed.

End Mem.

(** ** Both controllers are well typed *)
Section Passes.
Context `{L : MachineryLaws} `{Sc : Scripts} `{Rg : GoRange} `{Y : Yaml}.
Context (ns name : string).

Lemma repo_pass_owes h :
  wp (owes wf_req wf_event) (RepoController.Reconcile ns name) h (post (fun _ _ => True)).
Proof.
  eapply wp_mono; [|done|exact (Reconcile_wp _ _ h)]. intros h' r Hg Hh. by eapply (repo_guard_wf (L := L)).
Qed.

Lemma engine_pass_owes h :
  wp (owes wf_req wf_event) (EngineController.Reconcile ns name) h (epost (fun _ _ => True)).
Proof.
  eapply wp_mono; [|done|exact (engine_Reconcile_wp _ _ h)]. intros h' r Hg Hh. by eapply (engine_guard_wf (L := L)).
Qed.

End Passes.

Section Properties.
Context `{L : MachineryLaws} `{Sc : Scripts} `{Rg : GoRange} `{Y : Yaml}.
Context {W : Type} (srv : server W) (I : W -> Prop) `{!Serves srv I wf_req wf_event}.

(** Property C16: both controllers are well typed.  On every API server that, sent
    well-formed objects, answers with well-formed objects, a Reconcile of either
    controller started in a well-formed state only writes well-formed objects
    (phases that follow from the Ready condition, revisions listed once, volumes
    and claims of engines read-only and retained, pods unprivileged and mounting
    claims read-only), is only given such objects, and leaves a well-formed
    state. *)
Theorem passes_well_typed ns name w t o w' p :
  p = RepoController.Reconcile ns name \/ p = EngineController.Reconcile ns name ->
  I w -> run srv p w = (t, o, w') ->
  Forall (fun ev => let 'Ev r _ := ev in wf_req r) t /\ wf_trace t /\ I w'.
Proof.
  intros Hp Hw Hrun.
  assert (Hwp : wp (owes wf_req wf_event) p [] (fun _ _ => True)).
  { destruct Hp as [->| ->]; (eapply wp_conseq; [|done]); [apply repo_pass_owes|apply engine_pass_owes]. }
  by destruct (wp_serves srv _ _ _ _ _ _ _ _ _ _ Hwp Hw (Forall_nil_2 _) Hrun) as (H1 & H2 & H3 & _).
Qed.

End Properties.

(** A pass that applies the engine's deployment, from a well-formed cluster. *)
Definition starting_cluster : cluster :=
  bind_claims (reconcile_on mem "chat" (engine_cluster "chat" "llama" None)).2.
Definition witness_start : engine_run := reconcile_on mem "chat" starting_cluster.

(** What the rest of the cluster does in the witnesses keeps it well-formed. *)
Lemma bind_claims_wf `{M : Machinery} c : wf_cluster c -> wf_cluster (bind_claims c).
Proof.
  intros (H1 & H2 & H3 & H4 & H5 & H6). split_and!; try done. cbn. apply map_Forall_fmap.
  eapply map_Forall_impl; [exact H4|]. done.
Qed.

Lemma start_pods_wf `{M : Machinery} c : wf_cluster c -> wf_cluster (start_pods c).
Proof.
  intros (H1 & H2 & H3 & H4 & H5 & H6). split_and!; try done. cbn. apply map_Forall_fmap.
  eapply map_Forall_impl; [exact H6|]. done.
Qed.

Lemma engine_cluster_wf :
  wf_cluster (M := Reference.machinery) (engine_cluster "chat" "llama" None).
Proof.
  split_and!; try apply map_Forall_empty; apply map_Forall_singleton.
  - split; [by left|constructor].
  - by right.
Qed.

Lemma starting_cluster_wf : wf_cluster (M := Reference.machinery) starting_cluster.
Proof.
  apply bind_claims_wf. unfold reconcile_on.
  exact (proj1 (proj2 (proj2 (wp_serves mem wf_cluster wf_req wf_event _ [] _ _ _ _ _
    (engine_pass_owes (L := Reference.laws) "team" "chat" []) engine_cluster_wf (Forall_nil_2 _) (run_parts _ _ _))))).
Qed.

Lemma passes_well_typed_witness :
  (exists d, cl_deployments witness_start.2 !! ("team", "chat-llama") = Some d) /\
  (Forall (fun ev => let 'Ev r _ := ev in wf_req (M := Reference.machinery) r) witness_start.1.1 /\
   wf_trace (M := Reference.machinery) witness_start.1.1 /\
   wf_cluster (M := Reference.machinery) witness_start.2).
Proof.
  split; [eexists; vm_compute; reflexivity|].
  unfold witness_start, reconcile_on.
  eapply (passes_well_typed (L := Reference.laws) (Sc := witness_scripts) mem wf_cluster "team" "chat"); [by right|..];
    [apply starting_cluster_wf|apply run_parts].
Defined.
