(* ===== verification/System.v ===== *)
(** * The whole operator

    cmd/main.go and the SetupWithManager methods, and the operator at work: any
    number of passes of both controllers, interleaved request by request with each
    other, with the rest of the cluster, and with restarts of the operator.  The
    safety theorems of the single passes hold in every interleaving, and what they
    promise together is an invariant of the cluster. *)

From S2P Require Import Prelude Naming Api Kube Machinery MemServer StorageDiscovery Backend.
From S2P Require Import EngineStorage StorageProvider Jobs RepoStatus RepoController RepoSafety GoStd.
From S2P Require Import EngineConfig VllmConfig EngineAdapters Workload EngineStatus EngineController.
From S2P Require Import EngineLife EngineSafety WellFormed.
From stdpp Require Import relations.

Local Open Scope go_scope.

(** ** cmd/main.go *)
Module Main.

Record StartOptions := mkStartOptions {
  Namespace : string;
  MetricsAddr : string;
  probeAddr : string;
  enableLeaderElection : bool;
}.

(** The flags of the run command: each sets its option, in the order given. *)
Inductive flag : Type :=
| flag_namespace (v : string)
| flag_health_probe_bind_address (v : string)
| flag_leader_elect (v : bool)
| flag_metrics_bind_address (v : string).

Definition default_options : StartOptions := mkStartOptions "aitrigram-system" "0" ":8081" false.

Definition set_flag (o : StartOptions) (f : flag) : StartOptions :=
  match f with
  | flag_namespace v => mkStartOptions v (MetricsAddr o) (probeAddr o) (enableLeaderElection o)
  | flag_health_probe_bind_address v =>
      mkStartOptions (Namespace o) (MetricsAddr o) v (enableLeaderElection o)
  | flag_leader_elect v => mkStartOptions (Namespace o) (MetricsAddr o) (probeAddr o) v
  | flag_metrics_bind_address v => mkStartOptions (Namespace o) v (probeAddr o) (enableLeaderElection o)
  end.

Definition NewRunCommand (flags : list flag) : StartOptions := fold_left set_flag flags default_options.

(** What the code sets of ctrl.Options; durations in seconds. *)
Record ManagerOptions := mkManagerOptions {
  HealthProbeBindAddress : string;
  MetricsBindAddress : string;
  CacheUnstructured : bool;
  LeaderElection : bool;
  LeaderElectionID : string;
  LeaderElectionResourceLock : string;
  LeaderElectionReleaseOnCancel : bool;
  LeaderElectionNamespace : string;
  LeaseDuration : Z;
  RenewDeadline : Z;
  RetryPeriod : Z;
}.

Definition ctrlOptions (opts : StartOptions) : ManagerOptions :=
  mkManagerOptions (probeAddr opts) (MetricsAddr opts) true (enableLeaderElection opts)
    "llmengine-operator-leader-elect" "leases" true (Namespace opts) 60 40 15.

(** A controller, as its SetupWithManager builds it: the kind it reconciles, the
    kinds it owns, the kinds it watches through a map function, and its name. *)
Record ControllerSetup := mkControllerSetup {
  ctl_For : string;
  ctl_Owns : list string;
  ctl_Watches : list string;
  ctl_Named : string;
}.

Definition LLMEngineSetup : ControllerSetup :=
  mkControllerSetup "LLMEngine" ["Deployment"; "Service"] ["ModelRepository"] "llmengine".
Definition ModelRepositorySetup : ControllerSetup :=
  mkControllerSetup "ModelRepository" ["Job"] [] "modelrepository".

(** The calls run makes of controller-runtime; a reconciler is registered with
    the operator's namespace. *)
Inductive setup_call : Type :=
| NewManager (o : ManagerOptions)
| SetupWithManager (c : ControllerSetup) (OperatorNamespace : string)
| AddHealthzCheck
| AddReadyzCheck
| Start.

Section Run.
(** What each call answers, given the ones before. *)
Context (runtime : list setup_call -> setup_call -> err_opt).

(** One call, and the rest unless it fails. *)
Definition attempt (past : list setup_call) (c : setup_call) (wrap : gerror -> gerror)
    (rest : list setup_call -> list setup_call * err_opt) : list setup_call * err_opt :=
  match runtime past c with
  | Some err => (past ++ [c], Some (wrap err))
  | None => rest (past ++ [c])
  end.

Definition run (opts : StartOptions) : list setup_call * err_opt :=
  attempt [] (NewManager (ctrlOptions opts)) (errorw "unable to start manager: ") (fun past =>
  attempt past (SetupWithManager LLMEngineSetup (Namespace opts)) id (fun past =>
  attempt past (SetupWithManager ModelRepositorySetup (Namespace opts)) id (fun past =>
  attempt past AddHealthzCheck id (fun past =>
  attempt past AddReadyzCheck id (fun past =>
  attempt past Start id (fun past => (past, None))))))).

(** The manager is started last, with both controllers registered for the
    namespace of the options, and only when every call before succeeded. *)
Lemma run_starts opts calls e :
  run opts = (calls, e) ->
  calls `prefix_of` [NewManager (ctrlOptions opts); SetupWithManager LLMEngineSetup (Namespace opts);
    SetupWithManager ModelRepositorySetup (Namespace opts); AddHealthzCheck; AddReadyzCheck; Start] /\
  (e = None -> Start ∈ calls) /\
  (Start ∈ calls -> e = runtime [NewManager (ctrlOptions opts);
     SetupWithManager LLMEngineSetup (Namespace opts);
     SetupWithManager ModelRepositorySetup (Namespace opts); AddHealthzCheck; AddReadyzCheck] Start).
Proof.
  unfold run, attempt. cbn [app].
  do 5 (destruct (runtime _ _); [intros [= <- <-]; cbn; split_and!; [by eexists|done|set_solver]|]).
  destruct (runtime _ _); (intros [= <- <-]; cbn; split_and!; [by exists []|set_solver|done]).
Qed.

(** What the command line asks for, as cobra reads it: no subcommand (the root
    command prints its help), none that there is, or the run command. *)
Inductive invocation : Type :=
| NoCommand
| BadCommand (err : gerror)
| RunCommand (flags : list flag).

(** The calls made, and the exit status: of the run command, and of the program. *)
Definition run_command (opts : StartOptions) : list setup_call * Z :=
  match run opts with
  | (calls, Some _) => (calls, 1%Z)
  | (calls, None) => (calls, 0%Z)
  end.

Definition main (i : invocation) : list setup_call * Z :=
  match i with
  | NoCommand => ([], 1%Z)
  | BadCommand _ => ([], 1%Z)
  | RunCommand flags => run_command (NewRunCommand flags)
  end.

(** Success is a manager that was started, with the last namespace the command line
    gives, and stopped without an error. *)
Lemma main_succeeds i calls :
  main i = (calls, 0%Z) -> exists flags, i = RunCommand flags /\ Start ∈ calls /\
    run (NewRunCommand flags) = (calls, None).
Proof.
  destruct i as [|err|flags]; try done. cbn. unfold run_command. destruct (run _) as [calls' [e|]] eqn:E; [done|]. intros [= <-].
  exists flags. split; [done|]. split; [|done]. by apply (run_starts _ _ _ E).
Qed.

End Run.
End Main.

(** ** Passes, interleaved *)

(** What the two controllers are asked to do. *)
Inductive handler : Type :=
| RepositoryPass (name : string)
| EnginePass (ns name : string).

Section System.
Context `{M : Machinery} `{Sc : Scripts} `{Rg : GoRange} `{Y : Yaml}.
Context (OperatorNamespace : string).

Definition body (hd : handler) : prog (Result * err_opt) :=
  match hd with
  | RepositoryPass name => RepoController.Reconcile OperatorNamespace name
  | EnginePass ns name => EngineController.Reconcile ns name
  end.

(** A pass under way: its requests and their answers so far, and what is left of
    it. *)
Record pass := mkPass {
  pass_handler : handler;
  pass_past : trace;
  pass_rest : prog (Result * err_opt);
}.
Definition new_pass (hd : handler) : pass := mkPass hd [] (body hd).

Section Server.
Context {W : Type} (srv : server W).

Record system := mkSystem { sys_server : W; sys_passes : list pass }.

(** The next request of a pass, if it has one. *)
Definition advance (i : nat) (s : system) : system :=
  match sys_passes s !! i with
  | Some (mkPass hd h (Call r k)) =>
      let '(a, w) := srv r (sys_server s) in
      mkSystem w (<[i := mkPass hd (h ++ [Ev r a]) (k a)]> (sys_passes s))
  | _ => s
  end.
Definition start (hd : handler) (s : system) : system :=
  mkSystem (sys_server s) (sys_passes s ++ [new_pass hd]).
Definition restart (s : system) : system := mkSystem (sys_server s) [].
Definition change (f : W -> W) (s : system) : system := mkSystem (f (sys_server s)) (sys_passes s).

(** A pass starts, on any object and beside any others; one request of one pass;
    the operator restarts and forgets its passes; or somebody else changes the
    cluster, in a way [world] allows. *)
Inductive step (world : W -> W -> Prop) : system -> system -> Prop :=
| step_start hd s : step world s (start hd s)
| step_advance i s : step world s (advance i s)
| step_restart s : step world s (restart s)
| step_world w s : world (sys_server s) w -> step world s (change (fun _ => w) s).

(** An explicit schedule. *)
Inductive action : Type :=
| DoStart (hd : handler)
| DoAdvance (i n : nat)
| DoRestart
| DoChange (f : W -> W).

Definition act (s : system) (a : action) : system :=
  match a with
  | DoStart hd => start hd s
  | DoAdvance i n => Nat.iter n (advance i) s
  | DoRestart => restart s
  | DoChange f => change f s
  end.
Definition schedule (s : system) (l : list action) : system := fold_left act l s.

(** The schedules are among the interleavings. *)
Lemma schedule_steps (world : W -> W -> Prop) l s :
  Forall (fun a => match a with DoChange f => forall w, world w (f w) | _ => True end) l ->
  rtc (step world) s (schedule s l).
Proof.
  revert s. induction l as [|a l IH]; intros s; [done|]. intros [Ha Hl]%Forall_cons.
  etransitivity; [|by apply (IH (act s a))]. destruct a as [hd|i n| |f]; cbn.
  - apply rtc_once, step_start.
  - induction n as [|n IHn]; cbn; [done|]. eapply rtc_r; [exact IHn|apply step_advance].
  - apply rtc_once, step_restart.
  - apply rtc_once. apply (step_world _ (f (sys_server s))), Ha.
Qed.

(** *** An invariant of the whole from a contract with the server

    [G] is what every request of a pass needs in its past, [I], [P] and [E] are a
    contract the server keeps, and [G] is enough for the operator to keep it. *)
Section Invariant.
Context (I : W -> Prop) (P : req -> Prop) (E : event -> Prop) `{!Serves srv I P E}.
Context (G : handler -> trace -> req -> Prop) (Q : handler -> trace -> outcome (Result * err_opt) -> Prop).
Context (world : W -> W -> Prop).
Hypothesis (body_wp : forall hd, wp (G hd) (body hd) [] (Q hd)).
Hypothesis (G_owes : forall hd h r, G hd h r -> owes P E h r).
Hypothesis (world_I : forall w w', world w w' -> I w -> I w').

Definition pass_ok (p : pass) : Prop :=
  Forall E (pass_past p) /\ guarded (G (pass_handler p)) [] (pass_past p) /\
  wp (G (pass_handler p)) (pass_rest p) (pass_past p) (Q (pass_handler p)).
Definition system_ok (s : system) : Prop := I (sys_server s) /\ Forall pass_ok (sys_passes s).

Lemma guarded_snoc G' h h' r a : guarded G' h h' -> G' (h ++ h') r -> guarded G' h (h' ++ [Ev r a]).
Proof.
  revert h. induction h' as [|[r' a'] h' IH]; intros h; cbn; [by rewrite app_nil_r|].
  intros [Hr Hh] Hg. split; [done|]. apply IH; [done|]. by rewrite <- app_assoc.
Qed.

Lemma advance_ok i s : system_ok s -> system_ok (advance i s).
Proof.
  intros [Hw Hp]. unfold advance. destruct (sys_passes s !! i) as [[hd h [a|m|r k]]|] eqn:Ei; [done..| |done].
  pose proof (Forall_lookup_1 _ _ _ _ Hp Ei) as (Hh & Hg & Hr & Hk). cbn in *.
  pose proof (G_owes _ _ _ Hr Hh) as HP.
  pose proof (serves_state r _ Hw HP) as Hs. pose proof (serves_answer r _ Hw HP) as He.
  destruct (srv r (sys_server s)) as [a w]. split; [done|]. apply Forall_insert; [done|].
  split_and!; cbn; [|by apply guarded_snoc|done]. apply Forall_app. split; [done|]. by constructor.
Qed.

Lemma step_ok s s' : step world s s' -> system_ok s -> system_ok s'.
Proof.
  destruct 1 as [hd s|i s|s|w s Hstep]; intros Hok; [|by apply advance_ok|by split; [apply Hok|constructor]|];
    destruct Hok as [Hw Hp]; (split; [|try done]); [done| |by eapply world_I].
  apply Forall_app. split; [done|]. constructor; [|constructor]. split_and!; [constructor|done|apply body_wp].
Qed.

Lemma reachable_ok w s : rtc (step world) (mkSystem w []) s -> I w -> system_ok s.
Proof.
  intros Hs Hw. assert (system_ok (mkSystem w [])) as H0 by (by split; [|constructor]). clear Hw.
  induction Hs as [|s1 s2 s3 H12 _ IH]; [done|]. by eapply IH, step_ok.
Qed.
End Invariant.
End Server.
End System.

(** ** Every interleaving is safe *)

(** What each request of a pass needs in its past, and what a panic can come
    from. *)
Section PassGuard.
Context `{M : Machinery} `{Sc : Scripts} `{Rg : GoRange} `{Y : Yaml}.
Context (OperatorNamespace : string).

Definition pass_guard (hd : handler) : trace -> req -> Prop :=
  match hd with
  | RepositoryPass name => repo_guard OperatorNamespace name
  | EnginePass ns name => engine_guard ns name
  end.
Definition pass_panics (m : string) : Prop :=
  (exists jobType repo rev, generateJobName jobType repo rev = Panicked m) \/ engine_panics m.
Definition pass_post {A} (h : trace) (o : outcome A) : Prop :=
  forall m, o = Panicked m -> pass_panics m.

Context {L : MachineryLaws M}.

Lemma body_wp hd : wp (pass_guard hd) (body OperatorNamespace hd) [] pass_post.
Proof.
  destruct hd as [name|ns name]; cbn [body pass_guard].
  - eapply wp_conseq; [exact (Reconcile_wp _ _ [])|]. intros h' [a|m] Ho m' [= <-]. by left.
  - eapply wp_conseq; [exact (engine_Reconcile_wp _ _ [])|]. intros h' [a|m] Ho m' [= <-]. by right.
Qed.

Lemma pass_guard_wf hd h r : pass_guard hd h r -> owes wf_req wf_event h r.
Proof.
  destruct hd; cbn; intros Hg Hh; [exact (repo_guard_wf _ _ _ _ Hh Hg)|exact (engine_guard_wf _ _ _ _ Hh Hg)].
Qed.

End PassGuard.

#[export] Instance serves_anything {W} (srv : server W) :
  Serves srv (fun _ => True) (fun _ => True) (fun _ => True).
Proof. by split. Qed.

(** A guarded history of good answers only has good requests. *)
Lemma guarded_owes P E G t :
  (forall h r, G h r -> owes P E h r) -> Forall E t -> guarded G [] t -> guarded (fun _ => P) [] t.
Proof.
  intros HG. enough (Hgen : forall h, Forall E h -> Forall E t -> guarded G h t -> guarded (fun _ => P) h t)
    by (intros; by apply Hgen; [constructor|..]).
  induction t as [|[r a] t IH]; intros h Hh; cbn; [done|]. intros [Ha Ht]%Forall_cons [Hr Hg].
  split; [by eapply HG|]. apply IH; [apply Forall_app; split; [done|]; by constructor|done..].
Qed.

Section Interleavings.
Context `{L : MachineryLaws} `{Sc : Scripts} `{Rg : GoRange} `{Y : Yaml}.
Context (OperatorNamespace : string) {W : Type} (srv : server W) (world : W -> W -> Prop).

Abbreviation reachable w s := (rtc (step OperatorNamespace srv world) (mkSystem w []) s).

(** Property C1: every interleaving is safe.  However many passes of the two
    controllers run side by side, on the same objects or on others, whatever the
    API server answers and the rest of the cluster does between two requests, and
    wherever the operator is restarted: every request of every pass has in the past
    of its own pass what the guard of its controller asks for (so the safety
    theorems of the single passes hold), and no pass has panicked for any reason
    but a name or a recorded capacity. *)
Theorem interleavings_safe w s :
  reachable w s ->
  Forall (fun p =>
    guarded (pass_guard OperatorNamespace (pass_handler p)) [] (pass_past p) /\
    forall m, pass_rest p = Crash m -> pass_panics m) (sys_passes s).
Proof.
  intros Hs.
  pose proof (reachable_ok OperatorNamespace srv _ _ _ (pass_guard OperatorNamespace) (fun _ => pass_post)
    world (body_wp _) (fun _ _ _ _ _ => I) (fun _ _ _ _ => I) _ _ Hs I) as [_ Hp].
  eapply Forall_impl; [exact Hp|]. intros p (_ & Hg & Hr). split; [exact Hg|].
  intros m Hm. rewrite Hm in Hr. by apply Hr.
Qed.

(** Property C12: the operator preserves well-formedness.  On an API server that
    keeps its part of the contract, and beside anything that keeps the cluster
    well-formed, every state that the operator can reach is well-formed, and no
    pass under way has sent or been given an object that is not. *)
Theorem system_well_formed (I : W -> Prop) `{!Serves srv I wf_req wf_event} w s :
  (forall w w', world w w' -> I w -> I w') -> I w -> reachable w s ->
  I (sys_server s) /\
  Forall (fun p => wf_trace (pass_past p) /\ guarded (fun _ => wf_req) [] (pass_past p)) (sys_passes s).
Proof.
  intros HI Hw Hs.
  pose proof (reachable_ok OperatorNamespace srv I wf_req wf_event (pass_guard OperatorNamespace)
    (fun _ => pass_post) world (body_wp _) (pass_guard_wf _) HI _ _ Hs Hw) as [HIs Hp].
  split; [done|]. eapply Forall_impl; [exact Hp|]. intros p (He & Hg & _). split; [exact He|].
  exact (guarded_owes _ _ _ _ (pass_guard_wf OperatorNamespace _) He Hg).
Qed.

End Interleavings.

(** ** A referenced repository survives *)

(** What is there stays there, unless an update takes the last finalizer of an
    object that is being deleted. *)
Lemma st_update_present {K A} `{Countable K} (meta : A -> ObjectMeta) with_meta
    (meta_with_meta : forall x o, meta (with_meta x o) = x) merge k o (m : gmap K A) k' :
  is_Some (m !! k') ->
  (k = k' -> forall old, m !! k = Some old ->
     meta_Finalizers (meta (merge old o)) <> [] \/ meta_DeletionTimestamp (meta (merge old o)) = None) ->
  is_Some ((st_update meta with_meta merge k o m).2 !! k').
Proof.
  intros Hk Hm. unfold st_update. destruct (m !! k) as [old|] eqn:E; cbn; [|done].
  case_bool_decide; cbn; [|done]. unfold bump. rewrite !meta_with_meta.
  destruct (decide (k = k')) as [->|Hne].
  - rewrite bool_decide_false by (intros [Hd Hf]; cbn in *; by destruct (Hm eq_refl old eq_refl)).
    cbn. rewrite lookup_insert_eq. by eexists.
  - case_bool_decide; cbn; [by rewrite lookup_delete_ne|by rewrite lookup_insert_ne].
Qed.

Section Referenced.
Context (repo : string) (engine : key).

(** A repository under its name; the one in question with its finalizer. *)
Definition held_repo (n : string) (mr : ModelRepository) : Prop :=
  mr_Name mr = n /\ (n = repo -> ModelRepositoryFinalizer ∈ meta_Finalizers (mr_Meta mr)).
(** An engine under its key; the one in question references the repository and is
    not being deleted. *)
Definition holding_engine (k : key) (le : LLMEngine) : Prop :=
  meta_key (le_Meta le) = k /\
  (k = engine -> references repo le = true /\ meta_DeletionTimestamp (le_Meta le) = None).

Definition referenced (c : cluster) : Prop :=
  map_Forall held_repo (cl_repos c) /\ is_Some (cl_repos c !! repo) /\
  map_Forall holding_engine (cl_engines c) /\ is_Some (cl_engines c !! engine).

Definition holding_req (r : req) : Prop :=
  match r with
  | UpdateModelRepository o => held_repo (mr_Name o) o
  | UpdateLLMEngine o => holding_engine (meta_key (le_Meta o)) o
  | _ => True
  end.
Definition holding_event (ev : event) : Prop :=
  match ev with
  | Ev (GetModelRepository n) r => on_ok (held_repo n) r
  | Ev (GetLLMEngine ns n) r => on_ok (holding_engine (ns, n)) r
  | Ev ListLLMEngines r => on_ok (fun es => exists le, le ∈ es /\ references repo le = true) r
  | _ => True
  end.

Lemma held_repo_kept n x o :
  same_identity (mr_Meta o) x -> held_repo n o -> held_repo n (mr_with_Meta x o).
Proof. intros (Hn & _ & Hf & _) [H1 H2]. unfold held_repo, mr_Name. cbn. by rewrite Hf, Hn. Qed.

Lemma held_repo_stays n o : held_repo n o -> n = repo -> meta_Finalizers (mr_Meta o) <> [].
Proof. intros [_ Hf] Hn E. specialize (Hf Hn). rewrite E in Hf. by apply elem_of_nil in Hf. Qed.

Lemma holding_engine_kept k x o :
  same_identity (le_Meta o) x -> meta_DeletionTimestamp x = meta_DeletionTimestamp (le_Meta o) ->
  holding_engine k o -> holding_engine k (le_with_Meta x o).
Proof.
  intros (Hn & _ & _ & Hs) Hd [H1 H2]. unfold holding_engine, meta_key. cbn. by rewrite Hn, Hs, Hd.
Qed.

Lemma held_list (m : gmap key LLMEngine) :
  map_Forall holding_engine m -> is_Some (m !! engine) ->
  exists le, le ∈ (map_to_list m).*2 /\ references repo le = true.
Proof.
  intros Hm [le Hle]. exists le. split; [|by apply (Hm _ _ Hle)].
  apply list_elem_of_fmap. exists (engine, le). split; [done|]. by apply elem_of_map_to_list.
Qed.

(** An update of the repository or of the engine, of the whole or of the status. *)
Lemma update_repo_holds merge o (m : gmap string ModelRepository) :
  map_Forall held_repo m -> is_Some (m !! repo) ->
  (forall old, held_repo (mr_Name o) old -> held_repo (mr_Name o) (merge old o)) ->
  map_Forall held_repo (st_update mr_Meta mr_with_Meta merge (mr_Name o) o m).2 /\
  is_Some ((st_update mr_Meta mr_with_Meta merge (mr_Name o) o m).2 !! repo).
Proof.
  intros Hm Hr Ho. split.
  - apply st_update_wf; [|done..]. intros x o' Hx _. by apply held_repo_kept.
  - apply (st_update_present mr_Meta mr_with_Meta (fun _ _ => eq_refl)); [done|]. intros Hn old Hold. left.
    eapply held_repo_stays; [|exact Hn]. apply Ho. by eapply Hm.
Qed.

Lemma update_engine_holds (merge : LLMEngine -> LLMEngine -> LLMEngine) (o : LLMEngine) (m : gmap key LLMEngine) :
  map_Forall holding_engine m -> is_Some (m !! engine) ->
  (forall old, holding_engine (meta_key (le_Meta o)) old ->
     holding_engine (meta_key (le_Meta o)) (merge old o)) ->
  map_Forall holding_engine (st_update le_Meta le_with_Meta merge (meta_key (le_Meta o)) o m).2 /\
  is_Some ((st_update le_Meta le_with_Meta merge (meta_key (le_Meta o)) o m).2 !! engine).
Proof.
  intros Hm Hr Ho. split.
  - apply st_update_wf; [|done..]. intros x o'. apply holding_engine_kept.
  - apply (st_update_present le_Meta le_with_Meta (fun _ _ => eq_refl)); [done|]. intros Hn old Hold. right.
    by apply Ho; [by eapply Hm|].
Qed.

(** The server in memory keeps a referenced repository, as long as nobody takes its
    finalizer. *)
#[export] Instance mem_holds : Serves mem referenced holding_req holding_event.
Proof.
  split; intros r c (H1 & H2 & H3 & H4) Hr; destruct r; try done; cbn in *;
    try (by repeat match goal with |- context [let '(_, _) := ?x in _] => destruct x end);
    try (by eapply st_get_wf); try (by apply held_list).
  - destruct (update_repo_holds (fun old new => mr_with_Status (mr_Status old) new) o _ H1 H2);
      [done|]. by destruct (st_update _ _ _ _ _ _).
  - destruct (update_repo_holds (fun old new => mr_with_Status (mr_Status new) old) o _ H1 H2);
      [done|]. by destruct (st_update _ _ _ _ _ _).
  - destruct (update_engine_holds (fun old new => le_with_Status (le_Status old) new) o _ H3 H4);
      [done|]. by destruct (st_update _ _ _ _ _ _).
  - destruct (update_engine_holds (fun old new => le_with_Status (le_Status new) old) o _ H3 H4);
      [done|]. by destruct (st_update _ _ _ _ _ _).
Qed.

(** The operator takes no finalizer of a repository of which every list of engines
    holds a reference. *)
Section Guards.
Context `{M : Machinery} `{Sc : Scripts} `{Rg : GoRange} `{Y : Yaml}.
Context (OperatorNamespace : string).
Context {L : MachineryLaws M}.

Lemma dependent_engines_some le es : le ∈ es -> references repo le = true -> dependent_engines repo es <> [].
Proof.
  intros Hin Hr Hd. assert (Hf : In le (List.filter (references repo) es)).
  { apply List.filter_In. split; [by apply list_elem_of_In|done]. }
  unfold dependent_engines in Hd. apply (List.in_map le_Name) in Hf. by rewrite Hd in Hf.
Qed.

Lemma answered_repo h n mr :
  Forall holding_event h -> answered h (GetModelRepository n) (Ok mr) -> held_repo n mr.
Proof. intros Hh Ha. exact (proj1 (Forall_forall _ _) Hh _ Ha). Qed.

Lemma answered_engine h ns n le :
  Forall holding_event h -> answered h (GetLLMEngine ns n) (Ok le) -> holding_engine (ns, n) le.
Proof. intros Hh Ha. exact (proj1 (Forall_forall _ _) Hh _ Ha). Qed.

Lemma not_deletable h name mr :
  Forall holding_event h -> deletable_as name h mr -> name <> repo.
Proof.
  intros Hh (Hmr & _ & es & Hes & Hd) ->. destruct (answered_repo _ _ _ Hh Hmr) as [Hn _].
  destruct (proj1 (Forall_forall _ _) Hh _ Hes) as (le & Hin & Hr). rewrite Hn in Hd.
  by eapply dependent_engines_some.
Qed.

(** Only the finalizers of an object differ. *)
Lemma held_repo_refinalized n o x :
  same_but_finalizers (mr_Meta o) x -> (n = repo -> ModelRepositoryFinalizer ∈ meta_Finalizers x) ->
  held_repo n o -> held_repo n (mr_with_Meta x o).
Proof.
  intros (Hn & _)%same_but_finalizers_name Hf [H _]. unfold held_repo, mr_Name in *. cbn.
  by rewrite Hn.
Qed.

Lemma holding_engine_refinalized k o x :
  same_but_finalizers (le_Meta o) x -> holding_engine k o -> holding_engine k (le_with_Meta x o).
Proof.
  intros Hs [H1 H2]. destruct (same_but_finalizers_name _ _ Hs) as (Hn & Hns & _).
  destruct (same_but_finalizers_version _ _ Hs) as (_ & Hd).
  unfold holding_engine, meta_key in *. cbn. by rewrite Hn, Hns, Hd.
Qed.

Lemma repo_guard_holds name h r :
  repo_guard OperatorNamespace name h r -> owes holding_req holding_event h r.
Proof.
  intros Hg Hh. destruct r; try done; cbn in *.
  assert (Hown : forall n, held_repo n o -> held_repo (mr_Name o) o) by (by intros n [<- ?]; split).
  destruct Hg as [(mr & Ha & Ho)|(mr & fresh & Hd & Ha & ->)]; pose proof (answered_repo _ _ _ Hh Ha) as Hr.
  - apply (Hown name). destruct Ho as [->| ->]; [done|].
    apply held_repo_refinalized; [apply AddFinalizer_rest|intros _; apply AddFinalizer_in|done].
  - apply (Hown (mr_Name mr)). apply held_repo_refinalized; [apply RemoveFinalizer_rest| |done].
    intros Hn. destruct (not_deletable _ _ _ Hh Hd). rewrite <- Hn.
    symmetry. by apply (answered_repo _ _ _ Hh), Hd.
Qed.

Lemma engine_guard_holds ns name h r :
  engine_guard ns name h r -> owes holding_req holding_event h r.
Proof.
  intros Hg Hh. destruct r; try done; cbn in *.
  assert (Hown : forall k, holding_engine k o -> holding_engine (meta_key (le_Meta o)) o) by (by intros k [<- ?]; split).
  destruct Hg as [(le & Ha & _ & ->)|(_ & ns' & n & le & Ha & ->)];
    pose proof (answered_engine _ _ _ _ Hh Ha); eapply Hown;
    (eapply holding_engine_refinalized; [|done]); [apply AddFinalizer_rest|apply RemoveFinalizer_rest].
Qed.

Lemma pass_guard_holds hd h r :
  pass_guard OperatorNamespace hd h r -> owes holding_req holding_event h r.
Proof. destruct hd; [apply repo_guard_holds|apply engine_guard_holds]. Qed.

End Guards.
End Referenced.

Section Survival.
Context `{L : MachineryLaws} `{Sc : Scripts} `{Rg : GoRange} `{Y : Yaml}.
Context (OperatorNamespace : string).

(** Property C2: a referenced repository survives.  On the server in memory, take
    any repository with the operator's finalizer and any engine that references it
    and is not being deleted, and anything else that keeps the two (it may ask for
    the deletion of the repository).  Then in every state the operator can reach,
    however its passes interleave, the repository is still there, with its
    finalizer. *)
Theorem referenced_repository_survives repo engine (world : cluster -> cluster -> Prop) w s :
  (forall c c', world c c' -> referenced repo engine c -> referenced repo engine c') ->
  referenced repo engine w ->
  rtc (step OperatorNamespace mem world) (mkSystem w []) s ->
  exists mr, cl_repos (sys_server s) !! repo = Some mr /\
    ModelRepositoryFinalizer ∈ meta_Finalizers (mr_Meta mr).
Proof.
  intros HI Hw Hs.
  pose proof (reachable_ok OperatorNamespace mem (referenced repo engine) (holding_req repo engine)
    (holding_event repo engine) (pass_guard OperatorNamespace) (fun _ => pass_post) world (body_wp _)
    (pass_guard_holds repo engine OperatorNamespace) HI _ _ Hs Hw) as [(Hr & [mr Hmr] & _) _].
  exists mr. split; [done|]. by apply (Hr _ _ Hmr).
Qed.

End Survival.

(** ** Events *)

(** Property C35: a change of a repository wakes the engines that use it.  On the
    server in memory, the passes that an event of the repository asks for are, once
    each, those of the engines of which a reference names it: exactly the engines
    that its deletion waits for. *)
Theorem repository_events_reach_engines mr c t o c' :
  map_Forall (fun k le => meta_key (le_Meta le) = k) (cl_engines c) ->
  run mem (modelRepositoryToLLMEngine mr) c = (t, o, c') ->
  c' = c /\ exists l, o = Done l /\ NoDup l /\
    forall k, k ∈ l <-> exists le, cl_engines c !! k = Some le /\ references (mr_Name mr) le = true.
Proof.
  intros Hk. cbn. intros [= <- <- <-]. split; [done|]. eexists. split; [reflexivity|].
  set (l := (map_to_list (cl_engines c)).*2).
  assert (Hl : forall le, le ∈ l <-> cl_engines c !! meta_key (le_Meta le) = Some le).
  { intros le. unfold l. rewrite list_elem_of_fmap. split.
    - intros ([k le'] & -> & Hin). apply elem_of_map_to_list in Hin. cbn. by rewrite (Hk _ _ Hin).
    - intros Hin. exists (meta_key (le_Meta le), le). split; [done|]. by apply elem_of_map_to_list. }
  assert (Hd : NoDup (map (fun e => (le_Namespace e, le_Name e)) l)).
  { unfold l. replace (map _ _) with (map_to_list (cl_engines c)).*1; [apply NoDup_fst_map_to_list|].
    rewrite <- list_fmap_compose. apply list_fmap_ext. intros i [k le] Hi.
    apply list_elem_of_lookup_2, elem_of_map_to_list in Hi. cbn. by rewrite <- (Hk _ _ Hi). }
  split.
  - clear Hl. induction l as [|le l IH]; cbn in *; [constructor|]. apply NoDup_cons in Hd as [Hn Hd].
    destruct (references _ _); cbn; [|by apply IH]. apply NoDup_cons. split; [|by apply IH].
    intros Hin. apply Hn. clear -Hin. apply list_elem_of_In in Hin. apply list_elem_of_In.
    apply List.in_map_iff in Hin as (le' & <- & Hin). apply List.in_map_iff. exists le'.
    apply List.filter_In in Hin as [Hin _]. by split.
  - intros k. rewrite list_elem_of_In, List.in_map_iff. split.
    + intros (le & <- & [Hin Hr]%List.filter_In). exists le. split; [|done]. by apply Hl, list_elem_of_In.
    + intros (le & Hle & Hr). exists le. pose proof (Hk _ _ Hle) as Hkey. split; [done|].
      apply List.filter_In. split; [|done]. apply list_elem_of_In, Hl. by rewrite Hkey.
Qed.

(** ** Schedules on the server in memory *)

(** The repository with the operator's finalizer; somebody deletes it; somebody
    creates the engine. *)
Definition kept_repo : ModelRepository :=
  mr_with_Meta (meta_with_Finalizers [ModelRepositoryFinalizer] (meta_with_Name "llama" meta_empty))
    (life_repo "llama").
Definition kept_cluster : cluster :=
  set_classes [witness_sc "nfs" "nfs.csi.k8s.io"]
    (set_repos {["llama" := kept_repo]} (engine_cluster "chat" "llama" None)).
Definition delete_repo (c : cluster) : cluster :=
  set_repos (st_delete mr_Meta mr_with_Meta 7 "llama" (cl_repos c)).2 c.
Definition create_engine (c : cluster) : cluster :=
  set_engines (<[("team", "chat") := life_engine "chat" "llama" None]> (cl_engines c)) c.

Definition play (c : cluster) (l : list action) : system :=
  @schedule Reference.machinery witness_scripts witness_range witness_yaml "aitrigram-system" cluster mem
    (mkSystem c []) l.
Abbreviation repo_pass := (DoStart (RepositoryPass "llama")) (only parsing).
Abbreviation engine_pass := (DoStart (EnginePass "team" "chat")) (only parsing).

(** The phase of the repository, the phase of the engine, the reasons of its
    conditions, and the numbers of ready pods. *)
Definition system_summary (s : system (W := cluster)) :
    option string * option (string * list string) * list Z :=
  let c := sys_server s in
  ((fun mr => mst_Phase (mr_Status mr)) <$> cl_repos c !! "llama",
   (fun e => (lst_Phase (le_Status e), map cond_Reason (lst_Conditions (le_Status e)))) <$>
     cl_engines c !! ("team", "chat"),
   map dep_ReadyReplicas (map_to_list (cl_deployments c)).*2).

(** An engine that appears after the pass that deletes a repository listed the
    engines does not stop it; had it appeared one request earlier, it would have
    ([deletion_race] in DeletionCheck.v: always). *)
Theorem deletion_race_run :
  let start := set_engines ∅ (delete_repo kept_cluster) in
  let race n := [repo_pass; DoAdvance 0 n; DoChange create_engine; DoAdvance 0 99;
                 engine_pass; DoAdvance 1 99] in
  system_summary (play start (race 3%nat)) =
    (None, Some ("Error", ["ModelRepositoryFetchFailed"]), []) /\
  system_summary (play start (race 2%nat)) =
    (Some "Failed", Some ("Pending", ["WaitingForModels"; "WaitingForModels"]), []).
Proof. split; vm_compute; reflexivity. Qed.

(** Asking for the deletion of a repository that a running engine uses takes the
    engine out of service ([blocked_deletion_demotes_engine] in DeletionCheck.v:
    always). *)
Theorem blocked_deletion_run :
  let running := [engine_pass; DoAdvance 0 99; DoChange bind_claims; engine_pass; DoAdvance 1 99;
                  DoChange start_pods; engine_pass; DoAdvance 2 99] in
  let blocked := running ++ [DoChange delete_repo; repo_pass; DoAdvance 3 99; engine_pass; DoAdvance 4 99] in
  let later := blocked ++ [repo_pass; DoAdvance 5 99; engine_pass; DoAdvance 6 99] in
  map (fun l => system_summary (play kept_cluster l)) [running; blocked; later] =
    [(Some "Ready", Some ("Running", ["DeploymentsReady"; "ModelsReady"]), [1%Z]);
     (Some "Failed", Some ("Pending", ["WaitingForModels"; "WaitingForModels"]), [1%Z]);
     (Some "Failed", Some ("Pending", ["WaitingForModels"; "WaitingForModels"]), [1%Z])].
Proof. vm_compute. reflexivity. Qed.

(** ** Witnesses *)

(** What happens beside the operator. *)
Definition outside (c c' : cluster) : Prop := c' = bind_claims c \/ c' = start_pods c \/ c' = delete_repo c.

Lemma outside_wf c c' :
  outside c c' -> wf_cluster (M := Reference.machinery) c -> wf_cluster (M := Reference.machinery) c'.
Proof.
  intros [->|[->| ->]]; [apply bind_claims_wf|apply start_pods_wf|].
  intros (H1 & H2 & H3 & H4 & H5 & H6). split_and!; try done. by apply st_delete_wf.
Qed.

Lemma outside_referenced engine c c' :
  outside c c' -> referenced "llama" engine c -> referenced "llama" engine c'.
Proof.
  intros [->|[->| ->]]; [done..|]. intros (H1 & [mr Hmr] & H3 & H4). split_and!; try done; cbn.
  - apply st_delete_wf; [|done]. intros x o. apply held_repo_kept.
  - pose proof (held_repo_stays "llama" _ _ (H1 _ _ Hmr) eq_refl) as Hf.
    unfold st_delete. rewrite Hmr, bool_decide_false by done. cbn. rewrite lookup_insert_eq. by eexists.
Qed.

(** An engine and its repository, reconciled side by side while somebody asks for
    the deletion of the repository, with a restart in between. *)
Definition busy : list action :=
  [engine_pass; DoAdvance 0 4; repo_pass; DoAdvance 1 2; DoAdvance 0 9; DoChange bind_claims;
   DoChange delete_repo; DoAdvance 1 3; engine_pass; DoAdvance 2 2; DoRestart; repo_pass; engine_pass;
   DoAdvance 0 3; DoAdvance 1 3; DoChange start_pods; DoAdvance 0 99; DoAdvance 1 1].

Lemma busy_steps c :
  rtc (@step Reference.machinery witness_scripts witness_range witness_yaml "aitrigram-system" cluster mem
    outside) (mkSystem c []) (play c busy).
Proof. apply schedule_steps. repeat constructor; intros w; unfold outside; auto. Qed.

Lemma kept_cluster_wf : wf_cluster (M := Reference.machinery) kept_cluster.
Proof.
  split_and!; try apply map_Forall_empty; apply map_Forall_singleton.
  - split; [by left|constructor].
  - by right.
Qed.

Lemma kept_cluster_referenced : referenced "llama" ("team", "chat") kept_cluster.
Proof.
  split_and!; try (by eexists); apply map_Forall_singleton; (split; [done|]); intros _; [by left|done].
Qed.

Definition requests_made (s : system (W := cluster)) : list nat := map (fun p => length (pass_past p)) (sys_passes s).

Lemma interleavings_safe_witness :
  requests_made (play kept_cluster busy) = [6; 4]%nat /\
  Forall (fun p =>
    guarded (@pass_guard Reference.machinery witness_scripts witness_range witness_yaml "aitrigram-system"
      (pass_handler p)) [] (pass_past p) /\
    forall m, pass_rest p = Crash m -> @pass_panics Reference.machinery m) (sys_passes (play kept_cluster busy)).
Proof.
  split; [vm_compute; reflexivity|].
  apply (interleavings_safe (L := Reference.laws) (Sc := witness_scripts) (Rg := witness_range) (Y := witness_yaml)
     "aitrigram-system" mem outside kept_cluster).
  apply busy_steps.
Defined.

Lemma system_well_formed_witness :
  (wf_cluster (M := Reference.machinery) (sys_server (play kept_cluster busy)) /\
   Forall (fun p => wf_trace (M := Reference.machinery) (pass_past p) /\
     guarded (fun _ => wf_req (M := Reference.machinery)) [] (pass_past p)) (sys_passes (play kept_cluster busy))).
Proof.
  apply (system_well_formed (L := Reference.laws) (Sc := witness_scripts) (Rg := witness_range) (Y := witness_yaml)
     "aitrigram-system" mem outside wf_cluster kept_cluster).
  - apply outside_wf.
  - apply kept_cluster_wf.
  - apply busy_steps.
Defined.

Lemma referenced_repository_survives_witness :
  (exists mr, cl_repos (sys_server (play kept_cluster busy)) !! "llama" = Some mr /\
     meta_DeletionTimestamp (mr_Meta mr) = Some 7%Z) /\
  (exists mr, cl_repos (sys_server (play kept_cluster busy)) !! "llama" = Some mr /\
     ModelRepositoryFinalizer ∈ meta_Finalizers (mr_Meta mr)).
Proof.
  split; [eexists; split; vm_compute; reflexivity|].
  apply (referenced_repository_survives (L := Reference.laws) (Sc := witness_scripts) (Rg := witness_range) (Y := witness_yaml)
     "aitrigram-system" "llama" ("team", "chat")
    outside kept_cluster).
  - apply outside_referenced.
  - apply kept_cluster_referenced.
  - apply busy_steps.
Defined.

(** Two engines of the same name use the repository, a third uses another. *)
Definition three_engines : cluster :=
  set_engines {[("team", "chat") := life_engine "chat" "llama" None;
                ("lab", "chat") := le_with_Meta (meta_with_Namespace "lab" (meta_with_Name "chat" meta_empty))
                  (life_engine "chat" "llama" None);
                ("team", "other") := life_engine "other" "mistral" None]} empty_cluster.
Definition witness_event : trace * outcome (list key) * cluster :=
  run mem (modelRepositoryToLLMEngine kept_repo) three_engines.

Lemma repository_events_reach_engines_witness :
  witness_event.1.2 = Done [("lab", "chat"); ("team", "chat")] /\
  (witness_event.2 = three_engines /\ exists l, witness_event.1.2 = Done l /\ NoDup l /\
    forall k, k ∈ l <-> exists le, cl_engines three_engines !! k = Some le /\ references "llama" le = true).
Proof.
  split; [vm_compute; reflexivity|].
  apply (repository_events_reach_engines kept_repo three_engines witness_event.1.1); [|apply run_parts].
  repeat (apply map_Forall_insert_2; [done|]). apply map_Forall_empty.
Defined.
