(* ===== verification/LongNames.v ===== *)
(** * Engines whose names are too long

    A deployment is applied under the component's name, which is cut to 52 bytes,
    and looked up under the engine's and the repository's names joined by a dash,
    which is not.  An engine for which the two differ never becomes ready, however
    the passes of the operator interleave: an invariant of the server in memory,
    from the guards of the two controllers. *)

From S2P Require Import Prelude Naming Api Kube Machinery MemServer StorageDiscovery Backend.
From S2P Require Import EngineStorage StorageProvider Jobs RepoStatus RepoController RepoSafety GoStd.
From S2P Require Import EngineConfig VllmConfig EngineAdapters Workload EngineStatus EngineController.
From S2P Require Import EngineLife EngineSafety WellFormed System.
From stdpp Require Import relations.

Local Open Scope go_scope.

(** The name a deployment is looked up under is the one it is applied under exactly
    when it has at most 52 bytes; the latter never has more. *)
Lemma ComponentName_short e m n : ComponentName e m = Done n -> (len n <= 52)%Z.
Proof.
  intros Hn. unfold ComponentName in Hn. pose proof (TruncatedName_cases 52 EmptyString e m) as Hc.
  destruct Hc as [(Hf & Heq)|[(_ & _ & w & Heq)|(_ & _ & ka & kb & _ & Heq & Hlen)]]; [done|..];
    rewrite Heq in Hn; try done; assert (E : forall a b : string, Done a = Done b -> a = b) by congruence;
    apply E in Hn; by rewrite <- Hn.
Qed.

Lemma ComponentName_full e m n :
  ComponentName e m = Done n -> n = e +:+ "-" +:+ m <-> (len (e +:+ "-" +:+ m) <= 52)%Z.
Proof.
  intros Hn. split; [intros <-; by eapply ComponentName_short|].
  intros Hl. unfold ComponentName in Hn.
  destruct (TruncatedName_cases 52 EmptyString e m) as [(Hf & Heq)|[(Hl' & _)|(Hl' & _)]];
    [done|..]; unfold full_name in *; rewrite bool_decide_true in * by done; [congruence|lia..].
Qed.

(** ** Not ready *)

Section Conditions.
Context `{M : Machinery}.

Definition never_ready (s : LLMEngineStatus) : Prop :=
  lst_Phase s <> "Running" /\
  forall d, FindStatusCondition (lst_Conditions s) LLMEngineConditionReady = Some d ->
    cond_Status d <> ConditionTrue.

Definition not_true_ready (c : Condition) : Prop :=
  cond_Type c = LLMEngineConditionReady -> cond_Status c <> ConditionTrue.

Context {L : MachineryLaws M}.

(** Conditions other than a true Ready do not make the engine ready. *)
Lemma conditions_after_not_ready conditions steps :
  (forall d, FindStatusCondition conditions LLMEngineConditionReady = Some d -> cond_Status d <> ConditionTrue) ->
  (forall c, c ∈ map snd steps -> not_true_ready c) ->
  forall d, FindStatusCondition (conditions_after conditions steps) LLMEngineConditionReady = Some d ->
    cond_Status d <> ConditionTrue.
Proof.
  revert conditions. induction steps as [|[now c] steps IH]; intros conditions H0 Hs; [done|]. cbn.
  apply IH; [|intros c' Hc'; apply Hs; by right].
  intros d Hd. destruct (decide (cond_Type c = LLMEngineConditionReady)) as [Ht|Ht].
  - destruct (Find_Set_eq now conditions c) as (d' & Hd' & _ & Hst & _). rewrite Ht in Hd'.
    assert (d' = d) as -> by congruence. rewrite <- Hst. apply Hs; [by left|done].
  - rewrite Find_Set_ne in Hd by done. by apply H0.
Qed.

Lemma by_conditions_never_ready cs s s' :
  by_conditions cs s s' -> never_ready s -> (forall c, c ∈ cs -> not_true_ready c) -> never_ready s'.
Proof.
  intros (steps & <- & ->) [_ H0] Hs.
  pose proof (conditions_after_not_ready _ _ H0 Hs) as Hr. split; cbn; [|exact Hr].
  unfold deriveLLMEnginePhase. 
  destruct (FindStatusCondition (conditions_after (lst_Conditions s) steps) LLMEngineConditionReady) as [d|];
    [|discriminate].
  rewrite bool_decide_false by (by apply Hr). by repeat case_bool_decide.
Qed.

End Conditions.

(** ** The invariant *)
Section Overlong.
Context `{M : Machinery}.
Context (ns name repo : string).

(** The name Reconcile looks the deployment up under. *)
Definition looked_up : string := name +:+ "-" +:+ repo.

(** An engine under its key; the one in question references the repository and is
    not ready. *)
Definition waiting_engine (k : key) (le : LLMEngine) : Prop :=
  meta_key (le_Meta le) = k /\
  (k = (ns, name) -> references repo le = true /\ never_ready (le_Status le)).

Definition overlong (c : cluster) : Prop :=
  map_Forall (fun n mr => mr_Name mr = n) (cl_repos c) /\
  map_Forall waiting_engine (cl_engines c) /\
  cl_deployments c !! (ns, looked_up) = None.

Definition overlong_req (r : req) : Prop :=
  match r with
  | UpdateLLMEngine o => meta_key (le_Meta o) = (ns, name) -> references repo o = true
  | UpdateLLMEngineStatus o => meta_key (le_Meta o) = (ns, name) -> never_ready (le_Status o)
  | ApplyDeployment d => meta_key (dep_Meta d) <> (ns, looked_up)
  | _ => True
  end.
Definition overlong_event (ev : event) : Prop :=
  match ev with
  | Ev (GetModelRepository n) r => on_ok (fun mr => mr_Name mr = n) r
  | Ev (GetLLMEngine ns' n) r => on_ok (waiting_engine (ns', n)) r
  | Ev (UpdateLLMEngine o) r => on_ok (waiting_engine (meta_key (le_Meta o))) r
  | Ev (GetDeployment ns' n) r => on_ok (fun _ => (ns', n) <> (ns, looked_up)) r
  | _ => True
  end.

Lemma waiting_engine_kept k x o :
  same_identity (le_Meta o) x -> waiting_engine k o -> waiting_engine k (le_with_Meta x o).
Proof.
  intros (Hn & _ & _ & Hs) [H1 H2]. unfold waiting_engine, meta_key in *. cbn. by rewrite Hn, Hs.
Qed.

Lemma waiting_engine_refinalized k o x :
  same_but_finalizers (le_Meta o) x -> waiting_engine k o ->
  meta_key x = k /\ (k = (ns, name) -> references repo (le_with_Meta x o) = true).
Proof.
  intros (Hn & Hs & _)%same_but_finalizers_name [H1 H2]. unfold meta_key in *. rewrite Hn, Hs.
  split; [done|]. intros Hk. by apply H2.
Qed.

(** An update of a repository, and of an engine. *)
Lemma update_repo_named (merge : ModelRepository -> ModelRepository -> ModelRepository) (o : ModelRepository) (m : gmap string ModelRepository) :
  map_Forall (fun n mr => mr_Name mr = n) m ->
  (forall old, mr_Name old = mr_Name o -> mr_Name (merge old o) = mr_Name o) ->
  map_Forall (fun n mr => mr_Name mr = n) (st_update mr_Meta mr_with_Meta merge (mr_Name o) o m).2.
Proof.
  intros Hm Ho. apply (st_update_wf mr_Meta mr_with_Meta (fun n mr => mr_Name mr = n)); [|done..].
  intros x o' (Hn & _) _ <-. exact Hn.
Qed.

Lemma update_engine_waits (merge : LLMEngine -> LLMEngine -> LLMEngine) (o : LLMEngine) (m : gmap key LLMEngine) :
  map_Forall waiting_engine m ->
  (forall old, waiting_engine (meta_key (le_Meta o)) old -> waiting_engine (meta_key (le_Meta o)) (merge old o)) ->
  map_Forall waiting_engine (st_update le_Meta le_with_Meta merge (meta_key (le_Meta o)) o m).2 /\
  on_ok (waiting_engine (meta_key (le_Meta o))) (st_update le_Meta le_with_Meta merge (meta_key (le_Meta o)) o m).1.
Proof.
  intros Hm Ho. apply (st_update_wf le_Meta le_with_Meta waiting_engine); [|done..].
  intros x o' Hx _. by apply waiting_engine_kept.
Qed.

(** The server in memory keeps it, as long as nobody applies the deployment that is
    looked up. *)
#[export] Instance mem_overlong : Serves mem overlong overlong_req overlong_event.
Proof.
  split; intros r c (H1 & H2 & H3) Hr; destruct r; try done; cbn in *;
    try (by repeat match goal with |- context [let '(_, _) := ?x in _] => destruct x end);
    try (by eapply st_get_wf).
  - pose proof (update_repo_named (fun old new => mr_with_Status (mr_Status old) new) o _ H1 (fun _ _ => eq_refl)).
    by destruct (st_update _ _ _ _ _ _).
  - pose proof (update_repo_named (fun old new => mr_with_Status (mr_Status new) old) o _ H1 (fun _ H => H)).
    by destruct (st_update _ _ _ _ _ _).
  - destruct (update_engine_waits (fun old new => le_with_Status (le_Status old) new) o _ H2) as [Hm _].
    { intros old [Ho1 Ho2]. split; [done|]. intros Hk. split; [by apply Hr|by apply Ho2]. }
    by destruct (st_update _ _ _ _ _ _).
  - destruct (update_engine_waits (fun old new => le_with_Status (le_Status new) old) o _ H2) as [Hm _].
    { intros old [Ho1 Ho2]. split; [done|]. intros Hk. split; [by apply Ho2|by apply Hr]. }
    by destruct (st_update _ _ _ _ _ _).
  - split_and!; cbn; [done..|]. by rewrite lookup_insert_ne.
  - split_and!; unfold st_delete; destruct (cl_deployments c !! (ns0, name0)) eqn:E; cbn; try done;
      case_bool_decide; cbn; try done.
    + by rewrite lookup_delete_None; right.
    + rewrite lookup_insert_ne; [done|]. congruence.
  - unfold st_get. destruct (cl_repos c !! name0) eqn:E; [|done]. by apply (H1 _ _ E).
  - destruct (update_engine_waits (fun old new => le_with_Status (le_Status old) new) o _ H2) as [_ Ha].
    { intros old [Ho1 Ho2]. split; [done|]. intros Hk. split; [by apply Hr|by apply Ho2]. }
    by destruct (st_update _ _ _ _ _ _).
  - unfold st_get. destruct (cl_deployments c !! (ns0, name0)) eqn:E; [|done]. cbn. congruence.
Qed.

(** *** The operator never applies it *)
Section Guards.
Context `{Sc : Scripts} `{Rg : GoRange} `{Y : Yaml}.
Context (OperatorNamespace : string).
Context {L : MachineryLaws M}.
Hypothesis (Hlong : (52 < len looked_up)%Z).

Lemma waiting_answered h ns' n le :
  Forall overlong_event h -> answered h (GetLLMEngine ns' n) (Ok le) -> waiting_engine (ns', n) le.
Proof. intros Hh Ha. exact (proj1 (Forall_forall _ _) Hh _ Ha). Qed.

Lemma waiting_seen h ns' n le :
  Forall overlong_event h -> seen_engine ns' n h le -> waiting_engine (ns', n) le.
Proof.
  intros Hh [Ha|(le0 & Ha & Hu)]; [by eapply waiting_answered|].
  pose proof (waiting_answered _ _ _ _ Hh Ha) as Hw.
  pose proof (proj1 (Forall_forall _ _) Hh _ Hu) as He. cbn in He.
  by destruct (waiting_engine_refinalized _ _ _ (AddFinalizer_rest (le_Meta le0) LLMEngineFinalizer) Hw) as [<- _].
Qed.

(** The deployment that is looked up for the repository is never there. *)
Lemma never_deployed h le :
  Forall overlong_event h -> seen_engine ns name h le -> ~ all_deployed ns name h le.
Proof.
  intros Hh Hs (mrs & Hd & _ & Hr). destruct (waiting_seen _ _ _ _ Hh Hs) as [Hk Hq].
  destruct (Hq eq_refl) as [Href _]. unfold references in Href.
  apply existsb_exists in Href as (ref & Hin & ?). bool_hyps. apply list_elem_of_In in Hin.
  apply list_elem_of_lookup_1 in Hin as [i Hi].
  destruct (Forall2_lookup_l _ _ _ _ _ (dep_fetched _ _ _ _ _ Hd) Hi) as (mr & Hmr%list_elem_of_lookup_2 & Ha).
  destruct (proj1 (Forall_forall _ _) Hr _ Hmr) as (d & Had & _).
  pose proof (proj1 (Forall_forall _ _) Hh _ Ha) as Hn. pose proof (proj1 (Forall_forall _ _) Hh _ Had) as Hno.
  cbn in Hn, Hno. apply Hno. unfold meta_key in Hk. injection Hk as Hk1 Hk2.
  unfold looked_up, le_Namespace, le_Name. congruence.
Qed.

Lemma engine_guard_overlong ns' n h r :
  engine_guard ns' n h r -> owes overlong_req overlong_event h r.
Proof.
  intros Hg Hh. destruct r; try done; cbn in *.
  - intros Hk. assert (Hw : exists k le x, waiting_engine k le /\ same_but_finalizers (le_Meta le) x /\ o = le_with_Meta x le).
    { destruct Hg as [(le & Ha & _ & ->)|(_ & ns1 & n1 & le & Ha & ->)];
        (do 3 eexists; split; [by eapply waiting_answered|]; split; [|done]);
        [apply AddFinalizer_rest|apply RemoveFinalizer_rest]. }
    destruct Hw as (k & le & x & Hw & Hx & ->).
    destruct (waiting_engine_refinalized _ _ _ Hx Hw) as [H1 H2]. apply H2. by rewrite <- H1.
  - intros Hk. destruct Hg as (le & fresh & st & Hs & Ha & -> & _ & (cs & s0 & Hc & H0 & Ht)).
    destruct (waiting_answered _ _ _ _ Hh Ha) as [Hk1 Hq]. cbn in Hk. rewrite Hk1 in Hk.
    destruct (waiting_seen _ _ _ _ Hh Hs) as [Hk2 _].
    assert (E : (ns', n) = (ns, name)) by (rewrite <- Hk2; exact Hk). injection E as -> ->.
    destruct (Hq Hk) as [_ Hn]. cbn. apply (by_conditions_never_ready _ _ _ Hc).
    + by destruct H0 as [->|(mrs & _ & ->)].
    + intros c Hin Hty Hst. exact (never_deployed _ _ Hh Hs (Ht c Hin Hty Hst)).
  - destruct Hg as (le & mrs & mr & claim & _ & _ & _ & _ & Hn & _). intros Hk.
    apply ComponentName_short in Hn. injection Hk as _ Hk. rewrite Hk in Hn. lia.
Qed.

Lemma pass_guard_overlong hd h r :
  pass_guard OperatorNamespace hd h r -> owes overlong_req overlong_event h r.
Proof. destruct hd; [|apply engine_guard_overlong]. intros Hg Hh. by destruct r. Qed.

End Guards.
End Overlong.

Section LongNames.
Context `{L : MachineryLaws} `{Sc : Scripts} `{Rg : GoRange} `{Y : Yaml}.
Context (OperatorNamespace : string).

(** Property C40: an engine whose name is too long never becomes ready.  Take any
    engine that references a repository such that the two names, joined by a dash,
    have more than 52 bytes, in a cluster that keeps repositories and engines under
    their names; say it is not ready yet, no deployment has the joined name,
    and the rest of the cluster keeps it so (it may bind claims, start pods, delete
    what it likes).  Then in every state the operator can reach, on the server in
    memory and however its passes interleave, the engine is not Running and its
    Ready condition not true: the deployments the operator applies, ready or not,
    have names of at most 52 bytes, and the one it looks up is never there. *)
Theorem long_names_never_ready ns name repo (world : cluster -> cluster -> Prop) w s :
  (52 < len (looked_up name repo))%Z ->
  (forall c c', world c c' -> overlong ns name repo c -> overlong ns name repo c') ->
  overlong ns name repo w ->
  rtc (step OperatorNamespace mem world) (mkSystem w []) s ->
  cl_deployments (sys_server s) !! (ns, looked_up name repo) = None /\
  forall le, cl_engines (sys_server s) !! (ns, name) = Some le -> never_ready (le_Status le).
Proof.
  intros Hlong HI Hw Hs.
  pose proof (reachable_ok OperatorNamespace mem (overlong ns name repo) (overlong_req ns name repo)
    (overlong_event ns name repo) (pass_guard OperatorNamespace) (fun _ => pass_post) world (body_wp _)
    (pass_guard_overlong ns name repo OperatorNamespace Hlong) HI _ _ Hs Hw) as [(_ & He & Hd) _].
  split; [exact Hd|]. intros le Hle. by apply (He _ _ Hle).
Qed.

End LongNames.

(** ** A run *)

Definition long_cluster : cluster := engine_cluster long_engine long_repo None.
Definition serving (c c' : cluster) : Prop := c' = bind_claims c \/ c' = start_pods c.

Definition long_engine_actions : list action :=
  let pass := DoStart (EnginePass "team" long_engine) in
  [pass; DoAdvance 0 99; DoChange bind_claims; pass; DoAdvance 1 99; DoChange start_pods;
   pass; DoAdvance 2 99; pass; DoAdvance 3 99].

Lemma serving_overlong c c' :
  serving c c' -> overlong (M := Reference.machinery) "team" long_engine long_repo c ->
  overlong (M := Reference.machinery) "team" long_engine long_repo c'.
Proof.
  intros [->| ->] (H1 & H2 & H3); split_and!; try done. cbn. by rewrite lookup_fmap, H3.
Qed.

Lemma long_names_never_ready_witness :
  let s := play long_cluster long_engine_actions in
  map (fun d => (len (meta_Name (dep_Meta d)), dep_ReadyReplicas d))
    (map_to_list (cl_deployments (sys_server s))).*2 = [(52%Z, 1%Z)] /\
  (fun e => lst_Phase (le_Status e)) <$> cl_engines (sys_server s) !! ("team", long_engine) = Some "Starting" /\
  (cl_deployments (sys_server s) !! ("team", looked_up long_engine long_repo) = None /\
   forall le, cl_engines (sys_server s) !! ("team", long_engine) = Some le ->
     never_ready (M := Reference.machinery) (le_Status le)).
Proof.
  cbv zeta. split; [vm_compute; reflexivity|]. split; [vm_compute; reflexivity|].
  apply (long_names_never_ready (L := Reference.laws) (Sc := witness_scripts) (Rg := witness_range)
    (Y := witness_yaml) "aitrigram-system" "team" long_engine long_repo serving long_cluster).
  - vm_compute. reflexivity.
  - exact serving_overlong.
  - split_and!; [apply map_Forall_singleton; reflexivity| |reflexivity].
    apply map_Forall_singleton. split; [reflexivity|]. intros _. split; [vm_compute; reflexivity|].
    split; [discriminate|]. intros d Hd. vm_compute in Hd. discriminate.
  - apply schedule_steps. repeat (apply Forall_cons; split); try exact I; try (intros w; unfold serving; auto).
    by apply Forall_nil.
Defined.
