(* ===== verification/DeletionCheck.v ===== *)
(** * What the check before a deletion blocks, and what it misses

    handleDeletion of the ModelRepository controller refuses to delete a repository
    that an engine references, by making its Ready condition false.  Engines wait
    for that condition: the refusal takes them out of service, for as long as the
    deletion is asked for.  And the check is not atomic with the deletion: an
    engine that appears after it does not stop it.  Both for arbitrary clusters,
    on the server in memory. *)

From S2P Require Import Prelude Naming Api Kube Machinery MemServer Frames Leads Release StorageDiscovery Backend.
From S2P Require Import EngineStorage StorageProvider Jobs RepoStatus RepoController RepoProgress RepoDeletion.
From S2P Require Import RepoSafety GoStd EngineConfig VllmConfig EngineAdapters Workload EngineStatus.
From S2P Require Import EngineController EngineLife EngineProgress Teardown WellFormed System.
From stdpp Require Import relations.

Local Open Scope go_scope.

(** ** Status of a repository that is being deleted *)
Section Refusal.
Context `{L : MachineryLaws} `{Sc : Scripts} `{Rg : GoRange}.
Context (OperatorNamespace name : string).

(** The repository is being deleted, and held. *)
Definition doomed (mr : ModelRepository) : Prop :=
  mr_Name mr = name /\ meta_DeletionTimestamp (mr_Meta mr) <> None /\ meta_Finalizers (mr_Meta mr) <> [] /\
  mrs_ModelName (mr_Spec mr) <> EmptyString.

(** Its deletion was refused. *)
Definition refused (mr : ModelRepository) : Prop :=
  mst_Phase (mr_Status mr) = DownloadPhaseFailed /\
  exists d, FindStatusCondition (mst_Conditions (mr_Status mr)) ModelRepoConditionReady = Some d /\
    cond_Status d = ConditionFalse /\ cond_Reason d = ModelRepoReasonDeletionBlocked.

(** A write of its status. *)
Lemma doomed_write_leads mr0 ct cst reason msg mr c :
  mr_Name mr0 = name -> cl_repos c !! name = Some mr -> doomed mr ->
  leads mem (setCondition mr0 ct cst reason msg) c (fun _ c' => exists mr' now,
    doomed mr' /\ meta_Finalizers (mr_Meta mr') = meta_Finalizers (mr_Meta mr) /\
    mr_Status mr' = apply_condition (condition ct cst reason msg) now (mr_Status mr) /\
    wrote name c mr' c').
Proof.
  intros Hn0 Hmr (Hn & Hd & Hf & Hm). unfold setCondition. apply leads_bind.
  eapply leads_conseq; [unfold syncStatus; apply (leads_RetryOnConflict mem (L := L))|].
  2: { intros r c' [_ H]. exact H. }
  unfold sync_attempt. rewrite Hn0. eapply leads_call; [reflexivity|]. unfold st_get. rewrite Hmr.
  cbn [prog_bind call leads mem fst snd]. set (st := apply_condition _ _ _).
  destruct (DeepEqualModelRepositoryStatus _ _) eqn:E.
  - apply DeepEqualModelRepositoryStatus_spec in E. cbn. split; [done|]. exists mr, (cl_clock c).
    split; [done|]. split; [done|]. split; [by rewrite E at 1|]. exists (cl_clock c + 1)%Z.
    rewrite insert_id by done. by destruct c.
  - cbn [leads call mem]. unfold mr_Name in *. cbn [mr_Meta mr_with_Status cl_repos set_clock]. rewrite Hn.
    unfold st_update. rewrite Hmr, bool_decide_true by done. cbv zeta.
    rewrite bool_decide_false by (cbn; tauto). cbn [fst snd leads to_opt]. split; [done|].
    eexists (bump mr_Meta mr_with_Meta (mr_with_Status st mr)), (cl_clock c).
    split; [done|]. split; [done|]. split; [done|]. by exists (cl_clock c + 1)%Z.
Qed.

Lemma refusing msg now mr mr' :
  mr_Status mr' = apply_condition (condition ModelRepoConditionReady ConditionFalse
    ModelRepoReasonDeletionBlocked msg) now (mr_Status mr) -> refused mr'.
Proof.
  intros E. unfold refused. rewrite E. cbn. unfold deriveModelRepoPhase. set (k := condition _ _ _ _).
  destruct (Find_Set_eq now (mst_Conditions (mr_Status mr)) k) as (d & Hd & _ & Hst & Hr & _).
  change (cond_Type k) with ModelRepoConditionReady in Hd. rewrite Hd, <- Hst, <- Hr. split; [done|].
  by exists d.
Qed.

(** *** The pass *)

(** Making the provider reads StorageClasses. *)
Lemma provider_reads mr c :
  leads mem (CreateProvider mr) c (fun _ c' => c' = c).
Proof.
  unfold CreateProvider. cbv zeta. case_bool_decide; [done|]. apply leads_bind.
  eapply (leads_conseq _ _ _ (fun _ c' => c' = c)); [|by intros [i|e] c' ->].
  unfold SelectBestStorageClass, DiscoverStorageClasses. cbn [prog_bind call leads mem fst snd].
  repeat case_bool_decide; try done. by destruct (selectByName _ _).
Qed.

Definition used (c : cluster) : Prop := exists k e, cl_engines c !! k = Some e /\ references name e = true.

Lemma used_dependents c : used c -> dependent_engines name (map_to_list (cl_engines c)).*2 <> [].
Proof.
  intros (k & e & He & Hr). apply dependent_engines_some with (le := e); [|done].
  apply list_elem_of_fmap. exists (k, e). split; [done|]. by apply elem_of_map_to_list.
Qed.

(** What is left to do once the engines were listed, and one of them uses it. *)
Lemma blocked_leads mr p c :
  cl_repos c !! name = Some mr -> doomed mr -> used c ->
  leads mem (RepoController.handleDeletion OperatorNamespace mr p) c (fun r c' => (exists err, r = Some err) /\
    exists mr', doomed mr' /\ refused mr' /\ meta_Finalizers (mr_Meta mr') = meta_Finalizers (mr_Meta mr) /\
      wrote name c mr' c').
Proof.
  intros Hmr Hd Hu. unfold RepoController.handleDeletion. eapply leads_call; [reflexivity|]. cbn beta iota zeta.
  rewrite (proj1 Hd), bool_decide_true by by apply used_dependents. apply leads_bind.
  eapply leads_conseq; [apply (doomed_write_leads _ _ _ _ _ mr); [apply Hd|done..]|].
  intros _ c' (mr' & now & Hd' & Hf & Hs & Hw). cbn. split; [by eexists|]. exists mr'.
  split; [done|]. split; [by eapply refusing|done].
Qed.

Lemma Reconcile_blocked_leads mr c :
  cl_repos c !! name = Some mr -> doomed mr -> used c ->
  leads mem (RepoController.Reconcile OperatorNamespace name) c (fun r c' =>
    (exists err, r = (no_requeue, Some err)) /\
    exists mr', doomed mr' /\ refused mr' /\ meta_Finalizers (mr_Meta mr') = meta_Finalizers (mr_Meta mr) /\
      wrote name c mr' c').
Proof.
  intros Hmr Hd Hu. unfold Reconcile. eapply leads_call; [reflexivity|]. unfold st_get. rewrite Hmr.
  rewrite bool_decide_false by apply Hd. apply leads_bind. eapply leads_conseq; [apply provider_reads|].
  intros r c' ->. destruct r; rewrite bool_decide_true by apply Hd; apply leads_bind;
    (eapply leads_conseq; [by apply blocked_leads|]); intros e0 c' [[err ->] H]; cbn; (split; [by eexists|done]).
Qed.

End Refusal.

(** ** A blocked deletion and the engine it protects *)
Section Blocked.
Context `{L : MachineryLaws} `{Sc : Scripts} `{Rg : GoRange} `{Y : Yaml}.
Context (OperatorNamespace name : string) (ns ename : string) (spec : LLMEngineSpec).

(** The repository is being deleted; the engine, which is not, references it, and
    all the repositories it references exist. *)
Record blocked (c : cluster) : Prop := {
  blocked_repo : exists mr, cl_repos c !! name = Some mr /\ doomed name mr;
  blocked_engine : present ns ename spec c;
  blocked_reference : name ∈ repo_names spec;
  blocked_fetch : fetchable spec c;
}.

(** The deletion was refused, and the engine waits. *)
Definition repo_refused (c : cluster) : Prop := exists mr, cl_repos c !! name = Some mr /\ refused mr.
Definition engine_waits (c : cluster) : Prop :=
  exists e, cl_engines c !! (ns, ename) = Some e /\ lst_Phase (le_Status e) = "Pending" /\
    exists d, FindStatusCondition (lst_Conditions (le_Status e)) LLMEngineConditionReady = Some d /\
      cond_Status d = ConditionFalse /\ cond_Reason d = LLMEngineReasonWaitingForModels.

(** Only the repository (which keeps its finalizers), the engine, and the clock
    changed. *)
Record only_two (c c' : cluster) : Prop := {
  two_repos n : n <> name -> cl_repos c' !! n = cl_repos c !! n;
  two_finalizers : (fun mr => meta_Finalizers (mr_Meta mr)) <$> cl_repos c' !! name =
    (fun mr => meta_Finalizers (mr_Meta mr)) <$> cl_repos c !! name;
  two_engines k : k <> (ns, ename) -> cl_engines c' !! k = cl_engines c !! k;
  two_rest : cl_jobs c' = cl_jobs c /\ cl_pvcs c' = cl_pvcs c /\ cl_pvs c' = cl_pvs c /\
    cl_deployments c' = cl_deployments c /\ cl_services c' = cl_services c /\
    cl_configmaps c' = cl_configmaps c /\ cl_nodes c' = cl_nodes c /\ cl_classes c' = cl_classes c;
}.

#[export] Instance only_two_preorder : PreOrder only_two.
Proof.
  split; [by intros c; split|]. intros c1 c2 c3 [A1 A2 A3 A4] [B1 B2 B3 B4]. split.
  - intros n Hn. by rewrite B1, A1.
  - by rewrite B2.
  - intros k Hk. by rewrite B3, A3.
  - intuition congruence.
Qed.

Lemma blocked_used c : blocked c -> used name c.
Proof.
  intros [_ (e & He & (_ & _ & Hs) & _) Hr _]. exists (ns, ename), e. split; [done|].
  unfold references. rewrite Hs. apply existsb_exists. unfold repo_names in Hr.
  apply list_elem_of_fmap in Hr as (ref & -> & Hin). exists ref. split; [by apply list_elem_of_In|].
  by apply bool_decide_eq_true.
Qed.

(** A pass over the repository. *)
Lemma repository_pass_leads c :
  blocked c ->
  leads mem (RepoController.Reconcile OperatorNamespace name) c (fun r c' =>
    (exists err, r = (no_requeue, Some err)) /\ blocked c' /\ repo_refused c' /\ only_two c c' /\
    cl_engines c' = cl_engines c).
Proof.
  intros Hb. destruct (blocked_repo _ Hb) as (mr & Hmr & Hd). eapply leads_conseq.
  { apply (Reconcile_blocked_leads _ _ mr); [done..|by apply blocked_used]. }
  intros r c' (Hr & mr' & Hd' & Href & Hf & t & ->). split; [done|]. split_and!; [split| |split|]; cbn; try done.
  - exists mr'. by rewrite lookup_insert_eq.
  - apply Hb.
  - apply Hb.
  - intros n Hn. cbn. destruct (decide (n = name)) as [->|Hne].
    + exists mr'. rewrite lookup_insert_eq. split; [done|]. apply Hd'.
    + rewrite lookup_insert_ne by done. by apply (blocked_fetch _ Hb).
  - exists mr'. cbn. by rewrite lookup_insert_eq.
  - intros n Hn. by rewrite lookup_insert_ne.
  - rewrite lookup_insert_eq, Hmr. cbn. by rewrite Hf.
Qed.

(** A pass over the engine, once the deletion was refused. *)
Lemma engine_pass_leads c :
  blocked c -> repo_refused c ->
  leads mem (EngineController.Reconcile ns ename) c (fun r c' =>
    r = (requeue_after 30, None) /\ blocked c' /\ repo_refused c' /\ only_two c c' /\ engine_waits c').
Proof.
  intros Hb Href. apply (pass_head ns ename spec); [apply Hb|]. intros e c1 Hw.
  pose proof (wrote_engine_present _ _ _ _ _ _ Hw) as Hp1. destruct Hw as (He & Hd & t & Hc1).
  assert (Hf1 : fetchable spec c1) by (rewrite Hc1; apply Hb).
  unfold reconcile_engine. apply leads_bind.
  eapply leads_conseq; [by apply (fetch_any_leads ns ename spec)|]. intros r c1' (-> & mrs & -> & Hn & Hmrs).
  destruct Href as (mr & Hmr & Hph & Hcond).
  assert (Hin : mr ∈ mrs).
  { pose proof (blocked_reference _ Hb) as Hr. rewrite <- Hn in Hr.
    apply list_elem_of_fmap in Hr as (mr0 & Hname & Hin). pose proof (proj1 (Forall_forall _ _) Hmrs _ Hin) as Hl.
    cbn in Hl. rewrite <- Hname, Hc1 in Hl. cbn in Hl. congruence. }
  rewrite bool_decide_false by (intros ->; by apply elem_of_nil in Hin).
  destruct (List.find _ mrs) as [mr0|] eqn:Ef.
  2: { apply list_elem_of_In in Hin. pose proof (List.find_none _ _ Ef _ Hin) as Hno. cbn in Hno.
       rewrite Hph in Hno. done. }
  unfold wait_for. cbv zeta. apply leads_bind. eapply leads_conseq.
  { apply (sync_present ns ename spec c1 e (fun s => s)); done. }
  intros r c2 (-> & old & new & _ & Hw2 & Hby). cbn [leads]. split; [done|].
  pose proof (wrote_engine_present _ _ _ _ _ _ Hw2) as Hp2. destruct Hw2 as (_ & _ & t' & ->).
  rewrite Hc1 in *. split; [split; [apply Hb|exact Hp2|apply Hb|apply Hb]|].
  split; [by exists mr|]. split.
  - split; cbn; [done|done| |done]. intros k Hk. by rewrite !lookup_insert_ne.
  - exists new. cbn. rewrite lookup_insert_eq. split; [done|].
    destruct (engine_conditions_spec [condition LLMEngineConditionModelsAvailable ConditionFalse
      LLMEngineReasonWaitingForModels ("Waiting for ModelRepository " +:+ mr_Name mr0 +:+ " (phase: " +:+
             mst_Phase (mr_Status mr0) +:+ ")")] ConditionFalse LLMEngineReasonWaitingForModels
      ("Waiting for ModelRepository " +:+ mr_Name mr0 +:+ " (phase: " +:+
             mst_Phase (mr_Status mr0) +:+ ")") (le_Status old) (le_Status new)) as (_ & (d & Hd1 & _ & Hst & Hre & _) & _ & Hphase & _).
    + by repeat constructor.
    + apply NoDup_singleton.
    + exact Hby.
    + split; [exact Hphase|]. by exists d.
Qed.

(** Passes over the two, one after the other. *)
Fixpoint passes (l : list handler) (c : cluster) : list (handler * outcome (Result * err_opt)) * cluster :=
  match l with
  | [] => ([], c)
  | hd :: l =>
      let '(_, o, c) := run mem (body OperatorNamespace hd) c in
      let '(os, c) := passes l c in ((hd, o) :: os, c)
  end.

Definition one_of_two (hd : handler) : Prop := hd = RepositoryPass name \/ hd = EnginePass ns ename.
Definition as_refused (x : handler * outcome (Result * err_opt)) : Prop :=
  match x.1 with
  | RepositoryPass _ => exists err, x.2 = Done (no_requeue, Some err)
  | EnginePass _ _ => x.2 = Done (requeue_after 30, None)
  end.

Lemma pass_step hd l c Q :
  leads mem (body OperatorNamespace hd) c Q ->
  exists r c1, Q r c1 /\ passes (hd :: l) c = ((hd, Done r) :: (passes l c1).1, (passes l c1).2).
Proof.
  intros Hl. destruct (leads_run _ _ _ _ Hl) as (t & r & c1 & Hrun & HQ). exists r, c1. split; [done|].
  cbn [passes]. rewrite Hrun. by destruct (passes l c1).
Qed.

(** Once refused and waiting, they stay so. *)
Lemma passes_stay l c :
  Forall one_of_two l -> blocked c -> repo_refused c -> engine_waits c ->
  Forall as_refused (passes l c).1 /\ blocked (passes l c).2 /\ repo_refused (passes l c).2 /\
  engine_waits (passes l c).2 /\ only_two c (passes l c).2.
Proof.
  intros Hl. revert c. induction Hl as [|hd l Hhd _ IH]; intros c Hb Hr Hw; [by split_and!|].
  assert (H : exists r c1, passes (hd :: l) c = ((hd, Done r) :: (passes l c1).1, (passes l c1).2) /\
    as_refused (hd, Done r) /\ blocked c1 /\ repo_refused c1 /\ engine_waits c1 /\ only_two c c1).
  { destruct Hhd as [->| ->].
    - destruct (pass_step (RepositoryPass name) l c _ (repository_pass_leads c Hb))
        as (r & c1 & ([err ->] & Hb1 & Hr1 & Ho & He) & ->). exists (no_requeue, Some err), c1.
      split_and!; try done; [by exists err|]. unfold engine_waits. by rewrite He.
    - destruct (pass_step (EnginePass ns ename) l c _ (engine_pass_leads c Hb Hr))
        as (r & c1 & (-> & Hb1 & Hr1 & Ho & Hw1) & ->). exists (requeue_after 30, None), c1. by split_and!. }
  destruct H as (r & c1 & -> & Ho & Hb1 & Hr1 & Hw1 & Ht). destruct (IH c1 Hb1 Hr1 Hw1) as (I1 & I2 & I3 & I4 & I5).
  cbn [fst snd]. split_and!; [by constructor|done..|by etrans].
Qed.

End Blocked.

(** Property C36: a blocked deletion takes the engine it protects out of service.
    On the server in memory take any cluster with a repository that is being
    deleted and an engine, not being deleted and running or not, that references
    it, all of whose repositories exist.  A pass over the repository refuses the
    deletion and makes its Ready condition false and its phase Failed; a pass over
    the engine then finds it not ready, and makes the engine Pending, waiting for
    its models; and so it stays, however many passes over the two follow, in any
    order.  Meanwhile the engine's deployments, with their ready pods, and all else
    are left as they are, and the repository keeps its finalizers. *)
Theorem blocked_deletion_demotes_engine `{L : MachineryLaws} `{Sc : Scripts} `{Rg : GoRange} `{Y : Yaml}
    OperatorNamespace name ns ename spec l c :
  blocked name ns ename spec c -> Forall (one_of_two name ns ename) l ->
  let '(os, c') := passes OperatorNamespace (RepositoryPass name :: EnginePass ns ename :: l) c in
  Forall as_refused os /\ repo_refused name c' /\ engine_waits ns ename c' /\
  only_two name ns ename c c' /\ blocked name ns ename spec c'.
Proof.
  intros Hb Hl.
  destruct (pass_step OperatorNamespace (RepositoryPass name) (EnginePass ns ename :: l) c _
    (repository_pass_leads OperatorNamespace name ns ename spec c Hb)) as (r & c1 & ([err ->] & Hb1 & Hr1 & Ho1 & _) & ->).
  destruct (pass_step OperatorNamespace (EnginePass ns ename) l c1 _
    (engine_pass_leads name ns ename spec c1 Hb1 Hr1)) as (r & c2 & (-> & Hb2 & Hr2 & Ho2 & Hw2) & ->).
  destruct (passes_stay OperatorNamespace name ns ename spec l c2 Hl Hb2 Hr2 Hw2) as (I1 & I2 & I3 & I4 & I5).
  cbn [fst snd]. split; [|split; [done|split; [done|split; [|done]]]].
  - repeat (apply Forall_cons; split); [by exists err|done|done].
  - etrans; [exact Ho1|]. by etrans.
Qed.

(** ** The race *)

(** What does not look at engines. *)
Definition engine_free (r : req) : Prop :=
  match r with
  | GetLLMEngine _ _ | UpdateLLMEngine _ | UpdateLLMEngineStatus _ | ListLLMEngines => False
  | _ => True
  end.

Lemma mem_engine_free r E c :
  engine_free r -> mem r (set_engines E c) = ((mem r c).1, set_engines E (mem r c).2).
Proof.
  destruct r; try done; intros _; cbn;
    by repeat match goal with |- context [let '(_, _) := ?x in _] => destruct x end.
Qed.

(** Some requests of a program. *)
Fixpoint steps {A} (n : nat) (p : prog A) (c : cluster) : trace * prog A * cluster :=
  match n, p with
  | S n, Call r k =>
      let '(a, c) := mem r c in
      let '(t, q, c) := steps n (k a) c in (Ev r a :: t, q, c)
  | _, _ => ([], p, c)
  end.
Definition over {A} (o : outcome A) : prog A :=
  match o with Done a => Ret a | Panicked m => Crash m end.

Lemma steps_free {A} n (p : prog A) E c :
  calls_only engine_free p ->
  let '(t, q, c') := steps n p c in
  steps n p (set_engines E c) = (t, q, set_engines E c') /\ calls_only engine_free q.
Proof.
  revert p c. induction n as [|n IH]; intros p c Hp; [done|]. destruct p as [a|m|r k]; [done..|].
  destruct Hp as [Hr Hk]. cbn [steps]. rewrite mem_engine_free by done. destruct (mem r c) as [a c1]. cbn [fst snd].
  specialize (IH (k a) c1 (Hk a)). destruct (steps n (k a) c1) as [[t q] c2]. by destruct IH as [-> ?].
Qed.

(** A run goes through them, *)
Lemma steps_run {A} n (p : prog A) c :
  run mem p c = let '(t, q, c1) := steps n p c in let '(t', o, c2) := run mem q c1 in (t ++ t', o, c2).
Proof.
  revert p c. induction n as [|n IH]; intros p c; [cbn; by destruct (run mem p c) as [[]]|].
  destruct p as [a|m|r k]; [done..|]. cbn [run steps]. destruct (mem r c) as [a c1].
  rewrite (IH (k a) c1). destruct (steps n (k a) c1) as [[t q] c2]. by destruct (run mem q c2) as [[]].
Qed.

(** and ends with enough of them. *)
Lemma steps_end {A} (p : prog A) c :
  exists m, steps m p c = let '(t, o, c') := run mem p c in (t, over o, c').
Proof.
  revert c. induction p as [a|m|r k IH]; intros c; [by exists 0%nat..|]. cbn [run].
  destruct (mem r c) as [a c1] eqn:Er. destruct (IH a c1) as [m Hm]. exists (S m). cbn [steps]. rewrite Er, Hm.
  by destruct (run mem (k a) c1) as [[]].
Qed.

Lemma steps_add {A} n m (p : prog A) c :
  steps (n + m) p c = let '(t, q, c1) := steps n p c in let '(t', q', c2) := steps m q c1 in (t ++ t', q', c2).
Proof.
  revert p c. induction n as [|n IH]; intros p c; [cbn; by destruct (steps m p c) as [[]]|].
  destruct p as [a|s|r k]; [by destruct m..|]. cbn [Nat.add steps]. destruct (mem r c) as [a c1].
  rewrite IH. destruct (steps n (k a) c1) as [[t q] c2]. by destruct (steps m q c2) as [[]].
Qed.

Section Race.
Context `{L : MachineryLaws} `{Sc : Scripts} `{Rg : GoRange} `{Y : Yaml}.
Context (OperatorNamespace name : string).

(** A pass over the repository; after [i] of its requests somebody sets the
    engines; then the rest of it. *)
Definition race (c : cluster) (i m : nat) (E : gmap key LLMEngine) : system :=
  schedule OperatorNamespace mem (mkSystem c [])
    [DoStart (RepositoryPass name); DoAdvance 0 i; DoChange (set_engines E); DoAdvance 0 m].

Lemma advance_steps hd h p c n :
  Nat.iter n (advance mem 0) (mkSystem c [mkPass hd h p]) =
  let '(t, q, c1) := steps n p c in mkSystem c1 [mkPass hd (h ++ t) q].
Proof.
  revert h p c. induction n as [|n IH]; intros h p c; [cbn; by rewrite app_nil_r|]. rewrite Nat.iter_succ_r.
  destruct p as [a|m|r k].
  - change (advance mem 0 ?s) with s. rewrite IH. by destruct n.
  - change (advance mem 0 ?s) with s. rewrite IH. by destruct n.
  - change (advance mem 0 (mkSystem c [mkPass hd h (Call r k)])) with
      (let '(a, c1) := mem r c in mkSystem c1 [mkPass hd (h ++ [Ev r a]) (k a)]).
    cbn [steps]. destruct (mem r c) as [a c1]. rewrite IH.
    destruct (steps n (k a) c1) as [[t q] c2]. by rewrite <- app_assoc.
Qed.

Lemma race_steps c i m E :
  race c i m E =
  let '(t, q, c1) := steps i (RepoController.Reconcile OperatorNamespace name) c in
  let '(t', q', c2) := steps m q (set_engines E c1) in
  mkSystem c2 [mkPass (RepositoryPass name) (t ++ t') q'].
Proof.
  unfold race, schedule. cbn [fold_left act].
  change (start _ _ _) with (mkSystem c [mkPass (RepositoryPass name) []
    (RepoController.Reconcile OperatorNamespace name)]). rewrite advance_steps. destruct (steps i _ c) as [[t q] c1]. cbn [app].
  change (change _ _) with (mkSystem (set_engines E c1) [mkPass (RepositoryPass name) t q]). by rewrite advance_steps.
Qed.

(** The first requests of a pass over a repository that is being deleted, and that
    the rest does not look at the engines. *)
Lemma select_call mr c :
  class_available (mr_Spec mr) c -> exists ks sc,
    SelectBestStorageClass (sto_StorageClass (mrs_Storage (mr_Spec mr))) = Call ListStorageClasses ks /\
    ks (Ok (cl_classes c)) = Ret (Ok sc).
Proof.
  intros Hc. pose proof (select_leads (mr_Spec mr) c Hc) as Hl.
  unfold SelectBestStorageClass, DiscoverStorageClasses in *. cbn [prog_bind call leads mem fst snd] in *.
  eexists _. enough (H : exists sc, _ = Ret (Ok sc)) by (destruct H as [sc H]; exists sc; split; [reflexivity|exact H]).
  cbn [prog_bind]. cbn [prog_bind leads]. revert Hl. repeat case_bool_decide; cbn [leads]; [by intros [_ [sc [=]]]|by intros [_ [sc ->]]; exists sc|].
  destruct (selectByName _ _); [by eexists|]. by intros [_ [sc [=]]].
Qed.

Lemma deletion_head mr c :
  doomed name mr -> providable mr c -> exists k1 k2 k3,
    RepoController.Reconcile OperatorNamespace name = Call (GetModelRepository name) k1 /\
    k1 (Ok mr) = Call ListStorageClasses k2 /\ k2 (Ok (cl_classes c)) = Call ListLLMEngines k3 /\
    forall es, dependent_engines name es = [] -> calls_only engine_free (k3 (Ok es)).
Proof.
  intros (Hn & Hd & _ & Hm) [Hsize Hclass]. destruct (select_call mr c Hclass) as (ks & sc & Hs & Hks).
  unfold Reconcile. cbn [prog_bind call]. do 3 eexists. split; [reflexivity|]. cbn beta iota.
  rewrite bool_decide_false by done. unfold CreateProvider. cbv zeta. rewrite bool_decide_false by done.
  rewrite Hs. cbn [prog_bind]. split; [reflexivity|]. cbn beta. rewrite Hks. cbn [prog_bind].
  rewrite bool_decide_true by done. unfold RepoController.handleDeletion. cbn [prog_bind call].
  split; [reflexivity|]. intros es Hes. cbn beta iota. rewrite Hn, Hes, bool_decide_false by (by intros []).
  unfold delete_jobs, Cleanup, delete_repo_pvc, remove_finalizer. calls_tac; try done.
  apply calls_only_RetryOnConflict. calls_tac; done.
Qed.

(** The engines appear before they are listed, *)
Lemma race_early mr c E k le i :
  cl_repos c !! name = Some mr -> doomed name mr -> providable mr c ->
  E !! k = Some le -> references name le = true -> (i < 3)%nat ->
  exists m t err mr', sys_passes (race c i m E) =
      [mkPass (RepositoryPass name) t (Ret (no_requeue, Some err))] /\
    t !! 2%nat = Some (Ev ListLLMEngines (Ok (map_to_list E).*2)) /\
    cl_engines (sys_server (race c i m E)) = E /\
    cl_repos (sys_server (race c i m E)) !! name = Some mr' /\ refused mr' /\
    meta_Finalizers (mr_Meta mr') = meta_Finalizers (mr_Meta mr).
Proof.
  intros Hmr Hd Hp He Hr Hi. set (P := RepoController.Reconcile OperatorNamespace name).
  destruct (deletion_head mr c Hd Hp) as (k1 & k2 & k3 & H1 & H2 & H3 & _). fold P in H1.
  assert (Hs : exists t q, steps i P c = (t, q, c) /\ steps i P (set_engines E c) = (t, q, set_engines E c)).
  { assert (Hg : forall E', st_get name (cl_repos (set_engines E' c)) = Ok mr) by (intros; unfold st_get; cbn; by rewrite Hmr).
    assert (Hg' : st_get name (cl_repos c) = Ok mr) by (unfold st_get; by rewrite Hmr).
    destruct i as [|[|[|i]]]; [..|lia]; [by exists [], P|..]; rewrite H1; cbn [steps mem fst snd]; rewrite Hg, Hg';
      [by do 2 eexists|]. rewrite H2. cbn [steps mem fst snd]. by do 2 eexists. }
  destruct Hs as (t & q & Hs & HsE). destruct (steps_end q (set_engines E c)) as [m Hm].
  pose proof (steps_run i P (set_engines E c)) as Hrun. rewrite HsE in Hrun.
  destruct (run mem q (set_engines E c)) as [[t' o] c2].
  assert (Hb : leads mem P (set_engines E c) (fun r c' => (exists err, r = (no_requeue, Some err)) /\
    exists mr', doomed name mr' /\ refused mr' /\ meta_Finalizers (mr_Meta mr') = meta_Finalizers (mr_Meta mr) /\
      wrote name (set_engines E c) mr' c')) by (apply Reconcile_blocked_leads; [done..|]; by exists k, le).
  destruct (leads_run _ _ _ _ Hb) as (t1 & r & c1 & Hrun' & [err ->] & mr' & _ & Href & Hf & tm & Hw).
  rewrite Hrun in Hrun'. injection Hrun' as Ht -> ->.
  assert (Hrace : race c i m E = mkSystem c1 [mkPass (RepositoryPass name) t1 (Ret (no_requeue, Some err))]).
  { rewrite race_steps. fold P. by rewrite Hs, Hm, Ht. }
  exists m, t1, err, mr'. rewrite Hrace. cbn [sys_server]. split; [done|]. split.
  - assert (Ht3 : t1 = (run mem P (set_engines E c)).1.1) by by rewrite Hrun, Ht.
    rewrite Ht3, H1. cbn [run mem]. unfold st_get. cbn [cl_repos set_engines]. rewrite Hmr, H2. cbn [run mem].
    cbn [cl_classes set_engines]. rewrite H3. cbn [run mem].
    destruct (run mem (k3 _) _) as [[]]. done.
  - subst c1. cbn. rewrite lookup_insert_eq. done.
Qed.

(** or after. *)
Lemma race_late mr c E i :
  tidy c -> cl_repos c !! name = Some mr -> doomed name mr -> providable mr c ->
  others (slot_of ModelRepositoryFinalizer (mr_Meta mr)) = false ->
  (forall k e, cl_engines c !! k = Some e -> references name e = false) -> (3 <= i)%nat ->
  exists m t, sys_passes (race c i m E) = [mkPass (RepositoryPass name) t (Ret (no_requeue, None))] /\
    t !! 2%nat = Some (Ev ListLLMEngines (Ok (map_to_list (cl_engines c)).*2)) /\
    cl_engines (sys_server (race c i m E)) = E /\ cl_repos (sys_server (race c i m E)) !! name = None.
Proof.
  intros Hc Hmr Hd Hp Hours Hfree Hi. set (P := RepoController.Reconcile OperatorNamespace name).
  destruct (deletion_head mr c Hd Hp) as (k1 & k2 & k3 & H1 & H2 & H3 & H4). fold P in H1.
  set (es := (map_to_list (cl_engines c)).*2). set (q := k3 (Ok es)).
  assert (Hq : calls_only engine_free q).
  { apply H4, no_dependents. intros e He. unfold es in He. rewrite list_elem_of_fmap in He.
    destruct He as ([k e'] & -> & Hin). apply elem_of_map_to_list in Hin. by eapply Hfree. }
  assert (H5 : exists t3, steps 3 P c = (t3, q, c) /\ length t3 = 3%nat /\ t3 !! 2%nat = Some (Ev ListLLMEngines (Ok es))).
  { rewrite H1. cbn [steps mem fst snd]. unfold st_get. rewrite Hmr, H2. cbn [steps mem fst snd]. rewrite H3.
    cbn [steps mem fst snd]. by eexists. }
  destruct H5 as (t3 & Hs3 & Hlen & Ht3). replace i with (3 + (i - 3))%nat by lia. set (j := (i - 3)%nat).
  pose proof (steps_free j q E c Hq) as Hj. pose proof (steps_add 3 j P c) as Hadd. rewrite Hs3 in Hadd.
  destruct (steps j q c) as [[t' q'] c'] eqn:Ej. destruct Hj as [_ Hq'].
  destruct (steps_end q' c') as [m Hm]. pose proof (steps_free m q' E c' Hq') as HmE.
  pose proof (steps_run (3 + j) P c) as Hrun. rewrite Hadd in Hrun.
  destruct (run mem q' c') as [[t'' o] c'']. rewrite Hm in HmE. destruct HmE as [HmE _].
  destruct Hd as (Hn & Hdel & Hfin & Hmodel).
  destruct (leads_run _ _ _ _ (Repo_Reconcile_deleted_leads OperatorNamespace name mr c Hc Hmr Hdel Hmodel Hp Hfree))
    as (t1 & r & c1 & Hrun' & -> & Hleft). fold P in Hrun'. rewrite Hrun in Hrun'. injection Hrun' as Ht -> ->.
  assert (Hrace : race c (3 + j) m E =
    mkSystem (set_engines E c1) [mkPass (RepositoryPass name) t1 (Ret (no_requeue, None))]).
  { rewrite race_steps. fold P. by rewrite Hadd, HmE, <- Ht. }
  exists m, t1. rewrite Hrace. cbn [sys_server]. split; [done|]. split; [|split; [done|]].
  - rewrite <- Ht, <- !app_assoc, lookup_app_l by lia. exact Ht3.
  - eapply given_up_gone; [exact (left_repo _ _ _ _ Hleft)|by left|exact Hmr|exact Hours].
Qed.

End Race.

(** Property C37: the check before a deletion does not exclude a race.  On the
    server in memory take any cluster with a repository that is being deleted, held
    by the operator only, that no engine references (it needs a name for its model,
    and a provider for its claim), and let engines of which one references it
    appear after any number of the requests of the pass that deletes it.  If they
    appear before the third, which lists the engines, the deletion is refused, and
    the repository stays, with its finalizers; if they appear after it, however
    late, the pass reports success, the repository is gone, and the engine is left
    with a reference to nothing. *)
Theorem deletion_race `{L : MachineryLaws} `{Sc : Scripts} `{Rg : GoRange} `{Y : Yaml}
    OperatorNamespace name mr c E k le i :
  tidy c -> cl_repos c !! name = Some mr -> meta_DeletionTimestamp (mr_Meta mr) <> None ->
  others (slot_of ModelRepositoryFinalizer (mr_Meta mr)) = false ->
  mrs_ModelName (mr_Spec mr) <> EmptyString -> providable mr c ->
  (forall k e, cl_engines c !! k = Some e -> references name e = false) ->
  E !! k = Some le -> references name le = true ->
  exists m, let s := race OperatorNamespace name c i m E in
    cl_engines (sys_server s) = E /\
    exists t r, sys_passes s = [mkPass (RepositoryPass name) t (Ret r)] /\
    if decide (i < 3)%nat then
      t !! 2%nat = Some (Ev ListLLMEngines (Ok (map_to_list E).*2)) /\ (exists err, r = (no_requeue, Some err)) /\
      exists mr', cl_repos (sys_server s) !! name = Some mr' /\ refused mr' /\
        meta_Finalizers (mr_Meta mr') = meta_Finalizers (mr_Meta mr)
    else
      t !! 2%nat = Some (Ev ListLLMEngines (Ok (map_to_list (cl_engines c)).*2)) /\ r = (no_requeue, None) /\
      cl_repos (sys_server s) !! name = None.
Proof.
  intros Hc Hmr Hdel Hours Hmodel Hp Hfree He Hr. destruct (tidy_repos _ Hc _ _ Hmr) as [Hn Hfin].
  assert (Hd : doomed name mr) by (split_and!; auto). case_decide as Hi.
  - destruct (race_early OperatorNamespace name mr c E k le i Hmr Hd Hp He Hr Hi) as (m & t & err & mr' & H1 & H2 & H3 & H4).
    exists m. split; [exact H3|]. exists t, (no_requeue, Some err). split; [exact H1|].
    split; [exact H2|]. split; [by eexists|]. by exists mr'.
  - destruct (race_late OperatorNamespace name mr c E i Hc Hmr Hd Hp Hours Hfree) as (m & t & H1 & H2 & H3 & H4); [lia|].
    exists m. split; [exact H3|]. exists t, (no_requeue, None). split; [exact H1|]. by split.
Qed.

(** ** Witnesses *)

(** An engine that runs, and a repository it uses that somebody deletes. *)
Definition demoted_cluster : cluster :=
  delete_repo (sys_server (play kept_cluster
    [engine_pass; DoAdvance 0 99; DoChange bind_claims; engine_pass; DoAdvance 1 99;
     DoChange start_pods; engine_pass; DoAdvance 2 99])).
Definition demoted_spec : LLMEngineSpec := le_Spec (life_engine "chat" "llama" None).

Lemma demoted_blocked : blocked "llama" "team" "chat" demoted_spec demoted_cluster.
Proof.
  split.
  - eexists. split; [vm_compute; reflexivity|]. by split_and!.
  - eexists. split; [vm_compute; reflexivity|]. by split_and!.
  - by left.
  - intros r Hr. assert (r = "llama") as -> by (by apply list_elem_of_singleton in Hr).
    eexists. split; vm_compute; reflexivity.
Qed.

Lemma blocked_deletion_demotes_engine_witness :
  let M := Reference.machinery in
  let S := witness_scripts in
  let R := witness_range in
  let Y := witness_yaml in
  let l := [EnginePass "team" "chat"; RepositoryPass "llama"] in
  (fun e => lst_Phase (le_Status e)) <$> cl_engines demoted_cluster !! ("team", "chat") = Some "Running" /\
  map dep_ReadyReplicas (map_to_list (cl_deployments demoted_cluster)).*2 = [1%Z] /\
  let '(os, c') := passes "aitrigram-system" (RepositoryPass "llama" :: EnginePass "team" "chat" :: l)
    demoted_cluster in
  Forall as_refused os /\ repo_refused "llama" c' /\ engine_waits "team" "chat" c' /\
  only_two "llama" "team" "chat" demoted_cluster c' /\ blocked "llama" "team" "chat" demoted_spec c'.
Proof.
  intros M S R Y l. split; [vm_compute; reflexivity|]. split; [vm_compute; reflexivity|].
  apply (blocked_deletion_demotes_engine (L := Reference.laws) "aitrigram-system" "llama" "team" "chat"
    demoted_spec l demoted_cluster demoted_blocked).
  repeat (apply Forall_cons; split); [by right|by left|by apply Forall_nil].
Defined.

(** A repository that is being deleted and that nobody uses, and an engine that
    appears. *)
Definition doomed_repo : ModelRepository :=
  mr_with_Meta (mkMeta "llama" EmptyString ∅ ∅ [ModelRepositoryFinalizer] (Some 7%Z) [] 1) (life_repo "llama").
Definition doomed_cluster : cluster :=
  set_engines ∅ (set_repos {["llama" := doomed_repo]} kept_cluster).
Definition appearing : gmap key LLMEngine := {[("team", "chat") := life_engine "chat" "llama" None]}.

Lemma deletion_race_witness :
  let M := Reference.machinery in
  let S := witness_scripts in
  let R := witness_range in
  let Y := witness_yaml in
  exists m, let s := race EmptyString "llama" doomed_cluster 4 m appearing in
    cl_engines (sys_server s) = appearing /\
    exists t r, sys_passes s = [mkPass (RepositoryPass "llama") t (Ret r)] /\
    t !! 2%nat = Some (Ev ListLLMEngines (Ok (map_to_list (cl_engines doomed_cluster)).*2)) /\
    r = (no_requeue, None) /\ cl_repos (sys_server s) !! "llama" = None.
Proof.
  intros M S R Y.
  apply (deletion_race (L := Reference.laws) EmptyString "llama" doomed_repo doomed_cluster
    appearing ("team", "chat") (life_engine "chat" "llama" None) 4); try done.
  - split; apply all_objects; vm_compute; repeat constructor; congruence.
  - split; [done|]. split; [done|]. right. by left.
Defined.
