(* ===== verification/Termination.v ===== *)
(** * How long a pass takes

    A bound on the requests a program makes, as long as the answers satisfy [E];
    it is compositional, and gives one for every function that talks to the API
    server and for a whole pass of each controller. *)

From S2P Require Import Prelude Naming Api Kube Machinery MemServer StorageDiscovery Backend.
From S2P Require Import EngineStorage StorageProvider Jobs RepoStatus RepoController RepoSafety GoStd.
From S2P Require Import EngineConfig VllmConfig EngineAdapters Workload EngineStatus EngineController.
From S2P Require Import EngineLife WellFormed System.
From stdpp Require Import relations.

Local Open Scope go_scope.

(** [p] makes at most [n] requests, and returns something that satisfies [P]. *)
Fixpoint within {A} (E : event -> Prop) (n : nat) (p : prog A) (P : A -> Prop) {struct p} : Prop :=
  match p with
  | Ret a => P a
  | Crash _ => True
  | Call r k =>
      match n with
      | O => False
      | S n => forall a, E (Ev r a) -> within E n (k a) P
      end
  end.

Definition anything {A} (_ : A) : Prop := True.

Section Rules.
Context {E : event -> Prop}.

Lemma within_run {W A} (srv : server W) n (p : prog A) P w t o w' :
  within E n p P -> run srv p w = (t, o, w') -> Forall E t -> (length t <= n)%nat.
Proof.
  revert n w t. induction p as [a|m|r k IH]; intros n w t; cbn; [by intros _ [= <- _ _]; cbn; lia..|].
  destruct n as [|n]; [done|]. intros Hk. destruct (srv r w) as [a w1].
  destruct (run srv (k a) w1) as [[t' o'] w2] eqn:Er. intros Heq Ht. simplify_eq.
  apply Forall_cons in Ht as [Ha Ht]. cbn. specialize (IH a n w1 t' (Hk a Ha) Er Ht). lia.
Qed.

Lemma within_mono {A} n m (p : prog A) (P Q : A -> Prop) :
  within E n p P -> (n <= m)%nat -> (forall a, P a -> Q a) -> within E m p Q.
Proof.
  intros Hp Hn HP. revert n m Hp Hn. induction p as [a|w|r k IH]; intros n m; cbn; [auto..|].
  destruct n as [|n], m as [|m]; [done|done|lia|]. intros Hk Hn a Ha. eapply IH; [by apply Hk|lia].
Qed.

Lemma within_bind {A B} c n (p : prog A) (f : A -> prog B) P Q :
  within E c p P -> (c <= n)%nat -> (forall a, P a -> within E (n - c) (f a) Q) ->
  within E n (prog_bind p f) Q.
Proof.
  revert c n. induction p as [a|w|r k IH]; intros c n; cbn.
  - intros Ha Hc Hf. eapply within_mono; [by apply Hf|lia|done].
  - done.
  - destruct c as [|c], n as [|n]; [done|done|lia|]. intros Hk Hc Hf a Ha.
    eapply IH; [by apply Hk|lia|]. intros b Hb. apply (Hf b Hb).
Qed.

Lemma within_call {B} r n (f : resp r -> prog B) Q :
  (1 <= n)%nat -> (forall a, E (Ev r a) -> within E (n - 1) (f a) Q) ->
  within E n (prog_bind (call r) f) Q.
Proof.
  intros Hn Hf. destruct n as [|n]; [lia|]. cbn. intros a Ha. replace n with (S n - 1)%nat by lia. auto.
Qed.

Lemma within_last_call r n : (1 <= n)%nat -> within E n (call r) anything.
Proof. destruct n; [lia|done]. Qed.

Lemma within_lift {A B} n (o : outcome A) (f : A -> prog B) Q :
  (forall a, o = Done a -> within E n (f a) Q) -> within E n (prog_bind (lift o) f) Q.
Proof. destruct o; cbn; auto. Qed.

(** A loop, by an invariant on the elements left and the accumulator, or on the
    accumulator. *)
Lemma within_for_each_left {A S B} c (l : list A) (s : S) (body : S -> A -> prog (S + B))
    (I : list A -> S -> Prop) :
  I l s ->
  (forall s x l, I (x :: l) s -> within E c (body s x) (fun r => match r with inl s => I l s | inr _ => True end)) ->
  within E (length l * c) (for_each l s body) (fun r => match r with inl s => I [] s | inr _ => True end).
Proof.
  revert s. induction l as [|x l IH]; intros s Hs Hb; cbn; [done|].
  eapply within_bind; [by apply Hb|lia|]. intros [s'|b] Hs'; [|done].
  eapply within_mono; [by apply (IH s' Hs')|lia|done].
Qed.

Lemma within_for_each {A S B} n c (l : list A) (s : S) (body : S -> A -> prog (S + B)) (I : S -> Prop) :
  I s -> (length l <= n)%nat ->
  (forall s x, I s -> within E c (body s x) (fun r => match r with inl s => I s | inr _ => True end)) ->
  within E (n * c) (for_each l s body) (fun r => match r with inl s => I s | inr _ => True end).
Proof.
  intros Hs Hl Hb. eapply within_mono; [apply (within_for_each_left c l s body (fun _ => I) Hs)| |done].
  - intros s' x _. apply Hb.
  - by apply Nat.mul_le_mono_r.
Qed.

Lemma within_retry_loop c n p :
  within E c p anything -> within E (S n * c) (retry_loop n p) anything.
Proof.
  intros Hp. induction n as [|n IH]; cbn [retry_loop].
  - eapply within_bind; [exact Hp|lia|]. by intros [e|] _.
  - eapply within_bind; [exact Hp|lia|]. intros [e|] _; [|done]. destruct (IsConflict e); [|done].
    eapply within_mono; [exact IH|lia|done].
Qed.

End Rules.

(** Walk through a function; what it calls is in the hint database [within]. *)
Create HintDb within.
Ltac within_step :=
  lazymatch goal with
  | |- within _ _ (prog_bind (call _) _) _ => apply within_call; [lia|intros ? ?]
  | |- within _ _ (prog_bind (lift _) _) _ => apply within_lift; intros ? ?
  | |- within _ _ (prog_bind (Ret _) _) _ => cbn [prog_bind]
  | |- within _ _ (prog_bind (match ?x with _ => _ end) _) _ => destruct x eqn:?
  | |- within _ _ (prog_bind _ _) _ =>
      eapply within_bind; [solve [eauto with within]|lia|intros ? ?]
  | |- within _ _ (Ret _) _ => cbn [within]; try (first [exact I|done])
  | |- within _ _ (Crash _) _ => exact I
  | |- within _ ?n (call ?r) _ => exact (within_last_call r n ltac:(lia))
  | |- within _ _ (match ?x with _ => _ end) _ => destruct x eqn:?
  | |- within _ _ (let _ := _ in _) _ => cbv zeta
  | |- within _ _ _ _ => eapply within_mono; [solve [eauto with within]|lia|try (first [exact (fun _ _ => I)|done])]
  end.

(** ** Answers of a given size

    Engines with at most [refs] references, repositories that ask for at most
    [revs] revisions, and at most [jobs] jobs of a repository. *)
Definition sized (refs revs jobs : nat) (ev : event) : Prop :=
  let engine le := (length (les_ModelRefs (le_Spec le)) <= refs)%nat in
  let repo mr := (length (getDesiredRevisions mr) <= revs)%nat in
  match ev with
  | Ev (GetLLMEngine _ _) r => on_ok engine r
  | Ev (UpdateLLMEngine _) r => on_ok engine r
  | Ev (GetModelRepository _) r => on_ok repo r
  | Ev (UpdateModelRepository _) r => on_ok repo r
  | Ev (ListJobs _ _) r => on_ok (fun js => length js <= jobs)%nat r
  | _ => True
  end.

Section Bounds.
Context `{M : Machinery} `{Sc : Scripts} `{Rg : GoRange} `{Y : Yaml}.
(** How often RetryOnConflict runs what it is given. *)
Context (retries : nat) (Hretry : forall p, RetryOnConflict p = retry_loop retries p).
Context (refs revs jobs : nat).

Let R : nat := S retries.
Let E : event -> Prop := sized refs revs jobs.

Lemma within_retry c p : within E c p anything -> within E (R * c) (RetryOnConflict p) anything.
Proof. intros Hp. rewrite Hretry. by apply within_retry_loop. Qed.

(** *** Statuses *)
Lemma within_sync_repo mr mutate :
  (forall s, within E 1 (mutate s) anything) ->
  within E (R * 3) (RepoStatus.syncStatus mr mutate) anything.
Proof. intros Hm. apply within_retry. unfold sync_attempt. repeat within_step. Qed.

Lemma within_setCondition mr c s r m : within E (R * 3) (setCondition mr c s r m) anything.
Proof.
  unfold setCondition. eapply within_bind; [|reflexivity|done]. apply within_sync_repo.
  intros st. by repeat within_step.
Qed.

Lemma within_updateRevisionStatus mr rs : within E (R * 2) (updateRevisionStatus mr rs) anything.
Proof. apply within_retry. unfold sync_attempt. repeat within_step. Qed.

Lemma within_set_conditions cs l : within E (length cs) (set_conditions l cs) anything.
Proof.
  revert l. induction cs as [|c cs IH]; intros l; cbn [set_conditions length]; [done|].
  apply within_call; [lia|]. intros now _. eapply within_mono; [apply IH|lia|done].
Qed.

Lemma within_mutate cs s : within E (length cs) (mutate_conditions cs s) anything.
Proof. eapply within_bind; [apply within_set_conditions|reflexivity|]. intros l _. exact I. Qed.
#[local] Hint Resolve within_mutate : within.

Lemma within_sync_engine le cs f :
  within E (R * (2 + length cs)) (EngineStatus.syncStatus le (fun s => mutate_conditions cs (f s))) anything.
Proof. apply within_retry. unfold engine_sync_attempt. repeat within_step. Qed.

Lemma within_setNotReady le r m : within E (R * 3) (setNotReady le r m) anything.
Proof.
  unfold setNotReady. eapply within_bind; [exact (within_sync_engine le [_] (fun s => s))|reflexivity|done].
Qed.

#[local] Hint Resolve within_setCondition within_updateRevisionStatus within_setNotReady : within.

(** *** Storage *)
Lemma within_Discover : within E 1 DiscoverStorageClasses anything.
Proof. unfold DiscoverStorageClasses. by repeat within_step. Qed.
#[local] Hint Resolve within_Discover : within.
Lemma within_Select preference : within E 1 (SelectBestStorageClass preference) anything.
Proof. unfold SelectBestStorageClass. by repeat within_step. Qed.
#[local] Hint Resolve within_Select : within.
Lemma within_CreateProvider mr : within E 1 (CreateProvider mr) anything.
Proof. unfold CreateProvider. by repeat within_step. Qed.

Lemma within_CreateStorage p mr ns : within E 2 (CreateStorage p mr ns) anything.
Proof. unfold CreateStorage. by repeat within_step. Qed.

Lemma within_Cleanup p ns : within E 3 (Cleanup p ns) anything.
Proof. unfold Cleanup, delete_repo_pvc. by repeat within_step. Qed.

Lemma within_Ensure le mr : within E 4 (EnsureLLMEngineStorage le mr) anything.
Proof. unfold EnsureLLMEngineStorage, ensure_engine_pvc. by repeat within_step. Qed.

Lemma within_cleanup_pvc ns n : within E 3 (cleanup_engine_pvc ns n) anything.
Proof. unfold cleanup_engine_pvc. by repeat within_step. Qed.
Lemma within_cleanup_pv n : within E 3 (cleanup_engine_pv n) anything.
Proof. unfold cleanup_engine_pv. by repeat within_step. Qed.
#[local] Hint Resolve within_cleanup_pvc within_cleanup_pv : within.
Lemma within_CleanupEngine le repo : within E 6 (CleanupLLMEngineStorage le repo) anything.
Proof. unfold CleanupLLMEngineStorage. by repeat within_step. Qed.

Lemma within_GetStorageStatus p mr ns : within E 2 (GetStorageStatus p mr ns) anything.
Proof. unfold GetStorageStatus. by repeat within_step. Qed.

#[local] Hint Resolve within_CreateProvider within_CreateStorage within_Cleanup within_Ensure
  within_CleanupEngine within_GetStorageStatus : within.

(** *** Components *)
Lemma within_own_and_apply ctx what subject o : within E 1 (own_and_apply ctx what subject o) anything.
Proof. unfold own_and_apply, serverSideApply. destruct o; by repeat within_step. Qed.
#[local] Hint Resolve within_own_and_apply : within.

Lemma within_reconcileDeployment w ctx : within E 1 (reconcileDeployment w ctx) anything.
Proof. unfold reconcileDeployment. by repeat within_step. Qed.
Lemma within_reconcileService w ctx : within E 1 (reconcileService w ctx) anything.
Proof. unfold reconcileService. by repeat within_step. Qed.
Lemma within_reconcile_manifest ctx n a :
  within E 1 (reconcile_manifest ctx n a) (fun r => match r with inl _ => True | inr _ => True end).
Proof. unfold reconcile_manifest. repeat within_step. Qed.
#[local] Hint Resolve within_reconcileDeployment within_reconcileService within_reconcile_manifest : within.

Lemma within_manifests w ctx :
  within E (size (w_manifestAdapters w)) (reconcileManifests w ctx) anything.
Proof.
  unfold reconcileManifests. eapply within_bind.
  - apply (within_for_each (size (w_manifestAdapters w)) 1 _ _ _ (fun _ => True)); [done| |].
    + by rewrite (Permutation_length (range_map_perm _)), length_map_to_list.
    + intros [] [n a] _. apply within_reconcile_manifest.
  - lia.
  - intros [u|e] _; exact I.
Qed.

Lemma within_component le mr ctx w :
  NewModelComponent le mr = Done w -> within E 3 (Workload.Reconcile w ctx) anything.
Proof.
  unfold NewModelComponent. destruct (ComponentName _ _) as [n|]; [|done]. intros Hw.
  assert (Hs : w_predicate w = None /\ (size (w_manifestAdapters w) <= 1)%nat).
  { cbn [mbind outcome_bind] in Hw. injection Hw as <-. case_bool_decide; cbn; (split; [done|]);
      [rewrite map_size_insert_None by apply lookup_empty|]; rewrite map_size_empty; lia. }
  destruct Hs as [Hp Hs]. unfold Workload.Reconcile, updateResources. rewrite Hp.
  eapply within_bind; [apply within_manifests|lia|]. intros e _. repeat within_step.
Qed.

(** *** The engine controller *)
Lemma within_fetch le : (length (les_ModelRefs (le_Spec le)) <= refs)%nat ->
  within E refs (fetchModelRepositories le) (on_ok (fun mrs => length mrs <= refs)%nat).
Proof.
  intros Hl. unfold fetchModelRepositories. eapply within_bind.
  - apply (within_for_each_left 1 _ [] _ (fun l mrs => length l + length mrs <= refs)%nat); [cbn; lia|].
    intros mrs ref l Hi. repeat within_step. rewrite length_app. cbn in *. lia.
  - lia.
  - intros [mrs|err] Hi; cbn in *; [lia|exact I].
Qed.

Lemma within_validateGPU le n : within E 1 (validateGPUAvailability le n) anything.
Proof. unfold validateGPUAvailability, validate_required_node, validate_cluster. by repeat within_step. Qed.

Lemma within_update_referenced n str : within E (R * 2) (RetryOnConflict (update_referenced n str)) anything.
Proof. apply within_retry. unfold update_referenced. by repeat within_step. Qed.

Lemma within_updateReferencedEngines names :
  (length names <= refs)%nat -> within E (1 + refs * (R * 2)) (updateReferencedEngines names) anything.
Proof.
  intros Hl. unfold updateReferencedEngines. within_step. within_step; [|exact I].
  eapply within_bind; [|reflexivity|intros ? _; exact I].
  replace (1 + refs * (R * 2) - 1)%nat with (refs * (R * 2))%nat by lia.
  apply within_for_each with (I := anything); [exact I|done|]. intros u n _.
  eapply within_bind; [apply within_update_referenced|reflexivity|intros ? _; exact I].
Qed.
#[local] Hint Resolve within_fetch within_validateGPU within_updateReferencedEngines within_component : within.

Lemma within_engine_deletion le :
  (length (les_ModelRefs (le_Spec le)) <= refs)%nat ->
  within E (1 + refs * (6 + R * 2) + R * 2) (EngineController.handleDeletion le) anything.
Proof.
  intros Hl. unfold EngineController.handleDeletion. cbv zeta. eapply within_bind.
  - apply (within_for_each refs 6 _ _ _ anything); [exact I|done|]. intros u ref _.
    eapply within_bind; [apply within_CleanupEngine|reflexivity|intros ? _; exact I].
  - lia.
  - intros _ _. eapply within_bind; [apply within_updateReferencedEngines; by rewrite length_map|lia|].
    intros _ _. eapply within_mono; [apply (within_retry 2)| |done].
    + unfold remove_engine_finalizer. repeat within_step.
    + lia.
Qed.

Lemma within_wait_for le mr : within E (R * 4) (wait_for le mr) anything.
Proof.
  unfold wait_for. cbv zeta.
  eapply within_bind; [exact (within_sync_engine le [_; _] (fun s => s))|reflexivity|intros ? _; exact I].
Qed.

Lemma within_ensure_storage le mrs :
  (length mrs <= refs)%nat -> within E (refs * (4 + R * 3)) (ensure_storage le mrs) anything.
Proof.
  intros Hl. unfold ensure_storage. eapply within_mono;
    [apply (within_for_each refs (4 + R * 3) _ _ _ anything); [exact I|done|]|done|done].
  intros s mr _. within_step. within_step; [exact I|]. within_step. exact I.
Qed.

Lemma within_reconcile_model le results n mr :
  within E (4 + R * 3) (reconcile_model le results n mr)
    (fun r => match r with inl _ => True | inr _ => True end).
Proof. unfold reconcile_model. cbv zeta. repeat within_step. Qed.

Lemma within_report le names n : within E (R * 4) (report_deployments le names n) anything.
Proof.
  unfold report_deployments. cbv zeta.
  eapply within_bind; [apply (within_sync_engine le [_; _])|reflexivity|intros ? _; exact I].
Qed.
#[local] Hint Resolve within_engine_deletion within_wait_for within_ensure_storage within_reconcile_model
  within_report : within.

Lemma within_deploy_models le mrs :
  (length mrs <= refs)%nat ->
  within E (1 + refs * (8 + R * 8) + R * 4) (deploy_models le mrs) anything.
Proof.
  intros Hl. unfold deploy_models.
  eapply within_bind; [by apply within_ensure_storage|lia|]. intros [res|early] _; [|exact I].
  eapply within_bind.
  - apply (within_for_each refs (4 + R * 3) _ _ _ anything); [exact I|done|]. intros n mr _.
    eapply within_mono; [apply within_reconcile_model|done|by intros [] _].
  - lia.
  - intros [n|early] _; [|exact I]. cbv zeta.
    eapply within_bind; [apply within_updateReferencedEngines; by rewrite length_map|lia|].
    intros _ _. eapply within_mono; [apply within_report|lia|done].
Qed.

Lemma within_reconcile_engine le :
  (length (les_ModelRefs (le_Spec le)) <= refs)%nat ->
  within E (2 + R * 4 + refs * (9 + R * 8)) (reconcile_engine le) anything.
Proof.
  intros Hl. unfold reconcile_engine.
  eapply within_bind; [by apply within_fetch|lia|]. intros [mrs|e] Hm; [|repeat within_step].
  pose proof (within_deploy_models le mrs Hm) as Hd. cbn in Hm.
  within_step; [repeat within_step|]. within_step; [eapply within_mono; [apply within_wait_for|lia|done]|].
  within_step; [|eapply within_mono; [exact Hd|lia|done]].
  eapply within_bind; [apply within_validateGPU|lia|]. intros [err|] _; [repeat within_step|].
  eapply within_mono; [exact Hd|lia|done].
Qed.

Definition engine_bound : nat := 4 + R * 4 + refs * (9 + R * 8).

Lemma within_engine_pass ns name : within E engine_bound (EngineController.Reconcile ns name) anything.
Proof.
  unfold EngineController.Reconcile, engine_bound. within_step. destruct a as [le|e]; [|exact I].
  cbn in H. within_step.
  - eapply within_bind; [by apply within_engine_deletion|lia|intros ? _; exact I].
  - within_step.
    + within_step. within_step; [|exact I]. eapply within_mono; [by apply within_reconcile_engine|lia|done].
    + eapply within_mono; [by apply within_reconcile_engine|lia|done].
Qed.

(** *** The repository controller *)
Context (OperatorNamespace : string).

Lemma within_stale_cleanup mr rev : within E 2 (deleteStaleCleanupJob OperatorNamespace mr rev) anything.
Proof. unfold deleteStaleCleanupJob. repeat within_step. Qed.

Lemma within_launch mr p rev st :
  within E (1 + R * 2) (launch_download_job OperatorNamespace mr p rev st) anything.
Proof.
  unfold launch_download_job. cbv zeta. destruct (assign_status mr st _) as [mr1 st1].
  destruct (assign_status mr st _) as [mr2 st2]. repeat within_step.
Qed.
#[local] Hint Resolve within_stale_cleanup within_launch : within.

Lemma within_createDownloadJob mr p rev st :
  within E (3 + R * 4) (createDownloadJob OperatorNamespace mr p rev st) anything.
Proof. unfold createDownloadJob. cbv zeta. repeat within_step. Qed.

Lemma within_handleJobStatus mr rev st job :
  within E (R * 5) (handleJobStatus mr rev st job) anything.
Proof.
  unfold handleJobStatus. cbv zeta. do 2 (destruct (assign_status mr _ _) as [? ?]).
  destruct (assign_status mr _ _) as [? ?]. repeat within_step.
Qed.
#[local] Hint Resolve within_createDownloadJob within_handleJobStatus : within.

Lemma within_reconcileRevision mr p rev :
  within E (4 + R * 5) (reconcileRevision OperatorNamespace mr p rev) anything.
Proof. unfold reconcileRevision. cbv zeta. repeat within_step. Qed.
#[local] Hint Resolve within_reconcileRevision : within.

Lemma within_reconcile_next p s rev :
  within E (4 + R * 5) (reconcile_next OperatorNamespace p s rev)
    (fun r => match r with inl _ => True | inr _ => True end).
Proof.
  destruct s as [mr running]. unfold reconcile_next. within_step.
  destruct a as [mr' [[b [res|]] [err|]]]; exact I.
Qed.

Lemma within_reconcileRevisions mr p :
  (length (getDesiredRevisions mr) <= revs)%nat ->
  within E (revs * (4 + R * 5) + R * 3) (reconcileRevisions OperatorNamespace mr p) anything.
Proof.
  intros Hl. unfold reconcileRevisions. cbv zeta. within_step; [exact I|]. eapply within_bind.
  - apply (within_for_each revs (4 + R * 5) _ _ _ anything); [exact I|done|]. intros s rev _.
    eapply within_mono; [apply within_reconcile_next|done|by intros [] _].
  - lia.
  - intros [[mr' running]|early] _; [|exact I]. unfold updateOverallPhase. repeat within_step.
Qed.

Lemma within_delete_jobs mr : within E (1 + jobs) (delete_jobs OperatorNamespace mr) anything.
Proof.
  unfold delete_jobs. within_step. destruct a as [js|e]; [|exact I]. cbn in H.
  eapply within_bind; [|reflexivity|intros ? _; exact I].
  replace (1 + jobs - 1)%nat with (jobs * 1)%nat by lia.
  apply within_for_each with (I := anything); [exact I|done|]. intros u j _. repeat within_step.
Qed.
#[local] Hint Resolve within_delete_jobs : within.

Lemma within_repo_deletion mr p :
  within E (5 + jobs + R * 3) (RepoController.handleDeletion OperatorNamespace mr p) anything.
Proof.
  unfold RepoController.handleDeletion. within_step. within_step; [|exact I]. cbv zeta.
  within_step; [repeat within_step|]. within_step.
  eapply within_bind with (c := 3) (P := anything); [destruct p; [apply within_Cleanup|exact I]|lia|].
  intros _ _. eapply within_mono; [apply (within_retry 2)|lia|done].
  unfold remove_finalizer. repeat within_step.
Qed.

Lemma within_updateStorageStatus mr p :
  within E (2 + R * 3) (updateStorageStatus OperatorNamespace mr p) anything.
Proof.
  unfold updateStorageStatus. within_step. within_step; [|exact I].
  eapply within_mono; [apply within_sync_repo|lia|done]. intros st. repeat within_step.
Qed.
#[local] Hint Resolve within_updateStorageStatus : within.

Lemma within_reconcileStorage mr p :
  (length (getDesiredRevisions mr) <= revs)%nat ->
  within E (6 + R * 3) (reconcileStorage OperatorNamespace mr p)
    (fun r => length (getDesiredRevisions r.1) <= revs)%nat.
Proof. intros Hl. unfold reconcileStorage. repeat within_step. Qed.

Definition repo_bound : nat := 9 + jobs + R * 6 + revs * (4 + R * 5).

Lemma within_reconcile_steps mr p :
  (length (getDesiredRevisions mr) <= revs)%nat ->
  within E (6 + R * 6 + revs * (4 + R * 5)) (reconcile_steps OperatorNamespace mr p) anything.
Proof.
  intros Hl. unfold reconcile_steps. eapply within_bind; [by apply within_reconcileStorage|lia|].
  intros [mr' [[[p'|] [res|]] [err|]]] Hr; try exact I. cbn in Hr. within_step; [exact I|].
  eapply within_mono; [by apply within_reconcileRevisions|lia|done].
Qed.

Lemma within_repo_pass name : within E repo_bound (RepoController.Reconcile OperatorNamespace name) anything.
Proof.
  unfold RepoController.Reconcile, repo_bound. within_step. destruct a as [mr|e]; [|exact I]. cbn in H.
  cbv zeta. within_step; [repeat within_step|]. within_step. within_step; within_step.
  - eapply within_bind; [apply within_repo_deletion|lia|intros ? _; exact I].
  - within_step.
    + within_step. within_step; [|exact I]. eapply within_mono; [by apply within_reconcile_steps|lia|done].
    + eapply within_mono; [by apply within_reconcile_steps|lia|done].
  - eapply within_bind; [apply within_repo_deletion|lia|intros ? _; exact I].
  - repeat within_step.
Qed.

End Bounds.

(** ** In the logic of histories *)
Section Logic.
Context {E : event -> Prop} `{!forall ev, Decision (E ev)}.

(** While the answers are good, a request is only made before the bound. *)
Definition before (N : nat) (h : trace) (_ : req) : Prop := Forall E h -> (length h < N)%nat.
Definition by_then {A} (N : nat) (h : trace) (_ : outcome A) : Prop := Forall E h -> (length h <= N)%nat.

Lemma bad_history {A} N (p : prog A) h : ~ Forall E h -> wp (before N) p h (by_then N).
Proof.
  revert h. induction p as [a|m|r k IH]; intros h Hh; cbn; [by intros ?..|].
  split; [by intros ?|]. intros a. apply IH. by intros [? _]%Forall_app.
Qed.

Lemma within_wp {A} N n (p : prog A) P h :
  within E n p P -> (length h + n <= N)%nat -> wp (before N) p h (by_then N).
Proof.
  revert n h. induction p as [a|m|r k IH]; intros n h; cbn; [intros _ Hn _; lia..|].
  destruct n as [|n]; [done|]. intros Hk Hn. split; [intros _; lia|]. intros a.
  destruct (decide (E (Ev r a))) as [Ha|Ha].
  - apply (IH a n); [by apply Hk|]. rewrite length_app. cbn. lia.
  - apply bad_history. rewrite Forall_app, Forall_singleton. tauto.
Qed.
End Logic.

#[export] Instance on_ok_dec {A} (P : A -> Prop) `{!forall a, Decision (P a)} r : Decision (on_ok P r).
Proof. destruct r; cbn; apply _. Defined.
#[export] Instance sized_dec refs revs jobs ev : Decision (sized refs revs jobs ev).
Proof. destruct ev as [r a]; destruct r; cbn; apply _. Defined.

Definition pass_bound (retries refs revs jobs : nat) (hd : handler) : nat :=
  match hd with
  | RepositoryPass _ => repo_bound retries revs jobs
  | EnginePass _ _ => engine_bound retries refs
  end.

Section Properties.
Context `{M : Machinery} `{Sc : Scripts} `{Rg : GoRange} `{Y : Yaml}.
Context (OperatorNamespace : string) {W : Type} (srv : server W) (world : W -> W -> Prop).

Lemma body_bounded retries refs revs jobs hd :
  (forall p, RetryOnConflict p = retry_loop retries p) ->
  within (sized refs revs jobs) (pass_bound retries refs revs jobs hd) (body OperatorNamespace hd) anything.
Proof. intros Hr. destruct hd; [by apply within_repo_pass|by apply within_engine_pass]. Qed.

(** Property C15: every pass ends.  Retries bounded by the library included, a pass
    of either controller makes at most a number of requests that is linear in what
    it is given (the references of the engine; the revisions and the jobs of the
    repository), on every API server, in every interleaving with other passes, with
    the rest of the cluster and with restarts: it never makes more, and one that is
    not finished has made fewer. *)
Theorem passes_terminate retries refs revs jobs w s :
  (forall p, RetryOnConflict p = retry_loop retries p) ->
  rtc (step OperatorNamespace srv world) (mkSystem w []) s ->
  Forall (fun p => Forall (sized refs revs jobs) (pass_past p) ->
    let bound := pass_bound retries refs revs jobs (pass_handler p) in
    (length (pass_past p) <= bound)%nat /\
    forall r k, pass_rest p = Call r k -> (length (pass_past p) < bound)%nat) (sys_passes s).
Proof.
  intros Hretry Hs.
  pose proof (reachable_ok OperatorNamespace srv (fun _ => True) (fun _ => True) (fun _ => True)
    (fun hd => before (E := sized refs revs jobs) (pass_bound retries refs revs jobs hd))
    (fun hd => by_then (E := sized refs revs jobs) (pass_bound retries refs revs jobs hd)) world) as Hok.
  specialize (Hok (fun hd => within_wp _ _ _ anything [] (body_bounded _ _ _ _ hd Hretry) (le_n _))
    (fun _ _ _ _ _ => I) (fun _ _ _ _ => I) _ _ Hs I) as [_ Hp].
  eapply Forall_impl; [exact Hp|]. intros [hd h p] (_ & Hg & Hr) Hh. cbn in *.
  destruct p as [a|m|r k]; cbn in Hr; [split; [by apply Hr|done]..|].
  destruct Hr as [Hr _]. specialize (Hr Hh). split; [lia|]. by intros.
Qed.

End Properties.

(** The pass of an engine that starts, four conflicts allowed: the bound for one
    reference and what it took. *)
Lemma passes_terminate_witness :
  (engine_bound 4 1 = 73 /\ repo_bound 4 1 0 = 68 /\
   map (fun p => length (pass_past p)) (sys_passes (play kept_cluster [engine_pass; DoAdvance 0 99])) = [10])%nat /\
  Forall (fun p => Forall (sized 1 1 0) (pass_past p) ->
    let bound := pass_bound 4 1 1 0 (pass_handler p) in
    (length (pass_past p) <= bound)%nat /\
    forall r k, pass_rest p = Call r k -> (length (pass_past p) < bound)%nat) (sys_passes (play kept_cluster busy)).
Proof.
  split; [split_and!; vm_compute; reflexivity|].
  apply (passes_terminate (M := Reference.machinery) (Sc := witness_scripts) (Rg := witness_range) (Y := witness_yaml)
    "aitrigram-system" mem outside 4 1 1 0 kept_cluster); [done|].
  apply busy_steps.
Defined.
